(** * Autofolio server: the resilient generation pipeline

    A shallow embedding of [Final/app/server/server.js]: key rotation and the
    provider adapters, the manifest extractor, the manifest validator, the
    asset phase and token substitution, with the properties the design
    document states about them.

    Conventions.  A JavaScript string is a Rocq [string] whose characters are
    its UTF-16 code units; the development covers code units below 256.
    A thrown exception is the [Thrown] case of [outcome].  [console.log] and
    [console.warn] have no effect on any result and are left out. *)

From Stdlib Require Import Decimal DecimalFacts DecimalNat DecimalString.
From Stdlib Require Import String Ascii List ZArith Lia Bool Arith.
Import ListNotations.
Set Warnings "-register-all".
Local Open Scope list_scope.
Local Open Scope string_scope.

(* ------------------------------------------------------------------ *)
(** * JavaScript strings *)

Module JS.

Definition dq : string := String (ascii_of_nat 34) "".
Definition nl : string := String (ascii_of_nat 10) "".
Definition backslash : string := String (ascii_of_nat 92) "".

(** [s.slice(n)] *)
Fixpoint drop (n : nat) (s : string) : string :=
  match n, s with
  | S k, String _ t => drop k t
  | _, _ => s
  end.

(** [s.slice(0, n)] *)
Fixpoint take (n : nat) (s : string) : string :=
  match n, s with
  | S k, String c t => String c (take k t)
  | _, _ => ""
  end.

(** [s.slice(a, b)] for [0 <= a], [0 <= b] *)
Definition slice (a b : nat) (s : string) : string := take (b - a) (drop a s).

Definition startsWith (s p : string) : bool := String.prefix p s.

(** [s.includes(sub)] *)
Fixpoint includes (s sub : string) : bool :=
  String.prefix sub s
  || match s with
     | "" => false
     | String _ t => includes t sub
     end.

Fixpoint indexOf_from (off : nat) (s sub : string) : option nat :=
  if String.prefix sub s then Some off
  else match s with
       | "" => None
       | String _ t => indexOf_from (S off) t sub
       end.

(** [s.indexOf(sub)], [None] for [-1] *)
Definition indexOf (s sub : string) : option nat := indexOf_from 0 s sub.

Fixpoint lastIndexOf_from (off : nat) (s sub : string) : option nat :=
  match s with
  | "" => if String.prefix sub "" then Some off else None
  | String _ t =>
      match lastIndexOf_from (S off) t sub with
      | Some i => Some i
      | None => if String.prefix sub s then Some off else None
      end
  end.

(** [s.lastIndexOf(sub)], [None] for [-1] *)
Definition lastIndexOf (s sub : string) : option nat := lastIndexOf_from 0 s sub.

(** White space and line terminators: what [\s] matches and [trim] strips. *)
Definition is_space (c : ascii) : bool :=
  let n := nat_of_ascii c in
  ((9 <=? n)%nat && (n <=? 13)%nat) || (n =? 32)%nat || (n =? 160)%nat.

Fixpoint trimStart (s : string) : string :=
  match s with
  | "" => ""
  | String c t => if is_space c then trimStart t else s
  end.

Fixpoint trimEnd (s : string) : string :=
  match s with
  | "" => ""
  | String c t =>
      match trimEnd t with
      | "" => if is_space c then "" else String c ""
      | t' => String c t'
      end
  end.

Definition trim (s : string) : string := trimEnd (trimStart s).

(** [s.split(sep)] for a one-character separator *)
Fixpoint split (sep : ascii) (s : string) : list string :=
  match s with
  | "" => [""]
  | String c t =>
      if Ascii.eqb c sep then "" :: split sep t
      else match split sep t with
           | h :: r => String c h :: r
           | [] => [String c ""]
           end
  end.

(** [l.join(sep)] *)
Definition join (sep : string) (l : list string) : string := String.concat sep l.

Definition lower_char (c : ascii) : ascii :=
  let n := nat_of_ascii c in
  if ((65 <=? n)%nat && (n <=? 90)%nat)
     || ((192 <=? n)%nat && (n <=? 222)%nat && negb (n =? 215)%nat)
  then ascii_of_nat (n + 32) else c.

Fixpoint toLowerCase (s : string) : string :=
  match s with
  | "" => ""
  | String c t => String (lower_char c) (toLowerCase t)
  end.

(** [String(n)] for a non-negative integer *)
Definition of_nat (n : nat) : string := NilEmpty.string_of_uint (Nat.to_uint n).

Definition is_digit (c : ascii) : bool :=
  let n := nat_of_ascii c in (48 <=? n)%nat && (n <=? 57)%nat.

(** ** Replacement patterns

    [GetSubstitution] of ECMA-262 for a pattern without capture groups: in
    the replacement text [$$] is a dollar sign, [$&] the matched text,
    [$`] the text before the match and [$'] the text after it; every other
    dollar sign stands for itself. *)
Fixpoint getSubstitution (matched before after repl : string) : string :=
  match repl with
  | "" => ""
  | String c r' =>
      if Ascii.eqb c "$" then
        match r' with
        | String d t =>
            if Ascii.eqb d "$" then "$" ++ getSubstitution matched before after t
            else if Ascii.eqb d "&" then matched ++ getSubstitution matched before after t
            else if Ascii.eqb d "`" then before ++ getSubstitution matched before after t
            else if Ascii.eqb d "'" then after ++ getSubstitution matched before after t
            else String c (getSubstitution matched before after r')
        | "" => String c ""
        end
      else String c (getSubstitution matched before after r')
  end.

(** ** Regular expressions

    A pattern of the program is embedded as a matcher: a function that, given
    the text that starts at the current position, returns the length of the
    match that starts there.  None of the program's patterns looks behind the
    current position. *)
Definition matcher := string -> option nat.

Section Replace.
Variable m : matcher.
(** the replacement for a match, from the text before it, the matched text
    and the text after it *)
Variable r : string -> string -> string -> string.
Variable whole : string.

Fixpoint replace_go (skip off : nat) (s : string) : string :=
  match s with
  | "" =>
      match skip, m "" with
      | 0, Some _ => r whole "" ""
      | _, _ => ""
      end
  | String c t =>
      match skip with
      | S k => replace_go k (S off) t
      | 0 =>
          match m s with
          | Some 0 => r (take off whole) "" s ++ String c (replace_go 0 (S off) t)
          | Some (S n) =>
              r (take off whole) (take (S n) s) (drop (S n) s) ++ replace_go n (S off) t
          | None => String c (replace_go 0 (S off) t)
          end
      end
  end.
End Replace.

(** [s.replace(re, fn)] for a global pattern and a callback, which receives
    the matched text and the text before the match
    ([s.substring(0, offset)]). *)
Definition replace_all_fn (m : matcher) (fn : string -> string -> string)
    (s : string) : string :=
  replace_go m (fun before matched _ => fn matched before) s 0 0 s.

(** [s.replace(re, repl)] for a global pattern and a replacement string *)
Definition replace_all (m : matcher) (repl : string) (s : string) : string :=
  replace_go m (fun before matched after => getSubstitution matched before after repl)
    s 0 0 s.

Fixpoint search_from (m : matcher) (off : nat) (s : string) : option (nat * nat) :=
  match m s with
  | Some n => Some (off, n)
  | None =>
      match s with
      | "" => None
      | String _ t => search_from m (S off) t
      end
  end.

(** [s.match(re)] for a pattern without the global flag: offset and length of
    the leftmost match *)
Definition search (m : matcher) (s : string) : option (nat * nat) := search_from m 0 s.

(** [s.replace(re, repl)] for a pattern without the global flag *)
Definition replace_first (m : matcher) (repl : string) (s : string) : string :=
  match search m s with
  | None => s
  | Some (off, n) =>
      let before := take off s in
      let matched := take n (drop off s) in
      let after := drop (off + n) s in
      before ++ getSubstitution matched before after repl ++ after
  end.

(** the pattern that matches the text [p] literally *)
Definition lit (p : string) : matcher :=
  fun s => if String.prefix p s then Some (String.length p) else None.

(** [s.replace(p, repl)] for a string pattern [p]: the first occurrence *)
Definition replace_str (p repl s : string) : string := replace_first (lit p) repl s.

(** [s.match(/p/g)?.length] for a literal [p]: the number of matches, [None]
    when there is none *)
Fixpoint count_go (m : matcher) (skip : nat) (s : string) : nat :=
  match s with
  | "" => 0
  | String _ t =>
      match skip with
      | S k => count_go m k t
      | 0 =>
          match m s with
          | Some (S n) => S (count_go m n t)
          | _ => count_go m 0 t
          end
      end
  end.

Definition match_count (m : matcher) (s : string) : option nat :=
  match count_go m 0 s with
  | 0 => None
  | n => Some n
  end.

Fixpoint span (p : ascii -> bool) (s : string) : nat :=
  match s with
  | String c t => if p c then S (span p t) else 0
  | "" => 0
  end.

(** the leftmost value a partial function yields along the text:
    [s.match(re)] when only the captures are used *)
Fixpoint search_first {A : Type} (f : string -> option A) (s : string) : option A :=
  match f s with
  | Some a => Some a
  | None =>
      match s with
      | "" => None
      | String _ t => search_first f t
      end
  end.

End JS.

Import JS.

(* ------------------------------------------------------------------ *)
(** * JavaScript values and exceptions *)

Inductive jsval : Type :=
| VUndef
| VNull
| VBool (b : bool)
| VNum (z : Z)
| VStr (s : string)
| VArr (items : list jsval)
| VObj (fields : list (string * jsval)).

Definition truthy (v : jsval) : bool :=
  match v with
  | VUndef | VNull => false
  | VBool b => b
  | VNum z => negb (z =? 0)%Z
  | VStr s => negb (s =? "")
  | VArr _ | VObj _ => true
  end.

(** [a || b] *)
Definition js_or (a b : jsval) : jsval := if truthy a then a else b.

(** [a || b] where [a] is an optional string and [b] a string *)
Definition str_or (a : option string) (b : string) : string :=
  match a with
  | Some s => if s =? "" then b else s
  | None => b
  end.

(** An error object: its name and message and the four places where
    [getErrorStatus] looks for a status. *)
Record js_error : Type := mkError {
  e_name : string;
  e_message : string;
  e_status : jsval;            (* err.status *)
  e_code : jsval;              (* err.code *)
  e_response_status : jsval;   (* err.response.status *)
  e_cause_status : jsval       (* err.cause.status *)
}.

(** [new Error(msg)] *)
Definition new_Error (msg : string) : js_error :=
  mkError "Error" msg VUndef VUndef VUndef VUndef.

(** [Error.prototype.toString] *)
Definition error_toString (e : js_error) : string :=
  if e_name e =? "" then e_message e
  else if e_message e =? "" then e_name e
  else e_name e ++ ": " ++ e_message e.

Inductive outcome (A : Type) : Type :=
| Returned (a : A)
| Thrown (e : js_error).
Arguments Returned {A} a.
Arguments Thrown {A} e.

(* ------------------------------------------------------------------ *)
(** * Key rotation and the provider adapters *)

Definition getErrorStatus (err : js_error) : jsval :=
  js_or (js_or (js_or (e_status err) (e_code err)) (e_response_status err))
        (e_cause_status err).

Definition is_num (n : Z) (v : jsval) : bool :=
  match v with
  | VNum z => (z =? n)%Z
  | _ => false
  end.

Definition isRetryableError (err : js_error) : bool :=
  let status := getErrorStatus err in
  let message := toLowerCase (e_message err) in
  is_num 429 status || is_num 503 status
  || includes message "quota" || includes message "overloaded"
  || includes message "rate limit".

(** [err?.message || err?.toString() || "Unknown error"] *)
Definition error_msg (err : js_error) : string :=
  if negb (e_message err =? "") then e_message err
  else if negb (error_toString err =? "") then error_toString err
  else "Unknown error".

(** The [filter] that builds [GEMINI_KEYS] from the three environment
    variables. *)
Definition GEMINI_KEYS (env_keys : list (option string)) : list string :=
  flat_map (fun k =>
    match k with
    | Some key => if (key =? "") || (key =? "your_api_key_here") then [] else [key]
    | None => []
    end) env_keys.

Definition IMAGE_MODEL_CANDIDATES (env_IMAGE_MODEL : option string) : list string :=
  filter (fun s => negb (s =? ""))
    [str_or env_IMAGE_MODEL "gemini-2.5-flash-image";
     "gemini-2.5-flash-image";
     "gemini-2.0-flash-exp-image-generation"].

Definition legacyModels : list string :=
  ["gemini-2.5-flash-image"; "gemini-2.0-flash-exp-image-generation"].

(** What a text call of the [@google/genai] client resolves to:
    [response.text] and the [text] fields of
    [response.candidates[0].content.parts]. *)
Record genai_response : Type := {
  r_text : option string;
  r_parts : option (list (option string))
}.

(** [result.response.text] of the legacy client is a method (which may
    throw), a string, or absent. *)
Inductive legacy_text : Type :=
| TextFn (result : outcome string)
| TextStr (s : string)
| TextAbsent.

Record legacy_response : Type := {
  l_text : legacy_text;
  l_parts : option (list (option string))
}.

(** The provider and the placeholder service, as the responses they give.
    A call is identified by its place in the run: the position of the key in
    the key list, and for images the output file and the position of the
    model in its list. *)
Record world : Type := {
  genai_text : string -> nat -> string -> outcome genai_response;
      (* prompt, key position, key *)
  legacy_textgen : string -> nat -> string -> outcome legacy_response;
  genai_image : string -> string -> nat -> string -> nat -> string
                -> outcome (option string);
      (* output file, prompt, key position, key, model position, model;
         the result is [inlineData.data] of the first part that has it *)
  legacy_image : string -> string -> nat -> string -> nat -> string
                 -> outcome (option string);
  axios_get : string -> string -> outcome string
      (* output file, url; the result is [response.data] *)
}.

(** [parts?.filter(part => part.text)?.map(part => part.text)?.join("")] *)
Definition parts_text (parts : option (list (option string))) : option string :=
  match parts with
  | None => None
  | Some ps => Some (join "" (flat_map (fun p =>
                 match p with
                 | Some t => if t =? "" then [] else [t]
                 | None => []
                 end) ps))
  end.

Definition legacy_branch (legacy : outcome legacy_response) : outcome string :=
  match legacy with
  | Thrown err => Thrown err
  | Returned result =>
      let rest :=
        if negb (str_or (parts_text (l_parts result)) "" =? "")
        then Returned (str_or (parts_text (l_parts result)) "")
        else Thrown (new_Error "Empty response from Gemini") in
      match l_text result with
      | TextFn (Thrown err) => Thrown err
      | TextFn (Returned text) => if negb (text =? "") then Returned text else rest
      | TextStr text => Returned text
      | TextAbsent => rest
      end
  end.

Definition generateTextWithKey (w : world) (prompt : string) (i : nat)
    (apiKey : string) : outcome string :=
  match genai_text w prompt i apiKey with
  | Returned response =>
      if negb (str_or (r_text response) "" =? "")
      then Returned (str_or (r_text response) "")
      else if negb (str_or (parts_text (r_parts response)) "" =? "")
      then Returned (str_or (parts_text (r_parts response)) "")
      else legacy_branch (legacy_textgen w prompt i apiKey)
  | Thrown err =>
      if negb (isRetryableError err) then Thrown err
      else legacy_branch (legacy_textgen w prompt i apiKey)
  end.

(** One entry per key tried, in order: the position of the key and the error
    its attempt ended with ([None] for success).  The program reports the
    same through [console.warn] and [console.log]. *)
Definition attempts : Type := list (nat * option js_error).

(** The [for] loop of [generateText], from key number [i] on. *)
Fixpoint generateText_loop (w : world) (prompt : string) (lastError : option js_error)
    (i : nat) (keys : list string) : attempts * outcome string :=
  match keys with
  | [] =>
      ([], Thrown (match lastError with
                   | Some e => e
                   | None => new_Error "Text generation failed"
                   end))
  | apiKey :: rest =>
      match generateTextWithKey w prompt i apiKey with
      | Returned text => ([(i, None)], Returned text)
      | Thrown err =>
          let retryable := isRetryableError err in
          let msg := error_msg err in
          if retryable && negb (Nat.eqb (List.length rest) 0) then
            let (tr, res) := generateText_loop w prompt (Some err) (S i) rest in
            ((i, Some err) :: tr, res)
          else ([(i, Some err)], Thrown (new_Error ("Text generation failed: " ++ msg)))
      end
  end.

Definition generateText (w : world) (keys : list string) (prompt : string)
    : attempts * outcome string :=
  if Nat.eqb (List.length keys) 0 then
    ([], Thrown (new_Error
       "No Gemini API keys configured. Please set them in app/server/.env file"))
  else generateText_loop w prompt None 0 keys.

(** ** Images and the file system *)

Inductive file_data : Type :=
| Base64 (data : string)       (* [Buffer.from(data, "base64")] *)
| Body (data : string)         (* [Buffer.from(response.data)] *)
| Utf8 (text : string).        (* a text written as it is *)

(** The files written so far, the latest first. *)
Definition filesystem : Type := list (string * file_data).

Definition writeFileSync (fs : filesystem) (file : string) (data : file_data)
    : filesystem := (file, data) :: fs.

Fixpoint readFile (fs : filesystem) (file : string) : option file_data :=
  match fs with
  | [] => None
  | (f, d) :: rest => if f =? file then Some d else readFile rest file
  end.

Inductive model_loop : Type :=
| Found (data : string)
| Fatal (err : js_error)
| Exhausted.

(** One of the two [for] loops over model names of [generateImageWithKey]. *)
Fixpoint try_models (call : nat -> string -> outcome (option string)) (j : nat)
    (models : list string) : model_loop :=
  match models with
  | [] => Exhausted
  | modelName :: rest =>
      match call j modelName with
      | Returned (Some data) => Found data
      | Returned None => try_models call (S j) rest
      | Thrown err =>
          if negb (isRetryableError err) then Fatal err
          else try_models call (S j) rest
      end
  end.

Definition generateImageWithKey (w : world) (env_IMAGE_MODEL : option string)
    (fs : filesystem) (i : nat) (apiKey prompt outFile : string)
    : filesystem * outcome string :=
  match try_models (fun j modelName => genai_image w outFile prompt i apiKey j modelName)
          0 (IMAGE_MODEL_CANDIDATES env_IMAGE_MODEL) with
  | Found data => (writeFileSync fs outFile (Base64 data), Returned outFile)
  | Fatal err => (fs, Thrown err)
  | Exhausted =>
      match try_models (fun j modelName => legacy_image w outFile prompt i apiKey j modelName)
              0 legacyModels with
      | Found data => (writeFileSync fs outFile (Base64 data), Returned outFile)
      | Fatal err => (fs, Thrown err)
      | Exhausted => (fs, Thrown (new_Error "No image data returned from Gemini"))
      end
  end.

(** The [for] loop of [generateImageToFile], from key number [i] on. *)
Fixpoint generateImageToFile_loop (w : world) (env_IMAGE_MODEL : option string)
    (prompt outFile : string) (lastError : option js_error) (fs : filesystem)
    (i : nat) (keys : list string) : attempts * (filesystem * outcome string) :=
  match keys with
  | [] =>
      ([], (fs, Thrown (match lastError with
                        | Some e => e
                        | None => new_Error "Image generation failed"
                        end)))
  | apiKey :: rest =>
      match generateImageWithKey w env_IMAGE_MODEL fs i apiKey prompt outFile with
      | (fs', Returned _) => ([(i, None)], (fs', Returned outFile))
      | (fs', Thrown err) =>
          let retryable := isRetryableError err in
          let msg := error_msg err in
          if retryable && negb (Nat.eqb (List.length rest) 0) then
            let (tr, res) :=
              generateImageToFile_loop w env_IMAGE_MODEL prompt outFile (Some err) fs'
                (S i) rest in
            ((i, Some err) :: tr, res)
          else ([(i, Some err)],
                (fs', Thrown (new_Error ("Image generation failed: " ++ msg))))
      end
  end.

Definition generateImageToFile (w : world) (keys : list string)
    (env_IMAGE_MODEL : option string) (fs : filesystem) (prompt outFile : string)
    : attempts * (filesystem * outcome string) :=
  if Nat.eqb (List.length keys) 0 then
    ([], (fs, Thrown (new_Error
       "No Gemini API keys configured. Please set them in app/server/.env file")))
  else generateImageToFile_loop w env_IMAGE_MODEL prompt outFile None fs 0 keys.

(** A 1x1 transparent PNG, base64 encoded. *)
Definition minimalPng : file_data :=
  Base64 "iVBORw0KGgoAAAANSUhEUgAAAAEAAAABCAYAAAAfFcSJAAAADUlEQVR42mNk+M9QDwADhgGAWjR9awAAAABJRU5ErkJggg==".

Definition generatePlaceholderImage (w : world) (outFile : string) (width height : nat)
    : file_data :=
  let url := "https://via.placeholder.com/" ++ of_nat width ++ "x" ++ of_nat height
             ++ ".png" in
  match axios_get w outFile url with
  | Returned data => Body data
  | Thrown _ => minimalPng
  end.

(* ------------------------------------------------------------------ *)
(** * JSON

    [JSON.stringify] and [JSON.parse] for values whose numbers are integers.
    Objects are property lists in insertion order.  Numbers with a fraction
    or an exponent, and escapes of code units above 255, are outside this
    model: the parser gives no value for them. *)

Fixpoint lookup (k : string) (fields : list (string * jsval)) : jsval :=
  match fields with
  | [] => VUndef
  | (k', v) :: rest => if k' =? k then v else lookup k rest
  end.

(** [obj[k] = v]: an existing property keeps its place *)
Fixpoint set_prop (k : string) (v : jsval) (fields : list (string * jsval))
    : list (string * jsval) :=
  match fields with
  | [] => [(k, v)]
  | (k', v') :: rest =>
      if k' =? k then (k, v) :: rest else (k', v') :: set_prop k v rest
  end.

(** [v?.k] for a property name other than [length] *)
Definition get (v : jsval) (k : string) : jsval :=
  match v with
  | VObj fields => lookup k fields
  | _ => VUndef
  end.

Definition hex_digit (n : nat) : ascii :=
  if (n <? 10)%nat then ascii_of_nat (48 + n) else ascii_of_nat (87 + n).

Definition escape_char (c : ascii) : string :=
  let n := nat_of_ascii c in
  if (n =? 34)%nat then backslash ++ dq
  else if (n =? 92)%nat then backslash ++ backslash
  else if (n =? 8)%nat then backslash ++ "b"
  else if (n =? 12)%nat then backslash ++ "f"
  else if (n =? 10)%nat then backslash ++ "n"
  else if (n =? 13)%nat then backslash ++ "r"
  else if (n =? 9)%nat then backslash ++ "t"
  else if (n <? 32)%nat then
    backslash ++ "u00" ++ String (hex_digit (n / 16)) (String (hex_digit (n mod 16)) "")
  else String c "".

Fixpoint escape (s : string) : string :=
  match s with
  | "" => ""
  | String c t => escape_char c ++ escape t
  end.

Definition quote (s : string) : string := dq ++ escape s ++ dq.

Definition string_of_Z (z : Z) : string :=
  match z with
  | Z0 => "0"
  | Zpos p => of_nat (Pos.to_nat p)
  | Zneg p => "-" ++ of_nat (Pos.to_nat p)
  end.

(** [JSON.stringify(v)]; [None] is [undefined]. *)
Fixpoint JSON_stringify (v : jsval) : option string :=
  match v with
  | VUndef => None
  | VNull => Some "null"
  | VBool b => Some (if b then "true" else "false")
  | VNum z => Some (string_of_Z z)
  | VStr s => Some (quote s)
  | VArr items =>
      Some ("[" ++ join ","
              (map (fun x => match JSON_stringify x with
                             | Some t => t
                             | None => "null"
                             end) items) ++ "]")
  | VObj fields =>
      Some ("{" ++ join ","
              (flat_map (fun kx => match JSON_stringify (snd kx) with
                                   | Some t => [quote (fst kx) ++ ":" ++ t]
                                   | None => []
                                   end) fields) ++ "}")
  end.

Definition is_json_ws (c : ascii) : bool :=
  let n := nat_of_ascii c in
  (n =? 32)%nat || (n =? 9)%nat || (n =? 10)%nat || (n =? 13)%nat.

Fixpoint skip_ws (s : string) : string :=
  match s with
  | "" => ""
  | String c t => if is_json_ws c then skip_ws t else s
  end.

Definition hex_value (c : ascii) : option nat :=
  let n := nat_of_ascii c in
  if (48 <=? n)%nat && (n <=? 57)%nat then Some (n - 48)
  else if (97 <=? n)%nat && (n <=? 102)%nat then Some (n - 87)
  else if (65 <=? n)%nat && (n <=? 70)%nat then Some (n - 55)
  else None.

Definition unescape_simple (c : ascii) : option ascii :=
  let n := nat_of_ascii c in
  if (n =? 34)%nat || (n =? 92)%nat || (n =? 47)%nat then Some c
  else if Ascii.eqb c "b" then Some (ascii_of_nat 8)
  else if Ascii.eqb c "f" then Some (ascii_of_nat 12)
  else if Ascii.eqb c "n" then Some (ascii_of_nat 10)
  else if Ascii.eqb c "r" then Some (ascii_of_nat 13)
  else if Ascii.eqb c "t" then Some (ascii_of_nat 9)
  else None.

(** The characters of a string literal after its opening quote: the string
    and the text after the closing quote. *)
Fixpoint parse_chars (s : string) : option (string * string) :=
  match s with
  | "" => None
  | String c t =>
      if (nat_of_ascii c =? 34)%nat then Some ("", t)
      else if (nat_of_ascii c =? 92)%nat then
        match t with
        | String e t' =>
            if Ascii.eqb e "u" then
              match t' with
              | String h1 (String h2 (String h3 (String h4 t''))) =>
                  match hex_value h1, hex_value h2, hex_value h3, hex_value h4 with
                  | Some 0, Some 0, Some a, Some b =>
                      match parse_chars t'' with
                      | Some (str, rest) => Some (String (ascii_of_nat (16 * a + b)) str, rest)
                      | None => None
                      end
                  | _, _, _, _ => None
                  end
              | _ => None
              end
            else
              match unescape_simple e, parse_chars t' with
              | Some d, Some (str, rest) => Some (String d str, rest)
              | _, _ => None
              end
        | "" => None
        end
      else if (nat_of_ascii c <? 32)%nat then None
      else
        match parse_chars t with
        | Some (str, rest) => Some (String c str, rest)
        | None => None
        end
  end.

Fixpoint parse_digits (acc : nat) (s : string) : nat * string :=
  match s with
  | String c t =>
      if is_digit c then parse_digits (10 * acc + (nat_of_ascii c - 48)) t
      else (acc, s)
  | "" => (acc, "")
  end.

(** An integer literal: [0] or a digit from 1 to 9 followed by digits; a
    literal that goes on with a fraction or an exponent is not covered. *)
Definition parse_nat (s : string) : option (nat * string) :=
  match s with
  | String c t =>
      if negb (is_digit c) then None
      else
        let (n, rest) := if Ascii.eqb c "0" then (0, t) else parse_digits 0 s in
        match rest with
        | String d _ =>
            if Ascii.eqb d "." || Ascii.eqb d "e" || Ascii.eqb d "E" then None
            else Some (n, rest)
        | "" => Some (n, rest)
        end
  | "" => None
  end.

Definition parse_literal (word : string) (v : jsval) (s : string)
    : option (jsval * string) :=
  if String.prefix word s then Some (v, drop (String.length word) s) else None.

Fixpoint parse_value (fuel : nat) (s : string) : option (jsval * string) :=
  match fuel with
  | 0 => None
  | S fuel' =>
      match skip_ws s with
      | "" => None
      | String c t =>
          if Ascii.eqb c "{" then
            match skip_ws t with
            | String d r => if Ascii.eqb d "}" then Some (VObj [], r)
                            else parse_members fuel' [] t
            | "" => None
            end
          else if Ascii.eqb c "[" then
            match skip_ws t with
            | String d r => if Ascii.eqb d "]" then Some (VArr [], r)
                            else parse_elements fuel' [] t
            | "" => None
            end
          else if (nat_of_ascii c =? 34)%nat then
            match parse_chars t with
            | Some (str, rest) => Some (VStr str, rest)
            | None => None
            end
          else if Ascii.eqb c "-" then
            match parse_nat t with
            | Some (n, rest) => Some (VNum (- Z.of_nat n), rest)
            | None => None
            end
          else if is_digit c then
            match parse_nat (String c t) with
            | Some (n, rest) => Some (VNum (Z.of_nat n), rest)
            | None => None
            end
          else if Ascii.eqb c "t" then parse_literal "true" (VBool true) (String c t)
          else if Ascii.eqb c "f" then parse_literal "false" (VBool false) (String c t)
          else if Ascii.eqb c "n" then parse_literal "null" VNull (String c t)
          else None
      end
  end

with parse_elements (fuel : nat) (acc : list jsval) (s : string)
    : option (jsval * string) :=
  match fuel with
  | 0 => None
  | S fuel' =>
      match parse_value fuel' s with
      | None => None
      | Some (v, r) =>
          match skip_ws r with
          | String d r' =>
              if Ascii.eqb d "," then parse_elements fuel' (acc ++ [v])%list r'
              else if Ascii.eqb d "]" then Some (VArr (acc ++ [v])%list, r')
              else None
          | "" => None
          end
      end
  end

with parse_members (fuel : nat) (acc : list (string * jsval)) (s : string)
    : option (jsval * string) :=
  match fuel with
  | 0 => None
  | S fuel' =>
      match skip_ws s with
      | String q t =>
          if negb (nat_of_ascii q =? 34)%nat then None
          else
            match parse_chars t with
            | None => None
            | Some (k, r) =>
                match skip_ws r with
                | String colon r1 =>
                    if negb (Ascii.eqb colon ":") then None
                    else
                      match parse_value fuel' r1 with
                      | None => None
                      | Some (v, r2) =>
                          match skip_ws r2 with
                          | String d r3 =>
                              if Ascii.eqb d "," then parse_members fuel' (set_prop k v acc) r3
                              else if Ascii.eqb d "}" then Some (VObj (set_prop k v acc), r3)
                              else None
                          | "" => None
                          end
                      end
                | "" => None
                end
            end
      | "" => None
      end
  end.

(** [JSON.parse(s)]; [None] when it throws a [SyntaxError]. *)
Definition JSON_parse (s : string) : option jsval :=
  match parse_value (2 * String.length s + 2) s with
  | Some (v, rest) => if skip_ws rest =? "" then Some v else None
  | None => None
  end.

(* ------------------------------------------------------------------ *)
(** * The manifest extractor *)

Definition eqb_ci (a b : ascii) : bool := Ascii.eqb (lower_char a) (lower_char b).

Fixpoint prefix_ci (p s : string) : bool :=
  match p, s with
  | "", _ => true
  | String a p', String b s' => eqb_ci a b && prefix_ci p' s'
  | _, _ => false
  end.

Definition fence : string := "```".

(** The first capture of the pattern of [robustJsonExtract], a fence, an
    optional [json] in any case, white space, the shortest text up to the
    next fence, at the head of the text. *)
Definition fenced_at (s : string) : option string :=
  if String.prefix fence s then
    let r := drop 3 s in
    let r := if prefix_ci "json" r then drop 4 r else r in
    let r := drop (span is_space r) r in
    match indexOf r fence with
    | Some j => Some (take j r)
    | None => None
    end
  else None.

Definition robustJsonExtract (s : string) : outcome jsval :=
  if s =? "" then Thrown (new_Error "Empty model output")
  else
    let s := match search_first fenced_at s with
             | Some inner => trim inner
             | None => s
             end in
    match JSON_parse s with
    | Some v => Returned v
    | None =>
        match indexOf s "{", lastIndexOf s "}" with
        | Some first, Some last =>
            match JSON_parse (slice first (last + 1) s) with
            | Some v => Returned v
            | None => Thrown (new_Error "Invalid JSON from model")
            end
        | _, _ => Thrown (new_Error "Invalid JSON from model")
        end
    end.

(* ------------------------------------------------------------------ *)
(** * Token substitution *)

(** [content.replace(new RegExp(`\\{\\{${k}\\}\\}`, "g"), v)] for a key made
    of letters, digits and underscores, as the keys of the asset phase are:
    the pattern then matches the token literally. *)
Definition replace_token (k v content : string) : string :=
  replace_all (lit ("{{" ++ k ++ "}}")) v content.

Section ReplaceInFiles.
(** [regexp_replace k v content] is
    [content.replace(new RegExp(`\\{\\{${k}\\}\\}`, "g"), v)]: the key is
    spliced into the pattern source as it is, so what it matches is up to
    the key.  [replace_token] is the instance for the keys of the asset
    phase.  These definitions are the call when the engine accepts the
    pattern of every key; with a key whose pattern it rejects the call
    throws, which is embedded further down as [replaceInFiles_call]. *)
Variable regexp_replace : string -> string -> string -> string.

(** the [for] loop over [Object.entries(replacements)] *)
Definition apply_replacements (replacements : list (string * string))
    (content : string) : string :=
  fold_left (fun content kv => regexp_replace (fst kv) (snd kv) content)
    replacements content.

Definition replace_in_file (replacements : list (string * string)) (f : jsval)
    : jsval :=
  match f with
  | VObj fields =>
      match lookup "content" fields with
      | VStr content =>
          if negb (truthy (lookup "path" fields)) then f
          else VObj (set_prop "content"
                       (VStr (apply_replacements replacements content)) fields)
      | _ => f
      end
  | _ => f
  end.

Definition replaceInFiles (files : list jsval) (replacements : list (string * string))
    : list jsval :=
  map (replace_in_file replacements) files.
End ReplaceInFiles.

(* ------------------------------------------------------------------ *)
(** * The brief and the manifest *)

Record project : Type := {
  p_title : option string;
  p_desc : option string
}.

(** [accent] is a string, possibly a comma-separated palette, or an array. *)
Inductive accent_input : Type :=
| AccentString (s : string)
| AccentArray (colors : list string).

Inductive skills_input : Type :=
| SkillsArray (items : list string)
| SkillsString (s : string).

(** The request body.  A field is [None] when it is absent; [u_projects] is
    [None] when [projects] is not an array. *)
Record brief : Type := {
  u_name : option string;
  u_title : option string;
  u_tagline : option string;
  u_about : option string;
  u_email : option string;
  u_accent : option accent_input;
  u_skills : option skills_input;
  u_projects : option (list project);
  u_prompt : option string
}.

Record assets : Type := {
  heroImage : option string;
  projectImages : option (list string)
}.

(** The manifest.  [files] is [None] when the property is absent or not an
    array; a file entry is any value, as the extractor returns it. *)
Record manifest : Type := {
  site_name : option string;
  files : option (list jsval);
  assetsNeeded : option assets;
  userData : option brief;
  accentPalette : option (list string)
}.

Definition set_files (l : list jsval) (m : manifest) : manifest :=
  {| site_name := site_name m; files := Some l; assetsNeeded := assetsNeeded m;
     userData := userData m; accentPalette := accentPalette m |}.

Definition set_assetsNeeded (a : assets) (m : manifest) : manifest :=
  {| site_name := site_name m; files := files m; assetsNeeded := Some a;
     userData := userData m; accentPalette := accentPalette m |}.

Definition set_userData (u : brief) (m : manifest) : manifest :=
  {| site_name := site_name m; files := files m; assetsNeeded := assetsNeeded m;
     userData := Some u; accentPalette := accentPalette m |}.

Definition set_accentPalette (p : list string) (m : manifest) : manifest :=
  {| site_name := site_name m; files := files m; assetsNeeded := assetsNeeded m;
     userData := userData m; accentPalette := Some p |}.

Definition type_error (msg : string) : js_error :=
  mkError "TypeError" msg VUndef VUndef VUndef VUndef.

(* ------------------------------------------------------------------ *)
(** * The validator *)

(** The constants that [validateAndEnhanceManifest] derives from the brief. *)
Record locals : Type := {
  name : string;
  title : string;
  tagline : string;
  about : string;
  email : string;
  accent : string;
  accentSecondary : string;
  accentTertiary : string;
  paletteForAI : list string;
  skills : list string;
  projects : list project
}.

Definition nonempty (s : string) : bool := negb (s =? "").

Definition defaultProjects : list project :=
  [ {| p_title := Some "Project 1"; p_desc := Some "First project description" |};
    {| p_title := Some "Project 2"; p_desc := Some "Second project description" |};
    {| p_title := Some "Project 3"; p_desc := Some "Third project description" |} ].

Definition resolve (userData : brief) : locals :=
  let accentPalette :=
    match u_accent userData with
    | Some (AccentArray colors) => filter nonempty colors
    | Some (AccentString s) =>
        filter nonempty (map trim (split "," (if s =? "" then "#22D3EE" else s)))
    | None => filter nonempty (map trim (split "," "#22D3EE"))
    end in
  let accent := nth 0 accentPalette "#22D3EE" in
  let accentSecondary := nth 1 accentPalette accent in
  let accentTertiary := nth 2 accentPalette accentSecondary in
  {| name := str_or (u_name userData) "Portfolio Owner";
     title := str_or (u_title userData) "Web Developer";
     tagline := str_or (u_tagline userData) "Creating beautiful web experiences";
     about := str_or (u_about userData)
                "Passionate professional with expertise in web development";
     email := str_or (u_email userData) "contact@example.com";
     accent := accent;
     accentSecondary := accentSecondary;
     accentTertiary := accentTertiary;
     paletteForAI := filter nonempty [accent; accentSecondary; accentTertiary];
     skills :=
       match u_skills userData with
       | Some (SkillsArray items) => items
       | Some (SkillsString s) => map trim (split "," s)
       | None => ["HTML"; "CSS"; "JavaScript"]
       end;
     projects :=
       match u_projects userData with
       | Some (p :: ps) => p :: ps
       | _ => defaultProjects
       end |}.

(** ** Patterns of the validator *)

(** [<h2>\s*<\/h2>] and its like *)
Definition empty_tag (open close : string) : matcher :=
  fun s =>
    if String.prefix open s then
      let r := drop (String.length open) s in
      let k := span is_space r in
      if String.prefix close (drop k r)
      then Some (String.length open + k + String.length close)
      else None
    else None.

Definition not_gt (c : ascii) : bool := negb (Ascii.eqb c ">").

(** [(<body[^>]*>)] and its like *)
Definition open_tag (tag : string) : matcher :=
  fun s =>
    if String.prefix ("<" ++ tag) s then
      let r := drop (1 + String.length tag) s in
      let k := span not_gt r in
      match drop k r with
      | String _ _ => Some (1 + String.length tag + k + 1)
      | "" => None
      end
    else None.

Definition is_quote (c : ascii) : bool :=
  (nat_of_ascii c =? 34)%nat || Ascii.eqb c "'".

(** [id=["']ID["']] at the head of the text *)
Definition id_attr_at (id s : string) : bool :=
  String.prefix "id=" s
  && match drop 3 s with
     | String q r =>
         is_quote q && String.prefix id r
         && match drop (String.length id) r with
            | String q' _ => is_quote q'
            | "" => false
            end
     | "" => false
     end.

Fixpoint has_id_attr (id s : string) : bool :=
  id_attr_at id s
  || match s with
     | "" => false
     | String _ t => has_id_attr id t
     end.

(** [(<section[^>]*id=["']ID["'][^>]*>)]: the opening tag ends at the first
    [>] after [<section], and the [id] attribute lies before it. *)
Definition section_open (id : string) : matcher :=
  fun s =>
    if String.prefix "<section" s then
      let r := drop 8 s in
      let k := span not_gt r in
      match drop k r with
      | String _ _ => if has_id_attr id (take k r) then Some (8 + k + 1) else None
      | "" => None
      end
    else None.

(** [(<section[^>]*id=["']ID["'][^>]*>)([\s\S]*?)(<\/section>)] at the head
    of the text: the lengths of the opening tag and of the shortest body. *)
Definition section_at (id s : string) : option (nat * nat) :=
  match section_open id s with
  | Some n =>
      match indexOf (drop n s) "</section>" with
      | Some j => Some (n, j)
      | None => None
      end
  | None => None
  end.

Fixpoint search_pos {A : Type} (f : string -> option A) (off : nat) (s : string)
    : option (nat * A) :=
  match f s with
  | Some a => Some (off, a)
  | None =>
      match s with
      | "" => None
      | String _ t => search_pos f (S off) t
      end
  end.

Fixpoint indexOf_ci (off : nat) (s sub : string) : option nat :=
  if prefix_ci sub s then Some off
  else match s with
       | "" => None
       | String _ t => indexOf_ci (S off) t sub
       end.

(** [<ul[^>]*>[\s\S]*?<\/ul>] with the flag [i] *)
Definition ul_block : matcher :=
  fun s =>
    if prefix_ci "<ul" s then
      let r := drop 3 s in
      let k := span not_gt r in
      match drop k r with
      | String _ body =>
          match indexOf_ci 0 body "</ul>" with
          | Some j => Some (3 + k + 1 + j + 5)
          | None => None
          end
      | "" => None
      end
    else None.

(** [\{\{PROJECT_(\d)_(IMG|TITLE|DESC)\}\}] at the head of the text, with the
    alternatives given by [kinds]: the digit. *)
Definition project_token (kinds : list string) (s : string) : option nat :=
  if String.prefix "{{PROJECT_" s then
    match drop 10 s with
    | String d r =>
        if is_digit d && existsb (fun k => String.prefix ("_" ++ k ++ "}}") r) kinds
        then Some (nat_of_ascii d - 48)
        else None
    | "" => None
    end
  else None.

(** [projects[projectNum - 1]] *)
Definition project_number (projects : list project) (projectNum : nat) : option project :=
  match projectNum with
  | 0 => None
  | S i => nth_error projects i
  end.

(** ** [expandAboutText] *)

Definition expandAboutText (aboutText title : string) (skillsList : list string) : string :=
  let firstParagraph :=
    if (aboutText =? "") || (String.length (trim aboutText) <? 20)%nat then
      let skillsMention :=
        if (0 <? List.length skillsList)%nat then join ", " (firstn 3 skillsList)
        else "web development" in
      "I'm a passionate " ++ (if title =? "" then "professional" else title)
      ++ " specializing in " ++ skillsMention
      ++ ". I love creating innovative solutions that combine cutting-edge technology with intuitive user experiences."
    else if (String.length (trim aboutText) <? 100)%nat then
      let skillsMention :=
        if (0 <? List.length skillsList)%nat
        then " With strong skills in " ++ join ", " (firstn 4 skillsList) ++ ","
        else "" in
      aboutText ++ skillsMention ++ " I'm dedicated to delivering high-quality work."
    else aboutText in
  let skillsContext :=
    if (0 <? List.length skillsList)%nat
    then " With expertise spanning " ++ join ", " (firstn 5 skillsList) ++ ","
    else "" in
  "      <p>" ++ firstParagraph ++ "</p>" ++ nl
  ++ "      <p>" ++ skillsContext
  ++ " I bring a combination of technical expertise and creative problem-solving to every project. My approach focuses on creating solutions that are not only functional and scalable but also user-friendly and visually appealing.</p>"
  ++ nl
  ++ "      <p>When I'm not working on projects, you can find me exploring new technologies, contributing to open-source communities, or sharing knowledge with fellow developers. I'm always excited to take on new challenges and collaborate on innovative projects that make a real impact.</p>".

(** ** The markup *)

Definition take_match (s : string) (off n : nat) : string := take n (drop off s).

(** the [forEach] over the projects that replaces their title and
    description tokens *)
Fixpoint replace_project_tokens (idx : nat) (ps : list project) (htmlContent : string)
    : string :=
  match ps with
  | [] => htmlContent
  | proj :: rest =>
      let htmlContent :=
        match p_title proj with
        | Some t =>
            if nonempty t
            then replace_all (lit ("{{PROJECT_" ++ of_nat (idx + 1) ++ "_TITLE}}")) t htmlContent
            else htmlContent
        | None => htmlContent
        end in
      let htmlContent :=
        match p_desc proj with
        | Some d =>
            if nonempty d
            then replace_all (lit ("{{PROJECT_" ++ of_nat (idx + 1) ++ "_DESC}}")) d htmlContent
            else htmlContent
        | None => htmlContent
        end in
      replace_project_tokens (S idx) rest htmlContent
  end.

Definition replace_placeholders (year : string) (v : locals) (htmlContent : string)
    : string :=
  let htmlContent := replace_all (lit "{{NAME}}") (name v) htmlContent in
  let htmlContent := replace_all (lit "{{TITLE}}") (title v) htmlContent in
  let htmlContent := replace_all (lit "{{TAGLINE}}") (tagline v) htmlContent in
  let htmlContent := replace_all (lit "{{ABOUT}}") (about v) htmlContent in
  let htmlContent := replace_all (lit "{{EMAIL}}") (email v) htmlContent in
  let htmlContent := replace_all (lit "{{YEAR}}") year htmlContent in
  replace_project_tokens 0 (projects v) htmlContent.

Definition in_hero (beforeContent : string) : bool :=
  includes beforeContent ("class=" ++ dq ++ "hero" ++ dq)
  || includes beforeContent "class='hero'".

Definition has_id (id : string) (text : string) : bool :=
  includes text ("id=" ++ dq ++ id ++ dq) || includes text ("id='" ++ id ++ "'").

Definition fix_h2 (v : locals) (htmlContent : string) : string :=
  replace_all_fn (empty_tag "<h2>" "</h2>")
    (fun _ beforeContent =>
       if in_hero beforeContent then "<h2>" ++ title v ++ "</h2>"
       else if has_id "about" beforeContent then "<h2>About Me</h2>"
       else "<h2>" ++ title v ++ "</h2>")
    htmlContent.

Definition fix_h3 (v : locals) (htmlContent : string) : string :=
  replace_all_fn (empty_tag "<h3>" "</h3>")
    (fun _ beforeContent =>
       match search_first (project_token ["IMG"]) beforeContent with
       | Some projectNum =>
           match project_number (projects v) projectNum with
           | Some {| p_title := Some t |} =>
               if nonempty t then "<h3>" ++ t ++ "</h3>"
               else "<h3>Project " ++ of_nat projectNum ++ "</h3>"
           | _ => "<h3>Project " ++ of_nat projectNum ++ "</h3>"
           end
       | None => "<h3>" ++ title v ++ "</h3>"
       end)
    htmlContent.

Definition fix_p (v : locals) (htmlContent : string) : string :=
  replace_all_fn (empty_tag "<p>" "</p>")
    (fun _ beforeContent =>
       match search_first (project_token ["IMG"; "TITLE"; "DESC"]) beforeContent with
       | Some projectNum =>
           match project_number (projects v) projectNum with
           | Some {| p_desc := Some d |} =>
               if nonempty d then "<p>" ++ d ++ "</p>"
               else "<p>Project " ++ of_nat projectNum ++ " description</p>"
           | _ => "<p>Project " ++ of_nat projectNum ++ " description</p>"
           end
       | None =>
           if in_hero beforeContent then "<p>" ++ tagline v ++ "</p>"
           else if has_id "about" beforeContent then "<p>" ++ about v ++ "</p>"
           else "<p>" ++ about v ++ "</p>"
       end)
    htmlContent.

Definition navHtml (v : locals) : string :=
  "  <header>" ++ nl
  ++ "    <h1>" ++ name v ++ "</h1>" ++ nl
  ++ "    <nav>" ++ nl
  ++ "      <a href=" ++ dq ++ "#about" ++ dq ++ ">About</a>" ++ nl
  ++ "      <a href=" ++ dq ++ "#skills" ++ dq ++ ">Skills</a>" ++ nl
  ++ "      <a href=" ++ dq ++ "#projects" ++ dq ++ ">Projects</a>" ++ nl
  ++ "      <a href=" ++ dq ++ "#contact" ++ dq ++ ">Contact</a>" ++ nl
  ++ "    </nav>" ++ nl
  ++ "  </header>".

(** Each step takes and returns the markup and the flag [fixed]. *)
Definition ensure_header (v : locals) (st : string * bool) : string * bool :=
  let (htmlContent, fixed) := st in
  if negb (includes htmlContent "<header") || negb (includes htmlContent "<nav") then
    match search (open_tag "body") htmlContent with
    | Some (off, n) =>
        let bodyMatch := take_match htmlContent off n in
        (replace_str bodyMatch (bodyMatch ++ nl ++ navHtml v) htmlContent, true)
    | None => st
    end
  else st.

Definition ensure_about (v : locals) (st : string * bool) : string * bool :=
  let (htmlContent, fixed) := st in
  if negb (has_id "about" htmlContent) then
    match search (open_tag "main") htmlContent with
    | Some (off, n) =>
        let mainMatch := take_match htmlContent off n in
        let expandedAbout := expandAboutText (about v) (title v) (skills v) in
        (replace_str mainMatch
           (mainMatch ++ nl ++ "    <section id=" ++ dq ++ "about" ++ dq ++ " class="
            ++ dq ++ "about" ++ dq ++ ">" ++ nl ++ "      <h2>About Me</h2>" ++ nl
            ++ expandedAbout ++ nl ++ "    </section>")
           htmlContent, true)
    | None => st
    end
  else
    match search_pos (section_at "about") 0 htmlContent with
    | Some (off, (n, j)) =>
        let aboutOpen := take_match htmlContent off n in
        let aboutContent := take_match htmlContent (off + n) j in
        let aboutMatch := take_match htmlContent off (n + j + 10) in
        if negb (includes aboutContent "</p>")
           || match match_count (lit "<p>") aboutContent with
              | Some count => (count <? 2)%nat
              | None => false
              end
        then
          let expandedAbout := expandAboutText (about v) (title v) (skills v) in
          (replace_str aboutMatch (aboutOpen ++ expandedAbout ++ "</section>") htmlContent,
           true)
        else st
    | None => st
    end.

Definition skillsListItems (v : locals) : string :=
  join nl (map (fun s => "        <li>" ++ s ++ "</li>") (skills v)).

Definition ensure_skills (v : locals) (st : string * bool) : string * bool :=
  let (htmlContent, fixed) := st in
  if negb (has_id "skills" htmlContent) then
    match search (section_open "projects") htmlContent with
    | Some (off, n) =>
        let projectsMatch := take_match htmlContent off n in
        let skillsHtml :=
          nl ++ "    <section id=" ++ dq ++ "skills" ++ dq ++ " class=" ++ dq ++ "skills"
          ++ dq ++ ">" ++ nl
          ++ "      <h2>Skills & Technologies</h2>" ++ nl
          ++ "      <ul class=" ++ dq ++ "skills-list" ++ dq ++ ">" ++ nl
          ++ skillsListItems v ++ nl
          ++ "      </ul>" ++ nl
          ++ "    </section>" in
        (replace_str projectsMatch (skillsHtml ++ nl ++ "    " ++ projectsMatch) htmlContent,
         true)
    | None => st
    end
  else
    match search_pos (section_at "skills") 0 htmlContent with
    | Some (off, (n, j)) =>
        let skillsHead := take_match htmlContent off (n + j) in
        let skillsMatch := take_match htmlContent off (n + j + 10) in
        if (0 <? List.length (skills v))%nat
           && (negb (includes skillsHead "<li>")
               || match match_count (lit "<li>") skillsHead with
                  | Some count => (count <? List.length (skills v))%nat
                  | None => false
                  end)
        then
          let skillsListHtml :=
            "<ul class=" ++ dq ++ "skills-list" ++ dq ++ ">" ++ nl
            ++ skillsListItems v ++ nl
            ++ "      </ul>" in
          (replace_str skillsMatch
             (replace_first ul_block skillsListHtml skillsHead ++ "</section>")
             htmlContent, true)
        else st
    | None => st
    end.

Definition ensure_contact (v : locals) (st : string * bool) : string * bool :=
  let (htmlContent, fixed) := st in
  if negb (has_id "contact" htmlContent) then
    match search (lit "</main>") htmlContent with
    | Some _ =>
        (replace_str "</main>"
           ("    <section id=" ++ dq ++ "contact" ++ dq ++ " class=" ++ dq ++ "contact"
            ++ dq ++ ">" ++ nl ++ "      <h2>Get In Touch</h2>" ++ nl
            ++ "      <p>Email: <a href=" ++ dq ++ "mailto:" ++ email v ++ dq ++ ">"
            ++ email v ++ "</a></p>" ++ nl ++ "    </section>" ++ nl ++ "  " ++ "</main>")
           htmlContent, true)
    | None => st
    end
  else st.

Definition copyright_sign : string := String (ascii_of_nat 169) "".

Definition ensure_footer (year : string) (v : locals) (st : string * bool)
    : string * bool :=
  let (htmlContent, fixed) := st in
  if negb (includes htmlContent "<footer") then
    match search (lit "</body>") htmlContent with
    | Some _ =>
        (replace_str "</body>"
           ("  <footer>" ++ nl ++ "    <p>" ++ copyright_sign ++ " " ++ year ++ " "
            ++ name v ++ ". All rights reserved.</p>" ++ nl ++ "  </footer>" ++ nl
            ++ "</body>")
           htmlContent, true)
    | None => st
    end
  else st.

(** The body of [if (htmlFile && htmlFile.content)]: the markup at its end
    and the flag [fixed]. *)
Definition fix_html (year : string) (v : locals) (content : string) : string * bool :=
  let htmlContent := replace_placeholders year v content in
  let htmlContent := fix_h2 v htmlContent in
  let htmlContent := fix_h3 v htmlContent in
  let htmlContent := fix_p v htmlContent in
  ensure_footer year v
    (ensure_contact v
       (ensure_skills v
          (ensure_about v
             (ensure_header v (htmlContent, false))))).

(** ** The stylesheet and the script *)

Definition enhancedCss (accent accentSecondary accentTertiary : string) : string :=
  join nl
   ["/* Comprehensive Portfolio Styles */";
    ":root {";
    "  --accent-color: " ++ accent ++ ";";
    "  --accent-secondary: " ++ accentSecondary ++ ";";
    "  --accent-tertiary: " ++ accentTertiary ++ ";";
    "  --accent-gradient: linear-gradient(135deg, var(--accent-secondary), var(--accent-tertiary));";
    "  --primary-color: " ++ accent ++ ";";
    "  --text-color: #1e293b;";
    "  --bg-color: #ffffff;";
    "  --bg-light: #f8fafc;";
    "  --text-muted: #64748b;";
    "  --shadow: 0 4px 6px -1px rgba(0, 0, 0, 0.1), 0 2px 4px -1px rgba(0, 0, 0, 0.06);";
    "  --shadow-lg: 0 10px 15px -3px rgba(0, 0, 0, 0.1), 0 4px 6px -2px rgba(0, 0, 0, 0.05);";
    "  --radius: 8px;";
    "  --spacing-xs: 0.5rem;";
    "  --spacing-sm: 1rem;";
    "  --spacing-md: 2rem;";
    "  --spacing-lg: 4rem;";
    "  --spacing-xl: 6rem;";
    "}";
    "";
    "* {";
    "  margin: 0;";
    "  padding: 0;";
    "  box-sizing: border-box;";
    "}";
    "";
    "html {";
    "  scroll-behavior: smooth;";
    "}";
    "";
    "body {";
    "  font-family: system-ui, -apple-system, BlinkMacSystemFont, 'Segoe UI', Roboto, 'Helvetica Neue', Arial, sans-serif;";
    "  line-height: 1.6;";
    "  color: var(--text-color);";
    "  background-color: var(--bg-color);";
    "  margin: 0;";
    "  padding: 0;";
    "}";
    "";
    "/* Header & Navigation */";
    "header {";
    "  position: sticky;";
    "  top: 0;";
    "  background: rgba(255, 255, 255, 0.95);";
    "  backdrop-filter: blur(10px);";
    "  box-shadow: var(--shadow);";
    "  z-index: 1000;";
    "  padding: var(--spacing-sm) var(--spacing-md);";
    "}";
    "";
    "header h1 {";
    "  margin: 0;";
    "  font-size: clamp(1.25rem, 2vw, 1.5rem);";
    "  color: var(--accent-color);";
    "  font-weight: 700;";
    "}";
    "";
    "nav {";
    "  display: flex;";
    "  gap: var(--spacing-md);";
    "}";
    "";
    "nav a {";
    "  color: var(--text-color);";
    "  text-decoration: none;";
    "  font-weight: 500;";
    "  transition: color 0.3s ease;";
    "  position: relative;";
    "}";
    "";
    "nav a:hover {";
    "  color: var(--accent-color);";
    "}";
    "";
    "nav a::after {";
    "  content: '';";
    "  position: absolute;";
    "  bottom: -4px;";
    "  left: 0;";
    "  width: 0;";
    "  height: 2px;";
    "  background: var(--accent-color);";
    "  transition: width 0.3s ease;";
    "}";
    "";
    "nav a:hover::after {";
    "  width: 100%;";
    "}";
    "";
    "/* Hero Section */";
    ".hero {";
    "  min-height: 60vh;";
    "  display: flex;";
    "  flex-direction: column;";
    "  align-items: center;";
    "  justify-content: center;";
    "  text-align: center;";
    "  padding: var(--spacing-xl) var(--spacing-md);";
    "  background: var(--accent-gradient);";
    "  position: relative;";
    "  overflow: hidden;";
    "}";
    "";
    ".hero img {";
    "  width: 100%;";
    "  max-width: 600px;";
    "  max-height: 300px;";
    "  height: auto;";
    "  object-fit: cover;";
    "  border-radius: var(--radius);";
    "  margin: 0 auto var(--spacing-md);";
    "  box-shadow: var(--shadow-lg);";
    "  display: block;";
    "}";
    "";
    ".hero h2 {";
    "  font-size: clamp(2rem, 5vw, 3.5rem);";
    "  margin: var(--spacing-sm) 0;";
    "  color: var(--text-color);";
    "  font-weight: 700;";
    "}";
    "";
    ".hero p {";
    "  font-size: clamp(1.125rem, 2vw, 1.25rem);";
    "  color: var(--text-muted);";
    "  max-width: 600px;";
    "  margin: var(--spacing-sm) auto var(--spacing-md);";
    "}";
    "";
    ".cta {";
    "  display: inline-block;";
    "  background: var(--accent-color);";
    "  color: white;";
    "  padding: var(--spacing-sm) var(--spacing-md);";
    "  border-radius: var(--radius);";
    "  text-decoration: none;";
    "  font-weight: 600;";
    "  transition: transform 0.3s ease, box-shadow 0.3s ease;";
    "  margin-top: var(--spacing-md);";
    "}";
    "";
    ".cta:hover {";
    "  transform: translateY(-2px);";
    "  box-shadow: var(--shadow-lg);";
    "}";
    "";
    "/* Sections */";
    "section {";
    "  padding: var(--spacing-xl) var(--spacing-md);";
    "  max-width: 1200px;";
    "  margin: 0 auto;";
    "}";
    "";
    "section h2 {";
    "  font-size: clamp(2rem, 4vw, 2.5rem);";
    "  margin-bottom: var(--spacing-md);";
    "  text-align: center;";
    "  color: var(--text-color);";
    "}";
    "";
    "/* About Section */";
    ".about {";
    "  background: var(--bg-light);";
    "}";
    "";
    ".about p {";
    "  font-size: clamp(1rem, 2vw, 1.125rem);";
    "  line-height: 1.8;";
    "  color: var(--text-muted);";
    "  max-width: 800px;";
    "  margin: 0 auto;";
    "}";
    "";
    "/* Skills Section */";
    ".skills {";
    "  padding: var(--spacing-xl) var(--spacing-md);";
    "}";
    "";
    ".skills-list {";
    "  list-style: none;";
    "  display: flex;";
    "  flex-wrap: wrap;";
    "  gap: var(--spacing-sm);";
    "  justify-content: center;";
    "  padding: 0;";
    "}";
    "";
    ".skills-list li {";
    "  background: var(--accent-color);";
    "  color: white;";
    "  padding: var(--spacing-xs) var(--spacing-sm);";
    "  border-radius: 20px;";
    "  font-weight: 500;";
    "  font-size: 0.9rem;";
    "  border: 1px solid var(--accent-tertiary);";
    "  box-shadow: 0 6px 18px -6px var(--accent-secondary);";
    "  transition: transform 0.3s ease, box-shadow 0.3s ease;";
    "}";
    "";
    ".skills-list li:hover {";
    "  transform: translateY(-2px);";
    "  box-shadow: 0 10px 24px -8px var(--accent-tertiary);";
    "}";
    "";
    "/* Projects Section */";
    "#projects {";
    "  background: var(--bg-light);";
    "}";
    "";
    ".projects-grid {";
    "  display: grid;";
    "  grid-template-columns: repeat(auto-fit, minmax(300px, 1fr));";
    "  gap: var(--spacing-md);";
    "  margin-top: var(--spacing-md);";
    "}";
    "";
    ".card {";
    "  background: white;";
    "  border-radius: var(--radius);";
    "  overflow: hidden;";
    "  box-shadow: var(--shadow);";
    "  transition: transform 0.3s ease, box-shadow 0.3s ease;";
    "}";
    "";
    ".card:hover {";
    "  transform: translateY(-8px);";
    "  box-shadow: var(--shadow-lg);";
    "}";
    "";
    ".card img {";
    "  width: 100%;";
    "  height: 200px;";
    "  max-height: 200px;";
    "  object-fit: cover;";
    "  display: block;";
    "}";
    "";
    ".card-body {";
    "  padding: var(--spacing-md);";
    "}";
    "";
    ".card h3 {";
    "  font-size: 1.25rem;";
    "  margin-bottom: var(--spacing-xs);";
    "  color: var(--text-color);";
    "}";
    "";
    ".card p {";
    "  color: var(--text-muted);";
    "  line-height: 1.6;";
    "}";
    "";
    "/* Contact Section */";
    ".contact {";
    "  text-align: center;";
    "}";
    "";
    ".contact a {";
    "  color: var(--accent-color);";
    "  text-decoration: none;";
    "  font-weight: 500;";
    "}";
    "";
    ".contact a:hover {";
    "  text-decoration: underline;";
    "}";
    "";
    "/* Footer */";
    "footer {";
    "  background: var(--text-color);";
    "  color: white;";
    "  text-align: center;";
    "  padding: var(--spacing-md);";
    "  margin-top: var(--spacing-xl);";
    "}";
    "";
    "footer p {";
    "  margin: 0;";
    "  font-size: 0.9rem;";
    "}";
    "";
    "/* Responsive Design */";
    "@media (max-width: 768px) {";
    "  header {";
    "    flex-direction: column;";
    "    align-items: flex-start;";
    "    gap: var(--spacing-sm);";
    "  }";
    "";
    "  nav {";
    "    flex-wrap: wrap;";
    "  }";
    "";
    "  .hero {";
    "    min-height: 50vh;";
    "    padding: var(--spacing-lg) var(--spacing-sm);";
    "  }";
    "";
    "  .hero img {";
    "    max-height: 300px;";
    "  }";
    "";
    "  .projects-grid {";
    "    grid-template-columns: 1fr;";
    "  }";
    "";
    "  section {";
    "    padding: var(--spacing-lg) var(--spacing-sm);";
    "  }";
    "}";
    "";
    "@media (max-width: 480px) {";
    "  .hero h2 {";
    "    font-size: 1.75rem;";
    "  }";
    "";
    "  .skills-list li {";
    "    font-size: 0.85rem;";
    "    padding: 0.4rem 0.8rem;";
    "  }";
    "}";
    ""].

Definition enhancedJs : string :=
  join nl
   ["// Portfolio JavaScript";
    "document.addEventListener('DOMContentLoaded', function() {";
    "  // Smooth scrolling for anchor links";
    "  document.querySelectorAll('a[href^=" ++ dq ++ "#" ++ dq ++ "]').forEach(anchor => {";
    "    anchor.addEventListener('click', function (e) {";
    "      e.preventDefault();";
    "      const target = document.querySelector(this.getAttribute('href'));";
    "      if (target) {";
    "        target.scrollIntoView({";
    "          behavior: 'smooth',";
    "          block: 'start'";
    "        });";
    "      }";
    "    });";
    "  });";
    "";
    "  // Update year in footer";
    "  const yearElement = document.querySelector('footer p');";
    "  if (yearElement) {";
    "    yearElement.innerHTML = yearElement.innerHTML.replace(/\d{4}/, new Date().getFullYear());";
    "  }";
    "";
    "  // Mobile menu toggle (if needed)";
    "  const navToggle = document.querySelector('.nav-toggle');";
    "  const navMenu = document.querySelector('nav');";
    "  ";
    "  if (navToggle && navMenu) {";
    "    navToggle.addEventListener('click', () => {";
    "      navMenu.classList.toggle('active');";
    "    });";
    "  }";
    "});";
    ""].

(** ** The files of the manifest *)

(** [files.find(f => f.path === p)]: the position and the entry.  Reading
    [path] off [null] or [undefined] throws. *)
Fixpoint find_file (p : string) (i : nat) (files : list jsval)
    : outcome (option (nat * jsval)) :=
  match files with
  | [] => Returned None
  | f :: rest =>
      match f with
      | VUndef | VNull =>
          Thrown (type_error "Cannot read properties of null (reading 'path')")
      | _ =>
          match get f "path" with
          | VStr q => if q =? p then Returned (Some (i, f)) else find_file p (S i) rest
          | _ => find_file p (S i) rest
          end
      end
  end.

Fixpoint update_nth {A : Type} (i : nat) (f : A -> A) (l : list A) : list A :=
  match l, i with
  | [], _ => []
  | x :: rest, 0 => f x :: rest
  | x :: rest, S j => x :: update_nth j f rest
  end.

(** [file.content = c] on the entry found *)
Definition assign_content (c : string) (file : jsval) : jsval :=
  match file with
  | VObj fields => VObj (set_prop "content" (VStr c) fields)
  | _ => file
  end.

Definition html_step (year : string) (v : locals) (files : list jsval)
    : outcome (list jsval) :=
  match find_file "index.html" 0 files with
  | Thrown e => Thrown e
  | Returned None => Returned files
  | Returned (Some (i, htmlFile)) =>
      match get htmlFile "content" with
      | VStr content =>
          if nonempty content then
            let (htmlContent, fixed) := fix_html year v content in
            if fixed then Returned (update_nth i (assign_content htmlContent) files)
            else Returned files
          else Returned files
      | c =>
          if truthy c then Thrown (type_error "htmlContent.replace is not a function")
          else Returned files
      end
  end.

Definition css_step (v : locals) (files : list jsval) : outcome (list jsval) :=
  match find_file "styles.css" 0 files with
  | Thrown e => Thrown e
  | Returned None => Returned files
  | Returned (Some (i, cssFile)) =>
      match get cssFile "content" with
      | VStr content =>
          if nonempty content then
            let cssLines := List.length (split (ascii_of_nat 10) content) in
            if (cssLines <? 100)%nat then
              Returned (update_nth i
                (assign_content (enhancedCss (accent v) (accentSecondary v) (accentTertiary v)))
                files)
            else Returned files
          else Returned files
      | c =>
          if truthy c then Thrown (type_error "cssFile.content.split is not a function")
          else Returned files
      end
  end.

Definition js_step (files : list jsval) : outcome (list jsval) :=
  match find_file "script.js" 0 files with
  | Thrown e => Thrown e
  | Returned None => Returned files
  | Returned (Some (i, jsFile)) =>
      match get jsFile "content" with
      | VStr content =>
          if (content =? "") || (String.length (trim content) <? 50)%nat
          then Returned (update_nth i (assign_content enhancedJs) files)
          else Returned files
      | c =>
          if truthy c then Thrown (type_error "jsFile.content.trim is not a function")
          else Returned (update_nth i (assign_content enhancedJs) files)
      end
  end.

(** [year] is [new Date().getFullYear().toString()]. *)
Definition validateAndEnhanceManifest (year : string) (m : manifest) (userData : brief)
    : outcome manifest :=
  match files m with
  | None => Thrown (new_Error "Manifest must have a 'files' array")
  | Some files0 =>
      let v := resolve userData in
      match html_step year v files0 with
      | Thrown e => Thrown e
      | Returned files1 =>
          match css_step v files1 with
          | Thrown e => Thrown e
          | Returned files2 =>
              match js_step files2 with
              | Thrown e => Thrown e
              | Returned files3 =>
                  Returned (set_accentPalette (paletteForAI v) (set_files files3 m))
              end
          end
      end
  end.

(* ------------------------------------------------------------------ *)
(** * The spec phase after extraction *)

Definition reference_error (identifier : string) : js_error :=
  mkError "ReferenceError" (identifier ++ " is not defined") VUndef VUndef VUndef VUndef.

(** The route handler of [/api/generate-spec] reads [paletteForAI].  The
    only declaration of that name is the [const] inside
    [validateAndEnhanceManifest]; the handler, the module and the globals
    declare none, so in the handler the name is unbound and reading it
    throws a [ReferenceError]. *)
Definition handler_paletteForAI : option (list string) := None.

Definition heroImage_prompt (paletteForAI : list string) : string :=
  let paletteDescriptionForHero :=
    if (0 <? List.length paletteForAI)%nat
    then "with color palette " ++ join ", " paletteForAI ++ ", " else "" in
  "abstract geometric background pattern, modern professional web design, minimalist style, "
  ++ paletteDescriptionForHero
  ++ "subtle gradients and clean geometric shapes like triangles, circles, polygons, and hexagons, pattern texture, web design aesthetic, portfolio background, professional illustration, NO people, NO characters, NO superhero themes, NO costumes, NO persons, NO human figures, NO masked characters, NO caped figures, abstract only, geometric pattern only".

Definition has_title_and_desc (proj : option project) : option (string * string) :=
  match proj with
  | Some {| p_title := Some t; p_desc := Some d |} =>
      if nonempty t && nonempty d then Some (t, d) else None
  | _ => None
  end.

Definition generic_mockup : string :=
  "professional web application mockup, modern UI design, clean interface, product mock photo, neutral background, no people".

(** the [while] loop that pushes the generic prompt until there are three *)
Definition pad_to_three (prompts : list string) : list string :=
  (prompts ++ repeat generic_mockup (3 - List.length prompts))%list.

(** the first three projects of the brief, or none *)
Definition brief_projects (userData : brief) : list project :=
  match u_projects userData with
  | Some (p :: ps) => firstn 3 (p :: ps)
  | _ => []
  end.

(** the prompt for a project of the brief when the extractor gave no
    prompts; [hint] is [paletteDescriptionForProjects] *)
Definition new_prompt (hint : string) (proj : project) : string :=
  match has_title_and_desc (Some proj) with
  | Some (t, d) =>
      "professional screenshot or mockup of " ++ t ++ " project: " ++ d
      ++ ", modern UI design, clean interface" ++ hint
      ++ ", product mock photo, neutral background, no people, realistic web application"
  | None =>
      "professional web application mockup, modern UI design, clean interface" ++ hint
      ++ ", product mock photo, neutral background, no people"
  end.

(** the prompt that replaces the extractor's prompt number [idx] *)
Definition enhanced_prompt (proj : option project) (prompt : string) : string :=
  match has_title_and_desc proj with
  | Some (t, d) =>
      "professional screenshot or mockup of " ++ t ++ " project: " ++ d
      ++ ", modern UI design, clean interface, product mock photo, neutral background, no people, realistic web application"
  | None => prompt
  end.

Fixpoint enhance_prompts (ps : list project) (idx : nat) (prompts : list string)
    : list string :=
  match prompts with
  | [] => []
  | prompt :: rest =>
      enhanced_prompt (nth_error ps idx) prompt :: enhance_prompts ps (S idx) rest
  end.

Definition project_prompts (paletteForAI : list string) (userData : brief)
    (existing : option (list string)) : list string :=
  let paletteDescriptionForProjects :=
    if (0 <? List.length paletteForAI)%nat
    then ", color palette " ++ join ", " paletteForAI else "" in
  match existing with
  | Some (p :: ps) => enhance_prompts (brief_projects userData) 0 (p :: ps)
  | _ =>
      pad_to_three
        (map (new_prompt paletteDescriptionForProjects) (brief_projects userData))
  end.

(** The handler from [if (!manifest.assetsNeeded)] to the prompts.  Its
    first read of [paletteForAI] resolves the name in the scope of the
    handler, where nothing declares it; the assignments after that read are
    written out as the source has them. *)
Definition normalize_assets (userData : brief) (m : manifest) : outcome manifest :=
  let needed :=
    match assetsNeeded m with
    | Some a => a
    | None => {| heroImage := None; projectImages := None |}
    end in
  match handler_paletteForAI with
  | None => Thrown (reference_error "paletteForAI")
  | Some paletteForAI =>
      Returned
        (set_assetsNeeded
           {| heroImage := Some (heroImage_prompt paletteForAI);
              projectImages :=
                Some (project_prompts paletteForAI userData (projectImages needed)) |}
           m)
  end.

(** The repair phase of the handler on an extracted manifest: the manifest it
    goes on to persist, or the error its [catch] reports. *)
Definition repair_phase (year : string) (extracted : manifest) (userData : brief)
    : outcome manifest :=
  match validateAndEnhanceManifest year (set_userData userData extracted) userData with
  | Thrown e => Thrown e
  | Returned m => normalize_assets userData m
  end.

(* ------------------------------------------------------------------ *)
(** * The asset phase *)

Inductive response : Type :=
| Ok (id : string)
| Failure (status : nat) (error : string).

(** [path.join] of two segments that need no normalisation *)
Definition path_join (a b : string) : string := a ++ "/" ++ b.

Definition emptyBrief : brief :=
  {| u_name := None; u_title := None; u_tagline := None; u_about := None;
     u_email := None; u_accent := None; u_skills := None; u_projects := None;
     u_prompt := None |}.

Definition heroPrompt (accentPalette : list string) : string :=
  let paletteDescription :=
    if (0 <? List.length accentPalette)%nat
    then "color palette " ++ join ", " accentPalette ++ ", " else "" in
  "abstract geometric background pattern, modern professional web design, minimalist style, "
  ++ paletteDescription
  ++ "subtle gradients and clean geometric shapes like triangles, circles, polygons, and hexagons, repeating pattern texture, portfolio website background, professional illustration, NO people, NO characters, NO superhero themes, NO costumes, NO persons, NO human figures, NO masked characters, NO caped figures, NO action heroes, NO comic book style, abstract geometric pattern ONLY, design elements only".

Definition projectPrompt (accentPalette : list string) (imgs : list string)
    (projects : list project) (i : nat) : string :=
  let projectPaletteHint :=
    if (0 <? List.length accentPalette)%nat
    then ", color palette " ++ join ", " accentPalette else "" in
  match has_title_and_desc (nth_error projects i) with
  | Some (t, d) =>
      "professional screenshot or mockup of " ++ t ++ " web application project: " ++ d
      ++ ", modern UI design, clean interface" ++ projectPaletteHint
      ++ ", realistic software application screenshot, product mock photo, neutral background, no people, professional web design"
  | None =>
      match nth_error imgs i with
      | Some img =>
          if nonempty img then img
          else "professional software application screenshot mockup, modern UI design, clean interface"
               ++ projectPaletteHint ++ ", portfolio project image, neutral background, no people"
      | None =>
          "professional software application screenshot mockup, modern UI design, clean interface"
          ++ projectPaletteHint ++ ", portfolio project image, neutral background, no people"
      end
  end.

(** What happened to one image need: the provider gave the image, or the
    placeholder was written. *)
Inductive resolution : Type :=
| Generated
| Placeholder.

(** The state of the asset phase: the file system, the [replacements]
    object as its entries in insertion order, and per need, in order, the
    output file and how it was resolved. *)
Record asset_state : Type := {
  st_fs : filesystem;
  st_replacements : list (string * string);
  st_log : list (string * resolution)
}.

(** One [try]/[catch] around [generateImageToFile]. *)
Definition resolve_need (w : world) (keys : list string) (env_IMAGE_MODEL : option string)
    (prompt outFile token relative : string) (width height : nat) (st : asset_state)
    : asset_state :=
  match snd (generateImageToFile w keys env_IMAGE_MODEL (st_fs st) prompt outFile) with
  | (fs', Returned _) =>
      {| st_fs := fs';
         st_replacements := (st_replacements st ++ [(token, relative)])%list;
         st_log := (st_log st ++ [(outFile, Generated)])%list |}
  | (fs', Thrown imageError) =>
      let placeholder := generatePlaceholderImage w outFile width height in
      {| st_fs := writeFileSync fs' outFile placeholder;
         st_replacements := (st_replacements st ++ [(token, relative)])%list;
         st_log := (st_log st ++ [(outFile, Placeholder)])%list |}
  end.

(** The [for] loop over the project images, with [count] rounds left from
    index [i]. *)
Fixpoint project_loop (w : world) (keys : list string) (env_IMAGE_MODEL : option string)
    (assetsDir : string) (accentPalette imgs : list string) (projects : list project)
    (count i : nat) (st : asset_state) : asset_state :=
  match count with
  | 0 => st
  | S count' =>
      let imagePrompt := projectPrompt accentPalette imgs projects i in
      let out := path_join assetsDir ("project_" ++ of_nat (i + 1) ++ ".png") in
      project_loop w keys env_IMAGE_MODEL assetsDir accentPalette imgs projects count' (S i)
        (resolve_need w keys env_IMAGE_MODEL imagePrompt out
           ("PROJECT_" ++ of_nat (i + 1) ++ "_IMG")
           ("./assets/project_" ++ of_nat (i + 1) ++ ".png") 800 600 st)
  end.

Definition numProjectsToGenerate (imgs : list string) (projects : list project) : nat :=
  if (0 <? List.length projects)%nat then Nat.min (List.length projects) 3
  else Nat.min (if (List.length imgs =? 0)%nat then 3 else List.length imgs) 3.

(** The image needs of a manifest, resolved one after the other. *)
Definition resolve_assets (w : world) (keys : list string) (env_IMAGE_MODEL : option string)
    (assetsDir : string) (m : manifest) (fs : filesystem) : asset_state :=
  let userData := match userData m with Some u => u | None => emptyBrief end in
  let accentPalette := match accentPalette m with Some p => p | None => [] end in
  let st :=
    resolve_need w keys env_IMAGE_MODEL (heroPrompt accentPalette)
      (path_join assetsDir "hero.png") "HERO_IMAGE" "./assets/hero.png" 1200 600
      {| st_fs := fs; st_replacements := []; st_log := [] |} in
  let imgs :=
    match assetsNeeded m with
    | Some {| projectImages := Some l |} => firstn 3 l
    | _ => []
    end in
  let projects :=
    match u_projects userData with
    | Some l => firstn 3 l
    | None => []
    end in
  project_loop w keys env_IMAGE_MODEL assetsDir accentPalette imgs projects
    (numProjectsToGenerate imgs projects) 0 st.

(** The handler of [/api/generate-assets].  [stored] is the manifest read
    from [manifest.json] of the project directory [dir], [None] when the
    file does not exist.  The result is the response, the file system and
    the manifest on disk after the call. *)
Definition generate_assets (w : world) (keys : list string) (env_IMAGE_MODEL : option string)
    (dir : string) (id : option string) (stored : option manifest) (fs : filesystem)
    : response * filesystem * option manifest :=
  match id with
  | None => (Failure 400 "missing id", fs, stored)
  | Some ident =>
      if ident =? "" then (Failure 400 "missing id", fs, stored)
      else
        match stored with
        | None => (Failure 404 "manifest.json not found", fs, stored)
        | Some m =>
            let st := resolve_assets w keys env_IMAGE_MODEL (path_join dir "assets") m fs in
            if (0 <? List.length (st_replacements st))%nat then
              match files m with
              | None =>
                  (Failure 500 "Cannot read properties of undefined (reading 'map')",
                   st_fs st, stored)
              | Some fl =>
                  (Ok ident, st_fs st,
                   Some (set_files (replaceInFiles replace_token fl (st_replacements st)) m))
              end
            else (Ok ident, st_fs st, stored)
        end
  end.

(* ------------------------------------------------------------------ *)
(** * Vocabulary of the properties *)

(** the error an attempt is recorded with *)
Definition recorded {A : Type} (o : outcome A) : option js_error :=
  match o with
  | Returned _ => None
  | Thrown e => Some e
  end.

(** What the design document calls a fatal error, in the terms of
    [isRetryableError]. *)
Definition fatal (e : js_error) : Prop :=
  is_num 429 (getErrorStatus e) = false
  /\ is_num 503 (getErrorStatus e) = false
  /\ includes (toLowerCase (e_message e)) "quota" = false
  /\ includes (toLowerCase (e_message e)) "overloaded" = false
  /\ includes (toLowerCase (e_message e)) "rate limit" = false.

(** A text response without a usable payload: no [text] and no part with
    text. *)
Definition no_text_payload (r : genai_response) : Prop :=
  str_or (r_text r) "" = "" /\ str_or (parts_text (r_parts r)) "" = "".

Definition no_legacy_payload (r : legacy_response) : Prop :=
  (l_text r = TextAbsent \/ l_text r = TextFn (Returned ""))
  /\ str_or (parts_text (l_parts r)) "" = "".

(** the property names of an entry, in order *)
Definition keys_of (f : jsval) : list string :=
  match f with
  | VObj fields => map fst fields
  | _ => []
  end.

(** An entry on which the validator cannot trip: it is neither [null] nor
    [undefined], and its [content] is a string or falsy. *)
Definition entry_ok (f : jsval) : bool :=
  match f with
  | VUndef | VNull => false
  | _ =>
      match get f "content" with
      | VStr _ => true
      | c => negb (truthy c)
      end
  end.

(** the number of lines of a text: [content.split('\n').length] *)
Definition line_count (content : string) : nat :=
  List.length (split (ascii_of_nat 10) content).

(** An empty heading or paragraph node without attributes occurs in the
    markup. *)
Definition has_empty_node (html : string) : bool :=
  existsb (fun tag =>
    match search (empty_tag ("<" ++ tag ++ ">") ("</" ++ tag ++ ">")) html with
    | Some _ => true
    | None => false
    end) ["h1"; "h2"; "h3"; "h4"; "h5"; "h6"; "p"].

(** the content of the first entry with the given path *)
Definition content_of (p : string) (m : manifest) : option string :=
  match files m with
  | Some l =>
      match find_file p 0 l with
      | Returned (Some (_, f)) =>
          match get f "content" with
          | VStr c => Some c
          | _ => None
          end
      | _ => None
      end
  | None => None
  end.

(** What a step of the validator is: the list as it is, or the list with the
    content of the entry found replaced. *)
Definition step_result (p : string) (l l' : list jsval) : Prop :=
  l' = l
  \/ exists i f c, find_file p 0 l = Returned (Some (i, f))
                   /\ l' = update_nth i (assign_content c) l.

(** the stylesheet, where there is one with a string for its content, is
    empty or has a hundred lines *)
Definition css_settled (l : list jsval) : Prop :=
  match find_file "styles.css" 0 l with
  | Returned (Some (_, f)) =>
      match get f "content" with
      | VStr c => c = "" \/ 100 <= line_count c
      | x => truthy x = false
      end
  | Returned None => True
  | Thrown _ => False
  end.

Definition js_settled (l : list jsval) : Prop :=
  match find_file "script.js" 0 l with
  | Returned (Some (_, f)) =>
      match get f "content" with
      | VStr c => (c =? "") = false /\ (String.length (trim c) <? 50)%nat = false
      | _ => False
      end
  | Returned None => True
  | Thrown _ => False
  end.

Definition html_settled (l : list jsval) : Prop :=
  match find_file "index.html" 0 l with
  | Returned (Some (_, f)) =>
      match get f "content" with
      | VStr c => True
      | x => truthy x = false
      end
  | Returned None => True
  | Thrown _ => False
  end.

(** An image need of the asset phase: what is asked of the provider, where
    the image goes, the token it resolves and the size of its placeholder. *)
Record need : Type := {
  n_prompt : string;
  n_outFile : string;
  n_token : string;
  n_relative : string;
  n_width : nat;
  n_height : nat
}.

(** The image needs of a manifest, in the order of the handler: the hero
    image, then the project images. *)
Definition image_needs (assetsDir : string) (m : manifest) : list need :=
  let brief_of_m := match userData m with Some u => u | None => emptyBrief end in
  let palette := match accentPalette m with Some p => p | None => [] end in
  let imgs :=
    match assetsNeeded m with
    | Some {| projectImages := Some l |} => firstn 3 l
    | _ => []
    end in
  let projects :=
    match u_projects brief_of_m with
    | Some l => firstn 3 l
    | None => []
    end in
  {| n_prompt := heroPrompt palette;
     n_outFile := path_join assetsDir "hero.png";
     n_token := "HERO_IMAGE";
     n_relative := "./assets/hero.png";
     n_width := 1200; n_height := 600 |}
  :: map (fun i =>
            {| n_prompt := projectPrompt palette imgs projects i;
               n_outFile := path_join assetsDir ("project_" ++ of_nat (i + 1) ++ ".png");
               n_token := "PROJECT_" ++ of_nat (i + 1) ++ "_IMG";
               n_relative := "./assets/project_" ++ of_nat (i + 1) ++ ".png";
               n_width := 800; n_height := 600 |})
         (seq 0 (numProjectsToGenerate imgs projects)).

(** Image synthesis for a need fails for good: [generateImageToFile]
    throws. *)
Definition synthesis_fails (w : world) (keys : list string)
    (env_IMAGE_MODEL : option string) (nd : need) : bool :=
  match snd (snd (generateImageToFile w keys env_IMAGE_MODEL []
                    (n_prompt nd) (n_outFile nd))) with
  | Thrown _ => true
  | Returned _ => false
  end.

Definition resolve_one (w : world) (keys : list string) (env_IMAGE_MODEL : option string)
    (st : asset_state) (nd : need) : asset_state :=
  resolve_need w keys env_IMAGE_MODEL (n_prompt nd) (n_outFile nd) (n_token nd)
    (n_relative nd) (n_width nd) (n_height nd) st.

(** ** Worlds and inputs of the examples *)

Definition file_entry (p c : string) : jsval :=
  VObj [("path", VStr p); ("content", VStr c)].

Definition manifest_of (l : list jsval) : manifest :=
  {| site_name := None; files := Some l; assetsNeeded := None; userData := None;
     accentPalette := None |}.

Definition empty_response : genai_response := {| r_text := None; r_parts := None |}.

Definition empty_legacy : legacy_response := {| l_text := TextAbsent; l_parts := None |}.

Definition invalid_key : js_error :=
  mkError "ApiError" "API key not valid. Please pass a valid API key." (VNum 400)
    VUndef VUndef VUndef.

(** every call is refused with status 400 *)
Definition world_refusing : world :=
  {| genai_text := fun _ _ _ => Thrown invalid_key;
     legacy_textgen := fun _ _ _ => Thrown invalid_key;
     genai_image := fun _ _ _ _ _ _ => Thrown invalid_key;
     legacy_image := fun _ _ _ _ _ _ => Thrown invalid_key;
     axios_get := fun _ _ => Thrown (new_Error "getaddrinfo ENOTFOUND via.placeholder.com") |}.

(** the first key gets responses without payload, every other key gets
    an answer *)
Definition world_first_key_empty : world :=
  {| genai_text := fun _ i _ =>
       Returned (if (i =? 0)%nat then empty_response
                 else {| r_text := Some "{}"; r_parts := None |});
     legacy_textgen := fun _ _ _ => Returned empty_legacy;
     genai_image := fun _ _ i _ _ _ =>
       Returned (if (i =? 0)%nat then None else Some "aW1hZ2U=");
     legacy_image := fun _ _ _ _ _ _ => Returned None;
     axios_get := fun _ _ => Thrown (new_Error "getaddrinfo ENOTFOUND via.placeholder.com") |}.

(** image generation is refused and the placeholder service answers with
    the given body *)
Definition world_placeholder (body : string) : world :=
  {| genai_text := fun _ _ _ => Thrown invalid_key;
     legacy_textgen := fun _ _ _ => Thrown invalid_key;
     genai_image := fun _ _ _ _ _ _ => Thrown invalid_key;
     legacy_image := fun _ _ _ _ _ _ => Thrown invalid_key;
     axios_get := fun _ _ => Returned body |}.

Definition complete_page : string :=
  "<body><header><nav></nav></header><main><section class=" ++ dq ++ "hero" ++ dq
  ++ "><h2></h2></section><section id=" ++ dq ++ "about" ++ dq
  ++ "><p>a</p><p>b</p></section><section id=" ++ dq ++ "skills" ++ dq
  ++ "><ul><li>HTML</li><li>CSS</li><li>JavaScript</li></ul></section><section id="
  ++ dq ++ "contact" ++ dq ++ "></section></main><footer></footer></body>".

(** a brief whose title is the text of a token *)
Definition brief_with_token : brief :=
  {| u_name := Some "Ada"; u_title := Some "{{NAME}}"; u_tagline := None;
     u_about := None; u_email := None; u_accent := None; u_skills := None;
     u_projects := None; u_prompt := None |}.

Definition page_with_token : string :=
  "<p>{{TITLE}}</p><section id=" ++ dq ++ "skills" ++ dq ++ "></section>".

(** a manifest as extracted, with the given project prompts *)
Definition extracted_with (prompts : list string) : manifest :=
  {| site_name := Some "Ada"; files := Some [];
     assetsNeeded := Some {| heroImage := Some "comic book hero";
                             projectImages := Some prompts |};
     userData := None; accentPalette := None |}.

(** a manifest one of whose files shows a fenced command *)
Definition manifest_with_snippet : jsval :=
  VObj [("files",
         VArr [VObj [("path", VStr "README.md");
                     ("content", VStr "Run ```npm start``` then open the page")]])].

Definition small_manifest : jsval := VObj [("site_name", VStr "Ada")].

Definition small_manifest_text : string :=
  "{" ++ dq ++ "site_name" ++ dq ++ ":" ++ dq ++ "Ada" ++ dq ++ "}".

(** The text begins, after white space, with the opening bracket of an
    array or the opening quote of a string. *)
Definition opens_array_or_string (pre : string) : bool :=
  match skip_ws pre with
  | String c _ => Ascii.eqb c "[" || (nat_of_ascii c =? 34)%nat
  | "" => false
  end.

(** ** Well-formed JSON values *)

Fixpoint distinct (l : list string) : bool :=
  match l with
  | [] => true
  | k :: rest => negb (existsb (String.eqb k) rest) && distinct rest
  end.

(** A value that [JSON.stringify] writes in full: it holds no [undefined],
    and no object in it has two properties of the same name. *)
Fixpoint json_wf (v : jsval) : bool :=
  match v with
  | VUndef => false
  | VNull | VBool _ | VNum _ | VStr _ => true
  | VArr items => forallb json_wf items
  | VObj fields =>
      forallb (fun kx => json_wf (snd kx)) fields && distinct (map fst fields)
  end.

(** the text of an array element *)
Definition element_text (x : jsval) : string :=
  match JSON_stringify x with
  | Some t => t
  | None => "null"
  end.

(** the text of a property *)
Definition member_text (kx : string * jsval) : string :=
  quote (fst kx) ++ ":" ++ element_text (snd kx).

(** A text after a number does not go on with a digit, a fraction or an
    exponent. *)
Definition stops (rest : string) : bool :=
  match rest with
  | "" => true
  | String c _ =>
      negb (is_digit c || Ascii.eqb c "." || Ascii.eqb c "e" || Ascii.eqb c "E")
  end.

(** the first character of the text of a value: not white space and not a
    closing bracket *)
Definition head_ok (s : string) : bool :=
  match s with
  | "" => false
  | String c _ => negb (is_json_ws c) && negb (Ascii.eqb c "]")
  end.

(** What the main induction proves of a value: its text, followed by a text
    that a number may stop at, parses to the value and leaves that text. *)
Definition reads_back (v : jsval) : Prop :=
  json_wf v = true ->
  forall fuel rest,
    String.length (element_text v) <= fuel -> stops rest = true ->
    parse_value fuel (element_text v ++ rest) = Some (v, rest).


(* ------------------------------------------------------------------ *)
(** * Further parts of the server *)

(** ** Masking a key for the log *)

(** [maskedKey]: [key.slice(-4)] is the text from four code units before the
    end. *)
Definition maskedKey (key : string) : string :=
  if key =? "" then "unknown"
  else if (String.length key <=? 8)%nat then key
  else slice 0 4 key ++ "..." ++ drop (String.length key - 4) key.

(** the positions of the keys tried, in order *)
Definition keys_tried (tr : attempts) : list nat := map fst tr.

(** An attempt that ends in an error the rotation goes on from. *)
Definition retryable_failure {A : Type} (o : outcome A) : Prop :=
  exists e, o = Thrown e /\ isRetryableError e = true.

Definition no_keys_error : js_error :=
  new_Error "No Gemini API keys configured. Please set them in app/server/.env file".

(** A value of the environment that [GEMINI_KEYS] keeps. *)
Definition usable_key (k : option string) : bool :=
  match k with
  | Some key => negb (key =? "") && negb (key =? "your_api_key_here")
  | None => false
  end.

Definition quota_error : js_error :=
  mkError "ApiError" "Resource has been exhausted (e.g. check quota)." (VNum 429)
    VUndef VUndef VUndef.

(** the keys before position [n] are over quota, the others get an answer *)
Definition world_quota_until (n : nat) : world :=
  {| genai_text := fun _ i _ =>
       if (i <? n)%nat then Thrown quota_error
       else Returned {| r_text := Some "{}"; r_parts := None |};
     legacy_textgen := fun _ _ _ => Thrown quota_error;
     genai_image := fun _ _ i _ _ _ =>
       if (i <? n)%nat then Thrown quota_error else Returned (Some "aW1hZ2U=");
     legacy_image := fun _ _ _ _ _ _ => Thrown quota_error;
     axios_get := fun _ _ => Thrown (new_Error "getaddrinfo ENOTFOUND via.placeholder.com") |}.

(** ** Vocabulary of the extractor *)

(** [t] is a contiguous piece of [s] *)
Definition piece_of (t s : string) : Prop := exists a b, s = a ++ t ++ b.

(** ** Vocabulary of token substitution *)

Fixpoint all_chars (p : ascii -> bool) (s : string) : bool :=
  match s with
  | "" => true
  | String c t => p c && all_chars p t
  end.

(** what [\w] matches *)
Definition is_word (c : ascii) : bool :=
  let n := nat_of_ascii c in
  ((48 <=? n)%nat && (n <=? 57)%nat) || ((65 <=? n)%nat && (n <=? 90)%nat)
  || ((97 <=? n)%nat && (n <=? 122)%nat) || (n =? 95)%nat.

(** A key that stands for itself when it is spliced into the source of a
    pattern, as [HERO_IMAGE] and [PROJECT_1_IMG] do. *)
Definition word_key (k : string) : bool := all_chars is_word k.

(** the content of an entry, when it is a string *)
Definition file_content (f : jsval) : option string :=
  match get f "content" with
  | VStr c => Some c
  | _ => None
  end.

(** The colours the brief gives: the entries of the array, or the parts of
    the text between commas with the white space at their ends removed,
    that are not empty. *)
Definition colours_given (userData : brief) : list string :=
  match u_accent userData with
  | Some (AccentArray colors) => filter nonempty colors
  | Some (AccentString s) => filter nonempty (map trim (split "," s))
  | None => []
  end.

(** a brief whose accent has blank entries around one colour *)
Definition brief_blank_accent : brief :=
  {| u_name := None; u_title := None; u_tagline := None; u_about := None;
     u_email := None; u_accent := Some (AccentString " , teal ,"); u_skills := None;
     u_projects := None; u_prompt := None |}.

(* ------------------------------------------------------------------ *)
(** * The spec phase before repair *)

Definition MAX_RETRY : nat := 3.

(** what the handler appends to the base prompt after a text that did not
    parse *)
Definition reminder : string :=
  nl ++ nl
  ++ "REMEMBER: Return ONLY valid JSON that matches the schema. No commentary, no markdown, no extra text.".

(** The [for] loop of the handler of [/api/generate-spec] that asks for a
    manifest until one parses, from attempt number [attempt] on, with
    [rounds] rounds left.  The provider need not answer the same way twice:
    [ws n] is the provider during attempt [n].  The result is the prompts
    sent, in order, and [manifest] after the loop or the error that left it;
    [manifest] is [undefined] when the loop ends without a [break]. *)
Fixpoint extraction_loop (ws : nat -> world) (keys : list string) (basePrompt : string)
    (rounds attempt : nat) (prompt : string) : list string * outcome jsval :=
  match rounds with
  | 0 => ([], Returned VUndef)
  | S rounds' =>
      match snd (generateText (ws attempt) keys prompt) with
      | Thrown e => ([prompt], Thrown e)
      | Returned text =>
          match robustJsonExtract text with
          | Returned manifest => ([prompt], Returned manifest)
          | Thrown parseErr =>
              if (attempt =? MAX_RETRY)%nat then ([prompt], Thrown parseErr)
              else
                let (sent, res) :=
                  extraction_loop ws keys basePrompt rounds' (S attempt)
                    (basePrompt ++ reminder) in
                (prompt :: sent, res)
          end
      end
  end.

Definition extract_manifest (ws : nat -> world) (keys : list string) (basePrompt : string)
    : list string * outcome jsval :=
  extraction_loop ws keys basePrompt MAX_RETRY 1 basePrompt.

(** the prompt of an attempt *)
Definition attempt_prompt (basePrompt : string) (attempt : nat) : string :=
  if (attempt =? 1)%nat then basePrompt else basePrompt ++ reminder.

(** what attempt [n] gives: the text of the rotation, parsed *)
Definition attempt_result (ws : nat -> world) (keys : list string) (basePrompt : string)
    (n : nat) : outcome jsval :=
  match snd (generateText (ws n) keys (attempt_prompt basePrompt n)) with
  | Thrown e => Thrown e
  | Returned text => robustJsonExtract text
  end.

(** attempt [n] got a text, and the text did not parse *)
Definition unparsable (ws : nat -> world) (keys : list string) (basePrompt : string)
    (n : nat) : Prop :=
  exists text e,
    snd (generateText (ws n) keys (attempt_prompt basePrompt n)) = Returned text
    /\ robustJsonExtract text = Thrown e.

(* ------------------------------------------------------------------ *)
(** * The prompt made from the brief *)

(** the text of [makeUserPromptFromStructured] when the body has a prompt *)
Definition prompt_mode_text (prompt : string) : string :=
  trim (join nl
   ["";
    "YOU ARE CREATING A COMPLETE PROFESSIONAL PORTFOLIO WEBSITE.";
    "";
    "USER'S REQUEST:";
    prompt;
    "";
    "=== MANDATORY SECTIONS YOU MUST CREATE ===";
    "";
    "1. HEADER & NAVIGATION:";
    "   - Fixed/sticky navigation bar";
    "   - Logo or name on the left";
    "   - Navigation links: About, Skills, Projects, Contact";
    "";
    "2. HERO SECTION:";
    "   - Full viewport height (100vh)";
    "   - Background image: {{HERO_IMAGE}}";
    "   - Centered content with:";
    "     * Large name/title";
    "     * Subtitle/tagline";
    "     * Call-to-action button";
    "   - Overlay for text readability";
    "";
    "3. ABOUT SECTION (#about):";
    "   - Heading: " ++ dq ++ "About Me" ++ dq ++ " or similar";
    "   - 2-3 paragraphs of content based on user's request";
    "   - Professional styling with proper spacing";
    "";
    "4. SKILLS SECTION (#skills):";
    "   - Heading: " ++ dq ++ "Skills" ++ dq ++ " or " ++ dq ++ "Technologies" ++ dq;
    "   - Display skills as styled chips/badges";
    "   - Use Flexbox wrap for responsive layout";
    "   - Use accent color from user request";
    "";
    "5. PROJECTS SECTION (#projects):";
    "   - Heading: " ++ dq ++ "Projects" ++ dq ++ " or " ++ dq ++ "My Work" ++ dq;
    "   - CSS Grid layout (3 columns desktop, responsive)";
    "   - Project cards with:";
    "     * Image: {{PROJECT_1_IMG}}, {{PROJECT_2_IMG}}, {{PROJECT_3_IMG}}";
    "     * Project title";
    "     * Project description";
    "     * Hover effects and shadows";
    "   - Extract project details from user's description";
    "";
    "6. CONTACT SECTION (#contact):";
    "   - Heading: " ++ dq ++ "Contact" ++ dq ++ " or " ++ dq ++ "Get In Touch" ++ dq;
    "   - Email form or email link";
    "   - Social media links (placeholder)";
    "   - Professional styling";
    "";
    "7. FOOTER:";
    "   - Copyright notice with current year";
    "   - Additional links if needed";
    "   - Professional styling";
    "";
    "=== CSS REQUIREMENTS (MUST BE 400+ LINES) ===";
    "- CSS Variables in :root for all colors, spacing, fonts";
    "- Modern typography with responsive font sizes (clamp)";
    "- CSS Grid for main layouts";
    "- Flexbox for components";
    "- Smooth transitions and animations (0.3s ease)";
    "- Hover effects on all interactive elements";
    "- Responsive breakpoints: mobile (default), tablet (768px), desktop (1024px)";
    "- Professional color scheme";
    "- Proper spacing and padding throughout";
    "";
    "=== JAVASCRIPT REQUIREMENTS ===";
    "- Smooth scrolling for anchor links";
    "- Mobile menu toggle (hamburger menu)";
    "- Set current year in footer";
    "- Any animations or interactive elements mentioned in user request";
    "";
    "=== ABSOLUTE RULES ===";
    "- NEVER create empty HTML tags - ALWAYS fill with content!";
    "- CSS MUST be 400+ lines of comprehensive styling";
    "- Extract ALL information from user's description and use it in the website";
    "- Images MUST be properly sized and arranged using CSS Grid/Flexbox";
    "- Make it look like a $5000+ professional portfolio website";
    "- Output ONLY valid JSON - no markdown, no explanations";
    "";
    "Create a BEAUTIFUL, COMPLETE, PROFESSIONAL portfolio based on: " ++ dq ++ prompt ++ dq;
    ""]).

(** the text of [makeUserPromptFromStructured] for the fields of the form;
    [aboutText] is the about text or its fallback, [skillsLines],
    [skillsQuoted] and [projectLines] are the three lists as the template
    joins them, [year] is [new Date().getFullYear()] *)
Definition structured_text (year name title tagline email aboutText accent skillsLines
    projectLines skillsQuoted : string) : string :=
  trim (join nl
   ["";
    "YOU ARE CREATING A COMPLETE PROFESSIONAL PORTFOLIO WEBSITE. USE ALL THE USER DATA BELOW.";
    "";
    "=== USER DATA - YOU MUST USE ALL OF THIS ===";
    "Name: " ++ dq ++ name ++ dq;
    "Professional Title: " ++ dq ++ title ++ dq;
    "Tagline: " ++ dq ++ tagline ++ dq;
    "Email: " ++ dq ++ email ++ dq;
    "About Me Text: " ++ dq ++ aboutText ++ dq;
    "Accent Color: " ++ dq ++ accent ++ dq ++ " - USE THIS for buttons, links, highlights, skill chips";
    "";
    "SKILLS TO DISPLAY (create styled chips/badges for each):";
    skillsLines;
    "";
    "PROJECTS TO SHOWCASE (create cards with title AND description):";
    projectLines;
    "";
    "=== CRITICAL REQUIREMENTS ===";
    "";
    "1. HTML - MUST INCLUDE ALL SECTIONS WITH USER DATA:";
    "   - Header Navigation: Links to #about, #skills, #projects, #contact";
    "   - Hero Section: ";
    "     * Background image: {{HERO_IMAGE}}";
    "     * Display: " ++ dq ++ name ++ dq ++ " (NOT empty!)";
    "     * Subtitle: " ++ dq ++ title ++ dq ++ " (NOT empty!)";
    "     * Tagline: " ++ dq ++ tagline ++ dq ++ " (NOT empty!)";
    "     * CTA button: " ++ dq ++ "View My Work" ++ dq ++ " or " ++ dq ++ "Contact Me" ++ dq;
    "   - About Section (#about):";
    "     * Heading: " ++ dq ++ "About Me" ++ dq;
    "     * You MUST expand " ++ dq ++ aboutText ++ dq ++ " into 2-3 professional, engaging paragraphs";
    "     * Don't just copy-paste - enhance and expand the user's about text";
    "     * Add professional details, expertise areas, passion, and approach to work";
    "     * Make it compelling and well-written (ACTUAL EXPANDED TEXT, NOT EMPTY!)";
    "   - Skills Section (#skills):";
    "     * Heading: " ++ dq ++ "Skills" ++ dq ++ " or " ++ dq ++ "Technologies" ++ dq;
    "     * Display ALL skills: " ++ skillsQuoted ++ " as styled chips/badges";
    "     * Use accent color: " ++ accent;
    "   - Projects Section (#projects):";
    "     * Heading: " ++ dq ++ "Projects" ++ dq ++ " or " ++ dq ++ "My Work" ++ dq;
    "     * Grid layout with project cards";
    "     * Each project card MUST include:";
    "       - Image: {{PROJECT_1_IMG}}, {{PROJECT_2_IMG}}, {{PROJECT_3_IMG}}";
    "       - Title from user's project data (NOT empty!)";
    "       - Description from user's project data (NOT empty!)";
    "   - Contact Section (#contact):";
    "     * Heading: " ++ dq ++ "Contact" ++ dq ++ " or " ++ dq ++ "Get In Touch" ++ dq;
    "     * Email: <a href=" ++ dq ++ "mailto:" ++ email ++ dq ++ ">" ++ email ++ "</a>";
    "     * Social links placeholder";
    "   - Footer:";
    "     * Copyright: " ++ dq ++ copyright_sign ++ " " ++ year ++ " " ++ name ++ ". All rights reserved." ++ dq;
    "";
    "2. CSS - MUST BE 400+ LINES WITH:";
    "   - CSS Variables in :root for ALL colors (primary, accent: " ++ accent ++ ", text, bg, etc.)";
    "   - Typography: system font stack, responsive font sizes using clamp()";
    "   - Hero: min-height: 100vh, centered content, background image with overlay";
    "   - Navigation: sticky/fixed position, smooth scroll";
    "   - Project cards: CSS Grid (3 cols desktop, 2 tablet, 1 mobile), hover effects, shadows";
    "   - Skills: Flexbox wrap, chips with accent color " ++ accent ++ ", rounded corners";
    "   - Responsive: @media queries for 768px, 1024px, 1440px";
    "   - Animations: transitions (0.3s ease), hover effects, fade-ins";
    "   - Proper spacing using CSS variables";
    "";
    "3. JavaScript - MUST INCLUDE:";
    "   - Smooth scrolling for navigation links";
    "   - Mobile menu toggle (hamburger for mobile)";
    "   - Set current year in footer dynamically";
    "   - Any interactive animations";
    "";
    "4. ABSOLUTE RULES:";
    "   - NEVER create empty tags like <h2></h2>, <p></p> - ALWAYS fill with user's actual data!";
    "   - EVERY heading and paragraph MUST contain the user's real information";
    "   - CSS MUST be comprehensive (400+ lines) - not minimal styling!";
    "   - Images MUST be properly arranged using CSS Grid/Flexbox";
    "   - Make it look like a $5000+ professional portfolio website";
    "";
    "OUTPUT MUST BE VALID JSON ONLY - NO MARKDOWN, NO EXPLANATIONS.";
    ""]).

(** Errors thread through the conversions of a template literal: the first
    one that throws ends the evaluation. *)
Definition and_then {A B : Type} (o : outcome A) (k : A -> outcome B) : outcome B :=
  match o with
  | Returned a => k a
  | Thrown e => Thrown e
  end.

Notation "x <- o ;; k" := (and_then o (fun x => k))
  (at level 61, o at next level, right associativity).

(** what a conversion throws for an object without a usable [toString] *)
Definition conversion_error : js_error :=
  type_error "Cannot convert object to primitive value".

(** The conversion a template literal applies to a value.  An object is
    converted through its [toString]: the one of [Object.prototype] gives
    [[object Object]], but a property of the object named [toString] hides
    it, and a value read from JSON is never a function, so neither it nor
    [valueOf] gives a primitive and the conversion throws.  An array joins
    the conversions of its elements, [null] and [undefined] counting as the
    empty text. *)
Fixpoint to_string (v : jsval) : outcome string :=
  match v with
  | VUndef => Returned "undefined"
  | VNull => Returned "null"
  | VBool b => Returned (if b then "true" else "false")
  | VNum z => Returned (string_of_Z z)
  | VStr s => Returned s
  | VArr items =>
      let fix elements (l : list jsval) : outcome (list string) :=
        match l with
        | [] => Returned []
        | x :: rest =>
            match match x with
                  | VUndef | VNull => Returned ""
                  | _ => to_string x
                  end with
            | Thrown e => Thrown e
            | Returned s =>
                match elements rest with
                | Thrown e => Thrown e
                | Returned ss => Returned (s :: ss)
                end
            end
        end in
      match elements items with
      | Thrown e => Thrown e
      | Returned ss => Returned (join "," ss)
      end
  | VObj fields =>
      if existsb (fun kx => fst kx =? "toString") fields
      then Thrown conversion_error
      else Returned "[object Object]"
  end.

(** the conversions of the elements of a list, in order *)
Fixpoint to_strings (l : list jsval) : outcome (list string) :=
  match l with
  | [] => Returned []
  | x :: rest =>
      s <- to_string x ;;
      ss <- to_strings rest ;;
      Returned (s :: ss)
  end.

(** a destructured property with its default, which stands in for
    [undefined] only *)
Definition field (body : jsval) (k : string) (default : jsval) : jsval :=
  match get body k with
  | VUndef => default
  | v => v
  end.

(** The dash of the project lines, U+2014.  It lies beyond the code units
    of this development and is written as the three bytes of its UTF-8
    form; no operation of the program looks inside it. *)
Definition em_dash : string :=
  String (ascii_of_nat 226) (String (ascii_of_nat 128) (String (ascii_of_nat 148) "")).

Definition default_skills : list jsval := [VStr "HTML"; VStr "CSS"; VStr "JavaScript"].

Definition default_projects : jsval :=
  VArr [VObj [("title", VStr "Project Alpha"); ("desc", VStr "First project.")];
        VObj [("title", VStr "Project Beta"); ("desc", VStr "Second project.")];
        VObj [("title", VStr "Project Gamma"); ("desc", VStr "Third project.")]].

Definition skillsList (skills : jsval) : list jsval :=
  match skills with
  | VArr items => items
  | VStr s => map VStr (filter nonempty (map trim (split "," s)))
  | _ => default_skills
  end.

(** the callback of [projects.slice(0, 6).map]; reading [title] off [null]
    throws *)
Definition project_line (i : nat) (p : jsval) : outcome string :=
  match p with
  | VNull => Thrown (type_error "Cannot read properties of null (reading 'title')")
  | VUndef => Thrown (type_error "Cannot read properties of undefined (reading 'title')")
  | _ =>
      title <- to_string (js_or (get p "title") (VStr ("Project " ++ of_nat (i + 1)))) ;;
      desc <- to_string (js_or (get p "desc") (VStr "No description")) ;;
      Returned ("- " ++ of_nat (i + 1) ++ ". " ++ title ++ " " ++ em_dash ++ " " ++ desc)
  end.

Fixpoint project_lines (i : nat) (ps : list jsval) : outcome (list string) :=
  match ps with
  | [] => Returned []
  | p :: rest =>
      match project_line i p with
      | Thrown e => Thrown e
      | Returned line =>
          match project_lines (S i) rest with
          | Thrown e => Thrown e
          | Returned lines => Returned (line :: lines)
          end
      end
  end.

Definition projectsList (projects : jsval) : outcome string :=
  match projects with
  | VArr (p :: ps) =>
      match project_lines 0 (firstn 6 (p :: ps)) with
      | Thrown e => Thrown e
      | Returned lines => Returned (join nl lines)
      end
  | _ => Returned "- No projects specified"
  end.

(** [projectsList.split("\n").map((p, i) => `Project ${i + 1}: ${p}`)] *)
Fixpoint numbered (i : nat) (lines : list string) : list string :=
  match lines with
  | [] => []
  | p :: rest => ("Project " ++ of_nat (i + 1) ++ ": " ++ p) :: numbered (S i) rest
  end.

(** [year] is [new Date().getFullYear()] as a text.  The handler passes
    [req.body || {}]; a missing argument is the empty object.  The list of
    projects is made before the template is evaluated; the template then
    converts its values in the order in which it names them. *)
Definition makeUserPromptFromStructured (year : string) (body : jsval) : outcome string :=
  match body with
  | VNull => Thrown (type_error "Cannot read properties of null (reading 'prompt')")
  | _ =>
      let body := match body with VUndef => VObj [] | b => b end in
      if truthy (get body "prompt") then
        prompt <- to_string (get body "prompt") ;;
        Returned (prompt_mode_text prompt)
      else
        let name := field body "name" (VStr "Portfolio Owner") in
        let title := field body "title" (VStr "Web Developer") in
        let tagline := field body "tagline" (VStr "I build fast, accessible interfaces.") in
        let about := field body "about" (VStr "Short paragraph about me.") in
        let email := field body "email" (VStr "hello@example.com") in
        let accent := field body "accent" (VStr "#22D3EE") in
        let skills := field body "skills" (VArr default_skills) in
        let projects := field body "projects" default_projects in
        let skillsList := skillsList skills in
        projectsList <- projectsList projects ;;
        name <- to_string name ;;
        title <- to_string title ;;
        tagline <- to_string tagline ;;
        email <- to_string email ;;
        about <- to_string
                   (js_or about
                      (VStr "Passionate professional with expertise in web development")) ;;
        accent <- to_string accent ;;
        skills <- to_strings skillsList ;;
        Returned
          (structured_text year name title tagline email about accent
             (join nl (map (fun s => "- " ++ s) skills))
             (join nl (numbered 0 (split (ascii_of_nat 10) projectsList)))
             (join ", " (map (fun s => dq ++ s ++ dq) skills)))
  end.

(** [null] or [undefined] *)
Definition is_nullish (v : jsval) : bool :=
  match v with
  | VUndef | VNull => true
  | _ => false
  end.

(** a body of the form with the given projects *)
Definition form_with_projects (projects : jsval) : jsval :=
  VObj [("name", VStr "Ada"); ("projects", projects)].

(** ** Vocabulary of the prompt builder *)

(** A value that a template literal converts without an error: no object
    in it, through its arrays, has a property named [toString]. *)
Fixpoint plain (v : jsval) : bool :=
  match v with
  | VArr items => forallb plain items
  | VObj fields => negb (existsb (fun kx => fst kx =? "toString") fields)
  | _ => true
  end.

(** an entry of [projects] that gives a line *)
Definition project_ok (p : jsval) : bool :=
  negb (is_nullish p) && plain (get p "title") && plain (get p "desc").

(** The fields of the form can all be spliced into the template. *)
Definition form_ok (fields : list (string * jsval)) : bool :=
  match field (VObj fields) "projects" default_projects with
  | VArr ps => forallb project_ok (firstn 6 ps)
  | _ => true
  end
  && forallb (fun k => plain (lookup k fields))
       ["name"; "title"; "tagline"; "email"; "about"; "accent"]
  && match lookup "skills" fields with
     | VArr items => forallb plain items
     | _ => true
     end.

(** The body gives a prompt: its [prompt], when it has a truthy one, and
    otherwise the fields of its form can be spliced in. *)
Definition builder_ok (fields : list (string * jsval)) : bool :=
  if truthy (lookup "prompt" fields) then plain (lookup "prompt" fields)
  else form_ok fields.

(* ------------------------------------------------------------------ *)
(** * The build phase: the files of the manifest on disk *)

Section Build.
(** [path.join(buildDir, p)]: the segments joined and normalised, as the
    library does it *)
Variable path_join_norm : string -> string -> string.

(** What one round of the loop over [manifest.files] does with an entry: it
    passes it over, writes it, or trips over it. *)
Inductive build_step : Type :=
| Passed
| Written (dest content : string)
| Tripped (e : js_error).

(** [["a", ".."].includes("..")] *)
Definition array_includes (items : list jsval) (s : string) : bool :=
  existsb (fun x => match x with VStr t => t =? s | _ => false end) items.

Definition build_entry (buildDir : string) (f : jsval) : build_step :=
  if negb (truthy (get f "path")) then Passed
  else
    match get f "content" with
    | VStr content =>
        match get f "path" with
        | VStr p =>
            if includes p ".." then Passed
            else Written (path_join_norm buildDir p) content
        | VArr items =>
            if array_includes items ".." then Passed
            else Tripped (type_error
                   ("The " ++ dq ++ "path" ++ dq
                    ++ " argument must be of type string. Received an instance of Array"))
        | _ => Tripped (type_error "f.path.includes is not a function")
        end
    | _ => Passed
    end.

(** the [for] loop over the entries: the file system after it and the error
    that ended it, if any *)
Fixpoint build_loop (buildDir : string) (entries : list jsval) (fs : filesystem)
    : filesystem * option js_error :=
  match entries with
  | [] => (fs, None)
  | f :: rest =>
      match build_entry buildDir f with
      | Passed => build_loop buildDir rest fs
      | Written dest content =>
          build_loop buildDir rest (writeFileSync fs dest (Utf8 content))
      | Tripped e => (fs, Some e)
      end
  end.

Fixpoint chars (s : string) : list jsval :=
  match s with
  | "" => []
  | String c t => VStr (String c "") :: chars t
  end.

(** [for (const f of manifest.files)] of the handler of [/api/build], where
    [files] is the value of [manifest.files]: an array is gone through, a
    string too, character by character, and nothing else can be iterated. *)
Definition write_build_files (buildDir : string) (files : jsval) (fs : filesystem)
    : filesystem * option js_error :=
  match files with
  | VArr entries => build_loop buildDir entries fs
  | VStr s => build_loop buildDir (chars s) fs
  | _ => (fs, Some (type_error "manifest.files is not iterable"))
  end.
End Build.

(** An entry the build writes: its path is a string that is not empty and
    holds no two dots in a row, and its content is a string. *)
Definition buildable (f : jsval) : option (string * string) :=
  match get f "path", get f "content" with
  | VStr p, VStr c => if nonempty p && negb (includes p "..") then Some (p, c) else None
  | _, _ => None
  end.

(* ------------------------------------------------------------------ *)
(** * The first version of the server

    [app/server/server.js] has one client and one key, no rotation and no
    validator.  The extractor, [replaceInFiles] and the loop of the build
    are the same text as in the final version; its image adapter and its
    asset phase differ and are embedded here. *)

Module Legacy.

(** What the image call of the client resolves to:
    [response.candidates[0].finishReason] and the [inlineData.data] of the
    first part that has one. *)
Record image_response : Type := {
  finishReason : option string;
  inlineData : option string
}.

(** The provider, as the response it gives to the call for an output file
    and a prompt. *)
Definition provider : Type := string -> string -> outcome image_response.

(** The text [writePlaceholder] makes for width 1600, height 900 and the two
    default colours, which is what every call of the program passes.  The
    products in the path, [height*0.7] and its like, are 630, 480, 360, 960,
    720 and 450, exactly. *)
Definition placeholderSvg : string :=
  trim (join nl
   ["";
    "<svg xmlns=" ++ dq ++ "http://www.w3.org/2000/svg" ++ dq ++ " width=" ++ dq ++ "1600" ++ dq ++ " height=" ++ dq ++ "900" ++ dq ++ ">";
    "  <defs>";
    "    <linearGradient id=" ++ dq ++ "g" ++ dq ++ " x1=" ++ dq ++ "0" ++ dq ++ " x2=" ++ dq ++ "1" ++ dq ++ " y1=" ++ dq ++ "0" ++ dq ++ " y2=" ++ dq ++ "1" ++ dq ++ ">";
    "      <stop offset=" ++ dq ++ "0%" ++ dq ++ " stop-color=" ++ dq ++ "#d1d5db" ++ dq ++ "/>";
    "      <stop offset=" ++ dq ++ "100%" ++ dq ++ " stop-color=" ++ dq ++ "#f3f4f6" ++ dq ++ "/>";
    "    </linearGradient>";
    "  </defs>";
    "  <rect width=" ++ dq ++ "100%" ++ dq ++ " height=" ++ dq ++ "100%" ++ dq ++ " fill=" ++ dq ++ "url(#g)" ++ dq ++ "/>";
    "  <g opacity=" ++ dq ++ "0.25" ++ dq ++ ">";
    "    <path d=" ++ dq ++ "M0 630 L 480 360 L 960 720 L 1600 450 L 1600 900 L 0 900 Z" ++ dq ++ " fill=" ++ dq ++ "#e5e7eb" ++ dq ++ "/>";
    "  </g>";
    "</svg>"]).

Definition writePlaceholder (fs : filesystem) (outFile : string)
    : filesystem * outcome string :=
  (writeFileSync fs outFile (Utf8 placeholderSvg), Returned outFile).

Definition safePrompt (prompt : string) : string :=
  (if prompt =? "" then "clean neutral geometric portfolio banner, no people, no text"
   else prompt)
  ++ " | neutral colors | no people | no logos | studio lighting | web background | minimal | photograph-like".

Definition generateImageToFile (p : provider) (fs : filesystem) (prompt outFile : string)
    : filesystem * outcome string :=
  match p outFile (safePrompt prompt) with
  | Thrown e => (fs, Thrown e)
  | Returned resp =>
      match finishReason resp with
      | Some "SAFETY" => writePlaceholder fs outFile
      | _ =>
          match inlineData resp with
          | Some inline =>
              if inline =? "" then writePlaceholder fs outFile
              else (writeFileSync fs outFile (Base64 inline), Returned outFile)
          | None => writePlaceholder fs outFile
          end
      end
  end.

(** The state of the asset phase: the file system and the [replacements]
    object, or the error that ended the phase. *)
Definition phase : Type := outcome (filesystem * list (string * string)).

(** one [await generateImageToFile] and the assignment after it *)
Definition generate_one (p : provider) (prompt outFile token relative : string)
    (st : filesystem * list (string * string))
    : filesystem * outcome (filesystem * list (string * string)) :=
  match generateImageToFile p (fst st) prompt outFile with
  | (fs', Returned _) => (fs', Returned (fs', (snd st ++ [(token, relative)])%list))
  | (fs', Thrown e) => (fs', Thrown e)
  end.

(** the [for] loop over the project images, from index [i] on *)
Fixpoint project_loop (p : provider) (assetsDir : string) (imgs : list string) (i : nat)
    (st : filesystem * list (string * string))
    : filesystem * outcome (filesystem * list (string * string)) :=
  match imgs with
  | [] => (fst st, Returned st)
  | img :: rest =>
      match generate_one p img
              (path_join assetsDir ("project_" ++ of_nat (i + 1) ++ ".png"))
              ("PROJECT_" ++ of_nat (i + 1) ++ "_IMG")
              ("./assets/project_" ++ of_nat (i + 1) ++ ".png") st with
      | (_, Returned st') => project_loop p assetsDir rest (S i) st'
      | (fs', Thrown e) => (fs', Thrown e)
      end
  end.

(** The handler of [/api/generate-assets].  [stored] is the manifest read
    from [manifest.json], [None] when the file does not exist.  The result
    is the response, the file system and the manifest on disk after the
    call. *)
Definition generate_assets (p : provider) (dir : string) (id : option string)
    (stored : option manifest) (fs : filesystem)
    : response * filesystem * option manifest :=
  match id with
  | None => (Failure 400 "missing id", fs, stored)
  | Some ident =>
      if ident =? "" then (Failure 400 "missing id", fs, stored)
      else
        match stored with
        | None => (Failure 404 "manifest.json not found", fs, stored)
        | Some m =>
            let assetsDir := path_join dir "assets" in
            let hero :=
              match assetsNeeded m with
              | Some {| heroImage := Some h |} => if h =? "" then None else Some h
              | _ => None
              end in
            let imgs :=
              match assetsNeeded m with
              | Some {| projectImages := Some l |} => firstn 3 l
              | _ => []
              end in
            let after_hero :=
              match hero with
              | Some h =>
                  generate_one p h (path_join assetsDir "hero.png") "HERO_IMAGE"
                    "./assets/hero.png" (fs, [])
              | None => (fs, Returned (fs, []))
              end in
            match after_hero with
            | (fs1, Thrown e) => (Failure 500 (e_message e), fs1, stored)
            | (_, Returned st) =>
                match project_loop p assetsDir imgs 0 st with
                | (fs2, Thrown e) => (Failure 500 (e_message e), fs2, stored)
                | (_, Returned (fs2, replacements)) =>
                    if (0 <? List.length replacements)%nat then
                      match files m with
                      | None =>
                          (Failure 500
                             "Cannot read properties of undefined (reading 'map')",
                           fs2, stored)
                      | Some fl =>
                          (Ok ident, fs2,
                           Some (set_files (replaceInFiles replace_token fl replacements) m))
                      end
                    else (Ok ident, fs2, stored)
                end
            end
        end
  end.

End Legacy.

(** a provider that answers the hero image and fails on everything else *)
Definition provider_hero_only : Legacy.provider :=
  fun outFile _ =>
    if includes outFile "hero" then
      Returned {| Legacy.finishReason := Some "STOP"; Legacy.inlineData := Some "aW1hZ2U=" |}
    else Thrown quota_error.

(** a provider whose answers are blocked for safety *)
Definition provider_blocked : Legacy.provider :=
  fun _ _ => Returned {| Legacy.finishReason := Some "SAFETY"; Legacy.inlineData := None |}.

(** a stored manifest that asks for a hero image and two project images *)
Definition manifest_asking : manifest :=
  {| site_name := Some "Ada";
     files := Some [file_entry "index.html" "<img src={{HERO_IMAGE}}><img src={{PROJECT_2_IMG}}>"];
     assetsNeeded := Some {| heroImage := Some "a hero"; projectImages := Some ["one"; "two"] |};
     userData := None; accentPalette := None |}.

(** ** Vocabulary of the first asset phase *)

Fixpoint legacy_project_needs (assetsDir : string) (imgs : list string) (i : nat)
    : list need :=
  match imgs with
  | [] => []
  | img :: rest =>
      {| n_prompt := img;
         n_outFile := path_join assetsDir ("project_" ++ of_nat (i + 1) ++ ".png");
         n_token := "PROJECT_" ++ of_nat (i + 1) ++ "_IMG";
         n_relative := "./assets/project_" ++ of_nat (i + 1) ++ ".png";
         n_width := 1600; n_height := 900 |}
      :: legacy_project_needs assetsDir rest (S i)
  end.

(** The image needs of a manifest for the first version, in the order of
    its handler: the hero image when the manifest asks for one, then the
    first three project images it asks for. *)
Definition legacy_needs (assetsDir : string) (m : manifest) : list need :=
  (match assetsNeeded m with
   | Some {| heroImage := Some h |} =>
       if h =? "" then []
       else [{| n_prompt := h; n_outFile := path_join assetsDir "hero.png";
                n_token := "HERO_IMAGE"; n_relative := "./assets/hero.png";
                n_width := 1600; n_height := 900 |}]
   | _ => []
   end
   ++ legacy_project_needs assetsDir
        (match assetsNeeded m with
         | Some {| projectImages := Some l |} => firstn 3 l
         | _ => []
         end) 0)%list.

(** the provider answers the call for a need *)
Definition answered (p : Legacy.provider) (nd : need) : Prop :=
  exists resp, p (n_outFile nd) (Legacy.safePrompt (n_prompt nd)) = Returned resp.

(** what the first version leaves in the file of a need it resolved: the
    image of the provider or the placeholder made on the spot *)
Definition image_or_local_placeholder (d : file_data) : Prop :=
  d = Utf8 Legacy.placeholderSvg \/ exists data, d = Base64 data /\ data <> "".

(** the needs resolved one after the other, up to the first error *)
Fixpoint legacy_run (p : Legacy.provider) (needs : list need)
    (st : filesystem * list (string * string))
    : filesystem * outcome (filesystem * list (string * string)) :=
  match needs with
  | [] => (fst st, Returned st)
  | nd :: rest =>
      match Legacy.generate_one p (n_prompt nd) (n_outFile nd) (n_token nd)
              (n_relative nd) st with
      | (_, Returned st') => legacy_run p rest st'
      | (fs', Thrown e) => (fs', Thrown e)
      end
  end.
(* ------------------------------------------------------------------ *)
(** * Token substitution with the errors of the engine

    [replaceInFiles] splices each key into the source of a pattern as it
    is, and [new RegExp] throws a [SyntaxError] when that source is not a
    pattern.  Here the call is embedded with that error; [replaceInFiles]
    above is what the call returns when every pattern is accepted. *)

Definition syntax_error (msg : string) : js_error :=
  mkError "SyntaxError" msg VUndef VUndef VUndef VUndef.

(** A pattern, given by what [content.replace(token, v)] makes of [v] and
    [content]. *)
Definition pattern : Type := string -> string -> string.

Section ReplaceInFilesCall.
(** [new_RegExp k] is the engine's answer to
    [new RegExp(`\\{\\{${k}\\}\\}`, "g")]: the error it throws or the
    pattern it returns. *)
Variable new_RegExp : string -> outcome pattern.

(** the [for] loop over [Object.entries(replacements)] *)
Fixpoint replace_tokens (replacements : list (string * string)) (content : string)
    : outcome string :=
  match replacements with
  | [] => Returned content
  | (k, v) :: rest =>
      match new_RegExp k with
      | Thrown e => Thrown e
      | Returned token => replace_tokens rest (token v content)
      end
  end.

(** the callback of [files.map] *)
Definition replace_entry (replacements : list (string * string)) (f : jsval)
    : outcome jsval :=
  match f with
  | VObj fields =>
      match lookup "content" fields with
      | VStr content =>
          if negb (truthy (lookup "path" fields)) then Returned f
          else
            match replace_tokens replacements content with
            | Thrown e => Thrown e
            | Returned content' =>
                Returned (VObj (set_prop "content" (VStr content') fields))
            end
      | _ => Returned f
      end
  | _ => Returned f
  end.

(** [replaceInFiles(files, replacements)]: the first callback that throws
    ends the call *)
Fixpoint replaceInFiles_call (files : list jsval) (replacements : list (string * string))
    : outcome (list jsval) :=
  match files with
  | [] => Returned []
  | f :: rest =>
      match replace_entry replacements f with
      | Thrown e => Thrown e
      | Returned f' =>
          match replaceInFiles_call rest replacements with
          | Thrown e => Thrown e
          | Returned out => Returned (f' :: out)
          end
      end
  end.

(** the error of the first key, in the order of the entries, whose pattern
    the engine rejects *)
Fixpoint first_rejected (replacements : list (string * string)) : option js_error :=
  match replacements with
  | [] => None
  | (k, _) :: rest =>
      match new_RegExp k with
      | Thrown e => Some e
      | Returned _ => first_rejected rest
      end
  end.
End ReplaceInFilesCall.

(** An entry whose content [replaceInFiles] rewrites: it has a truthy
    [path] and a string for its [content]. *)
Definition eligible (f : jsval) : bool :=
  truthy (get f "path")
  && match get f "content" with
     | VStr _ => true
     | _ => false
     end.

(** The engine on the keys of the asset phase.  A key of letters, digits
    and underscores stands for itself in the source, and the pattern
    matches the token literally; [other] is the engine on every other
    key. *)
Definition token_RegExp (other : string -> outcome pattern) (k : string)
    : outcome pattern :=
  if word_key k then Returned (replace_token k) else other k.

(** An engine for the examples: it rejects the pattern of the key [(],
    whose group is never closed, as every engine does; the patterns of
    other keys are of no account there. *)
Definition engine_of_examples (k : string) : outcome pattern :=
  if k =? "(" then
    Thrown (syntax_error "Invalid regular expression: /\{\{(\}\}/: Unterminated group")
  else Returned (fun _ content => content).

(* ------------------------------------------------------------------ *)
(** * Properties of key rotation *)

Section Rotation.
Variable w : world.
Variable prompt : string.

Lemma text_trace_ge : forall keys last i0 j r,
  In (j, r) (fst (generateText_loop w prompt last i0 keys)) -> i0 <= j.
Proof.
  induction keys as [|k rest IH]; intros last i0 j r; simpl; [tauto|].
  destruct (generateTextWithKey w prompt i0 k) as [t|err]; simpl.
  - intros [H|[]]; inversion H; lia.
  - destruct (isRetryableError err && negb (List.length rest =? 0)%nat).
    + destruct (generateText_loop w prompt (Some err) (S i0) rest) as [tr res] eqn:E.
      simpl. intros [H|H]; [inversion H; lia|].
      specialize (IH (Some err) (S i0) j r). rewrite E in IH. apply IH in H. lia.
    + simpl. intros [H|[]]; inversion H; lia.
Qed.

Lemma text_fatal_last : forall keys last i0 i e,
  In (i, Some e) (fst (generateText_loop w prompt last i0 keys)) ->
  isRetryableError e = false ->
  (forall j r, In (j, r) (fst (generateText_loop w prompt last i0 keys)) -> j <= i)
  /\ snd (generateText_loop w prompt last i0 keys)
     = Thrown (new_Error ("Text generation failed: " ++ error_msg e)).
Proof.
  induction keys as [|k rest IH]; intros last i0 i e; simpl; [tauto|].
  destruct (generateTextWithKey w prompt i0 k) as [t|err]; simpl.
  - intros [H|[]]; inversion H.
  - destruct (isRetryableError err && negb (List.length rest =? 0)%nat) eqn:R.
    + pose proof (text_trace_ge rest (Some err) (S i0)) as GE.
      specialize (IH (Some err) (S i0) i e).
      destruct (generateText_loop w prompt (Some err) (S i0) rest) as [tr res].
      simpl in *. intros [H|H] F.
      * inversion H; subst. rewrite F in R. discriminate.
      * destruct (IH H F) as [IH1 IH2]. split; [|exact IH2].
        intros j r [J|J]; [inversion J; subst; apply GE in H; lia|eauto].
    + simpl. intros [H|[]] F. inversion H; subst. split; [|reflexivity].
      intros j r [J|[]]. inversion J; lia.
Qed.

Lemma text_trace_outcome : forall keys last i0 i r,
  In (i, r) (fst (generateText_loop w prompt last i0 keys)) ->
  exists k, nth_error keys (i - i0) = Some k
            /\ r = recorded (generateTextWithKey w prompt i k).
Proof.
  induction keys as [|k rest IH]; intros last i0 i r; simpl; [tauto|].
  destruct (generateTextWithKey w prompt i0 k) as [t|err] eqn:A; simpl.
  - intros [H|[]]; inversion H; subst. exists k. rewrite Nat.sub_diag, A. auto.
  - destruct (isRetryableError err && negb (List.length rest =? 0)%nat).
    + pose proof (text_trace_ge rest (Some err) (S i0) i r) as GE.
      specialize (IH (Some err) (S i0) i r).
      destruct (generateText_loop w prompt (Some err) (S i0) rest) as [tr res].
      simpl in *. intros [H|H].
      * inversion H; subst. exists k. rewrite Nat.sub_diag, A. auto.
      * destruct (IH H) as [k' [N E]]. apply GE in H. exists k'. split; [|exact E].
        replace (i - i0) with (S (i - S i0)) by lia. exact N.
    + simpl. intros [H|[]]; inversion H; subst. exists k.
      rewrite Nat.sub_diag, A. auto.
Qed.

Lemma text_trace_contiguous : forall keys last i0 i j r,
  In (j, r) (fst (generateText_loop w prompt last i0 keys)) ->
  i0 <= i -> i <= j ->
  exists r', In (i, r') (fst (generateText_loop w prompt last i0 keys)).
Proof.
  induction keys as [|k rest IH]; intros last i0 i j r; simpl; [tauto|].
  destruct (generateTextWithKey w prompt i0 k) as [t|err]; simpl.
  - intros [H|[]] L1 L2; inversion H; subst.
    assert (i = j) by lia; subst. eexists; left; reflexivity.
  - destruct (isRetryableError err && negb (List.length rest =? 0)%nat).
    + specialize (IH (Some err) (S i0) i j r).
      destruct (generateText_loop w prompt (Some err) (S i0) rest) as [tr res].
      simpl in *. intros [H|H] L1 L2.
      * inversion H; subst. assert (i = j) by lia; subst. eexists; left; reflexivity.
      * destruct (Nat.eq_dec i i0) as [->|NE]; [eexists; left; reflexivity|].
        destruct (IH H) as [r' IN]; [lia|lia|]. exists r'. right. exact IN.
    + simpl. intros [H|[]] L1 L2; inversion H; subst.
      assert (i = j) by lia; subst. eexists; left; reflexivity.
Qed.

(** A key whose attempt ends in a fatal error is the last one tried. *)
Lemma text_fatal_candidate : forall keys i k e,
  nth_error keys i = Some k ->
  generateTextWithKey w prompt i k = Thrown e ->
  isRetryableError e = false ->
  (forall j r, In (j, r) (fst (generateText w keys prompt)) -> j <= i)
  /\ (forall r, In (i, r) (fst (generateText w keys prompt)) ->
      snd (generateText w keys prompt)
      = Thrown (new_Error ("Text generation failed: " ++ error_msg e))).
Proof.
  intros keys i k e N A F. unfold generateText.
  destruct (List.length keys =? 0)%nat; [simpl; split; intros; tauto|].
  assert (REC : forall r, In (i, r) (fst (generateText_loop w prompt None 0 keys)) ->
                          r = Some e).
  { intros r H. apply text_trace_outcome in H. destruct H as [k' [N' E]].
    rewrite Nat.sub_0_r, N in N'. injection N' as <-. rewrite A in E. exact E. }
  split.
  - intros j r H. destruct (Nat.le_gt_cases j i) as [L|G]; [exact L|].
    destruct (text_trace_contiguous keys None 0 i j r H) as [r' IN]; [lia|lia|].
    pose proof (REC r' IN); subst.
    destruct (text_fatal_last keys None 0 i e IN F) as [LAST _]. eauto.
  - intros r H. pose proof (REC r H); subst.
    apply (text_fatal_last keys None 0 i e H F).
Qed.

Variable env_IMAGE_MODEL : option string.
Variable outFile : string.

Lemma image_trace_ge : forall keys last fs i0 j r,
  In (j, r) (fst (generateImageToFile_loop w env_IMAGE_MODEL prompt outFile last fs i0 keys))
  -> i0 <= j.
Proof.
  induction keys as [|k rest IH]; intros last fs i0 j r; simpl; [tauto|].
  destruct (generateImageWithKey w env_IMAGE_MODEL fs i0 k prompt outFile)
    as [fs' [t|err]]; simpl.
  - intros [H|[]]; inversion H; lia.
  - destruct (isRetryableError err && negb (List.length rest =? 0)%nat).
    + destruct (generateImageToFile_loop w env_IMAGE_MODEL prompt outFile (Some err) fs'
                  (S i0) rest) as [tr res] eqn:E.
      simpl. intros [H|H]; [inversion H; lia|].
      specialize (IH (Some err) fs' (S i0) j r). rewrite E in IH. apply IH in H. lia.
    + simpl. intros [H|[]]; inversion H; lia.
Qed.

Lemma image_fatal_last : forall keys last fs i0 i e,
  In (i, Some e)
     (fst (generateImageToFile_loop w env_IMAGE_MODEL prompt outFile last fs i0 keys)) ->
  isRetryableError e = false ->
  (forall j r,
      In (j, r)
         (fst (generateImageToFile_loop w env_IMAGE_MODEL prompt outFile last fs i0 keys))
      -> j <= i)
  /\ snd (snd (generateImageToFile_loop w env_IMAGE_MODEL prompt outFile last fs i0 keys))
     = Thrown (new_Error ("Image generation failed: " ++ error_msg e)).
Proof.
  induction keys as [|k rest IH]; intros last fs i0 i e; simpl; [tauto|].
  destruct (generateImageWithKey w env_IMAGE_MODEL fs i0 k prompt outFile)
    as [fs' [t|err]]; simpl.
  - intros [H|[]]; inversion H.
  - destruct (isRetryableError err && negb (List.length rest =? 0)%nat) eqn:R.
    + pose proof (image_trace_ge rest (Some err) fs' (S i0)) as GE.
      specialize (IH (Some err) fs' (S i0) i e).
      destruct (generateImageToFile_loop w env_IMAGE_MODEL prompt outFile (Some err) fs'
                  (S i0) rest) as [tr res].
      simpl in *. intros [H|H] F.
      * inversion H; subst. rewrite F in R. discriminate.
      * destruct (IH H F) as [IH1 IH2]. split; [|exact IH2].
        intros j r [J|J]; [inversion J; subst; apply GE in H; lia|eauto].
    + simpl. intros [H|[]] F. inversion H; subst. split; [|reflexivity].
      intros j r [J|[]]. inversion J; lia.
Qed.

(** The trace of the image rotation records, for each key tried, how the
    adapter call on that key ended, on the file system the rotation had
    reached. *)
Lemma image_trace_outcome : forall keys last fs i0 i r,
  In (i, r)
     (fst (generateImageToFile_loop w env_IMAGE_MODEL prompt outFile last fs i0 keys)) ->
  exists k fs1, nth_error keys (i - i0) = Some k
    /\ r = recorded (snd (generateImageWithKey w env_IMAGE_MODEL fs1 i k prompt outFile)).
Proof.
  induction keys as [|k rest IH]; intros last fs i0 i r; simpl; [tauto|].
  destruct (generateImageWithKey w env_IMAGE_MODEL fs i0 k prompt outFile)
    as [fs' [t|err]] eqn:A; simpl.
  - intros [H|[]]; inversion H; subst. exists k, fs. rewrite Nat.sub_diag, A. auto.
  - destruct (isRetryableError err && negb (List.length rest =? 0)%nat).
    + pose proof (image_trace_ge rest (Some err) fs' (S i0) i r) as GE.
      specialize (IH (Some err) fs' (S i0) i r).
      destruct (generateImageToFile_loop w env_IMAGE_MODEL prompt outFile (Some err) fs'
                  (S i0) rest) as [tr res].
      simpl in *. intros [H|H].
      * inversion H; subst. exists k, fs. rewrite Nat.sub_diag, A. auto.
      * destruct (IH H) as [k' [fs1 [N E]]]. apply GE in H. exists k', fs1.
        split; [|exact E]. replace (i - i0) with (S (i - S i0)) by lia. exact N.
    + simpl. intros [H|[]]; inversion H; subst. exists k, fs.
      rewrite Nat.sub_diag, A. auto.
Qed.

Lemma image_trace_contiguous : forall keys last fs i0 i j r,
  In (j, r)
     (fst (generateImageToFile_loop w env_IMAGE_MODEL prompt outFile last fs i0 keys)) ->
  i0 <= i -> i <= j ->
  exists r',
    In (i, r')
       (fst (generateImageToFile_loop w env_IMAGE_MODEL prompt outFile last fs i0 keys)).
Proof.
  induction keys as [|k rest IH]; intros last fs i0 i j r; simpl; [tauto|].
  destruct (generateImageWithKey w env_IMAGE_MODEL fs i0 k prompt outFile)
    as [fs' [t|err]]; simpl.
  - intros [H|[]] L1 L2; inversion H; subst.
    assert (i = j) by lia; subst. eexists; left; reflexivity.
  - destruct (isRetryableError err && negb (List.length rest =? 0)%nat).
    + specialize (IH (Some err) fs' (S i0) i j r).
      destruct (generateImageToFile_loop w env_IMAGE_MODEL prompt outFile (Some err) fs'
                  (S i0) rest) as [tr res].
      simpl in *. intros [H|H] L1 L2.
      * inversion H; subst. assert (i = j) by lia; subst. eexists; left; reflexivity.
      * destruct (Nat.eq_dec i i0) as [->|NE]; [eexists; left; reflexivity|].
        destruct (IH H) as [r' IN]; [lia|lia|]. exists r'. right. exact IN.
    + simpl. intros [H|[]] L1 L2; inversion H; subst.
      assert (i = j) by lia; subst. eexists; left; reflexivity.
Qed.

(** The outcome of the image adapter does not depend on the files
    written before. *)
Lemma image_adapter_fs : forall fs fs1 i k,
  snd (generateImageWithKey w env_IMAGE_MODEL fs i k prompt outFile)
  = snd (generateImageWithKey w env_IMAGE_MODEL fs1 i k prompt outFile).
Proof.
  intros. unfold generateImageWithKey.
  destruct (try_models _ 0 (IMAGE_MODEL_CANDIDATES env_IMAGE_MODEL)); try reflexivity.
  destruct (try_models _ 0 legacyModels); reflexivity.
Qed.

Lemma image_fatal_candidate : forall keys fs i k e,
  nth_error keys i = Some k ->
  snd (generateImageWithKey w env_IMAGE_MODEL fs i k prompt outFile) = Thrown e ->
  isRetryableError e = false ->
  (forall j r,
      In (j, r) (fst (generateImageToFile w keys env_IMAGE_MODEL fs prompt outFile))
      -> j <= i)
  /\ (forall r,
      In (i, r) (fst (generateImageToFile w keys env_IMAGE_MODEL fs prompt outFile)) ->
      snd (snd (generateImageToFile w keys env_IMAGE_MODEL fs prompt outFile))
      = Thrown (new_Error ("Image generation failed: " ++ error_msg e))).
Proof.
  intros keys fs i k e N A F. unfold generateImageToFile.
  destruct (List.length keys =? 0)%nat; [simpl; split; intros; tauto|].
  assert (REC : forall r,
    In (i, r)
       (fst (generateImageToFile_loop w env_IMAGE_MODEL prompt outFile None fs 0 keys)) ->
    r = Some e).
  { intros r H. apply image_trace_outcome in H. destruct H as [k' [fs1 [N' E]]].
    rewrite Nat.sub_0_r, N in N'. injection N' as <-.
    rewrite (image_adapter_fs fs1 fs), A in E. exact E. }
  split.
  - intros j r H. destruct (Nat.le_gt_cases j i) as [L|G]; [exact L|].
    destruct (image_trace_contiguous keys None fs 0 i j r H) as [r' IN]; [lia|lia|].
    pose proof (REC r' IN); subst.
    destruct (image_fatal_last keys None fs 0 i e IN F) as [LAST _]. eauto.
  - intros r H. pose proof (REC r H); subst.
    apply (image_fatal_last keys None fs 0 i e H F).
Qed.
End Rotation.

Lemma fatal_not_retryable : forall e, fatal e -> isRetryableError e = false.
Proof.
  intros e (A & B & C & D & E). unfold isRetryableError. cbv zeta.
  rewrite A, B, C, D, E. reflexivity.
Qed.

(** C9.  In the rotation of [generateText] and in that of
    [generateImageToFile], if the attempt on the key at position [i] fails with
    a fatal error (status neither 429 nor 503, no quota, overloaded or rate
    limit in the message), then no key after position [i] is tried, and once
    key [i] has been tried the rotation throws the wrapped error at once. *)
Theorem fatal_error_aborts_rotation :
  forall (w : world) (keys : list string) (prompt : string)
         (env_IMAGE_MODEL : option string) (fs : filesystem) (outFile : string)
         (i : nat) (k : string) (e : js_error),
    nth_error keys i = Some k ->
    fatal e ->
    (generateTextWithKey w prompt i k = Thrown e ->
     (forall j r, In (j, r) (fst (generateText w keys prompt)) -> j <= i)
     /\ (forall r, In (i, r) (fst (generateText w keys prompt)) ->
         snd (generateText w keys prompt)
         = Thrown (new_Error ("Text generation failed: " ++ error_msg e))))
    /\
    (snd (generateImageWithKey w env_IMAGE_MODEL fs i k prompt outFile) = Thrown e ->
     (forall j r,
         In (j, r) (fst (generateImageToFile w keys env_IMAGE_MODEL fs prompt outFile))
         -> j <= i)
     /\ (forall r,
         In (i, r) (fst (generateImageToFile w keys env_IMAGE_MODEL fs prompt outFile)) ->
         snd (snd (generateImageToFile w keys env_IMAGE_MODEL fs prompt outFile))
         = Thrown (new_Error ("Image generation failed: " ++ error_msg e)))).
Proof.
  intros w keys prompt env fs outFile i k e N F.
  apply fatal_not_retryable in F. split; intro A.
  - exact (text_fatal_candidate w prompt keys i k e N A F).
  - exact (image_fatal_candidate w prompt env outFile keys fs i k e N A F).
Qed.

Lemma fatal_invalid_key : fatal invalid_key.
Proof. repeat split. Qed.

Lemma fatal_error_aborts_rotation_witness :
  (forall j r,
      In (j, r) (fst (generateText world_refusing ["key-1"; "key-2"] "brief")) -> j <= 0)
  /\ snd (generateText world_refusing ["key-1"; "key-2"] "brief")
     = Thrown (new_Error ("Text generation failed: " ++ error_msg invalid_key))
  /\ (forall j r,
      In (j, r)
         (fst (generateImageToFile world_refusing ["key-1"; "key-2"] None [] "hero"
                 "assets/hero.png")) -> j <= 0).
Proof.
  destruct (fatal_error_aborts_rotation world_refusing ["key-1"; "key-2"] "brief" None []
              "assets/hero.png" 0 "key-1" invalid_key eq_refl fatal_invalid_key)
    as [T I].
  destruct (T eq_refl) as [T1 T2]. destruct (I eq_refl) as [I1 _].
  split; [exact T1|]. split; [|exact I1].
  apply (T2 (Some invalid_key)). left. reflexivity.
Defined.

(** ** Responses without payload *)

Lemma try_models_no_data : forall call models j,
  (forall i modelName, call i modelName = Returned None) ->
  try_models call j models = Exhausted.
Proof.
  intros call models. induction models as [|m rest IH]; intros j H; simpl.
  - reflexivity.
  - rewrite H. apply IH. exact H.
Qed.

Lemma empty_response_error :
  isRetryableError (new_Error "Empty response from Gemini") = false
  /\ isRetryableError (new_Error "No image data returned from Gemini") = false.
Proof. split; reflexivity. Qed.

Lemma text_adapter_no_payload : forall w prompt i k rg rl,
  genai_text w prompt i k = Returned rg -> no_text_payload rg ->
  legacy_textgen w prompt i k = Returned rl -> no_legacy_payload rl ->
  generateTextWithKey w prompt i k = Thrown (new_Error "Empty response from Gemini").
Proof.
  intros w prompt i k rg rl G [G1 G2] L [L1 L2].
  unfold generateTextWithKey. rewrite G, G1, G2. simpl.
  rewrite L. unfold legacy_branch. rewrite L2. simpl.
  destruct L1 as [-> | ->]; reflexivity.
Qed.

Lemma image_adapter_no_data : forall w env fs i k prompt outFile,
  (forall j modelName, genai_image w outFile prompt i k j modelName = Returned None) ->
  (forall j modelName, legacy_image w outFile prompt i k j modelName = Returned None) ->
  generateImageWithKey w env fs i k prompt outFile
  = (fs, Thrown (new_Error "No image data returned from Gemini")).
Proof.
  intros w env fs i k prompt outFile G L. unfold generateImageWithKey.
  rewrite (try_models_no_data _ _ 0 G), (try_models_no_data _ _ 0 L). reflexivity.
Qed.

(** C4, as the code has it.  A key whose responses carry no payload, from
    both clients for text and from every model of both clients for images,
    ends its attempt with the error [Empty response from Gemini] or
    [No image data returned from Gemini]; that error is not retryable, so
    no later key is tried and the rotation throws. *)
Theorem payloadless_response_aborts_rotation :
  forall (w : world) (keys : list string) (prompt : string)
         (env_IMAGE_MODEL : option string) (fs : filesystem) (outFile : string)
         (i : nat) (k : string),
    nth_error keys i = Some k ->
    (forall rg rl,
        genai_text w prompt i k = Returned rg -> no_text_payload rg ->
        legacy_textgen w prompt i k = Returned rl -> no_legacy_payload rl ->
        (forall j r, In (j, r) (fst (generateText w keys prompt)) -> j <= i)
        /\ (forall r, In (i, r) (fst (generateText w keys prompt)) ->
            snd (generateText w keys prompt)
            = Thrown (new_Error "Text generation failed: Empty response from Gemini")))
    /\
    ((forall j modelName, genai_image w outFile prompt i k j modelName = Returned None) ->
     (forall j modelName, legacy_image w outFile prompt i k j modelName = Returned None) ->
     (forall j r,
         In (j, r) (fst (generateImageToFile w keys env_IMAGE_MODEL fs prompt outFile))
         -> j <= i)
     /\ (forall r,
         In (i, r) (fst (generateImageToFile w keys env_IMAGE_MODEL fs prompt outFile)) ->
         snd (snd (generateImageToFile w keys env_IMAGE_MODEL fs prompt outFile))
         = Thrown (new_Error
             "Image generation failed: No image data returned from Gemini"))).
Proof.
  intros w keys prompt env fs outFile i k N. split.
  - intros rg rl G GP L LP.
    pose proof (text_adapter_no_payload w prompt i k rg rl G GP L LP) as A.
    exact (text_fatal_candidate w prompt keys i k _ N A (proj1 empty_response_error)).
  - intros G L.
    pose proof (image_adapter_no_data w env fs i k prompt outFile G L) as A.
    apply (f_equal snd) in A. simpl in A.
    exact (image_fatal_candidate w prompt env outFile keys fs i k _ N A
             (proj2 empty_response_error)).
Qed.

Lemma payloadless_response_aborts_rotation_witness :
  (forall j r,
      In (j, r) (fst (generateText world_first_key_empty ["key-1"; "key-2"] "brief"))
      -> j <= 0)
  /\ (forall j r,
      In (j, r)
         (fst (generateImageToFile world_first_key_empty ["key-1"; "key-2"] None []
                 "hero" "assets/hero.png")) -> j <= 0).
Proof.
  destruct (payloadless_response_aborts_rotation world_first_key_empty
              ["key-1"; "key-2"] "brief" None [] "assets/hero.png" 0 "key-1" eq_refl)
    as [T I].
  split.
  - apply (T empty_response empty_legacy eq_refl (conj eq_refl eq_refl) eq_refl
             (conj (or_introl eq_refl) eq_refl)).
  - apply I; intros; reflexivity.
Defined.

(** C4, as the design document has it, fails: with two keys, the first of
    which gets responses without payload while the second would be
    answered, the rotation tries the first key only and throws. *)
Lemma payloadless_response_not_retried :
  no_text_payload empty_response
  /\ no_legacy_payload empty_legacy
  /\ generateTextWithKey world_first_key_empty "brief" 1 "key-2" = Returned "{}"
  /\ generateText world_first_key_empty ["key-1"; "key-2"] "brief"
     = ([(0, Some (new_Error "Empty response from Gemini"))],
        Thrown (new_Error "Text generation failed: Empty response from Gemini"))
  /\ generateImageToFile world_first_key_empty ["key-1"; "key-2"] None [] "hero"
       "assets/hero.png"
     = ([(0, Some (new_Error "No image data returned from Gemini"))],
        ([], Thrown (new_Error
               "Image generation failed: No image data returned from Gemini"))).
Proof. repeat split; try reflexivity. left; reflexivity. Qed.

(* ------------------------------------------------------------------ *)
(** * Properties of token substitution *)

Lemma lookup_set_prop_other : forall k k' v fields,
  k <> k' -> lookup k (set_prop k' v fields) = lookup k fields.
Proof.
  intros k k' v fields NE. induction fields as [|[a x] rest IH]; simpl.
  - destruct (String.eqb_spec k' k); [congruence|reflexivity].
  - destruct (String.eqb_spec a k') as [->|NA]; simpl.
    + destruct (String.eqb_spec k' k); [congruence|reflexivity].
    + destruct (String.eqb_spec a k); [reflexivity|exact IH].
Qed.

Lemma lookup_set_prop_same : forall k v fields,
  lookup k (set_prop k v fields) = v.
Proof.
  intros k v fields. induction fields as [|[a x] rest IH]; simpl.
  - rewrite String.eqb_refl. reflexivity.
  - destruct (String.eqb_spec a k) as [->|NA]; simpl.
    + rewrite String.eqb_refl. reflexivity.
    + destruct (String.eqb_spec a k); [congruence|exact IH].
Qed.

(** Assigning to a property that holds a string adds no property. *)
Lemma keys_set_prop_present : forall k v fields c,
  lookup k fields = VStr c -> map fst (set_prop k v fields) = map fst fields.
Proof.
  intros k v fields c. induction fields as [|[a x] rest IH]; simpl.
  - discriminate.
  - destruct (String.eqb_spec a k) as [->|NA]; simpl; intro H.
    + reflexivity.
    + rewrite IH by exact H. reflexivity.
Qed.

(** ** The call with the errors of the engine *)

Lemma replace_tokens_rejected : forall new_RegExp replacements content,
  replace_tokens new_RegExp replacements content
  = match first_rejected new_RegExp replacements with
    | Some e => Thrown e
    | None => replace_tokens new_RegExp replacements content
    end.
Proof.
  intros rx replacements. induction replacements as [|[k v] rest IH]; intro content;
    [reflexivity|].
  cbn [replace_tokens first_rejected]. destruct (rx k) as [token|e]; [|reflexivity].
  apply IH.
Qed.

Lemma first_rejected_key : forall new_RegExp replacements e,
  first_rejected new_RegExp replacements = Some e ->
  exists k v, In (k, v) replacements /\ new_RegExp k = Thrown e.
Proof.
  intros rx replacements e. induction replacements as [|[k v] rest IH]; [discriminate|].
  cbn [first_rejected]. destruct (rx k) as [token|e'] eqn:K.
  - intro H. destruct (IH H) as (k' & v' & I & T). exists k', v'. split; [right|]; auto.
  - intro H. injection H as ->. exists k, v. split; [left; reflexivity|exact K].
Qed.

Lemma replace_tokens_accepted : forall new_RegExp rr replacements content,
  (forall k v, In (k, v) replacements -> new_RegExp k = Returned (rr k)) ->
  replace_tokens new_RegExp replacements content
  = Returned (apply_replacements rr replacements content).
Proof.
  intros rx rr replacements. induction replacements as [|[k v] rest IH]; intros content A;
    [reflexivity|].
  cbn [replace_tokens]. rewrite (A k v (or_introl eq_refl)).
  rewrite IH by (intros k' v' I; apply (A k' v'); right; exact I). reflexivity.
Qed.

Lemma replace_tokens_cases : forall new_RegExp replacements content,
  match first_rejected new_RegExp replacements with
  | Some e => replace_tokens new_RegExp replacements content = Thrown e
  | None => exists c', replace_tokens new_RegExp replacements content = Returned c'
  end.
Proof.
  intros rx replacements. induction replacements as [|[k v] rest IH]; intro content.
  - eexists. reflexivity.
  - cbn [replace_tokens first_rejected]. destruct (rx k) as [token|e]; [|reflexivity].
    apply IH.
Qed.

Lemma eligible_object : forall f,
  eligible f = true ->
  exists fields c, f = VObj fields /\ lookup "content" fields = VStr c
                   /\ truthy (lookup "path" fields) = true.
Proof.
  intros f E. unfold eligible in E. apply andb_prop in E. destruct E as [P C].
  destruct f as [| | | | |items|fields]; try discriminate.
  cbn [get] in *. destruct (lookup "content" fields) as [| | | |c| |] eqn:L;
    try discriminate.
  exists fields, c. auto.
Qed.

Lemma replace_entry_ineligible : forall new_RegExp replacements f,
  eligible f = false -> replace_entry new_RegExp replacements f = Returned f.
Proof.
  intros rx replacements f E. destruct f as [| | | | |items|fields]; try reflexivity.
  unfold eligible in E. cbn [get] in E. unfold replace_entry.
  destruct (lookup "content" fields) as [| | | |c| |]; try reflexivity.
  rewrite andb_true_r in E. rewrite E. reflexivity.
Qed.

Lemma replace_entry_eligible : forall new_RegExp replacements fields c,
  lookup "content" fields = VStr c -> truthy (lookup "path" fields) = true ->
  replace_entry new_RegExp replacements (VObj fields)
  = match replace_tokens new_RegExp replacements c with
    | Thrown e => Thrown e
    | Returned c' => Returned (VObj (set_prop "content" (VStr c') fields))
    end.
Proof.
  intros rx replacements fields c C P. unfold replace_entry. rewrite C, P. reflexivity.
Qed.

(** What the callback returns, when it returns. *)
Lemma replace_entry_frame : forall new_RegExp replacements f f',
  replace_entry new_RegExp replacements f = Returned f' ->
  keys_of f' = keys_of f
  /\ (forall k, k <> "content" -> get f' k = get f k)
  /\ (eligible f = false -> f' = f)
  /\ (forall c, eligible f = true -> get f "content" = VStr c ->
      exists c', replace_tokens new_RegExp replacements c = Returned c'
                 /\ get f' "content" = VStr c').
Proof.
  intros rx replacements f f' R. destruct (eligible f) eqn:E.
  - destruct (eligible_object f E) as (fields & c & -> & C & P).
    rewrite (replace_entry_eligible rx replacements fields c C P) in R.
    destruct (replace_tokens rx replacements c) as [c'|e] eqn:T; [|discriminate].
    injection R as <-. split; [apply (keys_set_prop_present _ _ _ c C)|].
    split; [intros k NE; apply lookup_set_prop_other; exact NE|].
    split; [discriminate|]. intros c0 _ G. cbn [get] in G. rewrite C in G.
    injection G as <-. exists c'. split; [exact T|apply lookup_set_prop_same].
  - rewrite (replace_entry_ineligible rx replacements f E) in R. injection R as <-.
    repeat split; auto. discriminate.
Qed.

Lemma call_returned : forall new_RegExp replacements files out,
  replaceInFiles_call new_RegExp files replacements = Returned out ->
  List.length out = List.length files
  /\ forall i f, nth_error files i = Some f ->
       exists f', nth_error out i = Some f'
                  /\ replace_entry new_RegExp replacements f = Returned f'.
Proof.
  intros rx replacements files. induction files as [|x rest IH]; intros out R.
  - injection R as <-. split; [reflexivity|]. intros [|i] f N; discriminate.
  - cbn [replaceInFiles_call] in R.
    destruct (replace_entry rx replacements x) as [x'|e] eqn:X; [|discriminate].
    destruct (replaceInFiles_call rx rest replacements) as [out'|e] eqn:C; [|discriminate].
    injection R as <-. destruct (IH out' eq_refl) as [L N]. split; [simpl; lia|].
    intros [|i] f G; simpl in G.
    + injection G as <-. exists x'. auto.
    + apply (N i f G).
Qed.

Lemma call_thrown : forall new_RegExp replacements files e,
  replaceInFiles_call new_RegExp files replacements = Thrown e ->
  first_rejected new_RegExp replacements = Some e
  /\ existsb eligible files = true.
Proof.
  intros rx replacements files e. induction files as [|x rest IH]; [discriminate|].
  cbn [replaceInFiles_call existsb].
  destruct (replace_entry rx replacements x) as [x'|e'] eqn:X.
  - destruct (replaceInFiles_call rx rest replacements) as [out'|e''];
      [discriminate|].
    intro H. injection H as ->. destruct (IH eq_refl) as [F E]. rewrite E, orb_true_r.
    auto.
  - intro H. injection H as ->. destruct (eligible x) eqn:E;
      [|rewrite (replace_entry_ineligible rx replacements x E) in X; discriminate].
    destruct (eligible_object x E) as (fields & c & -> & C & P).
    rewrite (replace_entry_eligible rx replacements fields c C P) in X.
    pose proof (replace_tokens_cases rx replacements c) as T.
    destruct (first_rejected rx replacements) as [e0|].
    + rewrite T in X. injection X as ->. auto.
    + destruct T as [c' T]. rewrite T in X. discriminate.
Qed.

Lemma call_throws : forall new_RegExp replacements files e,
  first_rejected new_RegExp replacements = Some e ->
  existsb eligible files = true ->
  replaceInFiles_call new_RegExp files replacements = Thrown e.
Proof.
  intros rx replacements files e F. induction files as [|x rest IH]; [discriminate|].
  cbn [replaceInFiles_call existsb]. destruct (eligible x) eqn:E.
  - intros _. destruct (eligible_object x E) as (fields & c & -> & C & P).
    rewrite (replace_entry_eligible rx replacements fields c C P).
    pose proof (replace_tokens_cases rx replacements c) as T. rewrite F in T.
    rewrite T. reflexivity.
  - cbn [orb]. intro H. rewrite (replace_entry_ineligible rx replacements x E).
    rewrite (IH H). reflexivity.
Qed.

Lemma call_accepted : forall new_RegExp rr replacements files,
  (forall k v, In (k, v) replacements -> new_RegExp k = Returned (rr k)) ->
  replaceInFiles_call new_RegExp files replacements
  = Returned (replaceInFiles rr files replacements).
Proof.
  intros rx rr replacements files A. unfold replaceInFiles.
  induction files as [|x rest IH]; [reflexivity|].
  cbn [replaceInFiles_call map]. rewrite IH.
  replace (replace_entry rx replacements x)
    with (Returned (A := jsval) (replace_in_file rr replacements x)); [reflexivity|].
  unfold replace_entry, replace_in_file.
  destruct x as [| | | | |items|fields]; try reflexivity.
  destruct (lookup "content" fields) as [| | | |c| |]; try reflexivity.
  destruct (negb (truthy (lookup "path" fields))); [reflexivity|].
  rewrite (replace_tokens_accepted rx rr replacements c A). reflexivity.
Qed.

Lemma call_without_eligible : forall new_RegExp replacements files,
  existsb eligible files = false ->
  replaceInFiles_call new_RegExp files replacements = Returned files.
Proof.
  intros rx replacements files. induction files as [|x rest IH]; [reflexivity|].
  cbn [existsb replaceInFiles_call]. intro H. apply orb_false_iff in H.
  destruct H as [E R]. rewrite (replace_entry_ineligible rx replacements x E), (IH R).
  reflexivity.
Qed.

(** C10, as the code has it.  [replaceInFiles] builds a pattern from each
    key, and the engine may reject it.  The call throws exactly when some
    entry has a truthy [path] and a string for its [content] and the
    pattern of some key is rejected; it then throws the error of the first
    such key.  In every other case, so whenever every pattern is accepted,
    it returns a list of the same length in the same order; each entry
    keeps its property names, its [path] and every property other than
    [content]; an entry without a truthy [path], or whose [content] is not
    a string, is returned as it is; and the [content] of any other entry is
    the result of the replacements on its old content. *)
Theorem replaceInFiles_call_frame :
  forall (new_RegExp : string -> outcome pattern)
         (files : list jsval) (replacements : list (string * string)),
    (forall out,
        replaceInFiles_call new_RegExp files replacements = Returned out ->
        List.length out = List.length files
        /\ forall (i : nat) (f : jsval),
             nth_error files i = Some f ->
             exists f',
               nth_error out i = Some f'
               /\ keys_of f' = keys_of f
               /\ get f' "path" = get f "path"
               /\ (forall k, k <> "content" -> get f' k = get f k)
               /\ (eligible f = false -> f' = f)
               /\ (forall c, eligible f = true -> get f "content" = VStr c ->
                   exists c',
                     replace_tokens new_RegExp replacements c = Returned c'
                     /\ get f' "content" = VStr c'))
    /\ (forall e,
          replaceInFiles_call new_RegExp files replacements = Thrown e
          <-> (first_rejected new_RegExp replacements = Some e
               /\ existsb eligible files = true))
    /\ (forall e, first_rejected new_RegExp replacements = Some e ->
          exists k v, In (k, v) replacements /\ new_RegExp k = Thrown e)
    /\ (forall rr,
          (forall k v, In (k, v) replacements -> new_RegExp k = Returned (rr k)) ->
          replaceInFiles_call new_RegExp files replacements
          = Returned (replaceInFiles rr files replacements)).
Proof.
  intros rx files replacements. split; [|split; [|split]].
  - intros out R. destruct (call_returned rx replacements files out R) as [L N].
    split; [exact L|]. intros i f G. destruct (N i f G) as (f' & G' & E).
    exists f'. split; [exact G'|].
    destruct (replace_entry_frame rx replacements f f' E) as (K & O & U & C).
    split; [exact K|]. split; [apply O; discriminate|]. auto.
  - intro e. split.
    + apply call_thrown.
    + intros [F E]. apply call_throws; assumption.
  - apply first_rejected_key.
  - intros rr A. apply call_accepted. exact A.
Qed.

Lemma replaceInFiles_call_frame_witness :
  exists out f',
    replaceInFiles_call (token_RegExp engine_of_examples)
      [file_entry "index.html" "<img src={{HERO_IMAGE}}>"; VNull]
      [("HERO_IMAGE", "./assets/hero.png")] = Returned out
    /\ nth_error out 0 = Some f'
    /\ get f' "path" = VStr "index.html"
    /\ get f' "content" = VStr "<img src=./assets/hero.png>"
    /\ nth_error out 1 = Some VNull.
Proof.
  destruct (replaceInFiles_call_frame (token_RegExp engine_of_examples)
              [file_entry "index.html" "<img src={{HERO_IMAGE}}>"; VNull]
              [("HERO_IMAGE", "./assets/hero.png")]) as (R & _ & _ & A).
  pose proof (A replace_token) as C.
  rewrite C by (intros k v [E|[]]; injection E as <- <-; reflexivity).
  destruct (R _ (C ltac:(intros k v [E|[]]; injection E as <- <-; reflexivity)))
    as [_ N].
  destruct (N 0 (file_entry "index.html" "<img src={{HERO_IMAGE}}>") eq_refl)
    as (f' & G & _ & P & _ & _ & T).
  destruct (N 1 VNull eq_refl) as (g' & G1 & _ & _ & _ & U & _).
  eexists. exists f'. split; [reflexivity|]. split; [exact G|]. split; [exact P|].
  split.
  - destruct (T "<img src={{HERO_IMAGE}}>" eq_refl eq_refl) as (c' & TC & GC).
    rewrite GC. vm_compute in TC. injection TC as <-. reflexivity.
  - rewrite G1. f_equal. apply U. reflexivity.
Defined.

(** C10, as the design document has it, fails.  The key [(] gives the
    source of a group that is never closed; with an entry to rewrite the
    call throws the [SyntaxError] of the engine and returns no list.
    Without such an entry the same key does no harm. *)
Lemma replaceInFiles_throws_on_invalid_key :
  (exists e,
      replaceInFiles_call (token_RegExp engine_of_examples)
        [file_entry "index.html" "{{(}} x"] [("(", "3")] = Thrown e
      /\ e_name e = "SyntaxError")
  /\ replaceInFiles_call (token_RegExp engine_of_examples) [VNull] [("(", "3")]
     = Returned [VNull].
Proof. split; [eexists; split; reflexivity|reflexivity]. Qed.

(* ------------------------------------------------------------------ *)
(** * Properties of the validator *)

Lemma find_file_found : forall p l i0 n f,
  find_file p i0 l = Returned (Some (n, f)) ->
  i0 <= n /\ nth_error l (n - i0) = Some f /\ get f "path" = VStr p.
Proof.
  intros p l. induction l as [|x rest IH]; intros i0 n f; simpl; [discriminate|].
  assert (STEP : find_file p (S i0) rest = Returned (Some (n, f)) ->
                 i0 <= n /\ nth_error (x :: rest) (n - i0) = Some f
                 /\ get f "path" = VStr p).
  { intro H. apply IH in H. destruct H as (L & N & P).
    split; [lia|]. split; [|exact P].
    replace (n - i0) with (S (n - S i0)) by lia. exact N. }
  destruct x; try discriminate; simpl; auto.
  destruct (lookup "path" fields) as [| | | |q| |] eqn:Q; auto.
  destruct (String.eqb_spec q p) as [->|NE]; auto.
  intro H. injection H as <- <-. rewrite Nat.sub_diag. simpl. auto.
Qed.

Lemma find_file_total : forall p l i0,
  forallb entry_ok l = true -> exists r, find_file p i0 l = Returned r.
Proof.
  intros p l. induction l as [|x rest IH]; intros i0 H; simpl.
  - eexists; reflexivity.
  - simpl in H. apply andb_prop in H. destruct H as [X R].
    destruct x; try discriminate; simpl; auto.
    destruct (lookup "path" fields) as [| | | |q| |]; auto.
    destruct (q =? p); auto. eexists; reflexivity.
Qed.

Lemma entry_ok_assign : forall c f, entry_ok f = true -> entry_ok (assign_content c f) = true.
Proof.
  intros c f. destruct f; simpl; auto. intros _. unfold entry_ok. simpl.
  rewrite lookup_set_prop_same. reflexivity.
Qed.

Lemma forallb_update_nth : forall (p : jsval -> bool) g l i,
  (forall x, p x = true -> p (g x) = true) ->
  forallb p l = true -> forallb p (update_nth i g l) = true.
Proof.
  intros p g l. induction l as [|x rest IH]; intros i G H; simpl; [destruct i; auto|].
  simpl in H. apply andb_prop in H. destruct H as [X R].
  destruct i; simpl; rewrite ?X, ?R, ?G, ?IH; auto.
Qed.

Lemma length_update_nth : forall (A : Type) (g : A -> A) l i,
  List.length (update_nth i g l) = List.length l.
Proof.
  intros A g l. induction l as [|x rest IH]; intros i; destruct i; simpl; auto.
Qed.

Lemma forallb_nth_error : forall (p : jsval -> bool) l i x,
  forallb p l = true -> nth_error l i = Some x -> p x = true.
Proof.
  intros p l. induction l as [|y rest IH]; intros i x H N; destruct i; simpl in *;
    try discriminate; apply andb_prop in H; destruct H as [Y R].
  - injection N as <-. exact Y.
  - eauto.
Qed.

(** An entry that passed [entry_ok] has a string or a falsy value as its
    content. *)
Lemma entry_ok_content : forall f,
  entry_ok f = true ->
  (exists c, get f "content" = VStr c) \/ truthy (get f "content") = false.
Proof.
  intros f. destruct f; simpl; try discriminate; auto.
  unfold entry_ok. simpl.
  destruct (lookup "content" fields) as [| |b|z|c|items|fs] eqn:C;
    try (intro H; right; apply negb_true_iff; exact H).
  intros _. left. exists c. reflexivity.
Qed.

Lemma html_step_result : forall year v l l',
  html_step year v l = Returned l' -> step_result "index.html" l l'.
Proof.
  intros year v l l'. unfold html_step, step_result.
  destruct (find_file "index.html" 0 l) as [[[i f]|]|e]; try discriminate.
  - destruct (get f "content") as [| |b|z|content|items|fields];
      try (destruct (truthy _); [discriminate|]; intro H; injection H as <-; auto).
    destruct (nonempty content); [|intro H; injection H as <-; auto].
    destruct (fix_html year v content) as [h fixed].
    destruct fixed; intro H; injection H as <-; [right; eauto|auto].
  - intro H; injection H as <-; auto.
Qed.

Lemma css_step_result : forall v l l',
  css_step v l = Returned l' -> step_result "styles.css" l l'.
Proof.
  intros v l l'. unfold css_step, step_result.
  destruct (find_file "styles.css" 0 l) as [[[i f]|]|e]; try discriminate.
  - destruct (get f "content") as [| |b|z|content|items|fields];
      try (destruct (truthy _); [discriminate|]; intro H; injection H as <-; auto).
    destruct (nonempty content); [|intro H; injection H as <-; auto].
    destruct (_ <? 100)%nat; intro H; injection H as <-; [right; eauto|auto].
  - intro H; injection H as <-; auto.
Qed.

Lemma js_step_result : forall l l',
  js_step l = Returned l' -> step_result "script.js" l l'.
Proof.
  intros l l'. unfold js_step, step_result.
  destruct (find_file "script.js" 0 l) as [[[i f]|]|e]; try discriminate.
  - destruct (get f "content") as [| |b|z|content|items|fields];
      try (destruct (truthy _); [discriminate|]; intro H; injection H as <-; right; eauto).
    destruct (_ || _); intro H; injection H as <-; [right; eauto|auto].
  - intro H; injection H as <-; auto.
Qed.

Lemma step_result_ok : forall p l l',
  step_result p l l' -> forallb entry_ok l = true ->
  forallb entry_ok l' = true /\ List.length l' = List.length l.
Proof.
  intros p l l' [->|(i & f & c & _ & ->)] H; [auto|].
  split; [|apply length_update_nth].
  apply forallb_update_nth; [apply entry_ok_assign|exact H].
Qed.

Ltac found_content F OK :=
  let N := fresh "N" in
  destruct (find_file_found _ _ _ _ _ F) as (_ & N & _);
  let T := fresh "T" in
  destruct (entry_ok_content _ (forallb_nth_error _ _ _ _ OK N)) as [[? ->]|T];
  [|destruct (get _ "content"); unfold nonempty in *; simpl in *; rewrite ?T;
    try discriminate; try (eexists; reflexivity)].

Lemma html_step_total : forall year v l,
  forallb entry_ok l = true -> exists l', html_step year v l = Returned l'.
Proof.
  intros year v l OK. unfold html_step.
  destruct (find_file_total "index.html" l 0 OK) as [[[i f]|] F]; rewrite F;
    [|eexists; reflexivity].
  found_content F OK.
  - destruct (nonempty x); [|eexists; reflexivity].
    destruct (fix_html year v x) as [h [|]]; eexists; reflexivity.
Qed.

Lemma css_step_total : forall v l,
  forallb entry_ok l = true -> exists l', css_step v l = Returned l'.
Proof.
  intros v l OK. unfold css_step.
  destruct (find_file_total "styles.css" l 0 OK) as [[[i f]|] F]; rewrite F;
    [|eexists; reflexivity].
  found_content F OK.
  - destruct (nonempty x); [|eexists; reflexivity].
    destruct (_ <? 100)%nat; eexists; reflexivity.
Qed.

Lemma js_step_total : forall l,
  forallb entry_ok l = true -> exists l', js_step l = Returned l'.
Proof.
  intros l OK. unfold js_step.
  destruct (find_file_total "script.js" l 0 OK) as [[[i f]|] F]; rewrite F;
    [|eexists; reflexivity].
  found_content F OK; destruct (_ || _); eexists; reflexivity.
Qed.

(** C1, as the code has it.  A manifest without a [files] array is rejected
    with an error.  On a manifest whose [files] is an array of entries that
    are neither [null] nor [undefined] and whose [content] is a string or
    falsy, the validator returns a manifest, with as many files, for every
    brief. *)
Theorem validator_returns_on_files_array :
  forall (year : string) (m : manifest) (userData : brief),
    (files m = None ->
     validateAndEnhanceManifest year m userData
     = Thrown (new_Error "Manifest must have a 'files' array"))
    /\ (forall l, files m = Some l -> forallb entry_ok l = true ->
        exists m' l',
          validateAndEnhanceManifest year m userData = Returned m'
          /\ files m' = Some l' /\ List.length l' = List.length l).
Proof.
  intros year m b. unfold validateAndEnhanceManifest. split.
  - intros ->. reflexivity.
  - intros l -> OK.
    destruct (html_step_total year (resolve b) l OK) as [l1 H1]. rewrite H1.
    destruct (step_result_ok _ _ _ (html_step_result _ _ _ _ H1) OK) as [OK1 LEN1].
    destruct (css_step_total (resolve b) l1 OK1) as [l2 H2]. rewrite H2.
    destruct (step_result_ok _ _ _ (css_step_result _ _ _ H2) OK1) as [OK2 LEN2].
    destruct (js_step_total l2 OK2) as [l3 H3]. rewrite H3.
    destruct (step_result_ok _ _ _ (js_step_result _ _ H3) OK2) as [_ LEN3].
    eexists. exists l3. split; [reflexivity|]. split; [reflexivity|]. congruence.
Qed.

Lemma validator_returns_on_files_array_witness :
  exists m' l',
    validateAndEnhanceManifest "2025"
      (manifest_of [file_entry "index.html" "<body></body>"; file_entry "styles.css" ""])
      emptyBrief = Returned m'
    /\ files m' = Some l' /\ List.length l' = 2.
Proof.
  exact (proj2 (validator_returns_on_files_array "2025"
                  (manifest_of [file_entry "index.html" "<body></body>";
                                file_entry "styles.css" ""]) emptyBrief)
           _ eq_refl eq_refl).
Defined.

(** C1, as the design document has it, fails: the validator throws on a
    manifest that has no [files] array. *)
Lemma validator_throws_without_files :
  validateAndEnhanceManifest "2025"
    {| site_name := Some "Ada"; files := None; assetsNeeded := None;
       userData := None; accentPalette := None |} emptyBrief
  = Thrown (new_Error "Manifest must have a 'files' array").
Proof. reflexivity. Qed.

(** ** Steps of the validator and the entries they leave alone *)

Lemma get_path_assign : forall c f, get (assign_content c f) "path" = get f "path".
Proof.
  intros c f. destruct f; simpl; auto. apply lookup_set_prop_other. discriminate.
Qed.

Lemma get_content_assign : forall c f fields,
  f = VObj fields -> get (assign_content c f) "content" = VStr c.
Proof. intros c f fields ->. simpl. apply lookup_set_prop_same. Qed.

Lemma find_file_update : forall p c l i0 j,
  find_file p i0 (update_nth j (assign_content c) l)
  = match find_file p i0 l with
    | Returned (Some (n, f)) =>
        Returned (Some (n, if (n - i0 =? j)%nat then assign_content c f else f))
    | r => r
    end.
Proof.
  intros p c l. induction l as [|x rest IH]; intros i0 j.
  - destruct j; reflexivity.
  - destruct j as [|j]; simpl.
    + pose proof (get_path_assign c x) as P.
      destruct x; simpl in *; try reflexivity;
        try (destruct (find_file p (S i0) rest) as [[[n f]|]|e] eqn:F; try reflexivity;
             apply find_file_found in F; destruct F as (L & _);
             replace (n - i0 =? 0)%nat with false
               by (symmetry; apply Nat.eqb_neq; lia); reflexivity).
      rewrite P. destruct (lookup "path" fields) as [| | | |q| |];
        try (destruct (find_file p (S i0) rest) as [[[n f]|]|e] eqn:F; try reflexivity;
             apply find_file_found in F; destruct F as (L & _);
             replace (n - i0 =? 0)%nat with false
               by (symmetry; apply Nat.eqb_neq; lia); reflexivity).
      destruct (q =? p).
      * rewrite Nat.sub_diag. reflexivity.
      * destruct (find_file p (S i0) rest) as [[[n f]|]|e] eqn:F; try reflexivity.
        apply find_file_found in F. destruct F as (L & _).
        replace (n - i0 =? 0)%nat with false by (symmetry; apply Nat.eqb_neq; lia).
        reflexivity.
    + assert (REC : find_file p (S i0) (update_nth j (assign_content c) rest)
                    = match find_file p (S i0) rest with
                      | Returned (Some (n, f)) =>
                          Returned (Some (n, if (n - i0 =? S j)%nat
                                             then assign_content c f else f))
                      | r => r
                      end).
      { rewrite IH. destruct (find_file p (S i0) rest) as [[[n f]|]|e] eqn:F;
          try reflexivity.
        apply find_file_found in F. destruct F as (L & _).
        replace (n - i0)%nat with (S (n - S i0)) by lia. reflexivity. }
      destruct x; simpl; try reflexivity; try exact REC.
      destruct (lookup "path" fields) as [| | | |q| |]; try exact REC.
      destruct (q =? p); [|exact REC].
      rewrite Nat.sub_diag. reflexivity.
Qed.

(** A step on the file with path [q] leaves what [find] returns for another
    path as it was. *)
Lemma step_other_path : forall p q l l',
  step_result q l l' -> p <> q -> find_file p 0 l' = find_file p 0 l.
Proof.
  intros p q l l' [->|(i & f & c & F & ->)] NE; [reflexivity|].
  rewrite find_file_update.
  destruct (find_file p 0 l) as [[[n g]|]|e] eqn:G; try reflexivity.
  apply find_file_found in F. destruct F as (_ & NF & PF).
  apply find_file_found in G. destruct G as (_ & NG & PG).
  rewrite Nat.sub_0_r in *.
  destruct (Nat.eqb_spec n i) as [->|]; [|reflexivity].
  rewrite NF in NG. injection NG as <-. rewrite PF in PG. injection PG as <-.
  congruence.
Qed.

Lemma nth_error_update_nth_other : forall (A : Type) (g : A -> A) l i j,
  i <> j -> nth_error (update_nth j g l) i = nth_error l i.
Proof.
  intros A g l. induction l as [|x rest IH]; intros i j NE.
  - destruct j; reflexivity.
  - destruct i, j; simpl; try reflexivity; try congruence. apply IH. congruence.
Qed.

(** A step on the file with path [q] leaves every entry with another path as
    it was. *)
Lemma step_other_entries : forall q l l' i f,
  step_result q l l' -> nth_error l i = Some f -> get f "path" <> VStr q ->
  nth_error l' i = Some f.
Proof.
  intros q l l' i f [->|(j & g & c & F & ->)] N P; [exact N|].
  apply find_file_found in F. destruct F as (_ & NF & PF). rewrite Nat.sub_0_r in NF.
  rewrite nth_error_update_nth_other; [exact N|].
  intros ->. rewrite NF in N. injection N as <-. contradiction.
Qed.

Lemma step_length : forall q l l', step_result q l l' -> List.length l' = List.length l.
Proof.
  intros q l l' [->|(j & g & c & F & ->)]; [reflexivity|apply length_update_nth].
Qed.

(** ** The generated stylesheet and script *)

Lemma split_nonempty : forall sep s, 1 <= List.length (split sep s).
Proof.
  intros sep s. induction s as [|c t IH]; simpl; [lia|].
  destruct (Ascii.eqb c sep); simpl; [lia|].
  destruct (split sep t); simpl in *; lia.
Qed.

Lemma split_length_app : forall sep a b,
  List.length (split sep (a ++ b)) + 1
  = List.length (split sep a) + List.length (split sep b).
Proof.
  intros sep a b. induction a as [|c t IH]; simpl; [lia|].
  destruct (Ascii.eqb c sep); simpl; [lia|].
  pose proof (split_nonempty sep (t ++ b)). pose proof (split_nonempty sep t).
  destruct (split sep (t ++ b)), (split sep t); simpl in *; lia.
Qed.

Lemma split_length_join : forall sep l,
  List.length l <= List.length (split sep (join (String sep "") l)).
Proof.
  intros sep l. induction l as [|x rest IH]; simpl; [lia|].
  destruct rest as [|y rest].
  - pose proof (split_nonempty sep x). simpl. lia.
  - pose proof (split_length_app sep x (String sep "" ++ String.concat (String sep "") (y :: rest))) as A.
    pose proof (split_nonempty sep x).
    cbn [append] in A. cbn [split] in A. rewrite Ascii.eqb_refl in A.
    cbn [List.length] in *. unfold join in *. lia.
Qed.

Lemma enhancedCss_lines : forall a b c, 100 <= line_count (enhancedCss a b c).
Proof.
  intros a b c. unfold line_count, enhancedCss, nl.
  eapply Nat.le_trans; [|apply split_length_join]. cbn [List.length]. lia.
Qed.

Lemma enhancedJs_long :
  (enhancedJs =? "") = false /\ (String.length (trim enhancedJs) <? 50)%nat = false.
Proof. split; vm_compute; reflexivity. Qed.

(** ** What each step leaves behind *)

Lemma found_is_object : forall p l i f,
  find_file p 0 l = Returned (Some (i, f)) -> exists fields, f = VObj fields.
Proof.
  intros p l i f F. apply find_file_found in F. destruct F as (_ & _ & P).
  destruct f; simpl in P; try discriminate. eauto.
Qed.

Lemma css_step_settles : forall v l l', css_step v l = Returned l' -> css_settled l'.
Proof.
  intros v l l'. unfold css_step, css_settled.
  destruct (find_file "styles.css" 0 l) as [[[i f]|]|e] eqn:F; try discriminate.
  - destruct (found_is_object _ _ _ _ F) as [fields ->].
    destruct (get (VObj fields) "content") as [| |b|z|content|items|fs] eqn:C;
      try (destruct (truthy _) eqn:T; [discriminate|]; intro H; injection H as <-;
           rewrite F, C; exact T).
    unfold nonempty. destruct (content =? "") eqn:E; simpl.
    + intro H; injection H as <-. rewrite F, C. left. apply String.eqb_eq. exact E.
    + destruct (_ <? 100)%nat eqn:L; intro H; injection H as <-.
      * rewrite find_file_update, F, Nat.sub_0_r, Nat.eqb_refl.
        rewrite (get_content_assign _ _ fields eq_refl). right. apply enhancedCss_lines.
      * rewrite F, C. right. apply Nat.ltb_ge in L. exact L.
  - intro H; injection H as <-. rewrite F. exact I.
Qed.

Lemma js_step_settles : forall l l', js_step l = Returned l' -> js_settled l'.
Proof.
  intros l l'. unfold js_step, js_settled.
  destruct (find_file "script.js" 0 l) as [[[i f]|]|e] eqn:F; try discriminate.
  - destruct (found_is_object _ _ _ _ F) as [fields ->].
    destruct (get (VObj fields) "content") as [| |b|z|content|items|fs] eqn:C;
      try (destruct (truthy _) eqn:T; [discriminate|]; intro H; injection H as <-;
           rewrite find_file_update, F, Nat.sub_0_r, Nat.eqb_refl;
           rewrite (get_content_assign _ _ fields eq_refl); exact enhancedJs_long).
    destruct (_ || _) eqn:E; intro H; injection H as <-.
    + rewrite find_file_update, F, Nat.sub_0_r, Nat.eqb_refl.
      rewrite (get_content_assign _ _ fields eq_refl). exact enhancedJs_long.
    + rewrite F, C. apply orb_false_iff in E. exact E.
  - intro H; injection H as <-. rewrite F. exact I.
Qed.

Lemma html_step_settles : forall year v l l',
  html_step year v l = Returned l' -> html_settled l'.
Proof.
  intros year v l l'. unfold html_step, html_settled.
  destruct (find_file "index.html" 0 l) as [[[i f]|]|e] eqn:F; try discriminate.
  - destruct (found_is_object _ _ _ _ F) as [fields ->].
    destruct (get (VObj fields) "content") as [| |b|z|content|items|fs] eqn:C;
      try (destruct (truthy _) eqn:T; [discriminate|]; intro H; injection H as <-;
           rewrite F, C; exact T).
    destruct (nonempty content); [|intro H; injection H as <-; rewrite F, C; exact I].
    destruct (fix_html year v content) as [h [|]]; intro H; injection H as <-.
    + rewrite find_file_update, F, Nat.sub_0_r, Nat.eqb_refl.
      rewrite (get_content_assign _ _ fields eq_refl). exact I.
    + rewrite F, C. exact I.
  - intro H; injection H as <-. rewrite F. exact I.
Qed.

(** On a settled list the step changes nothing. *)
Lemma css_step_settled : forall v l, css_settled l -> css_step v l = Returned l.
Proof.
  intros v l. unfold css_settled, css_step.
  destruct (find_file "styles.css" 0 l) as [[[i f]|]|e]; try tauto.
  destruct (get f "content") as [| |b|z|content|items|fs];
    try (intros ->; reflexivity).
  intros [->|L]; [reflexivity|].
  destruct (nonempty content); [|reflexivity].
  unfold line_count in L. apply Nat.ltb_ge in L. rewrite L. reflexivity.
Qed.

Lemma js_step_settled : forall l, js_settled l -> js_step l = Returned l.
Proof.
  intros l. unfold js_settled, js_step.
  destruct (find_file "script.js" 0 l) as [[[i f]|]|e]; try tauto.
  destruct (get f "content") as [| |b|z|content|items|fs]; try tauto.
  intros [-> ->]. reflexivity.
Qed.

Lemma html_step_on_settled : forall year v l,
  html_settled l -> exists l', html_step year v l = Returned l'.
Proof.
  intros year v l. unfold html_settled, html_step.
  destruct (find_file "index.html" 0 l) as [[[i f]|]|e]; try tauto;
    [|eexists; reflexivity].
  destruct (get f "content") as [| |b|z|content|items|fs];
    try (intros ->; eexists; reflexivity).
  intros _. destruct (nonempty content); [|eexists; reflexivity].
  destruct (fix_html year v content) as [h [|]]; eexists; reflexivity.
Qed.

(** The three steps of a call that returned. *)
Lemma validator_steps : forall year m b r,
  validateAndEnhanceManifest year m b = Returned r ->
  exists l0 l1 l2 l3,
    files m = Some l0
    /\ html_step year (resolve b) l0 = Returned l1
    /\ css_step (resolve b) l1 = Returned l2
    /\ js_step l2 = Returned l3
    /\ r = set_accentPalette (paletteForAI (resolve b)) (set_files l3 m).
Proof.
  intros year m b r. unfold validateAndEnhanceManifest.
  destruct (files m) as [l0|]; [|discriminate].
  destruct (html_step year (resolve b) l0) as [l1|] eqn:H1; [|discriminate].
  destruct (css_step (resolve b) l1) as [l2|] eqn:H2; [|discriminate].
  destruct (js_step l2) as [l3|] eqn:H3; [|discriminate].
  intro H. injection H as <-. exists l0, l1, l2, l3. auto.
Qed.

(** ** Entries a step leaves alone *)

Lemma nth_error_update_nth_same : forall (A : Type) (g : A -> A) l i,
  nth_error (update_nth i g l) i = option_map g (nth_error l i).
Proof.
  intros A g l. induction l as [|x rest IH]; intros [|i]; simpl; try reflexivity.
  apply IH.
Qed.

Lemma get_other_assign : forall c f k, k <> "content" -> get (assign_content c f) k = get f k.
Proof.
  intros c f k NE. destruct f; simpl; auto. apply lookup_set_prop_other. exact NE.
Qed.

Lemma step_entry : forall q l l' i f,
  step_result q l l' -> nth_error l i = Some f ->
  exists f', nth_error l' i = Some f'
             /\ forall k, k <> "content" -> get f' k = get f k.
Proof.
  intros q l l' i f [->|(j & g & c & F & ->)] N; [eauto|].
  destruct (Nat.eq_dec i j) as [->|NE].
  - rewrite nth_error_update_nth_same, N. simpl. eexists. split; [reflexivity|].
    intros k K. apply get_other_assign. exact K.
  - rewrite nth_error_update_nth_other by exact NE. eauto.
Qed.

Lemma find_file_first : forall p l i0 n f,
  find_file p i0 l = Returned (Some (n, f)) ->
  forall j g, j < n - i0 -> nth_error l j = Some g -> get g "path" <> VStr p.
Proof.
  intros p l. induction l as [|x rest IH]; intros i0 n f; simpl; [discriminate|].
  assert (STEP : get x "path" <> VStr p ->
                 find_file p (S i0) rest = Returned (Some (n, f)) ->
                 forall j g, j < n - i0 -> nth_error (x :: rest) j = Some g ->
                             get g "path" <> VStr p).
  { intros X H j g J N. destruct j as [|j]; simpl in N.
    - injection N as <-. exact X.
    - apply (IH _ _ _ H j g); [|exact N].
      apply find_file_found in H. lia. }
  destruct x; try discriminate; try (apply STEP; simpl; discriminate).
  simpl. destruct (lookup "path" fields) as [| | | |q| |] eqn:Q;
    try (apply STEP; simpl; rewrite Q; discriminate).
  destruct (String.eqb_spec q p) as [->|NE].
  - intro H. injection H as <- <-. intros j g J. lia.
  - apply STEP. simpl. rewrite Q. congruence.
Qed.

Lemma step_later_entry : forall q l l' i j f g,
  step_result q l l' ->
  j < i -> nth_error l j = Some g -> nth_error l i = Some f ->
  get g "path" = get f "path" ->
  nth_error l' i = Some f.
Proof.
  intros q l l' i j f g [->|(n & f0 & c & F & ->)] J G N P; [exact N|].
  rewrite nth_error_update_nth_other; [exact N|].
  intros ->. pose proof (find_file_first _ _ _ _ _ F j g) as FIRST.
  apply find_file_found in F. destruct F as (_ & NF & PF).
  rewrite Nat.sub_0_r in *. rewrite NF in N. injection N as <-.
  apply (FIRST J G). congruence.
Qed.

(** ** The stylesheet step, case by case *)

(** what [find] returns for a path, on a manifest *)
Lemma content_of_files : forall p m l,
  files m = Some l ->
  content_of p m
  = match find_file p 0 l with
    | Returned (Some (_, f)) =>
        match get f "content" with
        | VStr c => Some c
        | _ => None
        end
    | _ => None
    end.
Proof. intros p m l F. unfold content_of. rewrite F. reflexivity. Qed.

Lemma css_step_cases : forall v l l',
  css_step v l = Returned l' ->
  match find_file "styles.css" 0 l with
  | Returned (Some (i, f)) =>
      match get f "content" with
      | VStr c =>
          if nonempty c && (line_count c <? 100)%nat
          then l' = update_nth i
                      (assign_content
                         (enhancedCss (accent v) (accentSecondary v) (accentTertiary v))) l
          else l' = l
      | _ => l' = l
      end
  | Returned None => l' = l
  | Thrown _ => False
  end.
Proof.
  intros v l l'. unfold css_step, line_count.
  destruct (find_file "styles.css" 0 l) as [[[i f]|]|e]; try discriminate;
    [|intro H; injection H as <-; reflexivity].
  destruct (get f "content") as [| |b|z|c|items|fs];
    try (destruct (truthy _); [discriminate|]; intro H; injection H as <-; reflexivity).
  destruct (nonempty c); cbn [andb]; [|intro H; injection H as <-; reflexivity].
  destruct (_ <? 100)%nat; intro H; injection H as <-; reflexivity.
Qed.

(** The stylesheet the validator looks up before and after a call that
    returned: the same entry, with the generated stylesheet for its content
    when the old content was not empty and shorter than 100 lines. *)
Lemma validator_stylesheet : forall year m b r l,
  validateAndEnhanceManifest year m b = Returned r ->
  files m = Some l ->
  let generated :=
    enhancedCss (accent (resolve b)) (accentSecondary (resolve b))
      (accentTertiary (resolve b)) in
  content_of "styles.css" r
  = match content_of "styles.css" m with
    | Some css =>
        if nonempty css && (line_count css <? 100)%nat then Some generated else Some css
    | None => None
    end.
Proof.
  intros year m b r l V F generated.
  destruct (validator_steps year m b r V) as (l0 & l1 & l2 & l3 & F0 & H1 & H2 & H3 & ->).
  rewrite (content_of_files _ m l0 F0).
  rewrite (content_of_files _ (set_accentPalette (paletteForAI (resolve b)) (set_files l3 m))
             l3 eq_refl).
  rewrite (step_other_path "styles.css" "script.js" l2 l3 (js_step_result _ _ H3))
    by discriminate.
  rewrite <- (step_other_path "styles.css" "index.html" l0 l1
                (html_step_result _ _ _ _ H1)) by discriminate.
  pose proof (css_step_cases _ _ _ H2) as C.
  destruct (find_file "styles.css" 0 l1) as [[[i f]|]|e] eqn:G; try contradiction.
  - destruct (found_is_object _ _ _ _ G) as [fields ->].
    destruct (get (VObj fields) "content") as [| |x|z|c|items|fs] eqn:GC;
      try (subst l2; rewrite G, GC; reflexivity).
    destruct (nonempty c && (line_count c <? 100)%nat); subst l2.
    + rewrite find_file_update, G, Nat.sub_0_r, Nat.eqb_refl.
      rewrite (get_content_assign _ _ fields eq_refl). reflexivity.
    + rewrite G, GC. reflexivity.
  - subst l2. rewrite G. reflexivity.
Qed.

(** C5, as the code has it.  Let the validator return.  The entry it looks
    up for the stylesheet is the first entry of [files] with the path
    [styles.css].  When the content of that entry is a string that is not
    empty and has fewer than 100 lines, the content is replaced by the
    generated stylesheet of the resolved palette, which has at least 100
    lines; a content of 100 lines or more is kept; so after the call that
    content, when it is not empty, has at least 100 lines.  A stylesheet
    that is missing or empty is left as it is, and so is every entry with
    the path [styles.css] that comes after the first.  Nothing is proved
    about empty nodes of the markup: the validator fills bare [h2], [h3] and
    [p] nodes only, and keeps the result only when it also inserted a
    section. *)
Theorem repair_of_first_stylesheet :
  forall (year : string) (m : manifest) (userData : brief) (m' : manifest),
    validateAndEnhanceManifest year m userData = Returned m' ->
    let v := resolve userData in
    let generated := enhancedCss (accent v) (accentSecondary v) (accentTertiary v) in
    100 <= line_count generated
    /\ (forall css, content_of "styles.css" m = Some css ->
          css <> "" -> line_count css < 100 ->
          content_of "styles.css" m' = Some generated)
    /\ (forall css, content_of "styles.css" m = Some css ->
          css = "" \/ 100 <= line_count css ->
          content_of "styles.css" m' = Some css)
    /\ (content_of "styles.css" m = None -> content_of "styles.css" m' = None)
    /\ (forall css', content_of "styles.css" m' = Some css' ->
          css' <> "" -> 100 <= line_count css')
    /\ (forall l l' i j f g,
          files m = Some l -> files m' = Some l' ->
          j < i -> nth_error l j = Some g -> nth_error l i = Some f ->
          get g "path" = VStr "styles.css" -> get f "path" = VStr "styles.css" ->
          nth_error l' i = Some f).
Proof.
  intros year m b m' V v generated.
  pose proof (enhancedCss_lines (accent v) (accentSecondary v) (accentTertiary v)) as G.
  destruct (validator_steps year m b m' V) as (l0 & l1 & l2 & l3 & F0 & H1 & H2 & H3 & E).
  pose proof (validator_stylesheet year m b m' l0 V F0) as S. cbv zeta in S.
  fold v in S. fold generated in S.
  split; [exact G|]. split; [|split; [|split; [|split]]].
  - intros css C NE L. rewrite S, C.
    replace (nonempty css) with true
      by (symmetry; apply negb_true_iff; apply String.eqb_neq; exact NE).
    apply Nat.ltb_lt in L. rewrite L. reflexivity.
  - intros css C [->|L]; rewrite S, C; [reflexivity|].
    apply Nat.ltb_ge in L. rewrite L, andb_false_r. reflexivity.
  - intro C. rewrite S, C. reflexivity.
  - intros css' C NE. rewrite S in C.
    destruct (content_of "styles.css" m) as [css|]; [|discriminate].
    destruct (nonempty css) eqn:N; cbn [andb] in C.
    + destruct (line_count css <? 100)%nat eqn:L; injection C as <-; [exact G|].
      apply Nat.ltb_ge in L. exact L.
    + injection C as <-. apply negb_false_iff, String.eqb_eq in N. contradiction.
  - intros l l' i j f g F F' J NG NF PG PF. subst m'.
    rewrite F0 in F. injection F as <-. simpl in F'. injection F' as <-.
    apply html_step_result in H1. apply css_step_result in H2. apply js_step_result in H3.
    assert (P : get g "path" = get f "path") by congruence.
    pose proof (step_later_entry _ _ _ _ _ _ _ H1 J NG NF P) as N1.
    destruct (step_entry _ _ _ j g H1 NG) as (g1 & G1 & K1).
    assert (P1 : get g1 "path" = get f "path")
      by (rewrite K1 by discriminate; exact P).
    pose proof (step_later_entry _ _ _ _ _ _ _ H2 J G1 N1 P1) as N2.
    destruct (step_entry _ _ _ j g1 H2 G1) as (g2 & G2 & K2).
    assert (P2 : get g2 "path" = get f "path")
      by (rewrite K2 by discriminate; exact P1).
    exact (step_later_entry _ _ _ _ _ _ _ H3 J G2 N2 P2).
Qed.

Lemma repair_of_first_stylesheet_witness :
  exists m' l',
    validateAndEnhanceManifest "2025"
      (manifest_of [file_entry "styles.css" "body { margin: 0 }";
                    file_entry "styles.css" "p { margin: 0 }"]) emptyBrief
    = Returned m'
    /\ content_of "styles.css" m' = Some (enhancedCss "#22D3EE" "#22D3EE" "#22D3EE")
    /\ files m' = Some l'
    /\ nth_error l' 1 = Some (file_entry "styles.css" "p { margin: 0 }").
Proof.
  destruct (validateAndEnhanceManifest "2025"
              (manifest_of [file_entry "styles.css" "body { margin: 0 }";
                            file_entry "styles.css" "p { margin: 0 }"]) emptyBrief)
    as [m'|e] eqn:V; [|vm_compute in V; discriminate].
  destruct (repair_of_first_stylesheet "2025" _ emptyBrief m' V)
    as (_ & SHORT & _ & _ & _ & LATER).
  destruct (validator_steps _ _ _ _ V) as (l0 & l1 & l2 & l3 & _ & _ & _ & _ & E).
  exists m', l3. split; [reflexivity|]. split; [|split].
  - apply (SHORT "body { margin: 0 }"); [reflexivity|discriminate|].
    vm_compute. lia.
  - rewrite E. reflexivity.
  - apply (LATER [file_entry "styles.css" "body { margin: 0 }";
                  file_entry "styles.css" "p { margin: 0 }"] l3 1 0
             (file_entry "styles.css" "p { margin: 0 }")
             (file_entry "styles.css" "body { margin: 0 }"));
      try reflexivity; [rewrite E; reflexivity|lia].
Defined.

(** C5, as the design document has it, fails.  On a manifest whose markup has
    an empty [h1] and whose stylesheet is empty, the validator returns with
    the [h1] still empty and the stylesheet still one line long.  On a page
    that has every required section the filled [h2] is computed and then
    dropped, because no section was inserted.  And of two entries with the
    path [styles.css] the second keeps its one line. *)
Lemma repair_leaves_empty_node_and_short_stylesheet :
  (exists m',
     validateAndEnhanceManifest "2025"
       (manifest_of [file_entry "index.html" "<body><h1></h1></body>";
                     file_entry "styles.css" ""]) emptyBrief = Returned m'
     /\ option_map has_empty_node (content_of "index.html" m') = Some true
     /\ option_map line_count (content_of "styles.css" m') = Some 1)
  /\ (exists m',
     validateAndEnhanceManifest "2025" (manifest_of [file_entry "index.html" complete_page])
       emptyBrief = Returned m'
     /\ content_of "index.html" m' = Some complete_page
     /\ has_empty_node complete_page = true
     /\ has_empty_node (fst (fix_html "2025" (resolve emptyBrief) complete_page)) = false)
  /\ (exists m' l',
     validateAndEnhanceManifest "2025"
       (manifest_of [file_entry "styles.css" "body { margin: 0 }";
                     file_entry "styles.css" "p { margin: 0 }"]) emptyBrief = Returned m'
     /\ files m' = Some l'
     /\ nth_error l' 1 = Some (file_entry "styles.css" "p { margin: 0 }")
     /\ line_count "p { margin: 0 }" = 1).
Proof.
  split; [|split].
  - eexists. split; [vm_compute; reflexivity|]. repeat split; vm_compute; reflexivity.
  - eexists. split; [vm_compute; reflexivity|]. repeat split; vm_compute; reflexivity.
  - eexists. eexists. split; [vm_compute; reflexivity|].
    split; [reflexivity|]. split; reflexivity.
Qed.

(** ** A second call *)

Lemma setters_absorb : forall p l m,
  set_accentPalette p (set_files l (set_accentPalette p (set_files l m)))
  = set_accentPalette p (set_files l m).
Proof. intros. reflexivity. Qed.

(** C7, as the code has it.  When the validator has returned, a second call
    with the same brief returns too, and it changes nothing but, possibly,
    the entry of [index.html]: the lists have the same length, every entry
    with another path is the same, and so are the palette and the other
    properties; a manifest without an [index.html] entry is returned as it
    is. *)
Theorem second_validation_changes_markup_only :
  forall (year : string) (m : manifest) (b : brief) (r1 : manifest),
    validateAndEnhanceManifest year m b = Returned r1 ->
    exists r2 l1 l2,
      validateAndEnhanceManifest year r1 b = Returned r2
      /\ files r1 = Some l1 /\ files r2 = Some l2
      /\ List.length l2 = List.length l1
      /\ (forall i f, nth_error l1 i = Some f -> get f "path" <> VStr "index.html" ->
          nth_error l2 i = Some f)
      /\ site_name r2 = site_name r1
      /\ assetsNeeded r2 = assetsNeeded r1
      /\ userData r2 = userData r1
      /\ accentPalette r2 = accentPalette r1
      /\ (find_file "index.html" 0 l1 = Returned None -> r2 = r1).
Proof.
  intros year m b r1 V.
  destruct (validator_steps year m b r1 V) as (l0 & a1 & a2 & a3 & F & H1 & H2 & H3 & ->).
  pose proof (css_step_result _ _ _ H2) as R2. pose proof (js_step_result _ _ H3) as R3.
  assert (HS : html_settled a3).
  { pose proof (html_step_settles _ _ _ _ H1) as S. unfold html_settled in *.
    rewrite (step_other_path "index.html" "script.js" a2 a3 R3) by discriminate.
    rewrite (step_other_path "index.html" "styles.css" a1 a2 R2) by discriminate.
    exact S. }
  destruct (html_step_on_settled year (resolve b) a3 HS) as [b1 G1].
  pose proof (html_step_result _ _ _ _ G1) as Q1.
  assert (CS : css_settled b1).
  { pose proof (css_step_settles _ _ _ H2) as S. unfold css_settled in *.
    rewrite (step_other_path "styles.css" "index.html" a3 b1 Q1) by discriminate.
    rewrite (step_other_path "styles.css" "script.js" a2 a3 R3) by discriminate.
    exact S. }
  assert (JS : js_settled b1).
  { pose proof (js_step_settles _ _ H3) as S. unfold js_settled in *.
    rewrite (step_other_path "script.js" "index.html" a3 b1 Q1) by discriminate.
    exact S. }
  exists (set_accentPalette (paletteForAI (resolve b))
            (set_files b1 (set_accentPalette (paletteForAI (resolve b)) (set_files a3 m)))),
    a3, b1.
  split.
  { unfold validateAndEnhanceManifest. cbn [files set_accentPalette set_files].
    rewrite G1, (css_step_settled _ _ CS), (js_step_settled _ JS). reflexivity. }
  split; [reflexivity|]. split; [reflexivity|].
  split; [exact (step_length _ _ _ Q1)|].
  split; [intros i f N P; exact (step_other_entries _ _ _ _ _ Q1 N P)|].
  repeat (split; [reflexivity|]).
  intro NF. unfold html_step in G1. rewrite NF in G1. injection G1 as <-.
  apply setters_absorb.
Qed.

Lemma second_validation_changes_markup_only_witness :
  exists r1 r2,
    validateAndEnhanceManifest "2025"
      (manifest_of [file_entry "styles.css" "body { margin: 0 }"; file_entry "script.js" ""])
      emptyBrief = Returned r1
    /\ validateAndEnhanceManifest "2025" r1 emptyBrief = Returned r2
    /\ r2 = r1.
Proof.
  eexists.
  destruct (second_validation_changes_markup_only "2025"
              (manifest_of [file_entry "styles.css" "body { margin: 0 }";
                            file_entry "script.js" ""])
              emptyBrief _ eq_refl)
    as (r2 & l1 & l2 & V2 & F1 & _ & _ & _ & _ & _ & _ & _ & SAME).
  exists r2. split; [reflexivity|]. split; [exact V2|].
  apply SAME. injection F1 as <-. reflexivity.
Defined.

(** C7, as the design document has it, fails.  With a brief whose title is
    the text [{{NAME}}] and a page that shows the title and has a skills
    section without a list, the first call writes the title into the page
    and the second call replaces it by the name. *)
Lemma validator_not_idempotent :
  exists r1 r2,
    validateAndEnhanceManifest "2025" (manifest_of [file_entry "index.html" page_with_token])
      brief_with_token = Returned r1
    /\ validateAndEnhanceManifest "2025" r1 brief_with_token = Returned r2
    /\ content_of "index.html" r1
       = Some ("<p>{{NAME}}</p><section id=" ++ dq ++ "skills" ++ dq ++ "></section>")
    /\ content_of "index.html" r2
       = Some ("<p>Ada</p><section id=" ++ dq ++ "skills" ++ dq ++ "></section>")
    /\ r2 <> r1.
Proof.
  eexists. eexists. split; [vm_compute; reflexivity|]. split; [vm_compute; reflexivity|].
  split; [vm_compute; reflexivity|]. split; [vm_compute; reflexivity|].
  intro E. apply (f_equal (content_of "index.html")) in E. vm_compute in E. discriminate.
Qed.
(* ------------------------------------------------------------------ *)
(** * Properties of the spec phase *)

Lemma includes_app_r : forall a b s, includes b s = true -> includes (a ++ b) s = true.
Proof.
  intros a b s H. induction a as [|c t IH]; simpl; [exact H|].
  rewrite IH. apply orb_true_r.
Qed.

(** The validator leaves [assetsNeeded] as it finds it. *)
Lemma validator_keeps_assetsNeeded : forall year m b r,
  validateAndEnhanceManifest year m b = Returned r -> assetsNeeded r = assetsNeeded m.
Proof.
  intros year m b r V.
  destruct (validator_steps _ _ _ _ V) as (l0 & l1 & l2 & l3 & _ & _ & _ & _ & ->).
  reflexivity.
Qed.

(** C2.  The override of the hero prompt is never reached.  Whenever the
    validator returns on the extracted manifest, the handler throws a
    [ReferenceError] at its read of [paletteForAI], before the assignment
    that its comment announces as [ALWAYS OVERRIDE hero image prompt]; the
    manifest the validator returned still asks for the hero image the
    extractor asked for. *)
Theorem hero_prompt_override_never_reached :
  forall (year : string) (extracted : manifest) (userData0 : brief) (r : manifest),
    validateAndEnhanceManifest year (set_userData userData0 extracted) userData0
    = Returned r ->
    repair_phase year extracted userData0 = Thrown (reference_error "paletteForAI")
    /\ assetsNeeded r = assetsNeeded extracted.
Proof.
  intros year extracted b r V. split.
  - unfold repair_phase. rewrite V. reflexivity.
  - apply (validator_keeps_assetsNeeded _ _ _ _ V).
Qed.

Lemma hero_prompt_override_never_reached_witness :
  exists r,
    validateAndEnhanceManifest "2025" (set_userData emptyBrief (extracted_with ["a laptop"]))
      emptyBrief = Returned r
    /\ option_map heroImage (assetsNeeded r) = Some (Some "comic book hero")
    /\ repair_phase "2025" (extracted_with ["a laptop"]) emptyBrief
       = Thrown (reference_error "paletteForAI").
Proof.
  destruct (validateAndEnhanceManifest "2025"
              (set_userData emptyBrief (extracted_with ["a laptop"])) emptyBrief)
    as [r|e] eqn:V; [|vm_compute in V; discriminate].
  destruct (hero_prompt_override_never_reached "2025" (extracted_with ["a laptop"])
              emptyBrief r V) as [T A].
  exists r. split; [reflexivity|]. split; [rewrite A; reflexivity|exact T].
Defined.

(** C6.  The project prompts are never computed.  On a manifest extracted
    with an empty file list the validator returns, whatever the brief and
    whatever prompts the extractor gave, none included; the handler then
    throws the [ReferenceError] of [paletteForAI] before it reaches the code
    that pads the list to three prompts. *)
Theorem project_prompts_never_computed :
  forall (year : string) (prompts : list string) (userData0 : brief),
    (exists r,
        validateAndEnhanceManifest year (set_userData userData0 (extracted_with prompts))
          userData0 = Returned r
        /\ option_map projectImages (assetsNeeded r) = Some (Some prompts))
    /\ repair_phase year (extracted_with prompts) userData0
       = Thrown (reference_error "paletteForAI").
Proof.
  intros year prompts b. split.
  - eexists. split; reflexivity.
  - reflexivity.
Qed.

(* ------------------------------------------------------------------ *)
(** * Properties of the asset phase *)

Ltac effect :=
  simpl; first [left; eexists; reflexivity | right; eexists; reflexivity].

Section ImageFiles.
Variable w : world.
Variable env_IMAGE_MODEL : option string.
Variable prompt outFile : string.

Lemma readFile_write_same : forall fs d, readFile (writeFileSync fs outFile d) outFile = Some d.
Proof. intros. simpl. rewrite String.eqb_refl. reflexivity. Qed.

Lemma readFile_write_other : forall fs f g d,
  f <> g -> readFile (writeFileSync fs g d) f = readFile fs f.
Proof.
  intros fs f g d NE. simpl. destruct (String.eqb_spec g f); [congruence|reflexivity].
Qed.

(** What the adapter does to the file system: nothing when it throws, the
    image in the output file when it returns. *)
Lemma image_adapter_effect : forall fs i k,
  (exists e, generateImageWithKey w env_IMAGE_MODEL fs i k prompt outFile = (fs, Thrown e))
  \/ (exists data,
        generateImageWithKey w env_IMAGE_MODEL fs i k prompt outFile
        = (writeFileSync fs outFile (Base64 data), Returned outFile)).
Proof.
  intros fs i k. unfold generateImageWithKey.
  destruct (try_models _ 0 (IMAGE_MODEL_CANDIDATES env_IMAGE_MODEL)); try effect.
  destruct (try_models _ 0 legacyModels); effect.
Qed.

Lemma image_loop_effect : forall keys last fs i0,
  (exists e,
     snd (generateImageToFile_loop w env_IMAGE_MODEL prompt outFile last fs i0 keys)
     = (fs, Thrown e))
  \/ (exists data,
     snd (generateImageToFile_loop w env_IMAGE_MODEL prompt outFile last fs i0 keys)
     = (writeFileSync fs outFile (Base64 data), Returned outFile)).
Proof.
  induction keys as [|k rest IH]; intros last fs i0; simpl; [effect|].
  destruct (image_adapter_effect fs i0 k) as [[e ->]|[data ->]]; [|effect].
  destruct (isRetryableError e && negb (List.length rest =? 0)%nat); [|effect].
  specialize (IH (Some e) fs (S i0)).
  destruct (generateImageToFile_loop w env_IMAGE_MODEL prompt outFile (Some e) fs
              (S i0) rest) as [tr res]. exact IH.
Qed.

(** Whether the rotation throws does not depend on the files written
    before. *)
Lemma image_loop_outcome_fs : forall keys last fs fs0 i0,
  snd (snd (generateImageToFile_loop w env_IMAGE_MODEL prompt outFile last fs i0 keys))
  = snd (snd (generateImageToFile_loop w env_IMAGE_MODEL prompt outFile last fs0 i0 keys)).
Proof.
  induction keys as [|k rest IH]; intros last fs fs0 i0; simpl; [reflexivity|].
  destruct (image_adapter_effect fs i0 k) as [[e E]|[data E]];
    destruct (image_adapter_effect fs0 i0 k) as [[e0 E0]|[data0 E0]];
    pose proof (image_adapter_fs w prompt env_IMAGE_MODEL outFile fs fs0 i0 k) as S;
    rewrite E, E0 in *; simpl in S; try discriminate; [|reflexivity].
  injection S as <-.
  destruct (isRetryableError e && negb (List.length rest =? 0)%nat); [|reflexivity].
  specialize (IH (Some e) fs fs0 (S i0)).
  destruct (generateImageToFile_loop w env_IMAGE_MODEL prompt outFile (Some e) fs
              (S i0) rest) as [tr res].
  destruct (generateImageToFile_loop w env_IMAGE_MODEL prompt outFile (Some e) fs0
              (S i0) rest) as [tr0 res0]. exact IH.
Qed.

Variable keys : list string.

Lemma generateImageToFile_effect : forall fs,
  (exists e,
     snd (generateImageToFile w keys env_IMAGE_MODEL fs prompt outFile) = (fs, Thrown e))
  \/ (exists data,
     snd (generateImageToFile w keys env_IMAGE_MODEL fs prompt outFile)
     = (writeFileSync fs outFile (Base64 data), Returned outFile)).
Proof.
  intro fs. unfold generateImageToFile.
  destruct (List.length keys =? 0)%nat; [effect|apply image_loop_effect].
Qed.

Lemma generateImageToFile_outcome_fs : forall fs fs0,
  snd (snd (generateImageToFile w keys env_IMAGE_MODEL fs prompt outFile))
  = snd (snd (generateImageToFile w keys env_IMAGE_MODEL fs0 prompt outFile)).
Proof.
  intros fs fs0. unfold generateImageToFile.
  destruct (List.length keys =? 0)%nat; [reflexivity|apply image_loop_outcome_fs].
Qed.
End ImageFiles.

(** One need: the mapping is recorded, the output file is written, with the
    placeholder when synthesis failed, and no other file is touched. *)
Lemma resolve_one_effect : forall w keys env st nd,
  let st' := resolve_one w keys env st nd in
  st_replacements st' = (st_replacements st ++ [(n_token nd, n_relative nd)])%list
  /\ (exists d, readFile (st_fs st') (n_outFile nd) = Some d
        /\ (synthesis_fails w keys env nd = true ->
            d = generatePlaceholderImage w (n_outFile nd) (n_width nd) (n_height nd)))
  /\ (forall f, f <> n_outFile nd -> readFile (st_fs st') f = readFile (st_fs st) f).
Proof.
  intros w keys env st nd. unfold resolve_one, resolve_need, synthesis_fails.
  rewrite (generateImageToFile_outcome_fs w env (n_prompt nd) (n_outFile nd) keys []
             (st_fs st)).
  destruct (generateImageToFile_effect w env (n_prompt nd) (n_outFile nd) keys (st_fs st))
    as [[e E]|[data E]]; rewrite E; simpl.
  - split; [reflexivity|]. split.
    + eexists. rewrite String.eqb_refl. split; [reflexivity|auto].
    + intros f NE. destruct (String.eqb_spec (n_outFile nd) f); [congruence|reflexivity].
  - split; [reflexivity|]. split.
    + eexists. rewrite String.eqb_refl. split; [reflexivity|discriminate].
    + intros f NE. destruct (String.eqb_spec (n_outFile nd) f); [congruence|reflexivity].
Qed.

Lemma resolve_all_effect : forall w keys env needs st,
  NoDup (map n_outFile needs) ->
  let st' := fold_left (resolve_one w keys env) needs st in
  st_replacements st'
  = (st_replacements st ++ map (fun nd => (n_token nd, n_relative nd)) needs)%list
  /\ (forall nd, In nd needs ->
      exists d, readFile (st_fs st') (n_outFile nd) = Some d
        /\ (synthesis_fails w keys env nd = true ->
            d = generatePlaceholderImage w (n_outFile nd) (n_width nd) (n_height nd)))
  /\ (forall f, ~ In f (map n_outFile needs) -> readFile (st_fs st') f = readFile (st_fs st) f).
Proof.
  intros w keys env needs. induction needs as [|nd rest IH]; intros st ND; simpl.
  - rewrite List.app_nil_r. split; [reflexivity|]. split; [tauto|auto].
  - inversion ND as [|x xs NI ND']; subst.
    destruct (resolve_one_effect w keys env st nd) as (R & (d & D & P) & O).
    destruct (IH (resolve_one w keys env st nd) ND') as (R' & F' & O').
    split; [|split].
    + rewrite R', R, <- List.app_assoc. reflexivity.
    + intros nd' [<-|IN]; [|exact (F' nd' IN)].
      exists d. rewrite (O' (n_outFile nd) NI). auto.
    + intros f NF. rewrite O' by tauto. apply O. intro E. apply NF. left. auto.
Qed.

Lemma project_loop_fold : forall w keys env assetsDir palette imgs projects count i st,
  project_loop w keys env assetsDir palette imgs projects count i st
  = fold_left (resolve_one w keys env)
      (map (fun i =>
              {| n_prompt := projectPrompt palette imgs projects i;
                 n_outFile := path_join assetsDir ("project_" ++ of_nat (i + 1) ++ ".png");
                 n_token := "PROJECT_" ++ of_nat (i + 1) ++ "_IMG";
                 n_relative := "./assets/project_" ++ of_nat (i + 1) ++ ".png";
                 n_width := 800; n_height := 600 |})
           (seq i count)) st.
Proof.
  intros w keys env assetsDir palette imgs projects count.
  induction count as [|count IH]; intros i st; simpl; [reflexivity|].
  rewrite IH. reflexivity.
Qed.

Lemma resolve_assets_fold : forall w keys env assetsDir m fs,
  resolve_assets w keys env assetsDir m fs
  = fold_left (resolve_one w keys env) (image_needs assetsDir m)
      {| st_fs := fs; st_replacements := []; st_log := [] |}.
Proof.
  intros. unfold resolve_assets, image_needs. rewrite project_loop_fold. reflexivity.
Qed.

Lemma string_app_inv_head : forall a x y : string, a ++ x = a ++ y -> x = y.
Proof.
  intros a x y. induction a as [|c t IH]; simpl; intro H; [exact H|].
  injection H as H. auto.
Qed.

Lemma numProjectsToGenerate_le : forall imgs projects, numProjectsToGenerate imgs projects <= 3.
Proof.
  intros. unfold numProjectsToGenerate. destruct (0 <? _)%nat; apply Nat.le_min_r.
Qed.

Lemma image_needs_distinct : forall assetsDir m, NoDup (map n_outFile (image_needs assetsDir m)).
Proof.
  intros assetsDir m. unfold image_needs.
  set (n := numProjectsToGenerate _ _).
  assert (L : n <= 3) by apply numProjectsToGenerate_le.
  cbn [map n_outFile]. rewrite map_map. cbn [n_outFile]. unfold path_join.
  destruct n as [|[|[|[|n]]]]; [| | | |lia]; cbn [seq map];
    repeat (apply NoDup_cons;
            [simpl; intro H;
             repeat (destruct H as [H|H];
                     [apply string_app_inv_head in H; discriminate|]);
             exact H|]);
    apply NoDup_nil.
Qed.

(** C3, as the code has it.  For every behaviour of the provider and of the
    placeholder service, and every key list, the asset phase on a stored
    manifest with a [files] array answers [ok].  Every image need of the
    manifest, the hero image and each project image, has its file written
    and its token mapped to the relative path in the replacements that are
    applied to the files; where synthesis failed for good the file holds
    the placeholder, which is the body the placeholder service returned or,
    when that request fails, the built-in PNG. *)
Theorem asset_phase_resolves_every_need :
  forall (w : world) (keys : list string) (env_IMAGE_MODEL : option string)
         (dir id : string) (m : manifest) (fl : list jsval) (fs : filesystem),
    id <> "" ->
    files m = Some fl ->
    let needs := image_needs (path_join dir "assets") m in
    exists fs' m',
      generate_assets w keys env_IMAGE_MODEL dir (Some id) (Some m) fs
      = (Ok id, fs', Some m')
      /\ files m'
         = Some (replaceInFiles replace_token fl
                   (map (fun nd => (n_token nd, n_relative nd)) needs))
      /\ forall nd, In nd needs ->
           exists d,
             readFile fs' (n_outFile nd) = Some d
             /\ (synthesis_fails w keys env_IMAGE_MODEL nd = true ->
                 d = generatePlaceholderImage w (n_outFile nd) (n_width nd) (n_height nd)
                 /\ (d = minimalPng \/ exists body, d = Body body)).
Proof.
  intros w keys env dir id m fl fs NE F needs.
  unfold generate_assets. apply String.eqb_neq in NE. rewrite NE.
  rewrite resolve_assets_fold. fold needs.
  destruct (resolve_all_effect w keys env needs
              {| st_fs := fs; st_replacements := []; st_log := [] |}
              (image_needs_distinct _ m)) as (R & W & _).
  cbn zeta in R, W. cbn [st_replacements app] in R. rewrite R, F.
  assert (NZ : (0 <? List.length (map (fun nd => (n_token nd, n_relative nd)) needs))%nat
               = true) by reflexivity.
  rewrite NZ. eexists. eexists. split; [reflexivity|]. split; [reflexivity|].
  intros nd IN. destruct (W nd IN) as (d & D & P). exists d. split; [exact D|].
  intro S. split; [exact (P S)|]. rewrite (P S). unfold generatePlaceholderImage.
  destruct (axios_get w _ _); eauto.
Qed.

Lemma asset_phase_resolves_every_need_witness :
  exists fs' m',
    generate_assets world_refusing ["key-1"] None "projects/ab12cd34" (Some "ab12cd34")
      (Some (manifest_of [file_entry "index.html" "<img src={{HERO_IMAGE}}>"])) []
    = (Ok "ab12cd34", fs', Some m')
    /\ readFile fs' "projects/ab12cd34/assets/hero.png" = Some minimalPng
    /\ content_of "index.html" m' = Some "<img src=./assets/hero.png>".
Proof.
  destruct (asset_phase_resolves_every_need world_refusing ["key-1"] None
              "projects/ab12cd34" "ab12cd34"
              (manifest_of [file_entry "index.html" "<img src={{HERO_IMAGE}}>"])
              [file_entry "index.html" "<img src={{HERO_IMAGE}}>"] []
              ltac:(discriminate) eq_refl) as (fs' & m' & G & F & N).
  exists fs', m'. split; [exact G|].
  vm_compute in G. injection G as <- <-. split; reflexivity.
Defined.

(** C3, as the design document has it, fails in one word: the placeholder
    is not made locally.  With no key configured, synthesis fails and the
    file written for the hero image is the body that the placeholder
    service returned, whatever that is. *)
Lemma placeholder_comes_from_the_service :
  synthesis_fails (world_placeholder "first body") [] None
    {| n_prompt := heroPrompt []; n_outFile := "projects/ab12cd34/assets/hero.png";
       n_token := "HERO_IMAGE"; n_relative := "./assets/hero.png";
       n_width := 1200; n_height := 600 |} = true
  /\ readFile
       (snd (fst (generate_assets (world_placeholder "first body") [] None
                    "projects/ab12cd34" (Some "ab12cd34") (Some (manifest_of [])) [])))
       "projects/ab12cd34/assets/hero.png" = Some (Body "first body")
  /\ readFile
       (snd (fst (generate_assets (world_placeholder "second body") [] None
                    "projects/ab12cd34" (Some "ab12cd34") (Some (manifest_of [])) [])))
       "projects/ab12cd34/assets/hero.png" = Some (Body "second body").
Proof. repeat split; vm_compute; reflexivity. Qed.

(* ------------------------------------------------------------------ *)
(** * Properties of the manifest extractor *)

Lemma prefix_cons : forall a b p s,
  String.prefix (String a p) (String b s) = Ascii.eqb a b && String.prefix p s.
Proof.
  intros a b p s. simpl. destruct (ascii_dec a b) as [->|NE].
  - rewrite Ascii.eqb_refl. reflexivity.
  - apply Ascii.eqb_neq in NE. rewrite NE. reflexivity.
Qed.

Lemma str_length_app : forall a b, String.length (a ++ b) = String.length a + String.length b.
Proof. intros a b. induction a as [|c t IH]; simpl; auto. Qed.

Lemma drop_app : forall a b, drop (String.length a) (a ++ b) = b.
Proof. intros a b. induction a as [|c t IH]; simpl; auto. Qed.

Lemma take_app : forall a b, take (String.length a) (a ++ b) = a.
Proof.
  intros a b. induction a as [|c t IH]; simpl; [reflexivity|].
  rewrite IH. reflexivity.
Qed.

Lemma str_app_assoc : forall a b c : string, (a ++ b) ++ c = a ++ (b ++ c).
Proof. intros a b c. induction a as [|x t IH]; simpl; congruence. Qed.

Lemma app_not_empty : forall a c b, (a ++ String c b =? "") = false.
Proof. intros a c b. destruct a; reflexivity. Qed.

Lemma includes_cons : forall c t p,
  includes (String c t) p = false ->
  String.prefix p (String c t) = false /\ includes t p = false.
Proof. intros c t p H. simpl in H. apply orb_false_iff in H. exact H. Qed.

Lemma includes_prefix : forall s p, includes s p = false -> String.prefix p s = false.
Proof.
  intros s p H. destruct s as [|c t].
  - simpl in H. apply orb_false_iff in H. tauto.
  - apply includes_cons in H. tauto.
Qed.

(** A text without a fence has no fenced block. *)
Lemma no_fence_no_block : forall s,
  includes s fence = false -> search_first fenced_at s = None.
Proof.
  induction s as [|c t IH]; intro H.
  - reflexivity.
  - apply includes_cons in H. destruct H as [P T].
    cbn [search_first]. unfold fenced_at at 1. rewrite P. apply IH. exact T.
Qed.

(** Text without a backtick before a block is skipped. *)
Lemma block_after_prose : forall pre rest,
  includes pre "`" = false ->
  search_first fenced_at (pre ++ rest) = search_first fenced_at rest.
Proof.
  induction pre as [|c t IH]; intros rest H; [reflexivity|].
  apply includes_cons in H. destruct H as [P T].
  cbn [append search_first]. unfold fenced_at at 1.
  unfold fence. rewrite prefix_cons. rewrite prefix_cons in P.
  destruct (Ascii.eqb "`" c); [destruct t; discriminate|].
  simpl. apply IH. exact T.
Qed.

(** In a text without a fence, followed by a line feed, no fence starts. *)
Lemma fence_not_across : forall s rest,
  String.prefix fence s = false ->
  String.prefix fence (s ++ String (ascii_of_nat 10) rest) = false.
Proof.
  intros s rest. unfold fence.
  destruct s as [|a [|b [|c t]]]; cbn [append]; rewrite ?prefix_cons;
    try reflexivity.
  - destruct (Ascii.eqb "`" a); reflexivity.
  - destruct (Ascii.eqb "`" a); [|reflexivity]. destruct (Ascii.eqb "`" b); reflexivity.
  - destruct (Ascii.eqb "`" a); [|reflexivity].
    destruct (Ascii.eqb "`" b); [|reflexivity].
    destruct (Ascii.eqb "`" c); [|reflexivity]. destruct t; simpl; discriminate.
Qed.

Lemma prefix_fence : forall post, String.prefix fence (fence ++ post) = true.
Proof. intro post. destruct post; reflexivity. Qed.

Lemma closing_fence_index : forall s post off,
  includes s fence = false ->
  indexOf_from off (s ++ nl ++ fence ++ post) fence = Some (off + String.length s + 1).
Proof.
  intros s post. change (nl ++ fence ++ post) with (String (ascii_of_nat 10) (fence ++ post)).
  induction s as [|c t IH]; intros off H.
  - destruct post; simpl; f_equal; lia.
  - pose proof (fence_not_across _ (fence ++ post) (includes_prefix _ _ H)) as P.
    apply includes_cons in H. destruct H as [_ T].
    cbn [append] in P. cbn [append indexOf_from]. rewrite P.
    rewrite (IH (S off) T). f_equal. simpl. lia.
Qed.

Lemma trimEnd_object : forall a,
  trimEnd (a ++ "}" ++ nl) = a ++ "}".
Proof.
  induction a as [|c t IH]; [reflexivity|].
  cbn [append trimEnd]. cbn [append] in IH. rewrite IH.
  destruct t; reflexivity.
Qed.

Lemma trim_object : forall body, trim ("{" ++ body ++ "}" ++ nl) = "{" ++ body ++ "}".
Proof.
  intro body. unfold trim. cbn [append trimStart]. 
  change (is_space "{") with false. cbv iota.
  change (String "{" (body ++ "}" ++ nl)) with (String "{" body ++ "}" ++ nl).
  apply (trimEnd_object (String "{" body)).
Qed.

(** The block of a text that wraps the text of an object in a fence. *)
Lemma block_of_wrapped : forall body post,
  includes ("{" ++ body ++ "}") fence = false ->
  fenced_at (fence ++ "json" ++ nl ++ ("{" ++ body ++ "}") ++ nl ++ fence ++ post)
  = Some (("{" ++ body ++ "}") ++ nl).
Proof.
  intros body post H. unfold fenced_at.
  change (String.prefix fence (fence ++ "json" ++ nl ++ ("{" ++ body ++ "}") ++ nl ++ fence ++ post))
    with true.
  cbv iota.
  change (drop 3 (fence ++ "json" ++ nl ++ ("{" ++ body ++ "}") ++ nl ++ fence ++ post))
    with ("json" ++ nl ++ ("{" ++ body ++ "}") ++ nl ++ fence ++ post).
  change (prefix_ci "json" ("json" ++ nl ++ ("{" ++ body ++ "}") ++ nl ++ fence ++ post))
    with true.
  cbv iota.
  change (drop 4 ("json" ++ nl ++ ("{" ++ body ++ "}") ++ nl ++ fence ++ post))
    with (nl ++ ("{" ++ body ++ "}") ++ nl ++ fence ++ post).
  change (span is_space (nl ++ ("{" ++ body ++ "}") ++ nl ++ fence ++ post)) with 1.
  change (drop 1 (nl ++ ("{" ++ body ++ "}") ++ nl ++ fence ++ post))
    with (("{" ++ body ++ "}") ++ nl ++ fence ++ post).
  unfold indexOf. rewrite (closing_fence_index _ post 0 H).
  replace (0 + String.length ("{" ++ body ++ "}") + 1)
    with (String.length (("{" ++ body ++ "}") ++ nl))
    by (rewrite str_length_app; simpl; lia).
  rewrite <- (str_app_assoc ("{" ++ body ++ "}") nl (fence ++ post)).
  rewrite take_app. reflexivity.
Qed.

Lemma indexOf_brace : forall pre rest off,
  includes pre "{" = false ->
  indexOf_from off (pre ++ String "{" rest) "{" = Some (off + String.length pre).
Proof.
  induction pre as [|c t IH]; intros rest off H.
  - destruct rest; simpl; f_equal; lia.
  - pose proof (includes_prefix _ _ H) as P. apply includes_cons in H. destruct H as [_ T].
    cbn [append indexOf_from]. rewrite prefix_cons in *.
    destruct (Ascii.eqb "{" c); [destruct t; discriminate|].
    cbn [andb]. rewrite (IH rest (S off) T). f_equal. simpl. lia.
Qed.

Lemma lastIndexOf_none : forall s off,
  includes s "}" = false -> lastIndexOf_from off s "}" = None.
Proof.
  induction s as [|c t IH]; intros off H; [reflexivity|].
  pose proof (includes_prefix _ _ H) as P. apply includes_cons in H. destruct H as [_ T].
  cbn [lastIndexOf_from]. rewrite (IH (S off) T), P. reflexivity.
Qed.

Lemma lastIndexOf_brace : forall u post off,
  includes post "}" = false ->
  lastIndexOf_from off (u ++ String "}" post) "}" = Some (off + String.length u).
Proof.
  induction u as [|c t IH]; intros post off H.
  - cbn [append lastIndexOf_from]. rewrite (lastIndexOf_none post (S off) H).
    destruct post; simpl; f_equal; lia.
  - cbn [append lastIndexOf_from]. rewrite (IH post (S off) H). f_equal. simpl. lia.
Qed.


(* ------------------------------------------------------------------ *)
(** * [JSON.parse] reads back what [JSON.stringify] writes *)

Lemma jsval_induction (P : jsval -> Prop) :
  P VUndef -> P VNull -> (forall b, P (VBool b)) -> (forall z, P (VNum z)) ->
  (forall s, P (VStr s)) ->
  (forall items, Forall P items -> P (VArr items)) ->
  (forall fields, Forall (fun kx => P (snd kx)) fields -> P (VObj fields)) ->
  forall v, P v.
Proof.
  intros HU HN HB HZ HS HA HO. fix IH 1.
  intros [| |b|z|s|items|fields];
    [exact HU|exact HN|apply HB|apply HZ|apply HS| |].
  - apply HA. induction items as [|x rest IHr]; constructor; [apply IH|exact IHr].
  - apply HO. induction fields as [|[k x] rest IHr]; constructor; [apply IH|exact IHr].
Qed.

(** ** Strings *)

Lemma parse_chars_escape_char : forall c X,
  parse_chars (escape_char c ++ X)
  = match parse_chars X with
    | Some (str, rest) => Some (String c str, rest)
    | None => None
    end.
Proof.
  intros c X. destruct c as [[] [] [] [] [] [] [] []]; reflexivity.
Qed.

Lemma parse_chars_escape : forall s rest,
  parse_chars (escape s ++ dq ++ rest) = Some (s, rest).
Proof.
  induction s as [|c t IH]; intro rest; [reflexivity|].
  cbn [escape]. rewrite str_app_assoc, parse_chars_escape_char, IH. reflexivity.
Qed.

(** ** Numbers *)

Lemma parse_digits_uint : forall d acc rest,
  match rest with
  | "" => true
  | String c _ => negb (is_digit c)
  end = true ->
  parse_digits acc (NilEmpty.string_of_uint d ++ rest) = (Nat.of_uint_acc d acc, rest).
Proof.
  induction d; intros acc rest R; cbn [NilEmpty.string_of_uint append Nat.of_uint_acc];
    try (cbn [parse_digits]; change (is_digit _) with true; cbv iota;
         rewrite IHd by exact R; rewrite Nat.tail_mul_spec; f_equal; f_equal;
         simpl; lia).
  destruct rest as [|c t]; [reflexivity|]. cbn [parse_digits].
  apply negb_true_iff in R. rewrite R. reflexivity.
Qed.

Lemma to_uint_normal : forall n, Nat.to_uint n = Decimal.unorm (Nat.to_uint n).
Proof.
  intro n. rewrite <- (DecimalNat.Unsigned.to_of (Nat.to_uint n)).
  rewrite DecimalNat.Unsigned.of_to. reflexivity.
Qed.

(** The decimal numeral of a number starts with a digit, and with [0] only
    when the number is zero. *)
Lemma of_nat_head : forall n,
  exists c t,
    of_nat n = String c t /\ is_digit c = true
    /\ (Ascii.eqb c "0" = true -> n = 0 /\ t = "").
Proof.
  intro n. unfold of_nat. pose proof (to_uint_normal n) as N.
  pose proof (DecimalNat.Unsigned.of_to n) as O.
  unfold Decimal.unorm in N.
  destruct (Nat.to_uint n) as [|d|d|d|d|d|d|d|d|d|d] eqn:U;
    try (eexists; eexists; split; [reflexivity|]; split; [reflexivity|];
         intro H; discriminate).
  - destruct (Decimal.nzhead Decimal.Nil); discriminate.
  - eexists. eexists. split; [reflexivity|]. split; [reflexivity|]. intros _.
    destruct (Decimal.nzhead (Decimal.D0 d)) eqn:Z; try discriminate.
    + injection N as ->. split; [rewrite <- O; reflexivity|reflexivity].
    + exfalso. exact (DecimalFacts.nzhead_nonzero _ _ Z).
Qed.

Lemma stops_not_digit : forall rest,
  stops rest = true ->
  match rest with
  | "" => true
  | String c _ => negb (is_digit c)
  end = true.
Proof.
  intros [|c t]; simpl; [reflexivity|]. intro H. apply negb_true_iff in H.
  apply orb_false_iff in H. destruct H as [H _].
  apply orb_false_iff in H. destruct H as [H _].
  apply orb_false_iff in H. destruct H as [H _]. rewrite H. reflexivity.
Qed.

Lemma parse_nat_of_nat : forall n rest,
  stops rest = true -> parse_nat (of_nat n ++ rest) = Some (n, rest).
Proof.
  intros n rest R. destruct (of_nat_head n) as (c & t & E & D & Z).
  unfold parse_nat. rewrite E. cbn [append]. rewrite D. cbv iota. cbn [negb].
  assert (STOP : match rest with
                 | "" => Some (n, rest)
                 | String d _ =>
                     if Ascii.eqb d "." || Ascii.eqb d "e" || Ascii.eqb d "E"
                     then None else Some (n, rest)
                 end = Some (n, rest)).
  { destruct rest as [|d r]; [reflexivity|]. simpl in R. apply negb_true_iff in R.
    destruct (is_digit d); [discriminate|]. simpl in R. rewrite R. reflexivity. }
  destruct (Ascii.eqb c "0") eqn:C.
  - destruct (Z eq_refl) as [-> ->]. exact STOP.
  - change (String c (t ++ rest)) with (String c t ++ rest). rewrite <- E.
    unfold of_nat. rewrite (parse_digits_uint _ 0 rest (stops_not_digit rest R)).
    change (Nat.of_uint_acc (Nat.to_uint n) 0) with (Nat.of_uint (Nat.to_uint n)).
    rewrite DecimalNat.Unsigned.of_to. exact STOP.
Qed.

(** ** Values *)

Lemma digit_dispatch : forall c,
  is_digit c = true ->
  is_json_ws c = false /\ Ascii.eqb c "{" = false /\ Ascii.eqb c "[" = false
  /\ (nat_of_ascii c =? 34)%nat = false /\ Ascii.eqb c "-" = false
  /\ Ascii.eqb c "]" = false.
Proof.
  intros c. destruct c as [[] [] [] [] [] [] [] []]; intro H; try discriminate H;
    repeat split; reflexivity.
Qed.

Lemma parse_nat_value : forall n fuel rest,
  stops rest = true ->
  parse_value (S fuel) (of_nat n ++ rest) = Some (VNum (Z.of_nat n), rest).
Proof.
  intros n fuel rest R. pose proof (parse_nat_of_nat n rest R) as P.
  destruct (of_nat_head n) as (c & t & E & D & _). rewrite E in *. cbn [append] in *.
  destruct (digit_dispatch c D) as (W & A & B & Q & M & _).
  cbn [parse_value skip_ws]. rewrite W, A, B, Q, M, D, P. reflexivity.
Qed.

Lemma parse_number : forall z fuel rest,
  stops rest = true ->
  parse_value (S fuel) (string_of_Z z ++ rest) = Some (VNum z, rest).
Proof.
  intros z fuel rest R. destruct z as [|p|p]; unfold string_of_Z.
  - apply (parse_nat_value 0 fuel rest R).
  - rewrite (parse_nat_value (Pos.to_nat p) fuel rest R).
    rewrite positive_nat_Z. reflexivity.
  - cbn [append parse_value skip_ws]. change (is_json_ws "-") with false. cbv iota.
    change (Ascii.eqb "-" "{") with false. change (Ascii.eqb "-" "[") with false.
    change (nat_of_ascii "-" =? 34)%nat with false. change (Ascii.eqb "-" "-") with true.
    cbv iota. rewrite (parse_nat_of_nat _ rest R). rewrite positive_nat_Z. reflexivity.
Qed.

Lemma parse_string : forall s fuel rest,
  parse_value (S fuel) (quote s ++ rest) = Some (VStr s, rest).
Proof.
  intros s fuel rest. unfold quote. rewrite !str_app_assoc.
  change (dq ++ escape s ++ dq ++ rest)
    with (String (ascii_of_nat 34) (escape s ++ dq ++ rest)).
  cbn [parse_value skip_ws]. change (is_json_ws (ascii_of_nat 34)) with false. cbv iota.
  change (Ascii.eqb (ascii_of_nat 34) "{") with false.
  change (Ascii.eqb (ascii_of_nat 34) "[") with false.
  change (nat_of_ascii (ascii_of_nat 34) =? 34)%nat with true. cbv iota.
  rewrite parse_chars_escape. reflexivity.
Qed.

Lemma parse_word : forall fuel rest,
  parse_value (S fuel) ("null" ++ rest) = Some (VNull, rest)
  /\ parse_value (S fuel) ("true" ++ rest) = Some (VBool true, rest)
  /\ parse_value (S fuel) ("false" ++ rest) = Some (VBool false, rest).
Proof. intros fuel rest. destruct rest; repeat split; reflexivity. Qed.

Lemma head_ok_text : forall v, json_wf v = true -> head_ok (element_text v) = true.
Proof.
  intros v W. destruct v as [| |[|]|[|p|p]|s|items|fields]; try discriminate;
    try reflexivity.
  unfold element_text. cbn [JSON_stringify string_of_Z].
  destruct (of_nat_head (Pos.to_nat p)) as (c & t & E & D & _). rewrite E.
  destruct (digit_dispatch c D) as (WS & _ & _ & _ & _ & B). simpl. rewrite WS, B.
  reflexivity.
Qed.

Lemma head_ok_skip : forall s rest,
  head_ok s = true ->
  exists c t, s ++ rest = String c (t ++ rest) /\ skip_ws (s ++ rest) = String c (t ++ rest)
              /\ Ascii.eqb c "]" = false /\ 1 <= String.length s.
Proof.
  intros [|c t] rest H; [discriminate|]. simpl in H. apply andb_prop in H.
  destruct H as [W B]. apply negb_true_iff in W, B.
  exists c, t. cbn [append skip_ws String.length]. rewrite W. repeat split; auto. lia.
Qed.

Lemma join_cons : forall sep x y l,
  join sep (x :: y :: l) = x ++ sep ++ join sep (y :: l).
Proof. reflexivity. Qed.

Lemma parse_elements_text : forall items,
  Forall reads_back items ->
  forallb json_wf items = true ->
  items <> [] ->
  forall acc fuel rest,
    String.length (join "," (map element_text items)) + 1 <= fuel ->
    parse_elements fuel acc (join "," (map element_text items) ++ "]" ++ rest)
    = Some (VArr (acc ++ items)%list, rest).
Proof.
  induction items as [|x xs IH]; intros RB W NE acc fuel rest L; [contradiction|].
  inversion RB as [|? ? RX RXS]; subst. simpl in W. apply andb_prop in W.
  destruct W as [WX WXS].
  destruct fuel as [|f]; [lia|].
  destruct xs as [|y ys].
  - cbn [map join String.concat] in *. cbn [parse_elements].
    rewrite (RX WX f ("]" ++ rest)) by (try reflexivity; lia).
    reflexivity.
  - cbn [map] in *. rewrite join_cons in *. rewrite str_length_app in L.
    rewrite !str_app_assoc. cbn [parse_elements].
    rewrite (RX WX f) by (try reflexivity; lia).
    cbn [append skip_ws]. change (is_json_ws ",") with false. cbv iota.
    change (Ascii.eqb "," ",") with true. cbv iota.
    change (String "]" rest) with ("]" ++ rest).
    rewrite (IH RXS WXS ltac:(discriminate) (acc ++ [x])%list f rest).
    + rewrite <- List.app_assoc. reflexivity.
    + cbn [String.length append] in L. lia.
Qed.

Lemma distinct_mid : forall a k r,
  distinct (a ++ k :: r) = true -> forallb (fun k' => negb (k' =? k)) a = true.
Proof.
  induction a as [|x a IH]; intros k r H; [reflexivity|].
  simpl in H. apply andb_prop in H. destruct H as [X D].
  simpl. rewrite (IH k r D). apply negb_true_iff in X. rewrite existsb_app in X.
  apply orb_false_iff in X. destruct X as [_ X]. simpl in X.
  apply orb_false_iff in X. destruct X as [X _]. rewrite X. reflexivity.
Qed.

Lemma set_prop_fresh : forall k v acc,
  forallb (fun k' => negb (k' =? k)) (map fst acc) = true ->
  set_prop k v acc = (acc ++ [(k, v)])%list.
Proof.
  intros k v acc. induction acc as [|[a x] acc IH]; intro H; [reflexivity|].
  simpl in H. apply andb_prop in H. destruct H as [A R].
  apply negb_true_iff in A. simpl. rewrite A, (IH R). reflexivity.
Qed.

Lemma parse_members_text : forall fields,
  Forall (fun kx => reads_back (snd kx)) fields ->
  forallb (fun kx => json_wf (snd kx)) fields = true ->
  fields <> [] ->
  forall acc fuel rest,
    distinct (map fst acc ++ map fst fields) = true ->
    String.length (join "," (map member_text fields)) + 1 <= fuel ->
    parse_members fuel acc (join "," (map member_text fields) ++ "}" ++ rest)
    = Some (VObj (acc ++ fields)%list, rest).
Proof.
  induction fields as [|[k x] xs IH]; intros RB W NE acc fuel rest D L; [contradiction|].
  inversion RB as [|? ? RX RXS]; subst. simpl in RX. simpl in W. apply andb_prop in W.
  destruct W as [WX WXS].
  destruct fuel as [|f]; [lia|].
  cbn [map fst] in D.
  pose proof (set_prop_fresh k x acc (distinct_mid _ _ _ D)) as SP.
  assert (HEAD : forall tail,
    parse_members (S f) acc (member_text (k, x) ++ tail)
    = match parse_value f (element_text x ++ tail) with
      | None => None
      | Some (v, r2) =>
          match skip_ws r2 with
          | String d r3 =>
              if Ascii.eqb d "," then parse_members f (set_prop k v acc) r3
              else if Ascii.eqb d "}" then Some (VObj (set_prop k v acc), r3)
              else None
          | "" => None
          end
      end).
  { intro tail. unfold member_text, quote. cbn [fst snd]. rewrite !str_app_assoc.
    change (dq ++ escape k ++ dq ++ ":" ++ element_text x ++ tail)
      with (String (ascii_of_nat 34) (escape k ++ dq ++ ":" ++ element_text x ++ tail)).
    cbn [parse_members skip_ws]. change (is_json_ws (ascii_of_nat 34)) with false.
    cbv iota. change (nat_of_ascii (ascii_of_nat 34) =? 34)%nat with true. cbn [negb].
    cbv iota. rewrite parse_chars_escape. cbn [append skip_ws].
    change (is_json_ws ":") with false. cbv iota.
    change (Ascii.eqb ":" ":") with true. cbn [negb]. cbv iota. reflexivity. }
  destruct xs as [|y ys].
  - cbn [map join String.concat] in *. rewrite HEAD.
    rewrite (RX WX f ("}" ++ rest)).
    + cbn [append skip_ws]. change (is_json_ws "}") with false. cbv iota.
      change (Ascii.eqb "}" ",") with false. change (Ascii.eqb "}" "}") with true.
      cbv iota. rewrite SP. reflexivity.
    + unfold member_text in L. cbn [fst snd] in L. rewrite !str_length_app in L. lia.
    + reflexivity.
  - cbn [map] in *. rewrite join_cons in *. rewrite !str_app_assoc. rewrite HEAD.
    rewrite str_length_app in L. unfold member_text at 1 in L. cbn [fst snd] in L.
    rewrite !str_length_app in L.
    rewrite (RX WX f) by (try reflexivity; lia).
    cbn [append skip_ws]. change (is_json_ws ",") with false. cbv iota.
    change (Ascii.eqb "," ",") with true. cbv iota. rewrite SP.
    change (String "}" rest) with ("}" ++ rest).
    rewrite (IH RXS WXS ltac:(discriminate) (acc ++ [(k, x)])%list f rest).
    + rewrite <- List.app_assoc. reflexivity.
    + rewrite map_app. cbn [map fst]. rewrite <- List.app_assoc. exact D.
    + cbn [String.length append] in L. lia.
Qed.

Lemma members_text : forall fields,
  forallb (fun kx => json_wf (snd kx)) fields = true ->
  flat_map (fun kx => match JSON_stringify (snd kx) with
                      | Some t => [quote (fst kx) ++ ":" ++ t]
                      | None => []
                      end) fields
  = map member_text fields.
Proof.
  induction fields as [|[k x] xs IH]; intro W; [reflexivity|].
  simpl in W. apply andb_prop in W. destruct W as [WX WXS].
  cbn [flat_map map]. rewrite (IH WXS). unfold member_text, element_text. cbn [fst snd].
  destruct x; try discriminate; reflexivity.
Qed.

Theorem parse_value_stringify : forall v, reads_back v.
Proof.
  apply jsval_induction; unfold reads_back.
  - discriminate.
  - intros _ fuel rest L _. destruct fuel as [|f]; [simpl in L; lia|].
    apply (parse_word f rest).
  - intros b _ fuel rest L _. destruct fuel as [|f]; [destruct b; simpl in L; lia|].
    destruct b; apply (parse_word f rest).
  - intros z W fuel rest L R.
    destruct (head_ok_skip _ rest (head_ok_text (VNum z) W)) as (_ & _ & _ & _ & _ & N).
    destruct fuel as [|f]; [lia|]. apply (parse_number z f rest R).
  - intros s _ fuel rest L _. destruct fuel as [|f]; [simpl in L; lia|].
    apply (parse_string s f rest).
  - intros items RB W fuel rest L _. cbn [json_wf] in W.
    unfold element_text in *. cbn [JSON_stringify] in *.
    fold element_text in *. change (fun x => element_text x) with element_text in *.
    destruct fuel as [|f]; [simpl in L; lia|].
    destruct items as [|x xs]; [destruct rest; reflexivity|].
    rewrite !str_app_assoc. cbn [append]. cbn [parse_value skip_ws].
    change (is_json_ws "[") with false. cbv iota.
    change (Ascii.eqb "[" "{") with false. change (Ascii.eqb "[" "[") with true.
    cbv iota.
    assert (HD : head_ok (join "," (map element_text (x :: xs))) = true).
    { cbn [map]. simpl in W. apply andb_prop in W. destruct W as [WX _].
      pose proof (head_ok_text x WX) as H.
      destruct (map element_text xs); [exact H|]. rewrite join_cons.
      destruct (element_text x); [discriminate|exact H]. }
    destruct (head_ok_skip _ ("]" ++ rest) HD) as (c & t & E & SK & B & _).
    change (String "]" rest) with ("]" ++ rest).
    rewrite SK, B.
    rewrite (parse_elements_text (x :: xs) RB W ltac:(discriminate) [] f rest);
      [reflexivity|].
    cbn [String.length append] in L. rewrite str_length_app in L.
    cbn [String.length] in L. lia.
  - intros fields RB W fuel rest L _. cbn [json_wf] in W. apply andb_prop in W.
    destruct W as [W D].
    unfold element_text in *. cbn [JSON_stringify] in *. rewrite (members_text _ W) in *.
    fold element_text in *.
    destruct fuel as [|f]; [simpl in L; lia|].
    destruct fields as [|[k x] xs]; [destruct rest; reflexivity|].
    rewrite !str_app_assoc. cbn [append]. cbn [parse_value skip_ws].
    change (is_json_ws "{") with false. cbv iota.
    change (Ascii.eqb "{" "{") with true. cbv iota.
    assert (HD : exists t, join "," (map member_text ((k, x) :: xs))
                           = String (ascii_of_nat 34) t).
    { cbn [map]. destruct (map member_text xs); [|rewrite join_cons];
        unfold member_text, quote; cbn [fst snd]; eexists; reflexivity. }
    destruct HD as [t HD].
    assert (SK : skip_ws (join "," (map member_text ((k, x) :: xs)) ++ String "}" rest)
                 = String (ascii_of_nat 34) (t ++ String "}" rest))
      by (rewrite HD; reflexivity).
    rewrite SK. change (Ascii.eqb (ascii_of_nat 34) "}") with false. cbv iota.
    change (String "}" rest) with ("}" ++ rest).
    rewrite (parse_members_text ((k, x) :: xs) RB W ltac:(discriminate) [] f rest);
      [reflexivity|exact D|].
    cbn [String.length append] in L. rewrite str_length_app in L.
    cbn [String.length] in L. lia.
Qed.

Lemma str_app_empty : forall s : string, s ++ "" = s.
Proof. induction s as [|c t IH]; simpl; congruence. Qed.

(** [JSON.parse(JSON.stringify(v))] is [v] for every well-formed value. *)
Theorem JSON_parse_stringify : forall v s,
  json_wf v = true -> JSON_stringify v = Some s -> JSON_parse s = Some v.
Proof.
  intros v s W S. unfold JSON_parse.
  pose proof (parse_value_stringify v W (2 * String.length s + 2) "") as P.
  unfold element_text in P. rewrite S, str_app_empty in P.
  rewrite P by (try reflexivity; lia). reflexivity.
Qed.

(** The text of an object is read back whatever follows it. *)
Lemma parse_object_text : forall fields fuel rest,
  json_wf (VObj fields) = true ->
  String.length (element_text (VObj fields)) <= fuel ->
  parse_value fuel (element_text (VObj fields) ++ rest) = Some (VObj fields, rest).
Proof.
  intros fields fuel rest W L.
  assert (RB : Forall (fun kx => reads_back (snd kx)) fields)
    by (apply Forall_forall; intros kx _; apply parse_value_stringify).
  cbn [json_wf] in W. apply andb_prop in W. destruct W as [W D].
  unfold element_text in *. cbn [JSON_stringify] in *. rewrite (members_text _ W) in *.
  fold element_text in *.
  destruct fuel as [|f]; [simpl in L; lia|].
  destruct fields as [|[k x] xs]; [destruct rest; reflexivity|].
  rewrite !str_app_assoc. cbn [append]. cbn [parse_value skip_ws].
  change (is_json_ws "{") with false. cbv iota.
  change (Ascii.eqb "{" "{") with true. cbv iota.
  assert (HD : exists t, join "," (map member_text ((k, x) :: xs))
                         = String (ascii_of_nat 34) t).
  { cbn [map]. destruct (map member_text xs); [|rewrite join_cons];
      unfold member_text, quote; cbn [fst snd]; eexists; reflexivity. }
  destruct HD as [t HD].
  assert (SK : skip_ws (join "," (map member_text ((k, x) :: xs)) ++ String "}" rest)
               = String (ascii_of_nat 34) (t ++ String "}" rest))
    by (rewrite HD; reflexivity).
  rewrite SK. change (Ascii.eqb (ascii_of_nat 34) "}") with false. cbv iota.
  change (String "}" rest) with ("}" ++ rest).
  rewrite (parse_members_text ((k, x) :: xs) RB W ltac:(discriminate) [] f rest);
    [reflexivity|exact D|].
  cbn [String.length append] in L. rewrite str_length_app in L.
  cbn [String.length] in L. lia.
Qed.
(** The text between the first [{] and the last [}] of an object text in
    prose without braces is the object text. *)
Lemma braces_of_prose : forall pre body post,
  includes pre "{" = false -> includes post "}" = false ->
  exists first last,
    indexOf (pre ++ ("{" ++ body ++ "}") ++ post) "{" = Some first
    /\ lastIndexOf (pre ++ ("{" ++ body ++ "}") ++ post) "}" = Some last
    /\ slice first (last + 1) (pre ++ ("{" ++ body ++ "}") ++ post) = "{" ++ body ++ "}".
Proof.
  intros pre body post H1 H2.
  exists (String.length pre), (String.length (pre ++ "{" ++ body)).
  split; [|split].
  - unfold indexOf. cbn [append]. rewrite indexOf_brace by exact H1. reflexivity.
  - unfold lastIndexOf.
    replace (pre ++ ("{" ++ body ++ "}") ++ post) with ((pre ++ "{" ++ body) ++ String "}" post).
    + rewrite lastIndexOf_brace by exact H2. reflexivity.
    + rewrite !str_app_assoc. cbn [append]. reflexivity.
  - unfold slice. rewrite drop_app.
    replace (String.length (pre ++ "{" ++ body) + 1 - String.length pre)
      with (String.length ("{" ++ body ++ "}")).
    + apply take_app.
    + rewrite !str_length_app. simpl. rewrite ?str_length_app. simpl. lia.
Qed.

Lemma stringify_object : forall fields s,
  JSON_stringify (VObj fields) = Some s -> exists body, s = "{" ++ body ++ "}".
Proof. intros fields s H. simpl in H. injection H as <-. eexists. reflexivity. Qed.

(** ** Prose before the payload *)

Lemma includes_brace_cons : forall c t,
  includes (String c t) "{" = Ascii.eqb "{" c || includes t "{".
Proof.
  intros c t. cbn [includes]. rewrite prefix_cons. destruct t; rewrite andb_true_r;
    reflexivity.
Qed.

(** White space holds no brace. *)
Lemma blank_no_brace : forall x, skip_ws x = "" -> includes x "{" = false.
Proof.
  induction x as [|c t IH]; intro H; [reflexivity|].
  cbn [skip_ws] in H. destruct (is_json_ws c) eqn:W; [|discriminate].
  rewrite includes_brace_cons, (IH H), orb_false_r.
  destruct (Ascii.eqb_spec "{" c) as [<-|]; [discriminate|reflexivity].
Qed.

Lemma skip_ws_blank_app : forall pre x, skip_ws pre = "" -> skip_ws (pre ++ x) = skip_ws x.
Proof.
  induction pre as [|c t IH]; intros x H; [reflexivity|].
  cbn [skip_ws append] in *. destruct (is_json_ws c); [apply IH; exact H|discriminate].
Qed.

Lemma skip_ws_head_app : forall pre c t x,
  skip_ws pre = String c t -> skip_ws (pre ++ x) = String c (t ++ x).
Proof.
  induction pre as [|a r IH]; intros c t x H; [discriminate|].
  cbn [skip_ws append] in *. destruct (is_json_ws a); [apply IH; exact H|].
  injection H as -> ->. reflexivity.
Qed.

Lemma skip_ws_head_brace : forall pre c t,
  skip_ws pre = String c t -> includes pre "{" = false -> Ascii.eqb c "{" = false.
Proof.
  induction pre as [|a r IH]; intros c t H N; [discriminate|].
  rewrite includes_brace_cons in N. apply orb_false_iff in N. destruct N as [A R].
  cbn [skip_ws] in H. destruct (is_json_ws a); [exact (IH c t H R)|].
  injection H as -> ->. rewrite Ascii.eqb_sym. exact A.
Qed.

(** What a number or a word leaves behind still holds the brace that came
    after it. *)
Lemma parse_digits_keeps : forall x acc,
  includes x "{" = true -> includes (snd (parse_digits acc x)) "{" = true.
Proof.
  induction x as [|c t IH]; intros acc H; [discriminate|].
  cbn [parse_digits]. destruct (is_digit c) eqn:D; [|exact H].
  apply IH. rewrite includes_brace_cons in H.
  destruct (Ascii.eqb_spec "{" c) as [<-|]; [discriminate|exact H].
Qed.

Lemma parse_nat_keeps : forall x n rest,
  parse_nat x = Some (n, rest) -> includes x "{" = true -> includes rest "{" = true.
Proof.
  intros [|c t] n rest; [discriminate|]. unfold parse_nat. intros P H.
  destruct (is_digit c) eqn:D; [|discriminate]. cbn [negb] in P.
  assert (T : includes t "{" = true).
  { rewrite includes_brace_cons in H.
    destruct (Ascii.eqb_spec "{" c) as [<-|]; [discriminate|exact H]. }
  assert (K : includes (snd (if Ascii.eqb c "0" then (0, t)
                             else parse_digits 0 (String c t))) "{" = true).
  { destruct (Ascii.eqb c "0"); [exact T|apply parse_digits_keeps; exact H]. }
  destruct (if Ascii.eqb c "0" then (0, t) else parse_digits 0 (String c t))
    as [k r]. cbn [snd] in K.
  destruct r as [|d r']; [discriminate|].
  destruct (Ascii.eqb d "." || Ascii.eqb d "e" || Ascii.eqb d "E"); [discriminate|].
  injection P as <- <-. exact K.
Qed.

Lemma parse_literal_keeps : forall word v x r rest,
  parse_literal word v x = Some (r, rest) ->
  includes word "{" = false -> includes x "{" = true -> includes rest "{" = true.
Proof.
  intros word v x r rest. unfold parse_literal.
  destruct (String.prefix word x) eqn:P; [|discriminate].
  intro H. injection H as _ <-. revert x P.
  induction word as [|a w IH]; intros x P N H; [exact H|].
  destruct x as [|b x]; [discriminate|].
  rewrite prefix_cons in P. apply andb_prop in P. destruct P as [AB P].
  apply Ascii.eqb_eq in AB. subst b.
  rewrite includes_brace_cons in N, H. apply orb_false_iff in N. destruct N as [NA NW].
  rewrite NA in H. cbn [String.length drop]. apply IH; assumption.
Qed.

(** A text that begins, after white space, with anything but the opening of
    an object, an array or a string, and that holds a brace further on, is
    not the text of a value. *)
Lemma prose_is_not_json : forall pre c t x,
  skip_ws pre = String c t ->
  includes pre "{" = false ->
  Ascii.eqb c "[" || (nat_of_ascii c =? 34)%nat = false ->
  includes x "{" = true ->
  JSON_parse (pre ++ x) = None.
Proof.
  intros pre c t x SK NB NO HB. apply orb_false_iff in NO. destruct NO as [NA NQ].
  pose proof (skip_ws_head_brace _ _ _ SK NB) as NC.
  assert (TX : includes (t ++ x) "{" = true) by (apply includes_app_r; exact HB).
  assert (CX : includes (String c (t ++ x)) "{" = true)
    by (rewrite includes_brace_cons, TX; apply orb_true_r).
  assert (STOP : forall v rest,
            includes rest "{" = true ->
            match (if skip_ws rest =? "" then Some v else None) : option jsval with
            | Some _ => False
            | None => True
            end).
  { intros v rest R. destruct (skip_ws rest =? "") eqn:E; [|exact I].
    apply String.eqb_eq in E. rewrite (blank_no_brace _ E) in R. discriminate. }
  unfold JSON_parse.
  destruct (2 * String.length (pre ++ x) + 2) as [|fuel] eqn:F; [lia|].
  cbn [parse_value]. rewrite (skip_ws_head_app _ _ _ x SK), NC, NA, NQ.
  destruct (Ascii.eqb c "-").
  { destruct (parse_nat (t ++ x)) as [[n rest]|] eqn:P; [|reflexivity].
    pose proof (STOP (VNum (- Z.of_nat n)) rest (parse_nat_keeps _ _ _ P TX)) as S.
    destruct (skip_ws rest =? ""); [contradiction|reflexivity]. }
  destruct (is_digit c).
  { destruct (parse_nat (String c (t ++ x))) as [[n rest]|] eqn:P; [|reflexivity].
    pose proof (STOP (VNum (Z.of_nat n)) rest (parse_nat_keeps _ _ _ P CX)) as S.
    destruct (skip_ws rest =? ""); [contradiction|reflexivity]. }
  destruct (Ascii.eqb c "t").
  { destruct (parse_literal "true" (VBool true) (String c (t ++ x))) as [[r rest]|] eqn:P;
      [|reflexivity].
    pose proof (STOP r rest (parse_literal_keeps _ _ _ _ _ P eq_refl CX)) as S.
    destruct (skip_ws rest =? ""); [contradiction|reflexivity]. }
  destruct (Ascii.eqb c "f").
  { destruct (parse_literal "false" (VBool false) (String c (t ++ x))) as [[r rest]|] eqn:P;
      [|reflexivity].
    pose proof (STOP r rest (parse_literal_keeps _ _ _ _ _ P eq_refl CX)) as S.
    destruct (skip_ws rest =? ""); [contradiction|reflexivity]. }
  destruct (Ascii.eqb c "n"); [|reflexivity].
  destruct (parse_literal "null" VNull (String c (t ++ x))) as [[r rest]|] eqn:P;
    [|reflexivity].
  pose proof (STOP r rest (parse_literal_keeps _ _ _ _ _ P eq_refl CX)) as S.
  destruct (skip_ws rest =? ""); [contradiction|reflexivity].
Qed.

(** After white space alone, the text of an object is read as the object,
    or not at all when more than white space follows it. *)
Lemma object_after_blank : forall fields s pre post,
  json_wf (VObj fields) = true -> JSON_stringify (VObj fields) = Some s ->
  skip_ws pre = "" ->
  JSON_parse (pre ++ s ++ post) = None
  \/ JSON_parse (pre ++ s ++ post) = Some (VObj fields).
Proof.
  intros fields s pre post W ST B. unfold JSON_parse.
  assert (E : element_text (VObj fields) = s) by (unfold element_text; rewrite ST; reflexivity).
  assert (P : parse_value (2 * String.length (pre ++ s ++ post) + 2) (pre ++ s ++ post)
              = Some (VObj fields, post)).
  { destruct (2 * String.length (pre ++ s ++ post) + 2) as [|fuel] eqn:F; [lia|].
    assert (L : String.length s <= S fuel) by (rewrite !str_length_app in F; lia).
    rewrite <- E in L. pose proof (parse_object_text fields (S fuel) post W L) as Q.
    rewrite E in Q. cbn [parse_value] in *.
    rewrite (skip_ws_blank_app _ _ B). exact Q. }
  rewrite P. destruct (skip_ws post =? ""); auto.
Qed.

(** C8, as the code has it.  Let [s] be the serialisation of a manifest, an
    object that holds no [undefined] and names no property twice, and let
    [s] contain no fence.  Then the extractor returns the manifest from [s];
    from [s] on a line of its own inside a [json] fence, after prose without
    a backtick and before any text; and from [s] between prose without a
    fence, with no [{] before it and no [}] after it, provided the prose
    before it does not begin, after white space, with the opening of an
    array or of a string: such a text is never the JSON of another value. *)
Theorem extractor_round_trip :
  forall (fields : list (string * jsval)) (s : string),
    json_wf (VObj fields) = true ->
    JSON_stringify (VObj fields) = Some s ->
    includes s fence = false ->
    robustJsonExtract s = Returned (VObj fields)
    /\ (forall pre post,
          includes pre "`" = false ->
          robustJsonExtract (pre ++ fence ++ "json" ++ nl ++ s ++ nl ++ fence ++ post)
          = Returned (VObj fields))
    /\ (forall pre post,
          includes (pre ++ s ++ post) fence = false ->
          includes pre "{" = false ->
          includes post "}" = false ->
          opens_array_or_string pre = false ->
          robustJsonExtract (pre ++ s ++ post) = Returned (VObj fields)).
Proof.
  intros fields s WF S NF.
  pose proof (JSON_parse_stringify (VObj fields) s WF S) as P.
  assert (W : forall pre post,
            includes pre "{" = false -> opens_array_or_string pre = false ->
            JSON_parse (pre ++ s ++ post) = None
            \/ JSON_parse (pre ++ s ++ post) = Some (VObj fields)).
  { intros pre post B1 O. unfold opens_array_or_string in O.
    destruct (skip_ws pre) as [|c t] eqn:SK.
    - apply (object_after_blank fields s pre post WF S SK).
    - left. apply (prose_is_not_json pre c t (s ++ post) SK B1 O).
      destruct (stringify_object fields s S) as [body ->].
      cbn [append]. rewrite includes_brace_cons. reflexivity. }
  destruct (stringify_object fields s S) as [body ->].
  split; [|split].
  - unfold robustJsonExtract. change ("{" ++ body ++ "}" =? "") with false. cbv iota.
    rewrite (no_fence_no_block _ NF). cbv zeta iota. rewrite P. reflexivity.
  - intros pre post B. unfold robustJsonExtract.
    replace (pre ++ fence ++ "json" ++ nl ++ ("{" ++ body ++ "}") ++ nl ++ fence ++ post =? "")
      with false by (symmetry; apply app_not_empty).
    cbv iota. rewrite (block_after_prose pre _ B).
    assert (F : search_first fenced_at
                  (fence ++ "json" ++ nl ++ ("{" ++ body ++ "}") ++ nl ++ fence ++ post)
                = Some (("{" ++ body ++ "}") ++ nl)).
    { pose proof (block_of_wrapped body post NF) as BW.
      unfold fence at 1. cbn [append search_first]. 
      unfold fence at 1 in BW. cbn [append] in BW. rewrite BW. reflexivity. }
    rewrite F. cbv zeta iota.
    replace (trim (("{" ++ body ++ "}") ++ nl)) with ("{" ++ body ++ "}").
    + rewrite P. reflexivity.
    + rewrite str_app_assoc. cbn [append]. rewrite str_app_assoc. symmetry.
      apply trim_object.
  - intros pre post NF' B1 B2 O. unfold robustJsonExtract.
    replace (pre ++ ("{" ++ body ++ "}") ++ post =? "") with false.
    2:{ symmetry. rewrite <- str_app_assoc. destruct pre; reflexivity. }
    cbv iota. rewrite (no_fence_no_block _ NF'). cbv zeta iota.
    destruct (W pre post B1 O) as [N|N]; rewrite N; [|reflexivity].
    destruct (braces_of_prose pre body post B1 B2) as (first & last & I & L & SL).
    rewrite I, L, SL, P. reflexivity.
Qed.

Lemma extractor_round_trip_witness :
  robustJsonExtract small_manifest_text = Returned small_manifest
  /\ robustJsonExtract
       ("Here is your site. " ++ fence ++ "json" ++ nl ++ small_manifest_text ++ nl
        ++ fence ++ " Enjoy!") = Returned small_manifest
  /\ robustJsonExtract ("Sure! " ++ small_manifest_text ++ " Done.")
     = Returned small_manifest.
Proof.
  destruct (extractor_round_trip [("site_name", VStr "Ada")] small_manifest_text
              eq_refl eq_refl eq_refl) as (A & B & C).
  split; [exact A|]. split.
  - exact (B "Here is your site. " " Enjoy!" eq_refl).
  - exact (C "Sure! " " Done." eq_refl eq_refl eq_refl eq_refl).
Defined.

(** C8, as the design document has it, fails.  The serialisation of a
    manifest one of whose files shows a fenced command is read back by
    [JSON.parse], yet the extractor takes the command for the payload and
    throws.  Prose with a brace before the payload makes it throw too, and
    a payload between square brackets comes back as an array. *)
Lemma extractor_misreads_fences_and_braces :
  (exists s,
     JSON_stringify manifest_with_snippet = Some s
     /\ JSON_parse s = Some manifest_with_snippet
     /\ robustJsonExtract s = Thrown (new_Error "Invalid JSON from model"))
  /\ JSON_stringify small_manifest = Some small_manifest_text
  /\ robustJsonExtract ("Here is the {manifest}: " ++ small_manifest_text)
     = Thrown (new_Error "Invalid JSON from model")
  /\ robustJsonExtract ("[" ++ small_manifest_text ++ "]")
     = Returned (VArr [small_manifest]).
Proof.
  split; [eexists; split; [reflexivity|]; split; vm_compute; reflexivity|].
  repeat split; vm_compute; reflexivity.
Qed.

(* ------------------------------------------------------------------ *)
(** * Runs of the key rotation *)

Section RotationRuns.
Variable w : world.
Variable prompt : string.

Lemma text_loop_first_success : forall keys last i0 i k text,
  nth_error keys i = Some k ->
  (forall j kj, j < i -> nth_error keys j = Some kj ->
     retryable_failure (generateTextWithKey w prompt (i0 + j) kj)) ->
  generateTextWithKey w prompt (i0 + i) k = Returned text ->
  snd (generateText_loop w prompt last i0 keys) = Returned text
  /\ keys_tried (fst (generateText_loop w prompt last i0 keys)) = seq i0 (S i).
Proof.
  induction keys as [|k0 rest IH]; intros last i0 i k text N F A.
  - destruct i; discriminate.
  - destruct i as [|i]; simpl in N.
    + injection N as ->. rewrite Nat.add_0_r in A. simpl. rewrite A. auto.
    + destruct (F 0 k0 ltac:(lia) eq_refl) as (e & E & R).
      rewrite Nat.add_0_r in E. simpl. rewrite E, R.
      destruct rest as [|k1 rest]; [destruct i; discriminate|].
      cbn [List.length Nat.eqb negb andb].
      specialize (IH (Some e) (S i0) i k text N).
      destruct (generateText_loop w prompt (Some e) (S i0) (k1 :: rest)) as [tr res].
      simpl in *. destruct IH as [I1 I2].
      * intros j kj L NJ. replace (S (i0 + j)) with (i0 + S j) by lia.
        apply (F (S j) kj); [lia|exact NJ].
      * replace (S (i0 + i)) with (i0 + S i) by lia. exact A.
      * split; [exact I1|]. unfold keys_tried in I2. simpl. f_equal. exact I2.
Qed.

Lemma text_loop_exhausted : forall keys last i0 k0,
  (forall j kj, nth_error (k0 :: keys) j = Some kj ->
     retryable_failure (generateTextWithKey w prompt (i0 + j) kj)) ->
  exists e k,
    nth_error (k0 :: keys) (List.length keys) = Some k
    /\ generateTextWithKey w prompt (i0 + List.length keys) k = Thrown e
    /\ snd (generateText_loop w prompt last i0 (k0 :: keys))
       = Thrown (new_Error ("Text generation failed: " ++ error_msg e))
    /\ keys_tried (fst (generateText_loop w prompt last i0 (k0 :: keys)))
       = seq i0 (S (List.length keys)).
Proof.
  induction keys as [|k1 rest IH]; intros last i0 k0 F.
  - destruct (F 0 k0 eq_refl) as (e & E & R). rewrite Nat.add_0_r in E.
    exists e, k0. simpl. rewrite Nat.add_0_r, E, R. simpl. auto.
  - destruct (F 0 k0 eq_refl) as (e & E & R). rewrite Nat.add_0_r in E.
    destruct (IH (Some e) (S i0) k1) as (e' & k' & N' & E' & T & K).
    + intros j kj NJ. replace (S i0 + j) with (i0 + S j) by lia.
      apply (F (S j) kj). exact NJ.
    + exists e', k'. split; [exact N'|]. split.
      * replace (i0 + List.length (k1 :: rest)) with (S i0 + List.length rest)
          by (simpl; lia). exact E'.
      * change (generateText_loop w prompt last i0 (k0 :: k1 :: rest))
          with (match generateTextWithKey w prompt i0 k0 with
                | Returned text => ([(i0, None)], Returned text)
                | Thrown err =>
                    if isRetryableError err
                       && negb (Nat.eqb (List.length (k1 :: rest)) 0) then
                      let (tr, res) :=
                        generateText_loop w prompt (Some err) (S i0) (k1 :: rest) in
                      ((i0, Some err) :: tr, res)
                    else ([(i0, Some err)],
                          Thrown (new_Error ("Text generation failed: "
                                             ++ error_msg err)))
                end).
        rewrite E, R. cbn [List.length Nat.eqb negb andb].
        destruct (generateText_loop w prompt (Some e) (S i0) (k1 :: rest)) as [tr res].
        simpl in *. split; [exact T|]. unfold keys_tried in *. simpl. f_equal. exact K.
Qed.

(** An error of the text rotation is the configuration error or wraps the
    message of the error of an attempt. *)
Lemma text_loop_thrown : forall keys last i0 e,
  keys <> [] ->
  snd (generateText_loop w prompt last i0 keys) = Thrown e ->
  exists j k err,
    nth_error keys j = Some k
    /\ generateTextWithKey w prompt (i0 + j) k = Thrown err
    /\ e = new_Error ("Text generation failed: " ++ error_msg err).
Proof.
  induction keys as [|k0 rest IH]; intros last i0 e NE T; [congruence|].
  simpl in T. destruct (generateTextWithKey w prompt i0 k0) as [t|err] eqn:A;
    [discriminate|].
  destruct (isRetryableError err && negb (List.length rest =? 0)%nat) eqn:R.
  - destruct rest as [|k1 rest]; [rewrite andb_false_r in R; discriminate|].
    specialize (IH (Some err) (S i0) e ltac:(discriminate)).
    destruct (generateText_loop w prompt (Some err) (S i0) (k1 :: rest)) as [tr res].
    simpl in T. destruct (IH T) as (j & k & err' & N & A' & ->).
    exists (S j), k, err'. split; [exact N|]. split; [|reflexivity].
    replace (i0 + S j) with (S i0 + j) by lia. exact A'.
  - simpl in T. injection T as <-. exists 0, k0, err.
    rewrite Nat.add_0_r. auto.
Qed.
End RotationRuns.

Section ImageRuns.
Variable w : world.
Variable env_IMAGE_MODEL : option string.
Variable prompt outFile : string.

Lemma image_adapter_thrown : forall fs i k e,
  snd (generateImageWithKey w env_IMAGE_MODEL fs i k prompt outFile) = Thrown e ->
  generateImageWithKey w env_IMAGE_MODEL fs i k prompt outFile = (fs, Thrown e).
Proof.
  intros fs i k e T.
  destruct (image_adapter_effect w env_IMAGE_MODEL prompt outFile fs i k)
    as [[e' E]|[data E]]; rewrite E in *; simpl in T; [congruence|discriminate].
Qed.

Lemma image_adapter_returned : forall fs i k o,
  snd (generateImageWithKey w env_IMAGE_MODEL fs i k prompt outFile) = Returned o ->
  exists data,
    generateImageWithKey w env_IMAGE_MODEL fs i k prompt outFile
    = (writeFileSync fs outFile (Base64 data), Returned outFile).
Proof.
  intros fs i k o T.
  destruct (image_adapter_effect w env_IMAGE_MODEL prompt outFile fs i k)
    as [[e' E]|[data E]]; rewrite E in *; simpl in T; [discriminate|eauto].
Qed.

Lemma try_models_fatal : forall call models j e,
  try_models call j models = Fatal e -> isRetryableError e = false.
Proof.
  intros call models. induction models as [|modelName rest IH]; intros j e; simpl;
    [discriminate|].
  destruct (call j modelName) as [[data|]|err]; [discriminate|apply IH|].
  destruct (isRetryableError err) eqn:R; simpl; [apply IH|].
  intro H. injection H as <-. exact R.
Qed.

Lemma image_adapter_not_retryable : forall fs i k e,
  snd (generateImageWithKey w env_IMAGE_MODEL fs i k prompt outFile) = Thrown e ->
  isRetryableError e = false.
Proof.
  intros fs i k e. unfold generateImageWithKey.
  pose proof (try_models_fatal
                (fun j modelName => genai_image w outFile prompt i k j modelName)
                (IMAGE_MODEL_CANDIDATES env_IMAGE_MODEL) 0) as G.
  pose proof (try_models_fatal
                (fun j modelName => legacy_image w outFile prompt i k j modelName)
                legacyModels 0) as L.
  destruct (try_models _ 0 (IMAGE_MODEL_CANDIDATES env_IMAGE_MODEL)); cbn [snd].
  - discriminate.
  - intro H. injection H as <-. apply G. reflexivity.
  - destruct (try_models _ 0 legacyModels); cbn [snd].
    + discriminate.
    + intro H. injection H as <-. apply L. reflexivity.
    + intro H. injection H as <-. reflexivity.
Qed.

Lemma image_loop_thrown : forall keys last fs i0 e,
  keys <> [] ->
  snd (snd (generateImageToFile_loop w env_IMAGE_MODEL prompt outFile last fs i0 keys))
  = Thrown e ->
  exists j k err,
    nth_error keys j = Some k
    /\ snd (generateImageWithKey w env_IMAGE_MODEL fs (i0 + j) k prompt outFile)
       = Thrown err
    /\ e = new_Error ("Image generation failed: " ++ error_msg err).
Proof.
  induction keys as [|k0 rest IH]; intros last fs i0 e NE T; [congruence|].
  simpl in T.
  destruct (image_adapter_effect w env_IMAGE_MODEL prompt outFile fs i0 k0)
    as [[err E]|[data E]]; rewrite E in T; [|discriminate].
  destruct (isRetryableError err && negb (List.length rest =? 0)%nat) eqn:R.
  - destruct rest as [|k1 rest]; [rewrite andb_false_r in R; discriminate|].
    specialize (IH (Some err) fs (S i0) e ltac:(discriminate)).
    destruct (generateImageToFile_loop w env_IMAGE_MODEL prompt outFile (Some err) fs
                (S i0) (k1 :: rest)) as [tr res].
    simpl in T. destruct (IH T) as (j & k & err' & N & A' & ->).
    exists (S j), k, err'. split; [exact N|]. split; [|reflexivity].
    replace (i0 + S j) with (S i0 + j) by lia. exact A'.
  - simpl in T. injection T as <-. exists 0, k0, err.
    rewrite Nat.add_0_r, E. auto.
Qed.
End ImageRuns.

(** X1.  The text rotation returns the text of the first key whose attempt
    succeeds: when the attempts on all keys before position [i] end in
    retryable errors and the attempt on key [i] returns a text, [generateText]
    returns that text, having tried the keys at positions [0] to [i] in
    order and no later key. *)
Theorem text_rotation_returns_first_success :
  forall (w : world) (keys : list string) (prompt : string) (i : nat)
         (k text : string),
    nth_error keys i = Some k ->
    (forall j kj, j < i -> nth_error keys j = Some kj ->
       retryable_failure (generateTextWithKey w prompt j kj)) ->
    generateTextWithKey w prompt i k = Returned text ->
    snd (generateText w keys prompt) = Returned text
    /\ keys_tried (fst (generateText w keys prompt)) = seq 0 (S i).
Proof.
  intros w keys prompt i k text N F A. unfold generateText.
  destruct keys as [|k0 rest]; [destruct i; discriminate|].
  cbn [List.length Nat.eqb].
  apply (text_loop_first_success w prompt (k0 :: rest) None 0 i k text N F A).
Qed.

Lemma text_rotation_returns_first_success_witness :
  snd (generateText (world_quota_until 2) ["key-1"; "key-2"; "key-3"] "brief")
  = Returned "{}"
  /\ keys_tried (fst (generateText (world_quota_until 2) ["key-1"; "key-2"; "key-3"]
                        "brief")) = [0; 1; 2].
Proof.
  apply (text_rotation_returns_first_success (world_quota_until 2)
           ["key-1"; "key-2"; "key-3"] "brief" 2 "key-3" "{}" eq_refl).
  - intros [|[|j]] kj L N; [| |lia]; injection N as <-;
      exists quota_error; split; reflexivity.
  - reflexivity.
Defined.

(** X2.  The image rotation never reaches a backup key.  The image adapter
    throws only errors that [isRetryableError] rejects: an error of a model
    call is rethrown only when it is not retryable, and the error after the
    last model, [No image data returned from Gemini], is not retryable.  So
    whatever the provider answers and however many keys are configured,
    [generateImageToFile] tries the first key only: it returns when that
    attempt returns and throws the wrapped error when it throws. *)
Theorem image_rotation_stops_at_first_key :
  forall (w : world) (keys : list string) (env_IMAGE_MODEL : option string)
         (fs : filesystem) (prompt outFile : string),
    (forall i k e,
        snd (generateImageWithKey w env_IMAGE_MODEL fs i k prompt outFile) = Thrown e ->
        isRetryableError e = false)
    /\ (forall j r,
        In (j, r) (fst (generateImageToFile w keys env_IMAGE_MODEL fs prompt outFile)) ->
        j = 0)
    /\ (forall k0 rest, keys = k0 :: rest ->
        generateImageToFile w keys env_IMAGE_MODEL fs prompt outFile
        = match generateImageWithKey w env_IMAGE_MODEL fs 0 k0 prompt outFile with
          | (fs', Returned _) => ([(0, None)], (fs', Returned outFile))
          | (fs', Thrown err) =>
              ([(0, Some err)],
               (fs', Thrown (new_Error ("Image generation failed: " ++ error_msg err))))
          end).
Proof.
  intros w keys env fs prompt outFile.
  assert (A : forall i k e,
             snd (generateImageWithKey w env fs i k prompt outFile) = Thrown e ->
             isRetryableError e = false)
    by (intros i k e; apply image_adapter_not_retryable).
  assert (R : forall k0 rest,
             generateImageToFile w (k0 :: rest) env fs prompt outFile
             = match generateImageWithKey w env fs 0 k0 prompt outFile with
               | (fs', Returned _) => ([(0, None)], (fs', Returned outFile))
               | (fs', Thrown err) =>
                   ([(0, Some err)],
                    (fs', Thrown (new_Error ("Image generation failed: "
                                             ++ error_msg err))))
               end).
  { intros k0 rest. unfold generateImageToFile. cbn [List.length Nat.eqb].
    cbn [generateImageToFile_loop]. specialize (A 0 k0).
    destruct (generateImageWithKey w env fs 0 k0 prompt outFile) as [fs' [o|err]];
      [reflexivity|].
    rewrite (A err eq_refl). reflexivity. }
  split; [exact A|]. split.
  - intros j r. destruct keys as [|k0 rest]; [intros []|].
    rewrite R. destruct (generateImageWithKey w env fs 0 k0 prompt outFile)
      as [fs' [o|err]]; intros [H|[]]; inversion H; reflexivity.
  - intros k0 rest ->. apply R.
Qed.

(** X3.  When the attempt on every key ends in a retryable error, the text
    rotation tries all the keys in order and then throws a new error whose
    message wraps the message of the error of the last key. *)
Theorem text_rotation_exhausts_all_keys :
  forall (w : world) (keys : list string) (prompt : string),
    keys <> [] ->
    (forall j kj, nth_error keys j = Some kj ->
       retryable_failure (generateTextWithKey w prompt j kj)) ->
    exists e k,
      nth_error keys (List.length keys - 1) = Some k
      /\ generateTextWithKey w prompt (List.length keys - 1) k = Thrown e
      /\ snd (generateText w keys prompt)
         = Thrown (new_Error ("Text generation failed: " ++ error_msg e))
      /\ keys_tried (fst (generateText w keys prompt)) = seq 0 (List.length keys).
Proof.
  intros w keys prompt NE F.
  destruct keys as [|k0 rest]; [congruence|].
  unfold generateText. cbn [List.length Nat.eqb].
  rewrite Nat.sub_succ, Nat.sub_0_r.
  exact (text_loop_exhausted w prompt rest None 0 k0 F).
Qed.

Lemma text_rotation_exhausts_all_keys_witness :
  snd (generateText (world_quota_until 2) ["key-1"; "key-2"] "brief")
  = Thrown (new_Error ("Text generation failed: " ++ error_msg quota_error))
  /\ keys_tried (fst (generateText (world_quota_until 2) ["key-1"; "key-2"] "brief"))
     = [0; 1].
Proof.
  destruct (text_rotation_exhausts_all_keys (world_quota_until 2) ["key-1"; "key-2"]
              "brief" ltac:(discriminate)) as (e & k & N & A & T1 & T2).
  { intros [|[|j]] kj N; try (destruct j; discriminate); injection N as <-;
      exists quota_error; split; reflexivity. }
  injection N as <-. vm_compute in A. injection A as <-.
  split; [exact T1|exact T2].
Defined.

(** X4.  An error thrown by a rotation is never an error object of the
    provider: it is the configuration error when no key is configured, and
    otherwise a new error whose message is the prefix and the message of the
    error that the attempt on one of the keys ended with.  When the image
    rotation throws, it has written no file. *)
Theorem rotation_errors_are_wrapped :
  forall (w : world) (keys : list string) (prompt : string)
         (env_IMAGE_MODEL : option string) (fs : filesystem) (outFile : string)
         (e : js_error),
    (snd (generateText w keys prompt) = Thrown e ->
     (keys = [] /\ e = no_keys_error)
     \/ exists j k err,
          nth_error keys j = Some k
          /\ generateTextWithKey w prompt j k = Thrown err
          /\ e = new_Error ("Text generation failed: " ++ error_msg err))
    /\
    (snd (snd (generateImageToFile w keys env_IMAGE_MODEL fs prompt outFile)) = Thrown e ->
     fst (snd (generateImageToFile w keys env_IMAGE_MODEL fs prompt outFile)) = fs
     /\ ((keys = [] /\ e = no_keys_error)
         \/ exists j k err,
              nth_error keys j = Some k
              /\ snd (generateImageWithKey w env_IMAGE_MODEL fs j k prompt outFile)
                 = Thrown err
              /\ e = new_Error ("Image generation failed: " ++ error_msg err))).
Proof.
  intros w keys prompt env fs outFile e. split; intro T.
  - unfold generateText in T. destruct keys as [|k0 rest].
    + left. simpl in T. injection T as <-. auto.
    + right. cbn [List.length Nat.eqb] in T.
      exact (text_loop_thrown w prompt (k0 :: rest) None 0 e ltac:(discriminate) T).
  - split.
    + destruct (generateImageToFile_effect w env prompt outFile keys fs)
        as [[e' E]|[data E]]; rewrite E in *; [reflexivity|discriminate].
    + unfold generateImageToFile in T. destruct keys as [|k0 rest].
      * left. simpl in T. injection T as <-. auto.
      * right. cbn [List.length Nat.eqb] in T.
        exact (image_loop_thrown w env prompt outFile (k0 :: rest) None fs 0 e
                 ltac:(discriminate) T).
Qed.

Lemma rotation_errors_are_wrapped_witness :
  ((["key-1"] = [] /\ new_Error ("Text generation failed: " ++ error_msg invalid_key)
                      = no_keys_error)
   \/ exists j k err,
        nth_error ["key-1"] j = Some k
        /\ generateTextWithKey world_refusing "brief" j k = Thrown err
        /\ new_Error ("Text generation failed: " ++ error_msg invalid_key)
           = new_Error ("Text generation failed: " ++ error_msg err))
  /\ fst (snd (generateImageToFile world_refusing ["key-1"] None [] "hero"
                 "assets/hero.png")) = [].
Proof.
  destruct (rotation_errors_are_wrapped world_refusing ["key-1"] "brief" None []
              "assets/hero.png"
              (new_Error ("Text generation failed: " ++ error_msg invalid_key)))
    as [T _].
  destruct (rotation_errors_are_wrapped world_refusing ["key-1"] "brief" None []
              "assets/hero.png"
              (new_Error ("Image generation failed: " ++ error_msg invalid_key)))
    as [_ I].
  split; [exact (T eq_refl)|exact (proj1 (I eq_refl))].
Defined.

(** X5.  [GEMINI_KEYS] holds, in the order of the environment, exactly the
    values that are set, not empty and not the placeholder
    [your_api_key_here].  When the environment has no such value, both
    rotations throw the configuration error without calling the provider
    and without writing a file. *)
Theorem unusable_keys_are_dropped :
  forall (env_keys : list (option string)),
    GEMINI_KEYS env_keys
    = flat_map (fun k => match k with Some key => [key] | None => [] end)
        (filter usable_key env_keys)
    /\ (forallb (fun k => negb (usable_key k)) env_keys = true ->
        forall (w : world) (prompt outFile : string) (env_IMAGE_MODEL : option string)
               (fs : filesystem),
          generateText w (GEMINI_KEYS env_keys) prompt = ([], Thrown no_keys_error)
          /\ generateImageToFile w (GEMINI_KEYS env_keys) env_IMAGE_MODEL fs prompt outFile
             = ([], (fs, Thrown no_keys_error))).
Proof.
  intro env_keys.
  assert (G : GEMINI_KEYS env_keys
              = flat_map (fun k => match k with Some key => [key] | None => [] end)
                  (filter usable_key env_keys)).
  { unfold GEMINI_KEYS. induction env_keys as [|[key|] rest IH]; simpl;
      [reflexivity| |exact IH].
    destruct (key =? ""); simpl; [exact IH|].
    destruct (key =? "your_api_key_here"); simpl; [exact IH|]. f_equal. exact IH. }
  split; [exact G|]. intros U w prompt outFile env fs.
  assert (E : GEMINI_KEYS env_keys = []).
  { rewrite G. clear G. induction env_keys as [|k rest IH]; [reflexivity|].
    simpl in U. apply andb_true_iff in U. destruct U as [U1 U2].
    simpl. apply negb_true_iff in U1. rewrite U1. exact (IH U2). }
  rewrite E. split; reflexivity.
Qed.

Lemma unusable_keys_are_dropped_witness :
  generateText world_refusing (GEMINI_KEYS [Some "your_api_key_here"; None; Some ""])
    "brief" = ([], Thrown no_keys_error).
Proof.
  apply (proj2 (unusable_keys_are_dropped [Some "your_api_key_here"; None; Some ""])
           eq_refl world_refusing "brief" "assets/hero.png" None []).
Defined.

Lemma text_loop_in_order : forall w prompt keys last i0,
  exists n,
    n <= List.length keys
    /\ (keys <> [] -> 1 <= n)
    /\ keys_tried (fst (generateText_loop w prompt last i0 keys)) = seq i0 n
    /\ forall j r,
         In (j, r) (fst (generateText_loop w prompt last i0 keys)) -> j + 1 < i0 + n ->
         exists err, r = Some err /\ isRetryableError err = true.
Proof.
  intros w prompt. induction keys as [|k rest IH]; intros last i0.
  - exists 0. simpl. repeat split; try lia; try congruence; try (intros j r []).
  - cbn [generateText_loop].
    destruct (generateTextWithKey w prompt i0 k) as [t|err].
    + exists 1. simpl. repeat split; try lia. intros j r [H|[]] L.
      injection H as <- <-. lia.
    + destruct (isRetryableError err) eqn:R; cbn [andb].
      * destruct (negb (List.length rest =? 0)%nat) eqn:NE.
        -- destruct (IH (Some err) (S i0)) as (n & L & P & T & A).
           destruct (generateText_loop w prompt (Some err) (S i0) rest) as [tr res].
           exists (S n). simpl in *. repeat split; try lia.
           ++ unfold keys_tried in *. simpl. f_equal. exact T.
           ++ intros j r [H|H] B.
              ** injection H as <- <-. eauto.
              ** apply (A j r H). lia.
        -- exists 1. simpl. repeat split; try lia. intros j r [H|[]] L.
           injection H as <- <-. lia.
      * exists 1. simpl. repeat split; try lia. intros j r [H|[]] L.
        injection H as <- <-. lia.
Qed.

(** X27.  On every run the text rotation tries the keys in their order,
    without a gap and without a repeat: the keys tried are those at the
    positions [0] up to some [n - 1], at least one when a key is
    configured, and the attempt on each of them but the last ended in an
    error that is retryable. *)
Theorem text_rotation_tries_keys_in_order :
  forall (w : world) (keys : list string) (prompt : string),
    exists n,
      n <= List.length keys
      /\ (keys <> [] -> 1 <= n)
      /\ keys_tried (fst (generateText w keys prompt)) = seq 0 n
      /\ forall j r,
           In (j, r) (fst (generateText w keys prompt)) -> j + 1 < n ->
           exists err, r = Some err /\ isRetryableError err = true.
Proof.
  intros w keys prompt. unfold generateText. destruct keys as [|k rest].
  - exists 0. simpl. repeat split; try lia; try congruence; try (intros j r []).
  - cbn [List.length Nat.eqb]. apply (text_loop_in_order w prompt (k :: rest) None 0).
Qed.

(* ------------------------------------------------------------------ *)
(** * The status of an error, the masked key, the text adapter *)

(** X6.  [getErrorStatus] takes the first truthy value among [status],
    [code], [response.status] and [cause.status].  So when [err.status] or
    [err.code] is truthy, [response.status] and [cause.status] have no part
    in [isRetryableError]: an error with a non-numeric [code] and
    [response.status] 429 is retryable only through its message. *)
Theorem truthy_status_or_code_hides_response_status :
  forall (name message : string) (status code rs cs rs' cs' : jsval),
    truthy status = true \/ truthy code = true ->
    isRetryableError (mkError name message status code rs cs)
    = isRetryableError (mkError name message status code rs' cs').
Proof.
  intros name message status code rs cs rs' cs' H.
  unfold isRetryableError, getErrorStatus, js_or. simpl.
  destruct (truthy status) eqn:S; rewrite ?S; [reflexivity|].
  destruct H as [H|H]; [discriminate|]. rewrite !H. reflexivity.
Qed.

Lemma truthy_status_or_code_hides_response_status_witness :
  isRetryableError
    (mkError "AxiosError" "Request failed with status code 429" VUndef
       (VStr "ERR_BAD_REQUEST") (VNum 429) VUndef)
  = false.
Proof.
  rewrite (truthy_status_or_code_hides_response_status "AxiosError"
             "Request failed with status code 429" VUndef (VStr "ERR_BAD_REQUEST")
             (VNum 429) VUndef VUndef VUndef (or_intror eq_refl)).
  reflexivity.
Defined.

Lemma length_take : forall n s, String.length (take n s) = Nat.min n (String.length s).
Proof.
  induction n as [|n IH]; intros [|c t]; simpl; try reflexivity.
  rewrite IH. reflexivity.
Qed.

Lemma length_drop : forall n s, String.length (drop n s) = String.length s - n.
Proof.
  induction n as [|n IH]; intros [|c t]; simpl; try reflexivity. apply IH.
Qed.

Lemma take_drop : forall n s, take n s ++ drop n s = s.
Proof.
  induction n as [|n IH]; intros [|c t]; simpl; try reflexivity.
  rewrite IH. reflexivity.
Qed.

(** X7.  [maskedKey] of a key of more than eight code units has eleven code
    units: the first four of the key, three dots and the last four.  A key
    of one to eight code units is returned as it is, unmasked, and the empty
    key gives [unknown]. *)
Theorem maskedKey_shows_at_most_eight :
  forall (key : string),
    (8 < String.length key ->
     maskedKey key = take 4 key ++ "..." ++ drop (String.length key - 4) key
     /\ String.length (maskedKey key) = 11
     /\ take 4 (maskedKey key) = take 4 key
     /\ drop 7 (maskedKey key) = drop (String.length key - 4) key)
    /\ (String.length key <= 8 -> maskedKey key = if key =? "" then "unknown" else key).
Proof.
  intro key. split; intro L.
  - assert (M : maskedKey key = take 4 key ++ "..." ++ drop (String.length key - 4) key).
    { unfold maskedKey. destruct key as [|c t]; [simpl in L; lia|].
      cbn [String.eqb]. apply Nat.leb_gt in L. rewrite L. reflexivity. }
    assert (T : String.length (take 4 key) = 4) by (rewrite length_take; lia).
    split; [exact M|]. rewrite M. split; [|split].
    + rewrite !str_length_app, T, length_drop. simpl. lia.
    + rewrite <- T at 1. apply take_app.
    + rewrite <- str_app_assoc.
      replace 7 with (String.length (take 4 key ++ "..."))
        by (rewrite str_length_app, T; reflexivity).
      apply drop_app.
  - unfold maskedKey. destruct (key =? ""); [reflexivity|].
    apply Nat.leb_le in L. rewrite L. reflexivity.
Qed.

Lemma maskedKey_shows_at_most_eight_witness :
  maskedKey "primary-key-0001" = "prim...0001"
  /\ maskedKey "secret12" = "secret12".
Proof.
  destruct (maskedKey_shows_at_most_eight "primary-key-0001") as [A _].
  destruct (maskedKey_shows_at_most_eight "secret12") as [_ B].
  split; [exact (proj1 (A ltac:(simpl; lia)))|exact (B ltac:(simpl; lia))].
Defined.

(** X8.  The text adapter returns an empty text in one case only: the
    response of the legacy client has a [text] property that is the empty
    string.  In every other case a text it returns is not empty, so an
    empty answer of the provider ends the attempt with an error. *)
Theorem text_adapter_returns_text :
  forall (w : world) (prompt : string) (i : nat) (apiKey text : string),
    generateTextWithKey w prompt i apiKey = Returned text ->
    text <> ""
    \/ exists result,
         legacy_textgen w prompt i apiKey = Returned result
         /\ l_text result = TextStr "".
Proof.
  intros w prompt i apiKey text.
  assert (NE : forall s t : string, negb (s =? "") = true -> Returned s = Returned t ->
                                    t <> "").
  { intros s t H E. injection E as <-. apply negb_true_iff in H.
    apply String.eqb_neq. exact H. }
  assert (L : legacy_branch (legacy_textgen w prompt i apiKey) = Returned text ->
              text <> ""
              \/ exists result,
                   legacy_textgen w prompt i apiKey = Returned result
                   /\ l_text result = TextStr "").
  { unfold legacy_branch. destruct (legacy_textgen w prompt i apiKey) as [result|err];
      [|discriminate].
    destruct (l_text result) as [[t|err]|t|] eqn:T.
    - destruct (negb (t =? "")) eqn:N; [intro E; left; exact (NE _ _ N E)|].
      destruct (negb (str_or (parts_text (l_parts result)) "" =? "")) eqn:N';
        [intro E; left; exact (NE _ _ N' E)|discriminate].
    - discriminate.
    - intro E. injection E as <-. destruct (String.eqb_spec t "") as [->|D];
        [right; eauto|left; exact D].
    - destruct (negb (str_or (parts_text (l_parts result)) "" =? "")) eqn:N';
        [intro E; left; exact (NE _ _ N' E)|discriminate]. }
  unfold generateTextWithKey.
  destruct (genai_text w prompt i apiKey) as [response|err].
  - destruct (negb (str_or (r_text response) "" =? "")) eqn:N;
      [intro E; left; exact (NE _ _ N E)|].
    destruct (negb (str_or (parts_text (r_parts response)) "" =? "")) eqn:N';
      [intro E; left; exact (NE _ _ N' E)|exact L].
  - destruct (negb (isRetryableError err)); [discriminate|exact L].
Qed.

Lemma text_adapter_returns_text_witness :
  "{}" <> ""
  \/ exists result,
       legacy_textgen (world_quota_until 0) "brief" 0 "key-1" = Returned result
       /\ l_text result = TextStr "".
Proof.
  apply (text_adapter_returns_text (world_quota_until 0) "brief" 0 "key-1" "{}" eq_refl).
Defined.

(* ------------------------------------------------------------------ *)
(** * Further properties of the extractor *)

Lemma prefix_nil : forall p, String.prefix p "" = true -> p = "".
Proof. intros [|c t]; [reflexivity|discriminate]. Qed.

Lemma prefix_empty : forall x, String.prefix "" x = true.
Proof. intros [|c t]; reflexivity. Qed.

Lemma prefix_take : forall p n x,
  String.prefix p (take n x) = true -> String.prefix p x = true.
Proof.
  induction p as [|a p IH]; intros n x H; [apply prefix_empty|].
  destruct n as [|n]; destruct x as [|b x]; try discriminate.
  cbn [take] in H. rewrite prefix_cons in *. apply andb_true_iff in H.
  destruct H as [H1 H2]. rewrite H1. exact (IH n x H2).
Qed.

Lemma prefix_app_l : forall p a b,
  String.prefix p a = true -> String.prefix p (a ++ b) = true.
Proof.
  induction p as [|c p IH]; intros a b H; [apply prefix_empty|].
  destruct a as [|d a]; [discriminate|]. cbn [append].
  rewrite prefix_cons in *. apply andb_true_iff in H. destruct H as [H1 H2].
  rewrite H1. exact (IH a b H2).
Qed.

Lemma includes_app_l : forall a b p, includes (a ++ b) p = false -> includes a p = false.
Proof.
  induction a as [|c a IH]; intros b p H.
  - destruct p as [|c p]; [destruct b; discriminate|reflexivity].
  - cbn [append] in H. apply includes_cons in H. destruct H as [H1 H2].
    cbn [includes]. rewrite (IH b p H2), orb_false_r.
    destruct (String.prefix p (String c a)) eqn:P; [|reflexivity].
    apply (prefix_app_l _ _ b) in P. cbn [append] in P. congruence.
Qed.

Lemma includes_app_suffix : forall a b p, includes (a ++ b) p = false -> includes b p = false.
Proof.
  induction a as [|c a IH]; intros b p H; [exact H|].
  cbn [append] in H. apply includes_cons in H. apply IH. tauto.
Qed.

Lemma indexOf_take : forall r p off n,
  p <> "" -> indexOf_from off r p = Some n ->
  off <= n /\ includes (take (n - off) r) p = false.
Proof.
  induction r as [|c t IH]; intros p off n NE H.
  - destruct p; [congruence|discriminate].
  - cbn [indexOf_from] in H. destruct (String.prefix p (String c t)) eqn:P.
    + injection H as <-. split; [lia|]. rewrite Nat.sub_diag. simpl.
      destruct p; [congruence|reflexivity].
    + destruct (IH p (S off) n NE H) as [L I]. split; [lia|].
      replace (n - off) with (S (n - S off)) by lia. cbn [take includes].
      rewrite I, orb_false_r.
      destruct (String.prefix p (String c (take (n - S off) t))) eqn:Q; [|reflexivity].
      apply (prefix_take p (S (n - S off)) (String c t)) in Q. congruence.
Qed.

Lemma drop_suffix : forall n s, exists a, s = a ++ drop n s.
Proof. intros n s. exists (take n s). symmetry. apply take_drop. Qed.

Lemma fenced_at_inner : forall x inner,
  fenced_at x = Some inner ->
  includes inner fence = false /\ piece_of inner x.
Proof.
  intros x inner. unfold fenced_at.
  destruct (String.prefix fence x); [|discriminate]. cbv zeta.
  set (r1 := drop 3 x). set (r2 := if prefix_ci "json" r1 then drop 4 r1 else r1).
  set (r3 := drop (span is_space r2) r2).
  destruct (indexOf r3 fence) as [j|] eqn:I; [|discriminate].
  intro H. injection H as <-. split.
  - destruct (indexOf_take r3 fence 0 j ltac:(discriminate) I) as [_ T].
    rewrite Nat.sub_0_r in T. exact T.
  - destruct (drop_suffix 3 x) as [a1 A1]. fold r1 in A1.
    assert (A2 : exists a2, r1 = a2 ++ r2).
    { unfold r2. destruct (prefix_ci "json" r1); [apply drop_suffix|exists ""; reflexivity]. }
    destruct A2 as [a2 A2]. destruct (drop_suffix (span is_space r2) r2) as [a3 A3].
    fold r3 in A3. exists (a1 ++ a2 ++ a3), (drop j r3).
    rewrite take_drop, !str_app_assoc, <- A3, <- A2. exact A1.
Qed.

Lemma search_first_suffix : forall (A : Type) (f : string -> option A) s a,
  search_first f s = Some a -> exists pre x, s = pre ++ x /\ f x = Some a.
Proof.
  intros A f. induction s as [|c t IH]; intros a H; simpl in H.
  - destruct (f "") eqn:F; [|discriminate]. exists "", "". split; [reflexivity|congruence].
  - destruct (f (String c t)) eqn:F.
    + exists "", (String c t). split; [reflexivity|congruence].
    + destruct (IH a H) as (pre & x & -> & X). exists (String c pre), x. auto.
Qed.

Lemma piece_of_refl : forall s, piece_of s s.
Proof. intro s. exists "", "". simpl. induction s; simpl; congruence. Qed.

Lemma piece_of_trans : forall a b c, piece_of a b -> piece_of b c -> piece_of a c.
Proof.
  intros a b c (x & y & ->) (u & v & ->). exists (u ++ x), (y ++ v).
  rewrite !str_app_assoc. reflexivity.
Qed.

Lemma piece_of_app_r : forall pre x, piece_of x (pre ++ x).
Proof.
  intros pre x. exists pre, "". f_equal. induction x; simpl; congruence.
Qed.

Lemma trimStart_suffix : forall s, exists a, s = a ++ trimStart s.
Proof.
  induction s as [|c t [a IH]]; [exists ""; reflexivity|]. simpl.
  destruct (is_space c); [|exists ""; reflexivity].
  exists (String c a). simpl. congruence.
Qed.

Lemma trimEnd_prefix : forall s, exists b, s = trimEnd s ++ b.
Proof.
  induction s as [|c t [b IH]]; [exists ""; reflexivity|]. simpl.
  destruct (trimEnd t) as [|d u].
  - destruct (is_space c); [exists (String c t); reflexivity|].
    exists t. reflexivity.
  - exists b. simpl. simpl in IH. congruence.
Qed.

Lemma piece_of_trim : forall s, piece_of (trim s) s.
Proof.
  intro s. unfold trim. destruct (trimStart_suffix s) as [a A].
  destruct (trimEnd_prefix (trimStart s)) as [b B].
  exists a, b. rewrite <- B. exact A.
Qed.

Lemma includes_trim : forall s p, includes s p = false -> includes (trim s) p = false.
Proof.
  intros s p H. destruct (piece_of_trim s) as (a & b & E). rewrite E in H.
  apply includes_app_suffix in H. apply includes_app_l in H. exact H.
Qed.

Lemma piece_of_slice : forall a b s, piece_of (slice a b s) s.
Proof.
  intros a b s. unfold slice. exists (take a s), (drop (b - a) (drop a s)).
  rewrite take_drop, take_drop. reflexivity.
Qed.

(** X9.  The extractor throws one of two errors: [Empty model output]
    exactly when the text is empty, and [Invalid JSON from model] in every
    other case of failure, whatever made the parse fail. *)
Theorem extractor_errors :
  forall (s : string),
    (s = "" -> robustJsonExtract s = Thrown (new_Error "Empty model output"))
    /\ (forall e, robustJsonExtract s = Thrown e ->
        (s = "" /\ e = new_Error "Empty model output")
        \/ (s <> "" /\ e = new_Error "Invalid JSON from model")).
Proof.
  intro s. split; [intros ->; reflexivity|]. intros e. unfold robustJsonExtract.
  destruct (String.eqb_spec s "") as [->|NE].
  - intro H. injection H as <-. left. auto.
  - cbv zeta.
    set (c := match search_first fenced_at s with Some inner => trim inner | None => s end).
    destruct (JSON_parse c); [discriminate|].
    destruct (indexOf c "{") as [first|]; [|intro H; injection H as <-; right; auto].
    destruct (lastIndexOf c "}") as [last|]; [|intro H; injection H as <-; right; auto].
    destruct (JSON_parse (slice first (last + 1) c)); [discriminate|].
    intro H; injection H as <-; right; auto.
Qed.

Lemma extractor_errors_witness :
  robustJsonExtract "" = Thrown (new_Error "Empty model output")
  /\ (("not json" = "" /\ new_Error "Invalid JSON from model" = new_Error "Empty model output")
      \/ ("not json" <> "" /\ new_Error "Invalid JSON from model"
                               = new_Error "Invalid JSON from model")).
Proof.
  split.
  - exact (proj1 (extractor_errors "") eq_refl).
  - exact (proj2 (extractor_errors "not json") _ eq_refl).
Defined.

(** X10.  When the text holds a fenced block, the block alone decides: the
    extractor answers as it answers on the trimmed content of the first
    block, whatever prose stands before or after the fence.  A block that is
    blank gives [Invalid JSON from model]. *)
Theorem fenced_block_decides :
  forall (s inner : string),
    search_first fenced_at s = Some inner ->
    robustJsonExtract s
    = if trim inner =? "" then Thrown (new_Error "Invalid JSON from model")
      else robustJsonExtract (trim inner).
Proof.
  intros s inner F.
  assert (NE : (s =? "") = false) by (destruct s; [discriminate|reflexivity]).
  destruct (search_first_suffix _ _ _ _ F) as (pre & x & _ & X).
  destruct (fenced_at_inner x inner X) as [NF _].
  pose proof (no_fence_no_block _ (includes_trim _ _ NF)) as B.
  unfold robustJsonExtract. rewrite NE, F. cbv zeta.
  destruct (trim inner =? "") eqn:T.
  - apply String.eqb_eq in T. rewrite T. reflexivity.
  - rewrite B. reflexivity.
Qed.

Lemma fenced_block_decides_witness :
  robustJsonExtract ("Here you go: " ++ fence ++ "json" ++ nl ++ small_manifest_text ++ nl
                     ++ fence ++ " {enjoy}")
  = robustJsonExtract small_manifest_text.
Proof.
  exact (fenced_block_decides
           ("Here you go: " ++ fence ++ "json" ++ nl ++ small_manifest_text ++ nl
            ++ fence ++ " {enjoy}") (small_manifest_text ++ nl) eq_refl).
Defined.

(** X11.  The extractor invents nothing: a value it returns is the strict
    parse of a contiguous piece of the text it was given. *)
Theorem extractor_returns_parse_of_piece :
  forall (s : string) (v : jsval),
    robustJsonExtract s = Returned v ->
    exists t, piece_of t s /\ JSON_parse t = Some v.
Proof.
  intros s v. unfold robustJsonExtract. destruct (s =? ""); [discriminate|]. cbv zeta.
  set (c := match search_first fenced_at s with Some inner => trim inner | None => s end).
  assert (C : piece_of c s).
  { unfold c. destruct (search_first fenced_at s) as [inner|] eqn:F; [|apply piece_of_refl].
    destruct (search_first_suffix _ _ _ _ F) as (pre & x & -> & X).
    destruct (fenced_at_inner x inner X) as [_ P].
    apply (piece_of_trans _ inner); [apply piece_of_trim|].
    apply (piece_of_trans _ x); [exact P|apply piece_of_app_r]. }
  destruct (JSON_parse c) as [v'|] eqn:P.
  - intro H. injection H as <-. exists c. auto.
  - destruct (indexOf c "{") as [first|]; [|discriminate].
    destruct (lastIndexOf c "}") as [last|]; [|discriminate].
    destruct (JSON_parse (slice first (last + 1) c)) as [v'|] eqn:Q; [|discriminate].
    intro H. injection H as <-. exists (slice first (last + 1) c). split; [|exact Q].
    apply (piece_of_trans _ c); [apply piece_of_slice|exact C].
Qed.

Lemma extractor_returns_parse_of_piece_witness :
  exists t, piece_of t ("Sure! " ++ small_manifest_text ++ " Done.")
            /\ JSON_parse t = Some small_manifest.
Proof.
  exact (extractor_returns_parse_of_piece ("Sure! " ++ small_manifest_text ++ " Done.")
           small_manifest eq_refl).
Defined.

(* ------------------------------------------------------------------ *)
(** * Further properties of token substitution *)

Lemma set_prop_twice : forall k v v' fields,
  set_prop k v' (set_prop k v fields) = set_prop k v' fields.
Proof.
  intros k v v' fields. induction fields as [|[a x] rest IH]; simpl.
  - rewrite String.eqb_refl. reflexivity.
  - destruct (String.eqb_spec a k) as [->|NA]; simpl.
    + rewrite String.eqb_refl. reflexivity.
    + destruct (String.eqb_spec a k); [congruence|]. rewrite IH. reflexivity.
Qed.

Lemma set_prop_same : forall k v fields, lookup k fields = v -> v <> VUndef ->
  set_prop k v fields = fields.
Proof.
  intros k v fields. induction fields as [|[a x] rest IH]; simpl; intros L NU.
  - congruence.
  - destruct (String.eqb_spec a k) as [->|NA]; [congruence|].
    rewrite (IH L NU). reflexivity.
Qed.

Lemma replace_in_file_twice : forall rr r1 r2 f,
  replace_in_file rr r2 (replace_in_file rr r1 f)
  = replace_in_file rr (r1 ++ r2)%list f.
Proof.
  intros rr r1 r2 f. destruct f as [| | | | |items|fields]; try reflexivity.
  unfold replace_in_file at 2 3.
  destruct (lookup "content" fields) as [| | | |content| |] eqn:C;
    try (unfold replace_in_file; rewrite C; reflexivity).
  destruct (truthy (lookup "path" fields)) eqn:P; cbn [negb].
  - unfold replace_in_file. rewrite lookup_set_prop_same.
    rewrite lookup_set_prop_other by discriminate. rewrite P. cbn [negb].
    rewrite set_prop_twice. unfold apply_replacements. rewrite fold_left_app.
    reflexivity.
  - unfold replace_in_file. rewrite C, P. reflexivity.
Qed.

(** X12.  Substitution composes: applying the replacements [r1] to the files
    and then the replacements [r2] to the result is the same as one pass
    with the entries of [r1] followed by those of [r2], whatever the
    patterns built from the keys match. *)
Theorem replaceInFiles_composes :
  forall (regexp_replace : string -> string -> string -> string)
         (files : list jsval) (r1 r2 : list (string * string)),
    replaceInFiles regexp_replace (replaceInFiles regexp_replace files r1) r2
    = replaceInFiles regexp_replace files (r1 ++ r2)%list.
Proof.
  intros rr files r1 r2. unfold replaceInFiles. rewrite map_map.
  apply map_ext. intro f. apply replace_in_file_twice.
Qed.

Lemma prefix_refl : forall s, String.prefix s s = true.
Proof.
  induction s as [|c t IH]; [reflexivity|].
  rewrite prefix_cons, Ascii.eqb_refl. exact IH.
Qed.

Lemma includes_char : forall c t d,
  includes (String c t) (String d "") = false ->
  Ascii.eqb d c = false /\ includes t (String d "") = false.
Proof.
  intros c t d H. apply includes_cons in H. destruct H as [P I].
  rewrite prefix_cons, prefix_empty, andb_true_r in P. auto.
Qed.

Section TokenScan.
Variable tok repl : string.
Hypothesis plain : includes repl "$" = false.

Lemma getSubstitution_plain : forall matched before after,
  getSubstitution matched before after repl = repl.
Proof.
  intros matched before after. revert plain. generalize repl as v.
  induction v as [|c t IH]; intro P; [reflexivity|].
  apply includes_char in P. destruct P as [P1 P2]. cbn [getSubstitution].
  rewrite Ascii.eqb_sym, P1, (IH P2). reflexivity.
Qed.

Let r := fun before matched after : string => getSubstitution matched before after repl.

Lemma replace_go_skip : forall whole a rest off,
  replace_go (lit tok) r whole (String.length a) off (a ++ rest)
  = replace_go (lit tok) r whole 0 (off + String.length a) rest.
Proof.
  intros whole. induction a as [|c t IH]; intros rest off.
  - simpl. rewrite Nat.add_0_r. reflexivity.
  - cbn [String.length append replace_go]. rewrite IH.
    replace (S off + String.length t) with (off + S (String.length t)) by lia.
    reflexivity.
Qed.

(** With a replacement text without a dollar sign the result depends
    neither on the whole text nor on the offset. *)
Lemma replace_go_plain : forall whole whole' s skip off off',
  replace_go (lit tok) r whole skip off s = replace_go (lit tok) r whole' skip off' s.
Proof.
  intros whole whole'. induction s as [|c t IH]; intros skip off off'.
  - simpl. destruct skip; [|reflexivity]. destruct (lit tok ""); [|reflexivity].
    unfold r. rewrite !getSubstitution_plain. reflexivity.
  - cbn [replace_go]. destruct skip as [|k]; [|apply IH].
    destruct (lit tok (String c t)) as [[|n]|]; unfold r;
      rewrite ?getSubstitution_plain; rewrite (IH _ (S off) (S off')); reflexivity.
Qed.

Lemma replace_go_text : forall whole pre rest off,
  (forall c t, includes pre (String c "") = true -> String.prefix tok (String c t) = false) ->
  replace_go (lit tok) r whole 0 off (pre ++ rest)
  = pre ++ replace_go (lit tok) r whole 0 (off + String.length pre) rest.
Proof.
  intros whole. induction pre as [|c t IH]; intros rest off H.
  - simpl. rewrite Nat.add_0_r. reflexivity.
  - cbn [append replace_go String.length]. unfold lit at 1.
    rewrite (H c (t ++ rest)).
    + rewrite IH.
      * replace (S off + String.length t) with (off + S (String.length t)) by lia.
        reflexivity.
      * intros d u I. apply H. cbn [includes]. rewrite I. apply orb_true_r.
    + cbn [includes]. rewrite prefix_cons, Ascii.eqb_refl, prefix_empty. reflexivity.
Qed.

Lemma replace_go_token : forall whole c t rest off,
  tok = String c t ->
  replace_go (lit tok) r whole 0 off (tok ++ rest)
  = repl ++ replace_go (lit tok) r whole 0 (off + String.length tok) rest.
Proof.
  intros whole c t rest off E.
  assert (M : lit tok (tok ++ rest) = Some (String.length tok)).
  { unfold lit. rewrite (prefix_app_l tok tok rest); [reflexivity|apply prefix_refl]. }
  pose proof (replace_go_skip whole t rest (S off)) as K.
  rewrite E in *. cbn [append replace_go String.length] in *. rewrite M.
  unfold r at 1. rewrite getSubstitution_plain. rewrite K.
  replace (S off + String.length t) with (off + S (String.length t)) by lia.
  reflexivity.
Qed.

Lemma replace_go_none : forall whole s off,
  tok <> "" -> includes s tok = false ->
  replace_go (lit tok) r whole 0 off s = s.
Proof.
  intros whole s off NE. revert off. induction s as [|c t IH]; intros off H.
  - simpl. unfold lit. destruct tok; [congruence|reflexivity].
  - pose proof (includes_prefix _ _ H) as P. apply includes_cons in H.
    cbn [replace_go]. unfold lit at 1. rewrite P, IH by tauto. reflexivity.
Qed.
End TokenScan.

Lemma prefix_app_part : forall a b s,
  String.prefix (a ++ b) s = true -> String.prefix a s = true.
Proof.
  induction a as [|c a IH]; intros b s H; [apply prefix_empty|].
  destruct s as [|d s]; [discriminate|]. cbn [append] in H.
  rewrite prefix_cons in *. apply andb_true_iff in H. destruct H as [H1 H2].
  rewrite H1. exact (IH b s H2).
Qed.

Lemma includes_part : forall s a b, includes s a = false -> includes s (a ++ b) = false.
Proof.
  induction s as [|c t IH]; intros a b H.
  - destruct a; [discriminate|reflexivity].
  - pose proof (includes_prefix _ _ H) as P. apply includes_cons in H.
    cbn [includes]. rewrite (IH a b) by tauto. rewrite orb_false_r.
    destruct (String.prefix (a ++ b) (String c t)) eqn:Q; [|reflexivity].
    apply prefix_app_part in Q. congruence.
Qed.

Lemma includes_member : forall s c d,
  includes s (String d "") = false -> includes s (String c "") = true -> c <> d.
Proof.
  induction s as [|x t IH]; intros c d N I; [discriminate|].
  apply includes_char in N. destruct N as [N1 N2].
  cbn [includes] in I. rewrite prefix_cons, prefix_empty, andb_true_r in I.
  apply orb_true_iff in I. destruct I as [I|I].
  - apply Ascii.eqb_eq in I. subst x. intros ->. rewrite Ascii.eqb_refl in N1.
    discriminate.
  - exact (IH c d N2 I).
Qed.

(** X13.  A token is replaced by its value, as it is.  For a key of
    letters, digits and underscores and a value without a dollar sign, the
    substitution of the key in a text that starts with brace-free text and
    the token is that text, the value, and the substitution in the rest; a
    text without the token is left as it is. *)
Theorem token_replaced_by_value :
  forall (k v : string),
    word_key k = true ->
    (forall pre rest,
        includes v "$" = false -> includes pre "{" = false ->
        replace_token k v (pre ++ "{{" ++ k ++ "}}" ++ rest)
        = pre ++ v ++ replace_token k v rest)
    /\ (forall content,
        includes content ("{{" ++ k ++ "}}") = false -> replace_token k v content = content).
Proof.
  intros k v _. split.
  - intros pre rest P B. unfold replace_token, replace_all.
    replace (pre ++ "{{" ++ k ++ "}}" ++ rest) with (pre ++ ("{{" ++ k ++ "}}") ++ rest)
      by (cbn [append]; rewrite !str_app_assoc; reflexivity).
    set (tok := "{{" ++ k ++ "}}").
    rewrite (replace_go_text tok v).
    + rewrite (replace_go_token tok v P _ "{" ("{" ++ k ++ "}}")) by reflexivity.
      rewrite (replace_go_plain tok v P _ rest rest 0 _ 0). reflexivity.
    + intros c t I. pose proof (includes_member _ _ _ B I) as NE.
      unfold tok. cbn [append]. rewrite prefix_cons.
      destruct (Ascii.eqb_spec "{" c); [congruence|reflexivity].
  - intros content N. unfold replace_token, replace_all.
    apply replace_go_none; [discriminate|exact N].
Qed.

Lemma token_replaced_by_value_witness :
  replace_token "HERO_IMAGE" "./assets/hero.png"
    (("<img src=" ++ dq) ++ "{{" ++ "HERO_IMAGE" ++ "}}" ++ dq ++ ">")
  = ("<img src=" ++ dq) ++ "./assets/hero.png" ++ dq ++ ">".
Proof.
  destruct (token_replaced_by_value "HERO_IMAGE" "./assets/hero.png" eq_refl) as [A B].
  rewrite (A ("<img src=" ++ dq) (dq ++ ">") eq_refl eq_refl).
  rewrite (B (dq ++ ">") eq_refl). reflexivity.
Defined.

Lemma apply_replacements_none : forall replacements content,
  includes content "{{" = false ->
  apply_replacements replace_token replacements content = content.
Proof.
  induction replacements as [|[k v] rest IH]; intros content N; [reflexivity|].
  unfold apply_replacements in *. cbn [fold_left fst snd].
  unfold replace_token at 2, replace_all.
  rewrite replace_go_none; [apply IH; exact N|discriminate|].
  apply (includes_part content "{{" (k ++ "}}")). exact N.
Qed.

(** X14.  Files without tokens are left alone: for replacements whose keys
    are made of letters, digits and underscores, as those of the asset phase
    are, [replaceInFiles] returns the files as they are when no content
    holds two opening braces in a row. *)
Theorem files_without_tokens_unchanged :
  forall (files : list jsval) (replacements : list (string * string)),
    forallb (fun kv => word_key (fst kv)) replacements = true ->
    (forall f c, In f files -> file_content f = Some c -> includes c "{{" = false) ->
    replaceInFiles replace_token files replacements = files.
Proof.
  intros files replacements _ H. unfold replaceInFiles.
  rewrite <- (map_id files) at 2. apply map_ext_in. intros f IN.
  destruct f as [| | | | |items|fields]; try reflexivity.
  unfold replace_in_file.
  destruct (lookup "content" fields) as [| | | |content| |] eqn:C; try reflexivity.
  destruct (truthy (lookup "path" fields)); [|reflexivity]. cbn [negb].
  rewrite apply_replacements_none.
  - rewrite (set_prop_same "content" (VStr content) fields C); [reflexivity|discriminate].
  - apply (H (VObj fields) content IN). unfold file_content. simpl. rewrite C.
    reflexivity.
Qed.

Lemma files_without_tokens_unchanged_witness :
  replaceInFiles replace_token
    [file_entry "index.html" "<body>{ }</body>"; file_entry "styles.css" "a{}"]
    [("HERO_IMAGE", "./assets/hero.png"); ("PROJECT_1_IMG", "./assets/project_1.png")]
  = [file_entry "index.html" "<body>{ }</body>"; file_entry "styles.css" "a{}"].
Proof.
  apply files_without_tokens_unchanged; [reflexivity|].
  intros f c [<-|[<-|[]]] E; injection E as <-; reflexivity.
Defined.

(* ------------------------------------------------------------------ *)
(** * Further properties of the validator *)

Lemma nth_filter_nonempty : forall l n d,
  nonempty d = true -> nonempty (nth n (filter nonempty l) d) = true.
Proof.
  intros l n d D. destruct (nth_in_or_default n (filter nonempty l) d) as [I| ->];
    [|exact D].
  apply filter_In in I. tauto.
Qed.

Lemma str_or_nonempty : forall a b, nonempty b = true -> nonempty (str_or a b) = true.
Proof.
  intros [s|] b B; simpl; [|exact B]. unfold nonempty in *.
  destruct (s =? "") eqn:E; [exact B|]. rewrite E. reflexivity.
Qed.

(** X15.  The values the validator works with are never empty, whatever the
    brief holds: the name, title, tagline, about text and address fall back
    to their defaults, and the palette has exactly three colours, none of
    them empty.  They are the first three of the colours the brief gives,
    the entries of its array or the parts of its text between commas,
    trimmed, that are not empty; a missing first one is [#22D3EE] and a
    missing second or third one is the colour before it.  That palette is
    what a call that returns stores as [accentPalette]. *)
Theorem resolved_values_are_never_empty :
  forall (year : string) (m : manifest) (userData : brief),
    let v := resolve userData in
    nonempty (name v) = true /\ nonempty (title v) = true
    /\ nonempty (tagline v) = true /\ nonempty (about v) = true
    /\ nonempty (email v) = true
    /\ paletteForAI v = [accent v; accentSecondary v; accentTertiary v]
    /\ forallb nonempty (paletteForAI v) = true
    /\ accent v = nth 0 (colours_given userData) "#22D3EE"
    /\ accentSecondary v = nth 1 (colours_given userData) (accent v)
    /\ accentTertiary v = nth 2 (colours_given userData) (accentSecondary v)
    /\ forall r, validateAndEnhanceManifest year m userData = Returned r ->
                 accentPalette r = Some [accent v; accentSecondary v; accentTertiary v].
Proof.
  intros year m b v.
  assert (G : accent v = nth 0 (colours_given b) "#22D3EE"
              /\ accentSecondary v = nth 1 (colours_given b) (accent v)
              /\ accentTertiary v = nth 2 (colours_given b) (accentSecondary v)).
  { unfold v, resolve, colours_given. cbn [accent accentSecondary accentTertiary].
    destruct (u_accent b) as [[s|colors]|]; [|repeat split|repeat split].
    destruct (String.eqb_spec s "") as [->|NE]; repeat split. }
  destruct G as (EA & EB & EC).
  assert (F : forall n d, nonempty d = true ->
                          nonempty (nth n (colours_given b) d) = true).
  { intros n d D. unfold colours_given.
    destruct (u_accent b) as [[s|colors]|]; try (apply nth_filter_nonempty; exact D).
    destruct n; exact D. }
  assert (A : nonempty (accent v) = true) by (rewrite EA; apply F; reflexivity).
  assert (B : nonempty (accentSecondary v) = true) by (rewrite EB; apply F; exact A).
  assert (C : nonempty (accentTertiary v) = true) by (rewrite EC; apply F; exact B).
  assert (P : paletteForAI v = [accent v; accentSecondary v; accentTertiary v]).
  { change (paletteForAI v)
      with (filter nonempty [accent v; accentSecondary v; accentTertiary v]).
    cbn [filter]. rewrite A, B, C. reflexivity. }
  repeat (split; [apply str_or_nonempty; reflexivity|]).
  split; [exact P|]. split; [|split; [exact EA|split; [exact EB|split; [exact EC|]]]].
  - rewrite P. cbn [forallb]. rewrite A, B, C. reflexivity.
  - intros r H. apply validator_steps in H.
    destruct H as (l0 & l1 & l2 & l3 & _ & _ & _ & _ & ->). simpl. f_equal. exact P.
Qed.

Lemma resolved_values_are_never_empty_witness :
  exists r,
    validateAndEnhanceManifest "2025" (manifest_of []) brief_blank_accent = Returned r
    /\ colours_given brief_blank_accent = ["teal"]
    /\ accentPalette r = Some ["teal"; "teal"; "teal"].
Proof.
  destruct (validateAndEnhanceManifest "2025" (manifest_of []) brief_blank_accent)
    as [r|e] eqn:V; [|vm_compute in V; discriminate].
  exists r. split; [reflexivity|]. split; [reflexivity|].
  rewrite (proj2 (proj2 (proj2 (proj2 (proj2 (proj2 (proj2 (proj2 (proj2 (proj2
             (resolved_values_are_never_empty "2025" (manifest_of [])
                brief_blank_accent)))))))))) r V).
  reflexivity.
Defined.

(** X16.  A call of the validator that returns changes nothing of the
    manifest but [accentPalette] and the [content] of entries of [files]:
    the list keeps its length and order, every entry keeps every property
    other than [content], an entry whose path is none of [index.html],
    [styles.css] and [script.js] is returned as it is, and [site_name],
    [assetsNeeded] and [userData] are as they were. *)
Theorem validator_changes_content_only :
  forall (year : string) (m r : manifest) (userData0 : brief),
    validateAndEnhanceManifest year m userData0 = Returned r ->
    site_name r = site_name m /\ assetsNeeded r = assetsNeeded m
    /\ userData r = userData m
    /\ exists l l',
         files m = Some l /\ files r = Some l'
         /\ List.length l' = List.length l
         /\ forall i f, nth_error l i = Some f ->
              exists f',
                nth_error l' i = Some f'
                /\ (forall k, k <> "content" -> get f' k = get f k)
                /\ (get f "path" <> VStr "index.html" ->
                    get f "path" <> VStr "styles.css" ->
                    get f "path" <> VStr "script.js" -> f' = f).
Proof.
  intros year m r b H. apply validator_steps in H.
  destruct H as (l0 & l1 & l2 & l3 & F & H1 & H2 & H3 & ->).
  repeat (split; [reflexivity|]). exists l0, l3.
  apply html_step_result in H1. apply css_step_result in H2. apply js_step_result in H3.
  split; [exact F|]. split; [reflexivity|]. split.
  - rewrite (step_length _ _ _ H3), (step_length _ _ _ H2). apply (step_length _ _ _ H1).
  - intros i f N.
    destruct (step_entry _ _ _ i f H1 N) as (f1 & N1 & K1).
    destruct (step_entry _ _ _ i f1 H2 N1) as (f2 & N2 & K2).
    destruct (step_entry _ _ _ i f2 H3 N2) as (f3 & N3 & K3).
    exists f3. split; [exact N3|]. split.
    + intros k K. rewrite K3, K2, K1 by exact K. reflexivity.
    + intros P1 P2 P3.
      pose proof (step_other_entries _ _ _ i f H1 N P1) as E1.
      pose proof (step_other_entries _ _ _ i f H2 E1 P2) as E2.
      pose proof (step_other_entries _ _ _ i f H3 E2 P3) as E3.
      congruence.
Qed.

Lemma validator_changes_content_only_witness :
  exists r l',
    validateAndEnhanceManifest "2025"
      (manifest_of [file_entry "index.html" "<body></body>";
                    file_entry "notes.txt" "{{NAME}}"]) emptyBrief = Returned r
    /\ files r = Some l'
    /\ nth_error l' 1 = Some (file_entry "notes.txt" "{{NAME}}").
Proof.
  destruct (validateAndEnhanceManifest "2025"
              (manifest_of [file_entry "index.html" "<body></body>";
                            file_entry "notes.txt" "{{NAME}}"]) emptyBrief)
    as [r|e] eqn:H; [|vm_compute in H; discriminate].
  destruct (validator_changes_content_only "2025" _ r emptyBrief H)
    as (_ & _ & _ & l & l' & L & L' & _ & E).
  injection L as <-.
  destruct (E 1 (file_entry "notes.txt" "{{NAME}}") eq_refl) as (f' & N & _ & S).
  exists r, l'. split; [reflexivity|]. split; [exact L'|].
  rewrite N. f_equal. apply S; discriminate.
Defined.

Lemma js_step_cases : forall l l',
  js_step l = Returned l' ->
  match find_file "script.js" 0 l with
  | Returned (Some (i, f)) =>
      match get f "content" with
      | VStr c =>
          if (String.length (trim c) <? 50)%nat
          then l' = update_nth i (assign_content enhancedJs) l
          else l' = l
      | _ => l' = update_nth i (assign_content enhancedJs) l
      end
  | Returned None => l' = l
  | Thrown _ => False
  end.
Proof.
  intros l l'. unfold js_step.
  destruct (find_file "script.js" 0 l) as [[[i f]|]|e]; try discriminate;
    [|intro H; injection H as <-; reflexivity].
  destruct (get f "content") as [| |b|z|c|items|fs];
    try (destruct (truthy _); [discriminate|]; intro H; injection H as <-; reflexivity).
  destruct c as [|a c]; [intro H; injection H as <-; reflexivity|].
  cbn [String.eqb orb]. destruct (_ <? 50)%nat; intro H; injection H as <-; reflexivity.
Qed.

(** X17.  The entry the validator looks up for the script is the first
    entry of [files] with the path [script.js].  After a call that returns,
    that entry holds a text of at least fifty characters, white space at
    its ends not counted: a content that is missing, empty or shorter is
    replaced by the generated script, an empty one too, unlike an empty
    stylesheet, and a content of fifty characters or more is kept as it is.
    No script is added where there is none, and an entry with the path
    [script.js] that comes after the first is returned as it is. *)
Theorem repaired_script_has_fifty_characters :
  forall (year : string) (m r : manifest) (userData0 : brief) (l : list jsval),
    validateAndEnhanceManifest year m userData0 = Returned r ->
    files m = Some l ->
    (forall i f, find_file "script.js" 0 l = Returned (Some (i, f)) ->
       (forall c, get f "content" = VStr c -> 50 <= String.length (trim c) ->
          content_of "script.js" r = Some c)
       /\ ((forall c, get f "content" = VStr c -> String.length (trim c) < 50) ->
           content_of "script.js" r = Some enhancedJs)
       /\ exists c', content_of "script.js" r = Some c'
                     /\ 50 <= String.length (trim c'))
    /\ (find_file "script.js" 0 l = Returned None -> content_of "script.js" r = None)
    /\ (forall l' i j f g,
          files r = Some l' ->
          j < i -> nth_error l j = Some g -> nth_error l i = Some f ->
          get g "path" = VStr "script.js" -> get f "path" = VStr "script.js" ->
          nth_error l' i = Some f).
Proof.
  intros year m r b l V F.
  destruct (validator_steps year m b r V) as (l0 & l1 & l2 & l3 & F0 & H1 & H2 & H3 & ->).
  rewrite F0 in F. injection F as <-.
  pose proof (step_other_path "script.js" _ _ _ (html_step_result _ _ _ _ H1)
                ltac:(discriminate)) as P1.
  pose proof (step_other_path "script.js" _ _ _ (css_step_result _ _ _ H2)
                ltac:(discriminate)) as P2.
  pose proof (js_step_cases _ _ H3) as C. rewrite P2, P1 in C.
  assert (CO : content_of "script.js"
                 (set_accentPalette (paletteForAI (resolve b)) (set_files l3 m))
               = match find_file "script.js" 0 l3 with
                 | Returned (Some (_, f)) =>
                     match get f "content" with
                     | VStr c => Some c
                     | _ => None
                     end
                 | _ => None
                 end) by reflexivity.
  split; [|split].
  - intros i f G. rewrite G in C.
    assert (G2 : find_file "script.js" 0 l2 = Returned (Some (i, f)))
      by (rewrite P2, P1; exact G).
    destruct (found_is_object _ _ _ _ G) as [fields ->].
    assert (NEW : l3 = update_nth i (assign_content enhancedJs) l2 ->
                  content_of "script.js"
                    (set_accentPalette (paletteForAI (resolve b)) (set_files l3 m))
                  = Some enhancedJs).
    { intros ->. rewrite CO, find_file_update, G2, Nat.sub_0_r, Nat.eqb_refl.
      rewrite (get_content_assign _ _ fields eq_refl). reflexivity. }
    assert (LONG : 50 <= String.length (trim enhancedJs))
      by (apply Nat.ltb_ge; exact (proj2 enhancedJs_long)).
    destruct (get (VObj fields) "content") as [| |x|z|c|items|fs] eqn:GC;
      try (split; [discriminate|]; split; [intros _; exact (NEW C)|];
           exists enhancedJs; split; [exact (NEW C)|exact LONG]).
    destruct (String.length (trim c) <? 50)%nat eqn:L.
    + apply Nat.ltb_lt in L. split; [intros c0 E; injection E as <-; lia|].
      split; [intros _; exact (NEW C)|].
      exists enhancedJs. split; [exact (NEW C)|exact LONG].
    + apply Nat.ltb_ge in L. subst l3.
      assert (KEPT : content_of "script.js"
                       (set_accentPalette (paletteForAI (resolve b)) (set_files l2 m))
                     = Some c) by (rewrite CO, G2, GC; reflexivity).
      split; [intros c0 E _; injection E as <-; exact KEPT|].
      split; [intro S; specialize (S c eq_refl); lia|].
      exists c. split; [exact KEPT|exact L].
  - intro G. rewrite G in C. subst l3. rewrite CO, P2, P1, G. reflexivity.
  - intros l' i j f g F' J NG NF PG PF. simpl in F'. injection F' as <-.
    apply html_step_result in H1. apply css_step_result in H2. apply js_step_result in H3.
    assert (P : get g "path" = get f "path") by congruence.
    pose proof (step_later_entry _ _ _ _ _ _ _ H1 J NG NF P) as N1.
    destruct (step_entry _ _ _ j g H1 NG) as (g1 & G1 & K1).
    assert (Q1 : get g1 "path" = get f "path")
      by (rewrite K1 by discriminate; exact P).
    pose proof (step_later_entry _ _ _ _ _ _ _ H2 J G1 N1 Q1) as N2.
    destruct (step_entry _ _ _ j g1 H2 G1) as (g2 & G2 & K2).
    assert (Q2 : get g2 "path" = get f "path")
      by (rewrite K2 by discriminate; exact Q1).
    exact (step_later_entry _ _ _ _ _ _ _ H3 J G2 N2 Q2).
Qed.

Lemma repaired_script_has_fifty_characters_witness :
  exists r l',
    validateAndEnhanceManifest "2025"
      (manifest_of [file_entry "script.js" "let x;"; file_entry "script.js" ""])
      emptyBrief = Returned r
    /\ content_of "script.js" r = Some enhancedJs
    /\ files r = Some l'
    /\ nth_error l' 1 = Some (file_entry "script.js" "").
Proof.
  destruct (validateAndEnhanceManifest "2025"
              (manifest_of [file_entry "script.js" "let x;"; file_entry "script.js" ""])
              emptyBrief) as [r|e] eqn:V; [|vm_compute in V; discriminate].
  destruct (repaired_script_has_fifty_characters "2025" _ r emptyBrief _ V eq_refl)
    as (FIRST & _ & LATER).
  destruct (validator_steps _ _ _ _ V) as (l0 & l1 & l2 & l3 & _ & _ & _ & _ & E).
  exists r, l3. split; [reflexivity|]. split; [|split].
  - apply (proj1 (proj2 (FIRST 0 (file_entry "script.js" "let x;") eq_refl))).
    intros c H. injection H as <-. vm_compute. lia.
  - rewrite E. reflexivity.
  - apply (LATER l3 1 0 (file_entry "script.js" "") (file_entry "script.js" "let x;"));
      try reflexivity; [rewrite E; reflexivity|lia].
Defined.

Lemma firstn_firstn_le : forall (A : Type) (l : list A) i j,
  i <= j -> firstn i (firstn j l) = firstn i l.
Proof.
  intros A l i j L. rewrite firstn_firstn. f_equal. lia.
Qed.

(** X18.  [expandAboutText] mentions at most the first five skills, and an
    about text of fewer than twenty characters, white space at its ends not
    counted, is not used at all: the first paragraph is then made from the
    title and the first three skills. *)
Theorem expandAboutText_uses_five_skills :
  forall (aboutText title0 : string) (skillsList : list string),
    expandAboutText aboutText title0 skillsList
    = expandAboutText aboutText title0 (firstn 5 skillsList)
    /\ (String.length (trim aboutText) < 20 ->
        expandAboutText aboutText title0 skillsList
        = expandAboutText "" title0 skillsList).
Proof.
  intros a t l. split.
  - unfold expandAboutText.
    rewrite !(firstn_firstn_le _ l) by lia.
    replace (0 <? List.length (firstn 5 l))%nat with (0 <? List.length l)%nat;
      [reflexivity|].
    destruct l; reflexivity.
  - intro L. apply Nat.ltb_lt in L. unfold expandAboutText. rewrite L.
    rewrite orb_true_r. reflexivity.
Qed.

Lemma expandAboutText_uses_five_skills_witness :
  expandAboutText "Hi, I am Ada." "Engineer" ["Rocq"; "OCaml"]
  = expandAboutText "" "Engineer" ["Rocq"; "OCaml"].
Proof.
  exact (proj2 (expandAboutText_uses_five_skills "Hi, I am Ada." "Engineer"
                  ["Rocq"; "OCaml"]) ltac:(simpl; lia)).
Defined.

(** X26.  Of several entries with the same path the validator repairs the
    first only: an entry that comes after an entry with the same [path] is
    returned as it is, also when that path is [index.html], [styles.css] or
    [script.js]. *)
Theorem validator_repairs_first_entry_only :
  forall (year : string) (m r : manifest) (userData0 : brief) (l l' : list jsval)
         (i j : nat) (f g : jsval),
    validateAndEnhanceManifest year m userData0 = Returned r ->
    files m = Some l -> files r = Some l' ->
    j < i -> nth_error l j = Some g -> nth_error l i = Some f ->
    get g "path" = get f "path" ->
    nth_error l' i = Some f.
Proof.
  intros year m r b l l' i j f g H F F' J G N P. apply validator_steps in H.
  destruct H as (l0 & l1 & l2 & l3 & F0 & H1 & H2 & H3 & ->).
  rewrite F0 in F. injection F as <-. simpl in F'. injection F' as <-.
  apply html_step_result in H1. apply css_step_result in H2. apply js_step_result in H3.
  pose proof (step_later_entry _ _ _ _ _ _ _ H1 J G N P) as N1.
  destruct (step_entry _ _ _ j g H1 G) as (g1 & G1 & K1).
  assert (P1 : get g1 "path" = get f "path")
    by (rewrite K1 by discriminate; exact P).
  pose proof (step_later_entry _ _ _ _ _ _ _ H2 J G1 N1 P1) as N2.
  destruct (step_entry _ _ _ j g1 H2 G1) as (g2 & G2 & K2).
  assert (P2 : get g2 "path" = get f "path")
    by (rewrite K2 by discriminate; exact P1).
  exact (step_later_entry _ _ _ _ _ _ _ H3 J G2 N2 P2).
Qed.

Lemma validator_repairs_first_entry_only_witness :
  nth_error [file_entry "script.js" enhancedJs; file_entry "script.js" ""] 1
  = Some (file_entry "script.js" "").
Proof.
  refine (validator_repairs_first_entry_only "2025"
            (manifest_of [file_entry "script.js" ""; file_entry "script.js" ""]) _
            emptyBrief [file_entry "script.js" ""; file_entry "script.js" ""]
            [file_entry "script.js" enhancedJs; file_entry "script.js" ""] 1 0
            (file_entry "script.js" "") (file_entry "script.js" "")
            _ eq_refl _ _ eq_refl eq_refl eq_refl).
  - vm_compute. reflexivity.
  - reflexivity.
  - lia.
Defined.

(* ------------------------------------------------------------------ *)
(** * Further properties of the asset phase and of the spec phase *)

Lemma numProjectsToGenerate_ge : forall imgs projects,
  1 <= numProjectsToGenerate imgs projects.
Proof.
  intros imgs projects. unfold numProjectsToGenerate.
  destruct projects as [|p ps]; simpl.
  - destruct imgs as [|x xs]; simpl; lia.
  - lia.
Qed.

(** X19.  Whatever the provider and the placeholder service do, the asset
    phase maps the same tokens to the same paths: [HERO_IMAGE] first, then
    [PROJECT_1_IMG] up to [PROJECT_n_IMG] in order, where [n] is at least 1
    and at most 3, also for a manifest and a brief that name no project. *)
Theorem asset_phase_maps_hero_and_one_to_three_projects :
  forall (w : world) (keys : list string) (env_IMAGE_MODEL : option string)
         (assetsDir : string) (m : manifest) (fs : filesystem),
    exists n,
      1 <= n <= 3
      /\ st_replacements (resolve_assets w keys env_IMAGE_MODEL assetsDir m fs)
         = ("HERO_IMAGE", "./assets/hero.png")
           :: map (fun i => ("PROJECT_" ++ of_nat (i + 1) ++ "_IMG",
                             "./assets/project_" ++ of_nat (i + 1) ++ ".png"))
                (seq 0 n).
Proof.
  intros w keys env assetsDir m fs. rewrite resolve_assets_fold.
  destruct (resolve_all_effect w keys env (image_needs assetsDir m)
              {| st_fs := fs; st_replacements := []; st_log := [] |}
              (image_needs_distinct _ m)) as (R & _ & _).
  cbn zeta in R. cbn [st_replacements List.app] in R. rewrite R.
  unfold image_needs. set (n := numProjectsToGenerate _ _). exists n. split.
  - split; [apply numProjectsToGenerate_ge|apply numProjectsToGenerate_le].
  - cbn [map n_token n_relative]. rewrite map_map. reflexivity.
Qed.

(** X20.  How the asset phase fails.  Without an id it answers 400, and
    without a stored manifest 404, and in both cases nothing is generated
    or written.  With a stored manifest that has no [files] array it
    answers 500, but only after the images were generated: the hero file is
    written, and the manifest on disk stays as it was. *)
Theorem asset_phase_failure_modes :
  forall (w : world) (keys : list string) (env_IMAGE_MODEL : option string)
         (dir : string) (id : option string) (stored : option manifest)
         (fs : filesystem),
    (id = None \/ id = Some "" ->
     generate_assets w keys env_IMAGE_MODEL dir id stored fs
     = (Failure 400 "missing id", fs, stored))
    /\ (forall ident, id = Some ident -> ident <> "" -> stored = None ->
        generate_assets w keys env_IMAGE_MODEL dir id stored fs
        = (Failure 404 "manifest.json not found", fs, None))
    /\ (forall ident m, id = Some ident -> ident <> "" -> stored = Some m ->
        files m = None ->
        exists msg fs' d,
          generate_assets w keys env_IMAGE_MODEL dir id stored fs
          = (Failure 500 msg, fs', Some m)
          /\ readFile fs' (path_join (path_join dir "assets") "hero.png") = Some d).
Proof.
  intros w keys env dir id stored fs. split; [|split].
  - intros [->| ->]; reflexivity.
  - intros ident -> NE ->. unfold generate_assets. apply String.eqb_neq in NE.
    rewrite NE. reflexivity.
  - intros ident m -> NE -> F. unfold generate_assets. apply String.eqb_neq in NE.
    rewrite NE, F. rewrite resolve_assets_fold.
    destruct (resolve_all_effect w keys env (image_needs (path_join dir "assets") m)
                {| st_fs := fs; st_replacements := []; st_log := [] |}
                (image_needs_distinct _ m)) as (R & W & _).
    cbn zeta in R, W. rewrite R.
    destruct (W _ (or_introl eq_refl)) as (d & D & _).
    cbn [n_outFile] in D. eexists. eexists. exists d. split; [reflexivity|exact D].
Qed.

Lemma asset_phase_failure_modes_witness :
  generate_assets world_refusing ["key-1"] None "projects/ab12cd34" (Some "") None []
  = (Failure 400 "missing id", [], None)
  /\ generate_assets world_refusing ["key-1"] None "projects/ab12cd34" (Some "ab12cd34")
       None []
     = (Failure 404 "manifest.json not found", [], None)
  /\ exists msg fs' d,
       generate_assets world_refusing ["key-1"] None "projects/ab12cd34" (Some "ab12cd34")
         (Some {| site_name := Some "Ada"; files := None; assetsNeeded := None;
                  userData := None; accentPalette := None |}) []
       = (Failure 500 msg, fs',
          Some {| site_name := Some "Ada"; files := None; assetsNeeded := None;
                  userData := None; accentPalette := None |})
       /\ readFile fs' "projects/ab12cd34/assets/hero.png" = Some d.
Proof.
  split; [|split].
  - exact (proj1 (asset_phase_failure_modes world_refusing ["key-1"] None
                    "projects/ab12cd34" (Some "") None []) (or_intror eq_refl)).
  - exact (proj1 (proj2 (asset_phase_failure_modes world_refusing ["key-1"] None
                           "projects/ab12cd34" (Some "ab12cd34") None []))
             "ab12cd34" eq_refl ltac:(discriminate) eq_refl).
  - exact (proj2 (proj2 (asset_phase_failure_modes world_refusing ["key-1"] None
                           "projects/ab12cd34" (Some "ab12cd34")
                           (Some {| site_name := Some "Ada"; files := None;
                                    assetsNeeded := None; userData := None;
                                    accentPalette := None |}) []))
             "ab12cd34" _ eq_refl ltac:(discriminate) eq_refl eq_refl).
Defined.

(** X21.  The handler of the spec phase asks for a manifest at most three
    times.  The first prompt is the base prompt and every later one is the
    base prompt followed by the reminder, which is not repeated.  An attempt
    is followed by another only when its text did not parse; the loop ends
    with the outcome of the last attempt made: the parsed manifest, the
    error of the rotation, which is not retried here, or after the third
    text the error of the extractor. *)
Theorem extraction_asks_at_most_three_times :
  forall (ws : nat -> world) (keys : list string) (basePrompt : string),
    let sent := fst (extract_manifest ws keys basePrompt) in
    1 <= List.length sent <= 3
    /\ sent = map (attempt_prompt basePrompt) (seq 1 (List.length sent))
    /\ snd (extract_manifest ws keys basePrompt)
       = attempt_result ws keys basePrompt (List.length sent)
    /\ (forall j, 1 <= j < List.length sent -> unparsable ws keys basePrompt j)
    /\ (List.length sent = 3 \/ ~ unparsable ws keys basePrompt (List.length sent)).
Proof.
  intros ws keys basePrompt. unfold extract_manifest, MAX_RETRY.
  assert (U : forall n p text e,
             attempt_prompt basePrompt n = p ->
             snd (generateText (ws n) keys p) = Returned text ->
             robustJsonExtract text = Thrown e -> unparsable ws keys basePrompt n)
    by (intros n p text e <- G X; exists text, e; auto).
  assert (NG : forall n p e,
             attempt_prompt basePrompt n = p ->
             snd (generateText (ws n) keys p) = Thrown e ->
             ~ unparsable ws keys basePrompt n)
    by (intros n p e <- G (text & e' & G' & _); congruence).
  assert (NX : forall n p text v,
             attempt_prompt basePrompt n = p ->
             snd (generateText (ws n) keys p) = Returned text ->
             robustJsonExtract text = Returned v -> ~ unparsable ws keys basePrompt n)
    by (intros n p text v <- G X (text' & e' & G' & X'); congruence).
  assert (R : forall n p,
             attempt_prompt basePrompt n = p ->
             attempt_result ws keys basePrompt n
             = match snd (generateText (ws n) keys p) with
               | Thrown e => Thrown e
               | Returned text => robustJsonExtract text
               end)
    by (intros n p <-; reflexivity).
  cbn [extraction_loop]. unfold MAX_RETRY. cbn [Nat.eqb].
  destruct (snd (generateText (ws 1) keys basePrompt)) as [t1|e1] eqn:G1.
  2:{ cbn. rewrite (R 1 basePrompt eq_refl), G1. repeat split; try lia.
      right. exact (NG 1 _ e1 eq_refl G1). }
  destruct (robustJsonExtract t1) as [v1|x1] eqn:X1.
  { cbn. rewrite (R 1 basePrompt eq_refl), G1, X1. repeat split; try lia.
    right. exact (NX 1 _ t1 v1 eq_refl G1 X1). }
  destruct (snd (generateText (ws 2) keys (basePrompt ++ reminder))) as [t2|e2] eqn:G2.
  2:{ cbn. rewrite (R 2 (basePrompt ++ reminder) eq_refl), G2. repeat split; try lia.
      - intros j J. replace j with 1 by lia. exact (U 1 _ t1 x1 eq_refl G1 X1).
      - right. exact (NG 2 _ e2 eq_refl G2). }
  destruct (robustJsonExtract t2) as [v2|x2] eqn:X2.
  { cbn. rewrite (R 2 (basePrompt ++ reminder) eq_refl), G2, X2. repeat split; try lia.
    - intros j J. replace j with 1 by lia. exact (U 1 _ t1 x1 eq_refl G1 X1).
    - right. exact (NX 2 _ t2 v2 eq_refl G2 X2). }
  assert (B : forall j, 1 <= j < 3 -> unparsable ws keys basePrompt j).
  { intros j J. assert (D : j = 1 \/ j = 2) by lia.
    destruct D as [-> | ->];
      [exact (U 1 _ t1 x1 eq_refl G1 X1)|exact (U 2 _ t2 x2 eq_refl G2 X2)]. }
  destruct (snd (generateText (ws 3) keys (basePrompt ++ reminder))) as [t3|e3] eqn:G3.
  2:{ cbn. rewrite (R 3 (basePrompt ++ reminder) eq_refl), G3. repeat split; try lia; auto. }
  destruct (robustJsonExtract t3) as [v3|x3] eqn:X3;
    cbn; rewrite (R 3 (basePrompt ++ reminder) eq_refl), G3, X3;
    repeat split; try lia; auto.
Qed.

(** X22.  As it is written, the repair phase of the spec handler never
    hands over a manifest.  The handler reads [paletteForAI], a name that is
    declared only inside [validateAndEnhanceManifest]; so whenever the
    validator returns, the handler throws a [ReferenceError], and when the
    validator throws, its error stands.  Either way the handler goes to its
    [catch], and no manifest is written. *)
Theorem spec_phase_never_hands_over_a_manifest :
  forall (year : string) (extracted : manifest) (userData0 : brief),
    exists e,
      repair_phase year extracted userData0 = Thrown e
      /\ (forall r,
            validateAndEnhanceManifest year (set_userData userData0 extracted) userData0
            = Returned r ->
            e = reference_error "paletteForAI")
      /\ (forall e',
            validateAndEnhanceManifest year (set_userData userData0 extracted) userData0
            = Thrown e' ->
            e = e').
Proof.
  intros year extracted b. unfold repair_phase, normalize_assets, handler_paletteForAI.
  destruct (validateAndEnhanceManifest year (set_userData b extracted) b) as [r|e'].
  - exists (reference_error "paletteForAI"). cbn. repeat split; congruence.
  - exists e'. repeat split; congruence.
Qed.

Lemma spec_phase_never_hands_over_a_manifest_witness :
  repair_phase "2025" (manifest_of [file_entry "index.html" "<body></body>"]) emptyBrief
  = Thrown (reference_error "paletteForAI").
Proof.
  destruct (spec_phase_never_hands_over_a_manifest "2025"
              (manifest_of [file_entry "index.html" "<body></body>"]) emptyBrief)
    as (e & E & R & _).
  rewrite E. f_equal. exact (R _ eq_refl).
Defined.
(* ------------------------------------------------------------------ *)
(** * Properties of the prompt made from the brief *)

Lemma elements_plain : forall items,
  Forall (fun v => if plain v then exists s, to_string v = Returned s
                   else to_string v = Thrown conversion_error) items ->
  let elements :=
    fix elements (l : list jsval) : outcome (list string) :=
      match l with
      | [] => Returned []
      | x :: rest =>
          match match x with
                | VUndef | VNull => Returned ""
                | _ => to_string x
                end with
          | Thrown e => Thrown e
          | Returned s =>
              match elements rest with
              | Thrown e => Thrown e
              | Returned ss => Returned (s :: ss)
              end
          end
      end in
  if forallb plain items then exists ss, elements items = Returned ss
  else elements items = Thrown conversion_error.
Proof.
  intros items F elements. induction F as [|x rest X R IH].
  - eexists. reflexivity.
  - cbn [forallb]. destruct (plain x) eqn:PX; cbn [andb].
    + destruct X as [s X].
      assert (HX : exists s', match x with
                              | VUndef | VNull => Returned ""
                              | _ => to_string x
                              end = Returned s')
        by (destruct x; eauto).
      destruct HX as [s' HX].
      destruct (forallb plain rest).
      * destruct IH as [ss IH]. exists (s' :: ss). cbn. fold elements.
        change (elements (x :: rest))
          with (match match x with
                      | VUndef | VNull => Returned ""
                      | _ => to_string x
                      end with
                | Thrown e => Thrown e
                | Returned s0 =>
                    match elements rest with
                    | Thrown e => Thrown e
                    | Returned ss0 => Returned (s0 :: ss0)
                    end
                end).
        rewrite HX, IH. reflexivity.
      * change (elements (x :: rest))
          with (match match x with
                      | VUndef | VNull => Returned ""
                      | _ => to_string x
                      end with
                | Thrown e => Thrown e
                | Returned s0 =>
                    match elements rest with
                    | Thrown e => Thrown e
                    | Returned ss0 => Returned (s0 :: ss0)
                    end
                end).
        rewrite HX, IH. reflexivity.
    + change (elements (x :: rest))
        with (match match x with
                    | VUndef | VNull => Returned ""
                    | _ => to_string x
                    end with
              | Thrown e => Thrown e
              | Returned s0 =>
                  match elements rest with
                  | Thrown e => Thrown e
                  | Returned ss0 => Returned (s0 :: ss0)
                  end
              end).
      destruct x; try discriminate; rewrite X; reflexivity.
Qed.

(** The conversion returns on a plain value and on no other. *)
Lemma to_string_plain : forall v,
  if plain v then exists s, to_string v = Returned s
  else to_string v = Thrown conversion_error.
Proof.
  apply jsval_induction; try (intros; eexists; reflexivity).
  - intros items F. pose proof (elements_plain items F) as E. cbv zeta in E.
    cbn [plain to_string]. destruct (forallb plain items).
    + destruct E as [ss E]. rewrite E. eexists. reflexivity.
    + rewrite E. reflexivity.
  - intros fields _. cbn [plain to_string].
    destruct (existsb (fun kx => fst kx =? "toString") fields); cbn [negb];
      [reflexivity|eexists; reflexivity].
Qed.

Lemma to_string_returns : forall v, plain v = true -> exists s, to_string v = Returned s.
Proof. intros v P. pose proof (to_string_plain v) as H. rewrite P in H. exact H. Qed.

Lemma to_string_throws : forall v,
  plain v = false -> to_string v = Thrown conversion_error.
Proof. intros v P. pose proof (to_string_plain v) as H. rewrite P in H. exact H. Qed.

Lemma to_strings_plain : forall l,
  if forallb plain l then exists ss, to_strings l = Returned ss
  else to_strings l = Thrown conversion_error.
Proof.
  induction l as [|x rest IH]; [eexists; reflexivity|].
  cbn [forallb to_strings]. destruct (plain x) eqn:PX; cbn [andb].
  - destruct (to_string_returns x PX) as [s ->]. cbn [and_then].
    destruct (forallb plain rest).
    + destruct IH as [ss ->]. eexists. reflexivity.
    + rewrite IH. reflexivity.
  - rewrite (to_string_throws x PX). reflexivity.
Qed.

Lemma plain_or : forall a d, plain d = true -> plain (js_or a d) = plain a.
Proof.
  intros a d D. unfold js_or. destruct (truthy a) eqn:T; [reflexivity|].
  rewrite D. destruct a; try reflexivity; discriminate.
Qed.

Lemma plain_field : forall fields k d,
  plain d = true -> plain (field (VObj fields) k d) = plain (lookup k fields).
Proof.
  intros fields k d D. unfold field. cbn [get].
  destruct (lookup k fields); try reflexivity. exact D.
Qed.

Lemma project_line_ok : forall i p,
  if project_ok p then exists line, project_line i p = Returned line
  else exists e, project_line i p = Thrown e /\ e_name e = "TypeError".
Proof.
  intros i p. unfold project_ok.
  destruct (is_nullish p) eqn:N; cbn [negb andb].
  - destruct p; try discriminate; eexists; split; reflexivity.
  - assert (L : project_line i p
                = (title <- to_string (js_or (get p "title")
                                         (VStr ("Project " ++ of_nat (i + 1)))) ;;
                   desc <- to_string (js_or (get p "desc") (VStr "No description")) ;;
                   Returned ("- " ++ of_nat (i + 1) ++ ". " ++ title ++ " " ++ em_dash
                             ++ " " ++ desc)))
      by (destruct p; try discriminate; reflexivity).
    rewrite L.
    pose proof (to_string_plain (js_or (get p "title")
                                   (VStr ("Project " ++ of_nat (i + 1))))) as T.
    pose proof (to_string_plain (js_or (get p "desc") (VStr "No description"))) as D.
    rewrite plain_or in T, D by reflexivity.
    destruct (plain (get p "title")); cbn [andb].
    + destruct T as [t ->]. cbn [and_then]. destruct (plain (get p "desc")).
      * destruct D as [d ->]. eexists. reflexivity.
      * rewrite D. eexists. split; reflexivity.
    + rewrite T. eexists. split; reflexivity.
Qed.

Lemma project_lines_ok : forall ps i,
  if forallb project_ok ps then exists lines, project_lines i ps = Returned lines
  else exists e, project_lines i ps = Thrown e /\ e_name e = "TypeError".
Proof.
  induction ps as [|p rest IH]; intro i; [eexists; reflexivity|].
  cbn [forallb project_lines]. pose proof (project_line_ok i p) as P.
  destruct (project_ok p); cbn [andb].
  - destruct P as [line ->]. specialize (IH (S i)). destruct (forallb project_ok rest).
    + destruct IH as [lines ->]. eexists. reflexivity.
    + destruct IH as (e & -> & N). exists e. auto.
  - destruct P as (e & -> & N). exists e. auto.
Qed.

Lemma projectsList_ok : forall projects,
  if match projects with
     | VArr ps => forallb project_ok (firstn 6 ps)
     | _ => true
     end
  then exists s, projectsList projects = Returned s
  else exists e, projectsList projects = Thrown e /\ e_name e = "TypeError".
Proof.
  intros projects. destruct projects as [| | | | |ps|]; try (eexists; reflexivity).
  destruct ps as [|p ps]; [eexists; reflexivity|]. unfold projectsList.
  pose proof (project_lines_ok (firstn 6 (p :: ps)) 0) as L.
  destruct (forallb project_ok (firstn 6 (p :: ps))).
  - destruct L as [lines ->]. eexists. reflexivity.
  - destruct L as (e & -> & N). exists e. auto.
Qed.

Lemma nullish_not_ok : forall ps,
  existsb is_nullish ps = true -> forallb project_ok ps = false.
Proof.
  induction ps as [|p rest IH]; [discriminate|].
  cbn [existsb forallb]. unfold project_ok at 1. destruct (is_nullish p); [reflexivity|].
  cbn [orb]. intro H. rewrite (IH H). apply andb_false_r.
Qed.

(** one conversion of the template, on a plain value and on another *)
Ltac convert v :=
  let P := fresh "P" in
  let s := fresh "s" in
  let E := fresh "E" in
  destruct (plain v) eqn:P;
  [destruct (to_string_returns _ P) as [s E]
  |pose proof (to_string_throws _ P) as E];
  rewrite ?plain_or, ?plain_field in P by reflexivity;
  rewrite E; cbn [and_then].

(** X23.  When the prompt builder throws.  A template literal cannot
    convert an object that has a property named [toString], nor an array
    that holds one.  With a truthy [prompt] in the body the builder returns
    exactly when the prompt can be converted, whatever else the body holds.
    Without one, it returns exactly when no entry among the first six of
    the array [projects] is [null] or [undefined] and every value it
    splices in can be converted: the title and description of those
    entries, the name, title, tagline, address, about text and accent, and
    the entries of the array [skills]; a [projects] that is not an array is
    passed over.  In every other case it throws, and what it throws is a
    [TypeError]. *)
Theorem prompt_builder_throws_on_null_project :
  forall (year : string) (fields : list (string * jsval)),
    (builder_ok fields = true ->
     exists s, makeUserPromptFromStructured year (VObj fields) = Returned s)
    /\ (builder_ok fields = false ->
        exists e, makeUserPromptFromStructured year (VObj fields) = Thrown e
                  /\ e_name e = "TypeError")
    /\ (truthy (lookup "prompt" fields) = false ->
        forall ps,
          field (VObj fields) "projects" default_projects = VArr ps ->
          existsb is_nullish (firstn 6 ps) = true ->
          builder_ok fields = false).
Proof.
  intros year fields.
  assert (MAIN : if builder_ok fields
                 then exists s, makeUserPromptFromStructured year (VObj fields) = Returned s
                 else exists e, makeUserPromptFromStructured year (VObj fields) = Thrown e
                                /\ e_name e = "TypeError").
  { unfold builder_ok, makeUserPromptFromStructured. cbv zeta. cbn [get].
    destruct (truthy (lookup "prompt" fields)).
    - pose proof (to_string_plain (lookup "prompt" fields)) as T.
      destruct (plain (lookup "prompt" fields)).
      + destruct T as [s ->]. eexists. reflexivity.
      + rewrite T. eexists. split; reflexivity.
    - unfold form_ok.
      pose proof (projectsList_ok (field (VObj fields) "projects" default_projects)) as PL.
      destruct (match field (VObj fields) "projects" default_projects with
                | VArr ps => forallb project_ok (firstn 6 ps)
                | _ => true
                end); cbn [andb];
        [destruct PL as [pl ->]|destruct PL as (e & -> & N); exists e; auto].
      cbn [and_then forallb].
      convert (field (VObj fields) "name" (VStr "Portfolio Owner"));
        rewrite P; cbn [andb]; [|eexists; split; reflexivity].
      convert (field (VObj fields) "title" (VStr "Web Developer"));
        rewrite P0; cbn [andb]; [|eexists; split; reflexivity].
      convert (field (VObj fields) "tagline" (VStr "I build fast, accessible interfaces."));
        rewrite P1; cbn [andb]; [|eexists; split; reflexivity].
      convert (field (VObj fields) "email" (VStr "hello@example.com"));
        rewrite P2; cbn [andb];
        [|rewrite ?andb_false_r; cbn [andb]; eexists; split; reflexivity].
      convert (js_or (field (VObj fields) "about" (VStr "Short paragraph about me."))
                 (VStr "Passionate professional with expertise in web development"));
        rewrite P3; cbn [andb]; [|eexists; split; reflexivity].
      convert (field (VObj fields) "accent" (VStr "#22D3EE"));
        rewrite P4; cbn [andb]; [|eexists; split; reflexivity].
      assert (SK : forallb plain (skillsList (field (VObj fields) "skills"
                                                (VArr default_skills)))
                   = match lookup "skills" fields with
                     | VArr items => forallb plain items
                     | _ => true
                     end).
      { unfold field, skillsList. cbn [get].
        destruct (lookup "skills" fields) as [| | | |sk|items|]; try reflexivity.
        induction (filter nonempty (map trim (split "," sk))); [reflexivity|exact IHl]. }
      pose proof (to_strings_plain (skillsList (field (VObj fields) "skills"
                                                  (VArr default_skills)))) as TS.
      rewrite SK in TS.
      destruct (match lookup "skills" fields with
                | VArr items => forallb plain items
                | _ => true
                end).
      + destruct TS as [ss ->]. eexists. reflexivity.
      + rewrite TS. eexists. split; reflexivity. }
  split; [|split].
  - intro B. rewrite B in MAIN. exact MAIN.
  - intro B. rewrite B in MAIN. exact MAIN.
  - intros T ps P N. unfold builder_ok. rewrite T. unfold form_ok. rewrite P.
    rewrite (nullish_not_ok _ N). reflexivity.
Qed.

Lemma prompt_builder_throws_on_null_project_witness :
  (exists e,
      makeUserPromptFromStructured "2025" (form_with_projects (VArr [VObj []; VNull]))
      = Thrown e /\ e_name e = "TypeError")
  /\ (exists e,
      makeUserPromptFromStructured "2025" (VObj [("prompt", VObj [("toString", VNum 1)])])
      = Thrown e /\ e_name e = "TypeError")
  /\ (exists s,
      makeUserPromptFromStructured "2025" (form_with_projects (VStr "none")) = Returned s).
Proof.
  split; [|split].
  - apply (proj1 (proj2 (prompt_builder_throws_on_null_project "2025"
             [("name", VStr "Ada"); ("projects", VArr [VObj []; VNull])]))).
    apply (proj2 (proj2 (prompt_builder_throws_on_null_project "2025"
             [("name", VStr "Ada"); ("projects", VArr [VObj []; VNull])]))
             eq_refl [VObj []; VNull] eq_refl eq_refl).
  - apply (proj1 (proj2 (prompt_builder_throws_on_null_project "2025"
             [("prompt", VObj [("toString", VNum 1)])]))).
    reflexivity.
  - apply (proj1 (prompt_builder_throws_on_null_project "2025"
             [("name", VStr "Ada"); ("projects", VStr "none")])).
    reflexivity.
Defined.

(** X24.  The prompt lists at most six projects: a body whose [projects] is
    an array gives the same result as the body with the first six entries
    of that array, a later entry that is [null] included. *)
Theorem prompt_lists_six_projects :
  forall (year : string) (fields : list (string * jsval)) (ps : list jsval),
    lookup "projects" fields = VArr ps ->
    makeUserPromptFromStructured year (VObj fields)
    = makeUserPromptFromStructured year
        (VObj (set_prop "projects" (VArr (firstn 6 ps)) fields)).
Proof.
  intros year fields ps P. unfold makeUserPromptFromStructured, field. cbv zeta.
  cbn [get].
  rewrite (lookup_set_prop_other "prompt"), (lookup_set_prop_other "name"),
    (lookup_set_prop_other "title"), (lookup_set_prop_other "tagline"),
    (lookup_set_prop_other "about"), (lookup_set_prop_other "email"),
    (lookup_set_prop_other "accent"), (lookup_set_prop_other "skills")
    by discriminate.
  rewrite lookup_set_prop_same, P.
  replace (projectsList (VArr (firstn 6 ps))) with (projectsList (VArr ps));
    [reflexivity|].
  destruct ps as [|p ps]; [reflexivity|].
  change (firstn 6 (p :: ps)) with (p :: firstn 5 ps). unfold projectsList.
  change (firstn 6 (p :: ps)) with (p :: firstn 5 ps).
  change (firstn 6 (p :: firstn 5 ps)) with (p :: firstn 5 (firstn 5 ps)).
  rewrite firstn_firstn. reflexivity.
Qed.

Lemma prompt_lists_six_projects_witness :
  makeUserPromptFromStructured "2025"
    (form_with_projects (VArr (repeat (VObj []) 6 ++ [VNull])))
  = makeUserPromptFromStructured "2025" (form_with_projects (VArr (repeat (VObj []) 6))).
Proof.
  exact (prompt_lists_six_projects "2025"
           [("name", VStr "Ada"); ("projects", VArr (repeat (VObj []) 6 ++ [VNull]))]
           (repeat (VObj []) 6 ++ [VNull]) eq_refl).
Defined.

(* ------------------------------------------------------------------ *)
(** * Properties of the build phase *)

Section BuildWrites.
Variable path_join_norm : string -> string -> string.

Lemma build_entry_written : forall buildDir f dest content,
  build_entry path_join_norm buildDir f = Written dest content ->
  exists p, buildable f = Some (p, content) /\ dest = path_join_norm buildDir p.
Proof.
  intros buildDir f dest content. unfold build_entry, buildable.
  destruct (get f "path") as [| |b|z|p|items|fields] eqn:P; cbn [truthy negb];
    try discriminate.
  - destruct b; cbn [negb]; [|discriminate].
    destruct (get f "content"); discriminate.
  - destruct (negb (z =? 0)%Z); cbn [negb]; [|discriminate].
    destruct (get f "content"); discriminate.
  - destruct (negb (p =? "")) eqn:NE; cbn [negb]; [|discriminate].
    destruct (get f "content") as [| | | |c| |]; try discriminate.
    destruct (includes p "..") eqn:I; [discriminate|].
    intro H. injection H as <- <-. exists p. unfold nonempty. rewrite NE. auto.
  - destruct (get f "content"); try discriminate.
    destruct (array_includes items ".."); discriminate.
  - destruct (get f "content"); discriminate.
Qed.

Lemma build_loop_writes : forall buildDir entries fs fs' err dest d,
  build_loop path_join_norm buildDir entries fs = (fs', err) ->
  readFile fs' dest = Some d ->
  readFile fs dest = Some d
  \/ exists f p c,
       In f entries /\ buildable f = Some (p, c)
       /\ dest = path_join_norm buildDir p /\ d = Utf8 c.
Proof.
  intros buildDir. induction entries as [|f rest IH]; intros fs fs' err dest d H R.
  - simpl in H. injection H as <- <-. auto.
  - cbn [build_loop] in H.
    destruct (build_entry path_join_norm buildDir f) as [|dest0 c0|e] eqn:B.
    + destruct (IH _ _ _ _ _ H R) as [O|(g & p & c & I & K)]; [auto|].
      right. exists g, p, c. split; [right; exact I|exact K].
    + destruct (IH _ _ _ _ _ H R) as [O|(g & p & c & I & K)].
      * simpl in O. destruct (String.eqb_spec dest0 dest) as [->|NE]; [|auto].
        injection O as <-. right.
        destruct (build_entry_written _ _ _ _ B) as (p & K & D).
        exists f, p, c0. split; [left; reflexivity|]. auto.
      * right. exists g, p, c. split; [right; exact I|exact K].
    + injection H as <- <-. auto.
Qed.

Lemma buildable_chars : forall s f, In f (chars s) -> buildable f = None.
Proof.
  induction s as [|c t IH]; intros f I; [destruct I|].
  destruct I as [<-|I]; [reflexivity|apply IH; exact I].
Qed.
End BuildWrites.

(** X25.  The build passes over every entry whose path holds two dots in
    a row.  Whatever [manifest.files] holds, a file that is on disk after
    the loop and was not there before it is the content of an entry of the
    array whose [path] is a string, not empty and without two dots in a
    row, and whose [content] is a string, written at the join of the build
    directory and that path.  An entry without such a path or content is
    never written, and a [files] that is not an array leaves the disk as it
    was. *)
Theorem build_writes_only_paths_without_dots :
  forall (path_join_norm : string -> string -> string) (buildDir : string)
         (files : jsval) (fs fs' : filesystem) (err : option js_error)
         (dest : string) (d : file_data),
    write_build_files path_join_norm buildDir files fs = (fs', err) ->
    readFile fs' dest = Some d ->
    readFile fs dest = Some d
    \/ exists entries f p c,
         files = VArr entries /\ In f entries
         /\ get f "path" = VStr p /\ p <> "" /\ includes p ".." = false
         /\ get f "content" = VStr c
         /\ dest = path_join_norm buildDir p /\ d = Utf8 c.
Proof.
  intros j buildDir files fs fs' err dest d H R.
  assert (B : forall f p c, buildable f = Some (p, c) ->
              get f "path" = VStr p /\ p <> "" /\ includes p ".." = false
              /\ get f "content" = VStr c).
  { intros f p c. unfold buildable.
    destruct (get f "path") as [| | | |q| |]; try discriminate.
    destruct (get f "content") as [| | | |c'| |]; try discriminate.
    destruct (nonempty q) eqn:N; [|discriminate].
    destruct (includes q "..") eqn:I; [discriminate|].
    cbn. intro E. injection E as <- <-. repeat split; auto.
    intros ->. discriminate. }
  destruct files as [| | | |s|entries|fields]; cbn [write_build_files] in H;
    try (injection H as <- <-; auto).
  - destruct (build_loop_writes j _ _ _ _ _ _ _ H R) as [O|(f & p & c & I & K & _)];
      [auto|].
    rewrite (buildable_chars _ _ I) in K. discriminate.
  - destruct (build_loop_writes j _ _ _ _ _ _ _ H R) as [O|(f & p & c & I & K & D & E)];
      [auto|].
    right. destruct (B _ _ _ K) as (P & NE & ND & C).
    exists entries, f, p, c. repeat split; auto.
Qed.

Lemma build_writes_only_paths_without_dots_witness :
  readFile [] "build/index.html" = Some (Utf8 "<p>hi</p>")
  \/ exists entries f p c,
       VArr [file_entry "../../etc/passwd" "x"; file_entry "index.html" "<p>hi</p>"]
       = VArr entries
       /\ In f entries
       /\ get f "path" = VStr p /\ p <> "" /\ includes p ".." = false
       /\ get f "content" = VStr c
       /\ "build/index.html" = path_join "build" p /\ Utf8 "<p>hi</p>" = Utf8 c.
Proof.
  exact (build_writes_only_paths_without_dots path_join "build"
           (VArr [file_entry "../../etc/passwd" "x"; file_entry "index.html" "<p>hi</p>"])
           [] [("build/index.html", Utf8 "<p>hi</p>")] None "build/index.html"
           (Utf8 "<p>hi</p>") eq_refl eq_refl).
Defined.

(* ------------------------------------------------------------------ *)
(** * Properties of the first version of the server *)

(** the match on the finish reason, as a test *)
Lemma legacy_adapter_cases :
  forall (p : Legacy.provider) (fs : filesystem) (prompt outFile : string),
    Legacy.generateImageToFile p fs prompt outFile
    = match p outFile (Legacy.safePrompt prompt) with
      | Thrown e => (fs, Thrown e)
      | Returned resp =>
          if match Legacy.finishReason resp with
             | Some reason => reason =? "SAFETY"
             | None => false
             end
          then Legacy.writePlaceholder fs outFile
          else
            match Legacy.inlineData resp with
            | Some inline =>
                if inline =? "" then Legacy.writePlaceholder fs outFile
                else (writeFileSync fs outFile (Base64 inline), Returned outFile)
            | None => Legacy.writePlaceholder fs outFile
            end
      end.
Proof.
  intros p fs prompt outFile. unfold Legacy.generateImageToFile.
  destruct (p outFile (Legacy.safePrompt prompt)) as [resp|e]; [|reflexivity].
  destruct (Legacy.finishReason resp) as [reason|]; [|reflexivity].
  destruct (String.eqb_spec reason "SAFETY") as [->|NS]; [reflexivity|].
  repeat (destruct reason as [|[[|] [|] [|] [|] [|] [|] [|] [|]] reason];
          try reflexivity).
  congruence.
Qed.

(** X28.  In the first version an image need never goes to the network for
    a placeholder.  When the provider answers the call, whatever the answer,
    [generateImageToFile] returns the output file and has written it.  An
    answer that was not blocked for safety and carries image data has that
    data written, decoded from base 64; an answer that was blocked, or that
    carries no data or the empty text for its data, has the placeholder
    written that [writePlaceholder] makes on the spot.  When the call
    throws, the error is passed on and nothing is written. *)
Theorem legacy_image_or_local_placeholder :
  forall (p : Legacy.provider) (fs : filesystem) (prompt outFile : string),
    (forall resp,
        p outFile (Legacy.safePrompt prompt) = Returned resp ->
        exists d,
          Legacy.generateImageToFile p fs prompt outFile
          = (writeFileSync fs outFile d, Returned outFile)
          /\ image_or_local_placeholder d
          /\ (Legacy.finishReason resp <> Some "SAFETY" ->
              forall inline,
                Legacy.inlineData resp = Some inline -> inline <> "" ->
                d = Base64 inline)
          /\ (Legacy.finishReason resp = Some "SAFETY" -> d = Utf8 Legacy.placeholderSvg)
          /\ (Legacy.inlineData resp = None -> d = Utf8 Legacy.placeholderSvg)
          /\ (Legacy.inlineData resp = Some "" -> d = Utf8 Legacy.placeholderSvg))
    /\ (forall e,
        p outFile (Legacy.safePrompt prompt) = Thrown e ->
        Legacy.generateImageToFile p fs prompt outFile = (fs, Thrown e)).
Proof.
  intros p fs prompt outFile. rewrite legacy_adapter_cases. split.
  - intros resp ->.
    destruct (Legacy.finishReason resp) as [reason|] eqn:F.
    + destruct (String.eqb_spec reason "SAFETY") as [->|NS].
      * exists (Utf8 Legacy.placeholderSvg). split; [reflexivity|].
        split; [left; reflexivity|]. split; [congruence|]. auto.
      * destruct (Legacy.inlineData resp) as [inline|].
        -- destruct (String.eqb_spec inline "") as [->|NE].
           ++ exists (Utf8 Legacy.placeholderSvg). split; [reflexivity|].
              split; [left; reflexivity|].
              split; [intros _ i E; injection E as <-; congruence|]. auto.
           ++ exists (Base64 inline). split; [reflexivity|]. split; [right; eauto|].
              split; [intros _ i E _; injection E as <-; reflexivity|].
              split; [congruence|]. split; [discriminate|congruence].
        -- exists (Utf8 Legacy.placeholderSvg). split; [reflexivity|].
           split; [left; reflexivity|]. split; [discriminate|]. auto.
    + destruct (Legacy.inlineData resp) as [inline|].
      * destruct (String.eqb_spec inline "") as [->|NE].
        -- exists (Utf8 Legacy.placeholderSvg). split; [reflexivity|].
           split; [left; reflexivity|].
           split; [intros _ i E; injection E as <-; congruence|]. auto.
        -- exists (Base64 inline). split; [reflexivity|]. split; [right; eauto|].
           split; [intros _ i E _; injection E as <-; reflexivity|].
           split; [discriminate|]. split; [discriminate|congruence].
      * exists (Utf8 Legacy.placeholderSvg). split; [reflexivity|].
        split; [left; reflexivity|]. split; [discriminate|]. auto.
  - intros e ->. reflexivity.
Qed.

Lemma legacy_image_or_local_placeholder_witness :
  Legacy.generateImageToFile provider_hero_only [] "a hero" "assets/hero.png"
  = (writeFileSync [] "assets/hero.png" (Base64 "aW1hZ2U="), Returned "assets/hero.png")
  /\ Legacy.generateImageToFile provider_blocked [] "a hero" "assets/hero.png"
     = (writeFileSync [] "assets/hero.png" (Utf8 Legacy.placeholderSvg),
        Returned "assets/hero.png").
Proof.
  split.
  - destruct (proj1 (legacy_image_or_local_placeholder provider_hero_only [] "a hero"
                       "assets/hero.png")
                {| Legacy.finishReason := Some "STOP";
                   Legacy.inlineData := Some "aW1hZ2U=" |} eq_refl)
      as (d & E & _ & DATA & _).
    rewrite E, (DATA ltac:(discriminate) "aW1hZ2U=" eq_refl ltac:(discriminate)).
    reflexivity.
  - destruct (proj1 (legacy_image_or_local_placeholder provider_blocked [] "a hero"
                       "assets/hero.png")
                {| Legacy.finishReason := Some "SAFETY"; Legacy.inlineData := None |}
                eq_refl)
      as (d & E & _ & _ & BLOCKED & _).
    rewrite E, (BLOCKED eq_refl). reflexivity.
Defined.

Section LegacyRun.
Variable p : Legacy.provider.

Lemma legacy_one_answered : forall nd st,
  answered p nd ->
  exists d,
    Legacy.generate_one p (n_prompt nd) (n_outFile nd) (n_token nd) (n_relative nd) st
    = (writeFileSync (fst st) (n_outFile nd) d,
       Returned (writeFileSync (fst st) (n_outFile nd) d,
                 (snd st ++ [(n_token nd, n_relative nd)])%list))
    /\ image_or_local_placeholder d.
Proof.
  intros nd st [resp R]. unfold Legacy.generate_one.
  rewrite legacy_adapter_cases, R.
  assert (PH : exists d,
             (let (fs', o) := Legacy.writePlaceholder (fst st) (n_outFile nd) in
              match o with
              | Returned _ =>
                  (fs', Returned (fs', (snd st ++ [(n_token nd, n_relative nd)])%list))
              | Thrown e => (fs', Thrown e)
              end)
             = (writeFileSync (fst st) (n_outFile nd) d,
                Returned (writeFileSync (fst st) (n_outFile nd) d,
                          (snd st ++ [(n_token nd, n_relative nd)])%list))
             /\ image_or_local_placeholder d)
    by (exists (Utf8 Legacy.placeholderSvg); split; [reflexivity|left; reflexivity]).
  destruct (match Legacy.finishReason resp with
            | Some reason => reason =? "SAFETY"
            | None => false
            end); [exact PH|].
  destruct (Legacy.inlineData resp) as [inline|]; [|exact PH].
  destruct (String.eqb_spec inline "") as [->|NE]; [exact PH|].
  exists (Base64 inline). split; [reflexivity|right; eauto].
Qed.

Lemma legacy_one_thrown : forall nd st e,
  p (n_outFile nd) (Legacy.safePrompt (n_prompt nd)) = Thrown e ->
  Legacy.generate_one p (n_prompt nd) (n_outFile nd) (n_token nd) (n_relative nd) st
  = (fst st, Thrown e).
Proof.
  intros nd st e T. unfold Legacy.generate_one.
  rewrite legacy_adapter_cases, T. reflexivity.
Qed.

Lemma legacy_run_answered : forall needs st,
  NoDup (map n_outFile needs) ->
  (forall nd, In nd needs -> answered p nd) ->
  exists fs',
    legacy_run p needs st
    = (fs', Returned (fs', (snd st ++ map (fun nd => (n_token nd, n_relative nd)) needs)%list))
    /\ (forall nd, In nd needs ->
        exists d, readFile fs' (n_outFile nd) = Some d /\ image_or_local_placeholder d)
    /\ (forall f, ~ In f (map n_outFile needs) -> readFile fs' f = readFile (fst st) f).
Proof.
  induction needs as [|nd rest IH]; intros st ND A.
  - exists (fst st). simpl. rewrite List.app_nil_r. destruct st. simpl.
    split; [reflexivity|]. split; [intros nd []|reflexivity].
  - inversion ND as [|x xs NI ND']; subst.
    destruct (legacy_one_answered nd st (A nd (or_introl eq_refl))) as (d & E & I).
    cbn [legacy_run]. rewrite E.
    destruct (IH (writeFileSync (fst st) (n_outFile nd) d,
                  (snd st ++ [(n_token nd, n_relative nd)])%list) ND')
      as (fs' & R & W & O); [intros x X; apply A; right; exact X|].
    exists fs'. cbn [fst snd] in *. rewrite R, <- List.app_assoc. split; [reflexivity|].
    split.
    + intros x [<-|X]; [|apply W; exact X].
      exists d. split; [|exact I]. rewrite (O _ NI). simpl.
      rewrite String.eqb_refl. reflexivity.
    + intros f NF. rewrite O by (intro H; apply NF; right; exact H).
      simpl. destruct (String.eqb_spec (n_outFile nd) f) as [EQ|]; [|reflexivity].
      exfalso. apply NF. left. exact EQ.
Qed.

Lemma legacy_run_aborted : forall needs st k nd e,
  NoDup (map n_outFile needs) ->
  nth_error needs k = Some nd ->
  (forall j ndj, j < k -> nth_error needs j = Some ndj -> answered p ndj) ->
  p (n_outFile nd) (Legacy.safePrompt (n_prompt nd)) = Thrown e ->
  exists fs',
    legacy_run p needs st = (fs', Thrown e)
    /\ (forall j ndj, j < k -> nth_error needs j = Some ndj ->
        exists d, readFile fs' (n_outFile ndj) = Some d /\ image_or_local_placeholder d)
    /\ (forall j ndj, k <= j -> nth_error needs j = Some ndj ->
        readFile fs' (n_outFile ndj) = readFile (fst st) (n_outFile ndj))
    /\ (forall f, ~ In f (map n_outFile needs) -> readFile fs' f = readFile (fst st) f).
Proof.
  induction needs as [|x rest IH]; intros st k nd e ND N A T.
  - destruct k; discriminate.
  - inversion ND as [|y ys NI ND']; subst. destruct k as [|k]; simpl in N.
    + injection N as ->. cbn [legacy_run]. rewrite (legacy_one_thrown nd st e T).
      exists (fst st). split; [reflexivity|]. split; [intros j ndj J; lia|].
      split; reflexivity.
    + destruct (legacy_one_answered x st (A 0 x ltac:(lia) eq_refl)) as (d & E & I).
      cbn [legacy_run]. rewrite E.
      destruct (IH (writeFileSync (fst st) (n_outFile x) d,
                    (snd st ++ [(n_token x, n_relative x)])%list) k nd e ND' N)
        as (fs' & R & W & O & FR);
        [intros j ndj J NJ; apply (A (S j) ndj); [lia|exact NJ]|exact T|].
      exists fs'. split; [exact R|]. cbn [fst] in O, FR. split; [|split].
      * intros [|j] ndj J NJ; simpl in NJ.
        -- injection NJ as <-. exists d. split; [|exact I].
           rewrite (FR _ NI). simpl. rewrite String.eqb_refl. reflexivity.
        -- apply (W j ndj); [lia|exact NJ].
      * intros [|j] ndj J NJ; [lia|]. simpl in NJ.
        rewrite (O j ndj) by (try lia; exact NJ). simpl.
        destruct (String.eqb_spec (n_outFile x) (n_outFile ndj)) as [EQ|]; [|reflexivity].
        exfalso. apply NI. rewrite EQ. apply in_map. eapply nth_error_In. exact NJ.
      * intros f NF. rewrite FR by (intro H; apply NF; right; exact H).
        simpl. destruct (String.eqb_spec (n_outFile x) f) as [EQ|]; [|reflexivity].
        exfalso. apply NF. left. exact EQ.
Qed.

Lemma legacy_project_loop_run : forall assetsDir imgs i st,
  Legacy.project_loop p assetsDir imgs i st
  = legacy_run p (legacy_project_needs assetsDir imgs i) st.
Proof.
  intros assetsDir. induction imgs as [|img rest IH]; intros i st; [reflexivity|].
  cbn [Legacy.project_loop legacy_project_needs legacy_run n_prompt n_outFile n_token
       n_relative].
  destruct (Legacy.generate_one p img _ _ _ st) as [fs' [st'|e]]; [apply IH|reflexivity].
Qed.

Lemma legacy_run_app : forall a b st,
  legacy_run p (a ++ b)%list st
  = match legacy_run p a st with
    | (_, Returned st') => legacy_run p b st'
    | (fs', Thrown e) => (fs', Thrown e)
    end.
Proof.
  induction a as [|nd rest IH]; intros b st; [reflexivity|].
  cbn [List.app legacy_run].
  destruct (Legacy.generate_one p _ _ _ _ st) as [fs' [st'|e]]; [apply IH|reflexivity].
Qed.

(** The handler of the first version runs the needs of the manifest in
    order. *)
Lemma legacy_handler_run : forall dir ident m fs,
  ident <> "" ->
  Legacy.generate_assets p dir (Some ident) (Some m) fs
  = match legacy_run p (legacy_needs (path_join dir "assets") m) (fs, []) with
    | (fs2, Thrown e) => (Failure 500 (e_message e), fs2, Some m)
    | (_, Returned (fs2, replacements)) =>
        if (0 <? List.length replacements)%nat then
          match files m with
          | None =>
              (Failure 500 "Cannot read properties of undefined (reading 'map')",
               fs2, Some m)
          | Some fl =>
              (Ok ident, fs2,
               Some (set_files (replaceInFiles replace_token fl replacements) m))
          end
        else (Ok ident, fs2, Some m)
    end.
Proof.
  intros dir ident m fs NE. unfold Legacy.generate_assets. apply String.eqb_neq in NE.
  rewrite NE. cbv zeta. unfold legacy_needs. rewrite legacy_run_app.
  assert (H0 : forall imgs,
             match Legacy.project_loop p (path_join dir "assets") imgs 0 (fs, []) with
             | (fs2, Returned (fs3, replacements)) =>
                 if (0 <? List.length replacements)%nat then
                   match files m with
                   | None =>
                       (Failure 500 "Cannot read properties of undefined (reading 'map')",
                        fs3, Some m)
                   | Some fl =>
                       (Ok ident, fs3,
                        Some (set_files (replaceInFiles replace_token fl replacements) m))
                   end
                 else (Ok ident, fs3, Some m)
             | (fs2, Thrown e) => (Failure 500 (e_message e), fs2, Some m)
             end
             = match legacy_run p (legacy_project_needs (path_join dir "assets") imgs 0)
                       (fs, []) with
               | (fs2, Thrown e) => (Failure 500 (e_message e), fs2, Some m)
               | (_, Returned (fs2, replacements)) =>
                   if (0 <? List.length replacements)%nat then
                     match files m with
                     | None =>
                         (Failure 500
                            "Cannot read properties of undefined (reading 'map')",
                          fs2, Some m)
                     | Some fl =>
                         (Ok ident, fs2,
                          Some (set_files (replaceInFiles replace_token fl replacements) m))
                     end
                   else (Ok ident, fs2, Some m)
               end)
    by (intro imgs; rewrite legacy_project_loop_run; reflexivity).
  destruct (assetsNeeded m) as [[[h|] imgs]|]; try apply H0.
  destruct (h =? ""); [apply H0|].
  cbn [legacy_run n_prompt n_outFile n_token n_relative].
  destruct (Legacy.generate_one p h _ _ _ (fs, [])) as [fs1 [st|e]]; [|reflexivity].
  rewrite legacy_project_loop_run. reflexivity.
Qed.

Lemma legacy_needs_distinct : forall assetsDir m,
  NoDup (map n_outFile (legacy_needs assetsDir m)).
Proof.
  intros assetsDir m. unfold legacy_needs.
  set (imgs := match assetsNeeded m with
               | Some {| projectImages := Some l |} => firstn 3 l
               | _ => []
               end).
  assert (L : List.length imgs <= 3).
  { unfold imgs. destruct (assetsNeeded m) as [[h [l|]]|]; cbn [List.length]; try lia.
    apply firstn_le_length. }
  assert (P : NoDup (path_join assetsDir "hero.png"
                     :: map n_outFile (legacy_project_needs assetsDir imgs 0))).
  { destruct imgs as [|a [|b [|c [|d imgs]]]]; simpl in L; try lia;
      cbn [legacy_project_needs map n_outFile]; unfold path_join;
      repeat (apply NoDup_cons;
              [simpl; intro H;
               repeat (destruct H as [H|H];
                       [apply string_app_inv_head in H; discriminate|]);
               exact H|]);
      apply NoDup_nil. }
  destruct (assetsNeeded m) as [[[h|] pi]|]; cbn [List.app map];
    try (inversion P; assumption).
  destruct (h =? ""); cbn [List.app map n_outFile]; [inversion P; assumption|exact P].
Qed.
End LegacyRun.

(** X29.  The asset phase of the first version stops at the first error of
    the provider.  When the call for one of the needs of the manifest
    throws and the calls for the needs before it are answered, the handler
    answers 500 with the message of that error; the needs before it have
    their files, no file of that need or of a later need is written, and
    the manifest on disk stays as it was, tokens and all. *)
Theorem legacy_asset_phase_stops_at_first_error :
  forall (p : Legacy.provider) (dir ident : string) (m : manifest) (fs : filesystem)
         (k : nat) (nd : need) (e : js_error),
    let needs := legacy_needs (path_join dir "assets") m in
    ident <> "" ->
    nth_error needs k = Some nd ->
    (forall j ndj, j < k -> nth_error needs j = Some ndj -> answered p ndj) ->
    p (n_outFile nd) (Legacy.safePrompt (n_prompt nd)) = Thrown e ->
    exists fs',
      Legacy.generate_assets p dir (Some ident) (Some m) fs
      = (Failure 500 (e_message e), fs', Some m)
      /\ (forall j ndj, j < k -> nth_error needs j = Some ndj ->
          exists d, readFile fs' (n_outFile ndj) = Some d /\ image_or_local_placeholder d)
      /\ (forall j ndj, k <= j -> nth_error needs j = Some ndj ->
          readFile fs' (n_outFile ndj) = readFile fs (n_outFile ndj)).
Proof.
  intros p dir ident m fs k nd e needs NE N A T.
  destruct (legacy_run_aborted p needs (fs, []) k nd e (legacy_needs_distinct _ m) N A T)
    as (fs' & R & W & O & _).
  exists fs'. rewrite (legacy_handler_run p dir ident m fs NE). fold needs. rewrite R.
  auto.
Qed.

Lemma legacy_asset_phase_stops_at_first_error_witness :
  exists fs',
    Legacy.generate_assets provider_hero_only "projects/ab12cd34" (Some "ab12cd34")
      (Some manifest_asking) []
    = (Failure 500 (e_message quota_error), fs', Some manifest_asking)
    /\ readFile fs' "projects/ab12cd34/assets/hero.png" = Some (Base64 "aW1hZ2U=")
    /\ readFile fs' "projects/ab12cd34/assets/project_2.png" = None.
Proof.
  destruct (legacy_asset_phase_stops_at_first_error provider_hero_only
              "projects/ab12cd34" "ab12cd34" manifest_asking [] 1
              {| n_prompt := "one";
                 n_outFile := "projects/ab12cd34/assets/project_1.png";
                 n_token := "PROJECT_1_IMG"; n_relative := "./assets/project_1.png";
                 n_width := 1600; n_height := 900 |}
              quota_error ltac:(discriminate) eq_refl)
    as (fs' & G & W & O).
  - intros [|j] ndj J N; [|lia]. injection N as <-. eexists. reflexivity.
  - reflexivity.
  - exists fs'. split; [exact G|]. vm_compute in G. injection G as <-.
    split; reflexivity.
Defined.

(** X30.  When the provider answers the call for every need of the
    manifest, the asset phase of the first version writes a file for every
    need, with the image or with the placeholder made on the spot, and
    touches no other file.  On a stored manifest with a [files] array it
    then answers [ok], and the files of the manifest are those of the
    stored manifest with the tokens of the needs replaced, in the order of
    the needs.  On a stored manifest without a [files] array that asks for
    an image it answers 500 after the images were written, and the manifest
    stays as it was.  A manifest that asks for no image is left as it is,
    and nothing is written. *)
Theorem legacy_asset_phase_resolves_answered_needs :
  forall (p : Legacy.provider) (dir ident : string) (m : manifest) (fs : filesystem),
    let needs := legacy_needs (path_join dir "assets") m in
    ident <> "" ->
    (forall nd, In nd needs -> answered p nd) ->
    (needs = [] ->
     Legacy.generate_assets p dir (Some ident) (Some m) fs = (Ok ident, fs, Some m))
    /\ (needs <> [] ->
        exists fs' msg,
          Legacy.generate_assets p dir (Some ident) (Some m) fs
          = (match files m with
             | Some fl =>
                 (Ok ident, fs',
                  Some (set_files
                          (replaceInFiles replace_token fl
                             (map (fun nd => (n_token nd, n_relative nd)) needs)) m))
             | None => (Failure 500 msg, fs', Some m)
             end)
          /\ (forall nd, In nd needs ->
              exists d, readFile fs' (n_outFile nd) = Some d
                        /\ image_or_local_placeholder d)
          /\ (forall f, ~ In f (map n_outFile needs) -> readFile fs' f = readFile fs f)).
Proof.
  intros p dir ident m fs needs NE A.
  destruct (legacy_run_answered p needs (fs, []) (legacy_needs_distinct _ m) A)
    as (fs' & R & W & O).
  rewrite (legacy_handler_run p dir ident m fs NE). fold needs. rewrite R.
  cbn [snd List.app fst] in *. split.
  - intro E. rewrite E in *. simpl in R. injection R as <-. reflexivity.
  - intros NN. exists fs', "Cannot read properties of undefined (reading 'map')".
    replace (0 <? List.length (map (fun nd => (n_token nd, n_relative nd)) needs))%nat
      with true by (destruct needs; [congruence|reflexivity]).
    split; [destruct (files m); reflexivity|]. auto.
Qed.

Lemma legacy_asset_phase_resolves_answered_needs_witness :
  exists fs',
    Legacy.generate_assets provider_blocked "projects/ab12cd34" (Some "ab12cd34")
      (Some manifest_asking) []
    = (Ok "ab12cd34", fs',
       Some (set_files
               [file_entry "index.html"
                  "<img src=./assets/hero.png><img src=./assets/project_2.png>"]
               manifest_asking))
    /\ readFile fs' "projects/ab12cd34/assets/hero.png" = Some (Utf8 Legacy.placeholderSvg).
Proof.
  destruct (legacy_asset_phase_resolves_answered_needs provider_blocked
              "projects/ab12cd34" "ab12cd34" manifest_asking [] ltac:(discriminate))
    as [_ R].
  - intros nd _. eexists. reflexivity.
  - destruct (R ltac:(discriminate)) as (fs' & msg & G & _).
    exists fs'. split; [rewrite G; reflexivity|]. vm_compute in G. injection G as <-.
    reflexivity.
Defined.
